(* ===== verification/_CoqProject ===== *)
-Q . S2P
Prelude.v
Dharatype.v
GoTime.v
Float64.v
FloatQ.v
Metrics.v
Pg.v
PgLogic.v
TaskStore.v
Lifecycle.v
StoreRefine.v
StoreTheorems.v
Schema.v
StoreSpec.v
StoreContracts.v
Client.v
Worker.v
Calls.v
Pool.v
WorkerRefine.v
WorkerTheorems.v
Progress.v
Shutdown.v
PoolTheorems.v
PoolDrain.v
GoStrconv.v
GoJson.v
PlaySession.v
GoText.v
GoDecimal.v
GoDuration.v
GoFloat.v
Sha256.v
HashPayload.v
Resubmission.v
PlayUuid.v
RateLimiter.v
PlayStore.v
Server.v
Config.v
LibRun.v
TestSupport.v
PlayConfig.v
Logging.v
PlayService.v
PlayReads.v
PlayCapacity.v
PlayIsolation.v
PlayHttp.v
PlayCrash.v
PlayStatus.v
Handlers.v
PlayApp.v
PlayChild.v
Startup.v
PlayBoot.v
MetricsText.v
Mux.v
PlayMux.v
ServerApp.v
