(* ===== verification/Prelude.v ===== *)
(** * A model of dhara, a PostgreSQL task queue

    dhara (src/) is a Go library and four binaries around one table of tasks:
    clients enqueue, list, cancel and retry tasks, workers claim and execute
    them, a reaper takes back tasks whose worker stopped beating, an HTTP server
    exposes the client, and a public playground lets visitors try all of it, with
    a demo that kills a worker. All state that matters lives in PostgreSQL; the
    processes only share the database. This library models that code as
    executable definitions and proves what makes it a queue.

    ** Files

    The language and its standard library, as far as the code depends on it:
    - [Prelude]: results, integers, durations, strings, rows of a table; the
      hint databases and tactics.
    - [GoTime], [GoStrconv], [GoJson]: [Format(RFC3339)], [Duration.String],
      [Atoi], [ParseBool], [ParseDuration], [TrimSpace], [ToLower], [Quote], the
      parser and field matching of [encoding/json].
    - [Float64], [FloatQ], [GoFloat]: correctly rounded [float64] arithmetic, its
      error bounds, [ParseFloat] and the shortest decimal (checked on examples
      against the IEEE specification of the Standard Library). [Sha256]:
      [sha256.Sum256] with its test vectors.
    - [GoText], [GoDecimal], [GoDuration]: facts about these texts: trimming,
      decimal digits, and that [ParseDuration] reads what [Duration.String]
      writes over the whole range of a duration.

    The queue:
    - [Dharatype]: [dharatype/]: the error values with [errors.Is], task status,
      list filter.
    - [Metrics]: [internal/metrics]: counters, gauges, the histogram.
    - [Pg]: the tables of [migrations/000001_init_task_queue.up.sql], and the
      monad of code that talks to them: transactions, statements, commits, the
      clock, failures and other sessions, all driven by an oracle.
    - [PgLogic]: a weakest-precondition calculus for that monad.
    - [TaskStore]: [internal/store/task_store.go]: every SQL statement and every
      method of [PostgresTaskStore].
    - [Lifecycle]: the specification: the state machine of a task, its audit log
      and its dead letters; the invariant and its preservation.
    - [StoreRefine], [StoreTheorems]: every store operation follows the state
      machine, under failures and interleaving; consequences for all reachable
      states.
    - [Schema]: the column types, lengths, checks and references the migration
      declares, of every row ever written.
    - [StoreSpec], [StoreContracts]: what each operation answers and writes on
      every branch; what a failed call leaves behind.
    - [HashPayload], [Resubmission]: [internal/store/hash_utils.go]: the canonical
      text of a payload, and the store with the real hash.
    - [Client]: [types.go], [client.go]: parameters, validation, options, the
      client's operations.
    - [Worker]: [internal/worker] and [internal/tasks/registry.go]: the claim,
      execute, heartbeat, retry and polling code, the reaper, the pool.
    - [WorkerRefine], [Calls], [WorkerTheorems], [Progress], [Shutdown]: the worker
      by rely and guarantee, the events a run consumes, the retry budget, the
      back-off, the outcome of an attempt, a queue worked off, counters, stopping.
    - [Pool], [PoolTheorems], [PoolDrain]: [internal/worker/worker_pool.go] with
      its goroutines running: the same code cut into the moves of each goroutine, a
      schedule of moves being one interleaving; fencing, gauges, shutdown.
    - [LibRun]: [Start] and [Stop] of [worker.go] around such a pool.
    - [Server]: [cmd/server/task_handler.go]: the HTTP handlers.
    - [Config]: [internal/config], [worker.go], [cmd/worker]'s wiring.
    - [Startup]: [internal/db], [internal/playground/db.go], [migrations.go],
      [cmd/migrate], the main functions of [cmd/server] and [cmd/worker]: pools,
      migrations, exit status.
    - [MetricsText]: [metrics_handler.go]: the Prometheus pages.
    - [Mux]: the patterns and the dispatch of [net/http.ServeMux].
    - [ServerApp]: [cmd/server/health_handler.go] and the route table.
    - [Logging]: [internal/logging], [internal/ctxlog].
    - [TestSupport]: [internal/testutil]: waiting, keys and truncation.

    The playground, [internal/playground]:
    - [PlaySession], [PlayUuid]: [session.go], [validation.go]; the text of UUIDs.
    - [RateLimiter], [PlayStore], [PlayConfig], [PlayService], [PlayHttp]:
      [ratelimit.go], [store.go], [config.go], [service.go], [http.go].
    - [PlayReads], [PlayCapacity], [PlayIsolation]: the reads of the service, the
      bound on queued tasks, the separation of sessions.
    - [PlayMux]: the server of [http.go] around the handlers: routes, file server,
      security headers, panics.
    - [PlayCrash], [PlayStatus], [PlayChild]: [crash.go]: the crash demo, its
      status with the pointers of the code, and the environment of its child
      process.
    - [Handlers]: both [demo_handlers.go] and their registration.
    - [PlayApp], [PlayBoot]: [app.go] and [cmd/playground]: retention, run and
      shutdown; the pools of both processes from start-up to exit.

    ** How the model reads

    A Go function that talks to the database is a program of type [M]: it takes
    an [Oracle] and a [World] (committed database, open transaction, metrics,
    number of the next call) and gives its result and the new world. Go's
    [if err != nil] is the notation [x <-? m; k], with [or] for
    [fmt.Errorf("p: %w", err)]; [defer tx.Rollback] is [defer_rollback]. An SQL
    statement is a [Stmt]: a function of [now()], the event it meets and the
    database it sees, giving its result and its writes. Call number [n] of a run
    meets event [n] of the oracle, which decides what other sessions committed
    before it ([ev_env]), which rows they lock, the clock, random bits, the next
    UUID, and whether the call fails before or after taking effect. Theorems
    quantify over all oracles; where one needs a quiet run it says so ([calm]:
    no failure, no interference; [no_lost_ack]: no call takes effect while
    reporting an error).

    ** What is shown

    - C1 to C7: every sequence of store calls, with any failures and with other
      sessions that keep to the lifecycle themselves, refines the lifecycle; the
      audit log replays to the row; dead letters and locks are exact; the
      constraints of the schema hold, the unique key among them; final tasks never
      change; no task or log row is lost. The playground's retention cleanup is a
      session that does not keep to the lifecycle; C33 is about it.
    - C8 to C12: the contract of the store operations and idempotent creation in
      quiet runs; failed calls without effect, when no acknowledgement is lost.
    - C13, C14: equality of canonical texts is equality of decoded payloads, and
      a resubmission is compared by value.
    - C15 to C17: the client: validation, bounds, transactional insert.
    - C18 to C20: the worker: back-off bounds, the exact outcome of an attempt, and
      a single worker that works a whole queue off.
    - C21 to C25: the pool in every interleaving: the retry budget and fencing
      under a rely on the other processes, exact gauges, shutdown after a
      cancellation, nothing left locked, and the library's [Start] and [Stop].
    - C26: creating over HTTP, with every status.
    - C27 to C35: the playground: its server on every request, isolation of
      sessions, privacy of what a read request answers, the bound on queued tasks
      for requests one after another, refused requests without effect, the rate
      limit, the retention cleanup, the crash demo and the copies of its status.
    - C36 to C39: accepted payloads run, the crash child runs its parent's
      settings, pools are released, the metrics page read back.

    Other theorems of the files: the remaining store contracts and HTTP statuses
    ([cancel_status], [retry_status], [list_status], [owned_task_status]), the
    round trip of an insert ([insert_get_roundtrip]), a pool is started once
    ([pool_start_once]), a stopped worker returns ([worker_stops]), a validated
    configuration reaches the pool ([validated_config_runs],
    [playground_config_runs]), pools that are released by every process
    ([processes_release_pools], [prepare_schema_contract]), logging
    ([validated_logging_effective]), the waits of the test helpers
    ([waits_decide], [timing_within_budget]), the client's metrics page, the route
    table ([routes_unambiguous], [safe_methods]), the retention loop, and
    the runs that show a defect ([cleanup_race_loses_log],
    [retry_race_exceeds_capacity], [case_variants_evade_validation],
    [repeated_member_evades_validation], [large_integers_collide],
    [listen_failure_unreported] and others).

    ** Bounds and fuel

    The polling loop and the reaper run for a given number of rounds; theorems
    hold for every number, the progress theorem C20 shows that one suffices, and
    [worker_stops] shows when the loop has returned by itself. A cancelled worker
    is at most six moves of its own from its end, so that C23 asks for six turns
    each; no order among them. Parsers use the length of their input as fuel ([ParseDuration], [TrimSpace], [ToLower], the JSON parser
    with 2 * length + 2); every step consumes a byte. The shortest decimal tries
    up to 17 digits and falls back to all of them, so that the round trip does
    not depend on that number. C18 assumes back-offs of at most 2^53 ns (104
    days), where [float64] is exact on integers.

    ** Simplifications

    - Instants are integers of nanoseconds; PostgreSQL keeps microseconds.
    - A task id is the UUID its text denotes; a text that is no UUID is rejected
      by the caller or by the driver and is not modelled below the server.
    - A statement that waits for a row lock runs after the commit it waited
      for, which is part of that event's [ev_env]; rows skipped by
      [SKIP LOCKED] are [ev_locked].
    - SQL leaves the order of equal rows open: the claim's choice is [ev_pick];
      a listing takes one order among rows created at the same instant.
    - A payload is kept as submitted; [JSONB] would re-serialize it, and C36 is
      about every payload that this may give back ([kept]). Reasons for which
      the server refuses a text or a payload (NUL characters, invalid UTF-8) are
      failures of the statement's event.
    - Counters are unbounded; [atomic.Int64] wraps around after 2^63.
    - The list of store operations [StoreOp] has [Create]; [CreateTx], which runs
      inside a transaction of the caller, is covered by C17 and the theorems of
      [StoreContracts].
    - A number that is no [INT] is refused by the driver's encoder before it
      reaches the server ([encodable]); this is the one check of [pgx] the model
      makes for itself.
    - [pgx], [pgxpool], the migrator [vow] and what [net/http] makes of a request
      are outside src/ and are parameters: a decoded request is an argument, the
      answers of the pool library are the record [Answers], the text of UUIDs is
      the class [UUIDText] with a proved instance.

    ** Not modelled

    - Calls of one move of a pool's goroutine are not interleaved with those of
      another goroutine of the same pool; other processes come in between any
      two calls.
    - Timeouts of the HTTP servers, the redirects of the mux for paths that are
      not clean, and the embedded web files, which are a parameter.
    - The text [slog] writes; what is modelled is which logger is used, its
      level and format, and the fields of the records about a task.
    - The goroutine that waits for the crash child: its effect is an event.
    - [errors.go] and [doc.go] only give other names to values of [dharatype]. *)

From stdpp Require Export base tactics option list gmap strings pretty relations sorting.
From Stdlib Require Export ZArith Lia.

#[global] Set Default Goal Selector "!".
#[global] Open Scope Z_scope.
#[global] Set Warnings "-clear-no-such-hyp,-register-all".

(** ** Results *)

(** What a Go function returning [(A, error)] gives back: a value with a nil
    error, or a non-nil error. *)
Inductive result (E A : Type) : Type :=
  | Ok (a : A)
  | Err (e : E).
Arguments Ok {E A} a.
Arguments Err {E A} e.

Definition is_ok {E A} (r : result E A) : bool :=
  match r with Ok _ => true | Err _ => false end.

(** ** Machine integers *)

(** PostgreSQL's [INT] and Go's [int32]. *)
Definition int32_max : Z := 2147483647.
Definition int32_min : Z := -2147483648.
Definition in_int32 (n : Z) : bool := (int32_min <=? n) && (n <=? int32_max).

(** ** Durations

    [time.Duration] counts nanoseconds; [time.Time] is the number of
    nanoseconds since a fixed instant. *)
Definition Microsecond : Z := 1000.
Definition Millisecond : Z := 1000 * Microsecond.
Definition Second : Z := 1000 * Millisecond.
Definition Minute : Z := 60 * Second.
Definition Hour : Z := 60 * Minute.

(** ** Strings

    A Go string and a [[]byte] are byte sequences; [len] is [String.length]. *)
Definition len (s : string) : Z := Z.of_nat (String.length s).

(** A byte that does not start a UTF-8 sequence ([10xxxxxx]). *)
Definition utf8_continuation (c : Ascii.ascii) : bool :=
  match c with Ascii.Ascii _ _ _ _ _ _ false true => true | _ => false end.

(** The number of characters of a UTF-8 text, PostgreSQL's [char_length]. *)
Fixpoint char_length (s : string) : Z :=
  match s with
  | EmptyString => 0
  | String c s' => (if utf8_continuation c then 0 else 1) + char_length s'
  end.

(** ** Generic lemmas *)

Lemma char_length_le_len s : 0 <= char_length s <= len s.
Proof.
  unfold len. induction s as [|c s IH]; simpl; [lia|].
  destruct (utf8_continuation c); lia.
Qed.

Lemma option_bool_reflect {A} (o : option A) : is_Some o \/ o = None.
Proof. destruct o; eauto. Qed.

(** Rows of a table that satisfy a boolean condition, in key order of the map. *)
Definition rows_where {K} `{Countable K} {A} (p : A -> bool) (m : gmap K A) : list A :=
  List.filter p (map snd (map_to_list m)).

Lemma elem_of_rows_where {K} `{Countable K} {A} (p : A -> bool) (m : gmap K A) (a : A) :
  a ∈ rows_where p m <-> p a = true /\ exists k, m !! k = Some a.
Proof.
  unfold rows_where. rewrite list_elem_of_In, List.filter_In, <- list_elem_of_In.
  rewrite list_elem_of_fmap. split.
  - intros [[[k b] [-> Hin]] Hp]. apply elem_of_map_to_list in Hin. eauto.
  - intros [Hp [k Hk]]. split; [|done].
    exists (k, a). split; [done|]. by apply elem_of_map_to_list.
Qed.

Lemma rows_where_nil {K} `{Countable K} {A} (p : A -> bool) (m : gmap K A) :
  rows_where p m = [] <-> forall k a, m !! k = Some a -> p a = false.
Proof.
  split.
  - intros Hnil k a Hk. destruct (p a) eqn:Hp; [|done].
    assert (a ∈ rows_where p m) as Hin by (apply elem_of_rows_where; eauto).
    rewrite Hnil in Hin. by apply elem_of_nil in Hin.
  - intros Hall. destruct (rows_where p m) as [|a l] eqn:Hl; [done|].
    assert (a ∈ rows_where p m) as Hin by (rewrite Hl; constructor).
    apply elem_of_rows_where in Hin as [Hp [k Hk]].
    by rewrite (Hall _ _ Hk) in Hp.
Qed.

Lemma length_filter_perm {A B} (p : B -> bool) (l l' : list (A * B)) : l ≡ₚ l' ->
  length (List.filter p (map snd l)) = length (List.filter p (map snd l')).
Proof. induction 1; simpl; repeat case_match; simpl; lia. Qed.

Lemma size_filter_rows {K} `{Countable K} {A} (p : A -> bool) (m : gmap K A) :
  size (filter (fun kr => p kr.2 = true) m) = length (rows_where p m).
Proof.
  unfold rows_where. induction m as [|id r m Hid IH] using map_ind; [done|].
  rewrite (length_filter_perm _ _ _ (map_to_list_insert m id r Hid)). simpl. rewrite map_filter_insert. simpl.
  destruct (p r) eqn:Hp; case_decide; try done; simpl.
  - rewrite map_size_insert_None, IH; [done|]. apply map_lookup_filter_None. by left.
  - rewrite map_filter_delete, delete_id; [done|]. apply map_lookup_filter_None. by left.
Qed.

(** ** Tactics and hints *)

Create HintDb dhara discriminated.
Create Rewrite HintDb dhara.
#[export] Hint Constants Opaque : dhara.

(** Turns boolean tests of the code into propositions. *)
Ltac bool_to_prop :=
  repeat match goal with
  | H : _ && _ = true |- _ => apply andb_true_iff in H as [? ?]
  | H : _ || _ = false |- _ => apply orb_false_iff in H as [? ?]
  | H : negb _ = true |- _ => apply negb_true_iff in H
  | H : negb _ = false |- _ => apply negb_false_iff in H
  | H : (_ =? _) = true |- _ => apply Z.eqb_eq in H
  | H : (_ =? _) = false |- _ => apply Z.eqb_neq in H
  | H : (_ <=? _) = true |- _ => apply Z.leb_le in H
  | H : (_ <=? _) = false |- _ => apply Z.leb_gt in H
  | H : (_ <? _) = true |- _ => apply Z.ltb_lt in H
  | H : (_ <? _) = false |- _ => apply Z.ltb_ge in H
  | H : bool_decide _ = true |- _ => apply bool_decide_eq_true in H
  | H : bool_decide _ = false |- _ => apply bool_decide_eq_false in H
  end.
