(* ===== verification/Dharatype.v ===== *)
(** Dharatype: the shared data of the library.

    Models [dharatype/dhara_errors.go] and [dharatype/dhara_type.go] (error
    values, the list filter), the task status of [types.go] with its textual
    form, and the parts of Go's
    [errors] package the code relies on ([errors.Is] over wrapped errors, the
    text of an error). *)

From S2P Require Import Prelude.

(** ** Errors *)

(** The error values of the program. [DriverError] is an error value produced
    by the database driver, [ErrNoRows] is pgx's sentinel for an empty result,
    [Wrapped p e] is [fmt.Errorf("p: %w", e)] and [Annotated e t] any other
    [fmt.Errorf] around [e], with text [t]; [NewError s] is [errors.New(s)] (the
    variables that hold such values have different texts); [StatusError] is the
    playground's [*statusError]. *)
Inductive error : Type :=
  | ErrTaskConflict
  | ErrTaskNotFound
  | ErrTaskNotAvailable
  | ErrTaskOwnershipLost
  | ErrTaskNotDead
  | ErrNoRows
  | DriverError (msg : string)
  | NewError (msg : string)
  | Wrapped (prefix : string) (inner : error)
  | Annotated (inner : error) (text : string)
  | StatusError (code : Z) (message : string)
  | ValidationError (inner : error).

#[global] Instance error_eq_dec : EqDecision error.
Proof. solve_decision. Defined.

(** [errors.Unwrap]: a [%w]-wrapped error and a [ValidationError] have a cause. *)
Definition Unwrap (e : error) : option error :=
  match e with
  | Wrapped _ i | Annotated i _ | ValidationError i => Some i
  | _ => None
  end.

(** [errors.Is]: the error itself or one of its causes is the target. *)
Fixpoint errors_Is (e target : error) : bool :=
  bool_decide (e = target) ||
  match e with
  | Wrapped _ i | Annotated i _ | ValidationError i => errors_Is i target
  | _ => false
  end.

(** [errors.As] for [*ValidationError]: the first validation error of the chain. *)
Fixpoint errors_As_Validation (e : error) : option error :=
  match e with
  | ValidationError i => Some i
  | Wrapped _ i | Annotated i _ => errors_As_Validation i
  | _ => None
  end.

(** [errors.As] for [*statusError]. *)
Fixpoint errors_As_Status (e : error) : option (Z * string) :=
  match e with
  | StatusError code message => Some (code, message)
  | Wrapped _ i | Annotated i _ | ValidationError i => errors_As_Status i
  | _ => None
  end.

(** [e.Error()]. *)
Fixpoint Error (e : error) : string :=
  match e with
  | ErrTaskConflict => "dhara: task conflict: idempotency key reused with different payload"
  | ErrTaskNotFound => "dhara: task not found"
  | ErrTaskNotAvailable => "dhara: task not available"
  | ErrTaskOwnershipLost => "dhara: task ownership lost"
  | ErrTaskNotDead => "dhara: task is not in DEAD status"
  | ErrNoRows => "no rows in result set"
  | DriverError m => m
  | NewError m => m
  | Wrapped p i => p +:+ ": " +:+ Error i
  | Annotated _ t => t
  | StatusError _ m => m
  | ValidationError i => Error i
  end.

Abbreviation res := (result error).

(** ** Task status *)

(** The values the [CHECK] constraint of [tasks.status] admits. *)
Inductive TaskStatus : Type :=
  | PENDING
  | RUNNING
  | COMPLETED
  | CANCELED
  | DEAD.

#[global] Instance TaskStatus_eq_dec : EqDecision TaskStatus.
Proof. solve_decision. Defined.

Definition status_text (s : TaskStatus) : string :=
  match s with
  | PENDING => "PENDING"
  | RUNNING => "RUNNING"
  | COMPLETED => "COMPLETED"
  | CANCELED => "CANCELED"
  | DEAD => "DEAD"
  end.

(** ** List filter *)

Record TaskListFilter := mkFilter {
  f_Status : string;
  f_Type : string;
  f_Retrying : option bool;
  f_Limit : Z;
  f_Offset : Z
}.

(** ** Lemmas *)

#[global] Instance status_text_inj : Inj (=) (=) status_text.
Proof. by intros [] [] [=]. Qed.

Lemma errors_Is_refl e : errors_Is e e = true.
Proof. destruct e; cbn [errors_Is]; rewrite bool_decide_true by done; done. Qed.

(** A cause without causes of its own is found through any wrapping. *)
Lemma errors_Is_Wrapped p e t :
  errors_Is e t = true -> errors_Is (Wrapped p e) t = true.
Proof. intros H. simpl. rewrite H. apply orb_true_r. Qed.

(** A driver error is none of the sentinels. *)
Lemma errors_Is_driver m : errors_Is (DriverError m) ErrNoRows = false.
Proof. done. Qed.

#[export] Hint Rewrite errors_Is_refl errors_Is_driver : dhara.
#[export] Hint Resolve errors_Is_refl errors_Is_Wrapped : dhara.
