(* ===== verification/GoTime.v ===== *)
(** GoTime: the parts of Go's [time] and [fmt] packages that end up in log
    rows and messages: [Time.UTC().Format(time.RFC3339)],
    [Duration.String] and [%d]. *)

From S2P Require Import Prelude.

(** [%d]. *)
Definition itoa (n : Z) : string := pretty n.

(** A non-negative number in at least [w] digits. *)
Fixpoint zeros (n : nat) : string :=
  match n with O => EmptyString | S n' => "0" +:+ (zeros n') end.
Definition pad (w : nat) (n : Z) : string :=
  let s := itoa n in zeros (w - String.length s) +:+ s.

(** Year, month and day of a day number counted from 1970-01-01, in the
    proleptic Gregorian calendar. *)
Definition civil_of_days (days : Z) : Z * Z * Z :=
  let z := days + 719468 in
  let era := z / 146097 in
  let doe := z mod 146097 in
  let yoe := (doe - doe / 1460 + doe / 36524 - doe / 146096) / 365 in
  let doy := doe - (365 * yoe + yoe / 4 - yoe / 100) in
  let mp := (5 * doy + 2) / 153 in
  let d := doy - (153 * mp + 2) / 5 + 1 in
  let m := if mp <? 10 then mp + 3 else mp - 9 in
  (yoe + era * 400 + (if m <=? 2 then 1 else 0), m, d).

(** [t.UTC().Format(time.RFC3339)]: whole seconds, ["2006-01-02T15:04:05Z"]. *)
Definition format_RFC3339 (t : Z) : string :=
  let secs := t / Second in
  let '(y, m, d) := civil_of_days (secs / 86400) in
  let s := secs mod 86400 in
  pad 4 y +:+ "-" +:+ pad 2 m +:+ "-" +:+ pad 2 d +:+ "T" +:+
  pad 2 (s / 3600) +:+ ":" +:+ pad 2 (s / 60 mod 60) +:+ ":" +:+ pad 2 (s mod 60) +:+ "Z".

(** ** [Duration.String] *)

(** The digits of [v] below [10 ^ prec] without trailing zeros, after a point. *)
Fixpoint frac_digits (prec : nat) (v : Z) (suffix : string) : string :=
  match prec with
  | O => suffix
  | S prec' =>
      let d := v mod 10 in
      frac_digits prec' (v / 10)
        (if (d =? 0) && bool_decide (suffix = EmptyString) then EmptyString else itoa d +:+ suffix)
  end.
Definition frac_string (prec : nat) (v : Z) : string :=
  let ds := frac_digits prec v EmptyString in
  if bool_decide (ds = EmptyString) then EmptyString else "." +:+ ds.

Definition micro : string := "µs".

Definition duration_string (d : Z) : string :=
  let u := Z.abs d in
  let sign := if d <? 0 then "-" else EmptyString in
  if u =? 0 then "0s"
  else if u <? Microsecond then sign +:+ itoa u +:+ "ns"
  else if u <? Millisecond then sign +:+ itoa (u / Microsecond) +:+ frac_string 3 u +:+ micro
  else if u <? Second then sign +:+ itoa (u / Millisecond) +:+ frac_string 6 u +:+ "ms"
  else
    let secs := u / Second in
    let tail := itoa (secs mod 60) +:+ frac_string 9 u +:+ "s" in
    let mins := secs / 60 in
    if mins =? 0 then sign +:+ tail
    else if mins / 60 =? 0 then sign +:+ itoa mins +:+ "m" +:+ tail
    else sign +:+ itoa (mins / 60) +:+ "h" +:+ itoa (mins mod 60) +:+ "m" +:+ tail.

(** ** Checks on known instants *)

Example format_epoch : format_RFC3339 0 = "1970-01-01T00:00:00Z".
Proof. vm_compute. reflexivity. Qed.

Example format_leap_day : format_RFC3339 (951827696 * Second + 5) = "2000-02-29T12:34:56Z".
Proof. vm_compute. reflexivity. Qed.

Example format_zero_time : format_RFC3339 (-62135596800 * Second) = "0001-01-01T00:00:00Z".
Proof. vm_compute. reflexivity. Qed.

Example duration_strings :
  duration_string (5 * Minute) = "5m0s" /\ duration_string (1500 * Millisecond) = "1.5s" /\
  duration_string (- (2 * Hour + 3 * Second)) = "-2h0m3s" /\ duration_string 1100 = "1.1µs" /\
  duration_string (250 * Millisecond) = "250ms" /\ duration_string (Second + 1) = "1.000000001s".
Proof. vm_compute. repeat split; reflexivity. Qed.
