(* ===== verification/Float64.v ===== *)
(** Float64: the part of Go's [float64] arithmetic the program uses.

    A non-negative finite [float64] is a dyadic [f_man * 2 ^ f_exp] with a
    mantissa of at most 53 bits; an operation computes the exact result and
    rounds it to nearest, ties to even. The values that occur are far from the
    ends of the exponent range: subnormals do not arise, and a product that
    overflows to +Inf is only compared with a finite number, for which the
    unbounded exponent gives the same answer. *)

From Stdlib Require Import Floats.SpecFloat.
From S2P Require Import Prelude.

Record float64 := mkFloat { f_man : Z; f_exp : Z }.

(** Round [m * 2 ^ e] to 53 bits. *)
Definition round53 (m e : Z) : float64 :=
  let k := Z.log2 m - 52 in
  if k <=? 0 then mkFloat m e
  else
    let q := Z.shiftr m k in
    let r := m - Z.shiftl q k in
    let half := Z.shiftl 1 (k - 1) in
    let up := (half <? r) || ((half =? r) && Z.odd q) in
    mkFloat (if up then q + 1 else q) (e + k).

(** [float64(n)]. *)
Definition of_int (n : Z) : float64 := round53 n 0.

Definition fmul (a b : float64) : float64 := round53 (f_man a * f_man b) (f_exp a + f_exp b).

(** Exact sum, then one rounding. *)
Definition fadd (a b : float64) : float64 :=
  let e := Z.min (f_exp a) (f_exp b) in
  round53 (f_man a * 2 ^ (f_exp a - e) + f_man b * 2 ^ (f_exp b - e)) e.

(** The difference, for [b <= a]. *)
Definition fsub (a b : float64) : float64 :=
  let e := Z.min (f_exp a) (f_exp b) in
  round53 (f_man a * 2 ^ (f_exp a - e) - f_man b * 2 ^ (f_exp b - e)) e.

(** The quotient to at least 55 bits, with a sticky bit for the remainder, then
    one rounding; the divisor is not zero. *)
Definition fdiv (a b : float64) : float64 :=
  let s := Z.max 0 (55 + Z.log2 (f_man b) - Z.log2 (f_man a)) in
  let n := f_man a * 2 ^ s in
  let sticky := if n mod f_man b =? 0 then 0 else 1 in
  round53 (2 * (n / f_man b) + sticky) (f_exp a - f_exp b - s - 1).

(** The literal [n/d]: the nearest [float64]. *)
Definition ratio (n d : Z) : float64 := fdiv (of_int n) (of_int d).

Definition fleb (a b : float64) : bool :=
  if f_exp b <=? f_exp a
  then f_man a * 2 ^ (f_exp a - f_exp b) <=? f_man b
  else f_man a <=? f_man b * 2 ^ (f_exp b - f_exp a).

(** [math.Min]. *)
Definition fmin (a b : float64) : float64 := if fleb a b then a else b.

(** [math.Pow(2, n)] for an integer [n >= 0] is exact. *)
Definition pow2 (n : Z) : float64 := mkFloat 1 n.

(** [int64(f)] truncates. *)
Definition to_int (f : float64) : Z :=
  if 0 <=? f_exp f then f_man f * 2 ^ f_exp f else f_man f / 2 ^ (- f_exp f).

(** The product agrees with the IEEE 754 specification of the Standard Library. *)
Definition as_spec (f : float64) : spec_float :=
  binary_normalize 53 1024 (f_man f) (f_exp f) false.

Example fmul_ieee_1 :
  as_spec (fmul (of_int 10000000000) (mkFloat 6004799503160661 (-53))) =
  SFmul 53 1024 (as_spec (of_int 10000000000)) (as_spec (mkFloat 6004799503160661 (-53))).
Proof. vm_compute. reflexivity. Qed.

Example fmul_ieee_2 :
  as_spec (fmul (of_int 300000000001) (mkFloat 9007199254740991 (-53))) =
  SFmul 53 1024 (as_spec (of_int 300000000001)) (as_spec (mkFloat 9007199254740991 (-53))).
Proof. vm_compute. reflexivity. Qed.

Example fdiv_ieee : as_spec (ratio 7 1000) = SFdiv 53 1024 (as_spec (of_int 7)) (as_spec (of_int 1000)).
Proof. vm_compute. reflexivity. Qed.

Example fadd_ieee :
  as_spec (fadd (of_int 12) (ratio 345678901 1000000000)) =
  SFadd 53 1024 (as_spec (of_int 12)) (as_spec (ratio 345678901 1000000000)).
Proof. vm_compute. reflexivity. Qed.

(** ** Rounding does not cross a representable number *)

Lemma shiftr_bounds m k :
  0 <= k -> 0 < m -> Z.log2 m = k + 52 ->
  2 ^ 52 <= Z.shiftr m k < 2 ^ 53 /\ Z.shiftr m k * 2 ^ k <= m < (Z.shiftr m k + 1) * 2 ^ k.
Proof.
  intros Hk Hm Hl. rewrite Z.shiftr_div_pow2 by lia.
  pose proof (Z.log2_spec m Hm) as [H1 H2]. rewrite Hl in H1, H2.
  assert (0 < 2 ^ k) by (apply Z.pow_pos_nonneg; lia).
  pose proof (Z.div_mod m (2 ^ k)). pose proof (Z.mod_pos_bound m (2 ^ k)).
  rewrite Z.pow_add_r in H1 by lia. replace (Z.succ (k + 52)) with (k + 53) in H2 by lia.
  rewrite Z.pow_add_r in H2 by lia. split; [split|split].
  - apply Z.div_le_lower_bound; lia.
  - apply Z.div_lt_upper_bound; lia.
  - lia.
  - lia.
Qed.

(** A number of at most 53 bits that is at least [2 ^ (52 + g)] is a multiple
    of [2 ^ g]; exponents are relative to [E]. *)
Lemma representable_multiple m e g :
  0 <= m <= 2 ^ 53 -> 0 <= e -> 0 <= g -> 2 ^ (52 + g) <= m * 2 ^ e ->
  exists t, m * 2 ^ e = t * 2 ^ g.
Proof.
  intros Hm He Hg Hle. destruct (Z.le_gt_cases g e) as [Hge|Hlt].
  - exists (m * 2 ^ (e - g)). rewrite <- Z.mul_assoc, <- Z.pow_add_r by lia. do 2 f_equal. lia.
  - assert (2 ^ (52 + g) = 2 ^ (52 + g - e) * 2 ^ e) as Hs by (rewrite <- Z.pow_add_r by lia; f_equal; lia).
    assert (0 < 2 ^ e) by (apply Z.pow_pos_nonneg; lia).
    assert (2 ^ (52 + g - e) <= m) as Hm2 by nia.
    assert (g = e + 1) as ->.
    { destruct (Z.eq_dec g (e + 1)); [done|]. exfalso.
      assert (2 ^ 54 <= 2 ^ (52 + g - e)) by (apply Z.pow_le_mono_r; lia). lia. }
    replace (52 + (e + 1) - e) with 53 in Hm2 by lia. exists (2 ^ 52).
    replace m with (2 ^ 53) by lia. rewrite <- !Z.pow_add_r by lia. f_equal. lia.
Qed.

Lemma round53_man m e : 0 <= m -> 0 <= f_man (round53 m e) <= 2 ^ 53.
Proof.
  intros Hm. unfold round53. destruct (Z.leb_spec (Z.log2 m - 52) 0) as [Hk|Hk]; simpl.
  - destruct (Z.eq_dec m 0) as [->|]; [lia|]. pose proof (Z.log2_spec m).
    assert (2 ^ Z.succ (Z.log2 m) <= 2 ^ 53) by (apply Z.pow_le_mono_r; lia). lia.
  - assert (0 < m) by (destruct (Z.eq_dec m 0) as [->|]; [simpl in Hk; lia|lia]).
    pose proof (shiftr_bounds m (Z.log2 m - 52)). destruct (_ || _); lia.
Qed.

Lemma round53_exp m e : e <= f_exp (round53 m e).
Proof. unfold round53. destruct (Z.leb_spec (Z.log2 m - 52) 0); simpl; lia. Qed.

Lemma round53_le a f m e E :
  0 <= a -> 0 <= m <= 2 ^ 53 -> E <= f -> E <= e ->
  a * 2 ^ (f - E) <= m * 2 ^ (e - E) ->
  f_man (round53 a f) * 2 ^ (f_exp (round53 a f) - E) <= m * 2 ^ (e - E).
Proof.
  intros Ha Hm Hf He Hle. unfold round53.
  destruct (Z.leb_spec (Z.log2 a - 52) 0) as [Hk|Hk]; simpl; [done|].
  assert (0 < a) as Hpos by (destruct (Z.eq_dec a 0) as [->|]; [simpl in Hk; lia|lia]).
  set (k := Z.log2 a - 52) in *. set (q := Z.shiftr a k).
  destruct (shiftr_bounds a k) as [Hq Hfl]; [lia..|]. fold q in Hq, Hfl.
  assert (2 ^ (f + k - E) = 2 ^ k * 2 ^ (f - E)) as Hsplit by (rewrite <- Z.pow_add_r by lia; f_equal; lia).
  assert (0 < 2 ^ (f - E)) by (apply Z.pow_pos_nonneg; lia).
  assert (0 < 2 ^ k) by (apply Z.pow_pos_nonneg; lia).
  assert (q * 2 ^ (f + k - E) <= m * 2 ^ (e - E)) as Hlow by (rewrite Hsplit; nia).
  destruct (_ || _) eqn:Hup; [|done].
  assert (q * 2 ^ k < a) as Hstrict.
  { rewrite !Z.shiftl_mul_pow2 in Hup by lia.
    assert (0 < 2 ^ (k - 1)) by (apply Z.pow_pos_nonneg; lia).
    apply orb_true_iff in Hup as [Hup|Hup]; bool_to_prop; lia. }
  destruct (representable_multiple m (e - E) (f + k - E)) as [t Ht]; [lia..| |].
  { rewrite Z.pow_add_r by lia. etrans; [|exact Hlow]. apply Z.mul_le_mono_nonneg_r; [|lia].
    rewrite Hsplit. nia. }
  rewrite Ht. apply Z.mul_le_mono_nonneg_r; [rewrite Hsplit; nia|].
  assert (q < t); [|lia]. assert (q * 2 ^ (f + k - E) < t * 2 ^ (f + k - E)) as Hlt.
  { rewrite <- Ht, Hsplit. nia. }
  rewrite Hsplit in Hlt. nia.
Qed.

(** [to_int] of a number at most [X]. *)
Lemma to_int_le f X E :
  E <= f_exp f -> E <= 0 -> f_man f * 2 ^ (f_exp f - E) <= X * 2 ^ (- E) -> to_int f <= X.
Proof.
  intros H1 H2 Hle. unfold to_int. destruct (Z.leb_spec 0 (f_exp f)) as [Hp|Hn].
  - replace (f_exp f - E) with (f_exp f + - E) in Hle by lia. rewrite Z.pow_add_r in Hle by lia.
    assert (0 < 2 ^ (- E)) by (apply Z.pow_pos_nonneg; lia). nia.
  - replace (- E) with (- f_exp f + (f_exp f - E)) in Hle by lia. rewrite Z.pow_add_r in Hle by lia.
    assert (0 < 2 ^ (f_exp f - E)) by (apply Z.pow_pos_nonneg; lia).
    assert (0 < 2 ^ (- f_exp f)) by (apply Z.pow_pos_nonneg; lia).
    apply Z.div_le_upper_bound; nia.
Qed.

Lemma to_int_nonneg f : 0 <= f_man f -> 0 <= to_int f.
Proof.
  intros H. unfold to_int. destruct (Z.leb_spec 0 (f_exp f)).
  - apply Z.mul_nonneg_nonneg; [done|]. apply Z.pow_nonneg. lia.
  - apply Z.div_pos; [done|]. apply Z.pow_pos_nonneg; lia.
Qed.

(** Integers up to [2 ^ 53] convert exactly. *)
Lemma of_int_value n : 0 <= n <= 2 ^ 53 -> 0 <= f_exp (of_int n) /\ f_man (of_int n) * 2 ^ f_exp (of_int n) <= n.
Proof.
  intros Hn. pose proof (round53_exp n 0) as He. split; [done|]. unfold of_int.
  pose proof (round53_le n 0 n 0 0) as H. rewrite !Z.sub_0_r in H. simpl in H. lia.
Qed.
