(* ===== verification/FloatQ.v ===== *)
(** FloatQ: the rational value of a [float64] and the error of rounding.

    [value] maps the dyadics of [Float64] into Q; one rounding changes a value by
    at most one part in 2^53 and never crosses a representable number. *)

From Stdlib Require Import QArith Qabs Qpower Lqa.
From S2P Require Import Prelude Float64.
Open Scope Z_scope.

Definition two_to (e : Z) : Q := Qpower 2 e.
Definition value (f : float64) : Q := (inject_Z (f_man f) * two_to (f_exp f))%Q.

(** The relative error of one rounding. *)
Definition ulp : Q := two_to (-53).

Lemma two_to_pos e : (0 < two_to e)%Q.
Proof. apply Qpower_0_lt. reflexivity. Qed.

Lemma two_to_add a b : (two_to (a + b) == two_to a * two_to b)%Q.
Proof. apply Qpower_plus. done. Qed.

Lemma two_to_Z k : 0 <= k -> (two_to k == inject_Z (2 ^ k))%Q.
Proof. intros Hk. unfold two_to. by rewrite Zpower_Qpower. Qed.

(** Scaling by a power of two moves between Z and Q. *)
Lemma value_scale m e E : E <= e -> (inject_Z m * two_to e == inject_Z (m * 2 ^ (e - E)) * two_to E)%Q.
Proof.
  intros H. rewrite inject_Z_mult, <- two_to_Z by lia.
  rewrite <- Qmult_assoc, <- two_to_add. replace (e - E + E) with e by lia. reflexivity.
Qed.

Lemma value_le m e m' e' E : E <= e -> E <= e' ->
  (inject_Z m * two_to e <= inject_Z m' * two_to e')%Q <-> m * 2 ^ (e - E) <= m' * 2 ^ (e' - E).
Proof.
  intros H H'. rewrite (value_scale m e E), (value_scale m' e' E) by done.
  rewrite Qmult_le_r by apply two_to_pos. by rewrite <- Zle_Qle.
Qed.

Lemma value_nonneg f : 0 <= f_man f -> (0 <= value f)%Q.
Proof.
  intros H. unfold value. apply Qmult_le_0_compat; [|apply Qlt_le_weak, two_to_pos].
  rewrite Zle_Qle in H. exact H.
Qed.

Lemma fleb_value a b : fleb a b = true <-> (value a <= value b)%Q.
Proof.
  unfold fleb, value. destruct (Z.leb_spec (f_exp b) (f_exp a)) as [H|H]; rewrite Z.leb_le.
  - rewrite (value_le _ _ _ _ (f_exp b)) by lia. by rewrite Z.sub_diag, Z.mul_1_r.
  - rewrite (value_le _ _ _ _ (f_exp a)) by lia. by rewrite Z.sub_diag, Z.mul_1_r.
Qed.

(** [a < b]. *)
Definition fltb (a b : float64) : bool := negb (fleb b a).

Lemma fltb_value a b : fltb a b = true <-> (value a < value b)%Q.
Proof.
  unfold fltb. rewrite negb_true_iff. destruct (fleb b a) eqn:H.
  - apply fleb_value in H. split; [done|]. intros H'. exfalso. by apply (Qlt_not_le _ _ H').
  - split; [|done]. intros _. apply Qnot_le_lt. rewrite <- fleb_value. by rewrite H.
Qed.

(** Half a unit in the last place is at most one part in 2^53. *)
Lemma round53_error_Z m : 0 <= m ->
  let f := round53 m 0 in
  0 <= f_exp f /\ (m - f_man f * 2 ^ f_exp f) * 2 ^ 53 <= m /\ (f_man f * 2 ^ f_exp f - m) * 2 ^ 53 <= m.
Proof.
  intros Hm. unfold round53. destruct (Z.leb_spec (Z.log2 m - 52) 0) as [Hk|Hk]; simpl; [lia|]. rewrite ?Z.add_0_l.
  assert (0 < m) as Hpos by (destruct (Z.eq_dec m 0) as [->|]; [simpl in Hk; lia|lia]).
  set (k := Z.log2 m - 52) in *. set (q := Z.shiftr m k).
  destruct (shiftr_bounds m k) as [Hq Hfl]; [lia..|]. fold q in Hq, Hfl.
  rewrite !Z.shiftl_mul_pow2 by lia.
  assert (2 ^ k = 2 * 2 ^ (k - 1)) as Hk2 by (rewrite <- Z.pow_succ_r by lia; f_equal; lia).
  assert (0 < 2 ^ (k - 1)) by (apply Z.pow_pos_nonneg; lia). rewrite Hk2 in *.
  set (h := 2 ^ (k - 1)) in *.
  assert (2 ^ 53 * h <= m) by nia. split; [lia|].
  destruct (_ || _) eqn:Hup.
  - assert (h <= m - q * (2 * h)) by (apply orb_true_iff in Hup as [Hup|Hup]; bool_to_prop; lia). lia.
  - bool_to_prop. lia.
Qed.

Lemma round53_shift m e : round53 m e = mkFloat (f_man (round53 m 0)) (e + f_exp (round53 m 0)).
Proof. unfold round53. destruct (_ <=? _); simpl; f_equal; lia. Qed.

Lemma round53_error m e : 0 <= m ->
  let x := (inject_Z m * two_to e)%Q in
  (value (round53 m e) <= x + x * ulp)%Q /\ (x - x * ulp <= value (round53 m e))%Q.
Proof.
  intros Hm. rewrite round53_shift. unfold value. simpl.
  destruct (round53_error_Z m Hm) as (He & H1 & H2). set (f := round53 m 0) in *.
  rewrite two_to_add, (two_to_Z (f_exp f)) by done.
  set (v := f_man f * 2 ^ f_exp f) in *.
  assert (inject_Z (f_man f) * (two_to e * inject_Z (2 ^ f_exp f)) == inject_Z v * two_to e)%Q as ->.
  { unfold v. rewrite inject_Z_mult. ring. }
  assert (forall a b : Z, a * 2 ^ 53 <= b -> (inject_Z a <= inject_Z b * ulp)%Q) as Hdiv.
  { intros a b Hab. unfold ulp. rewrite <- (Qmult_1_r (inject_Z a)).
    assert (1 == two_to 53 * two_to (-53))%Q as -> by (rewrite <- two_to_add; reflexivity).
    rewrite Qmult_assoc, two_to_Z, <- inject_Z_mult by lia.
    apply Qmult_le_compat_r; [by rewrite <- Zle_Qle|apply Qlt_le_weak, two_to_pos]. }
  apply Hdiv in H1, H2. pose proof (two_to_pos e) as Hp.
  unfold Z.sub in H1, H2. rewrite inject_Z_plus, inject_Z_opp in H1, H2. split; nra.
Qed.

(** Rounding a value that is at most a representable one stays below it. *)
Lemma round53_value_le a f b : 0 <= a -> 0 <= f_man b <= 2 ^ 53 ->
  (inject_Z a * two_to f <= value b)%Q -> (value (round53 a f) <= value b)%Q.
Proof.
  intros Ha Hb H. unfold value in *. set (E := Z.min f (f_exp b)).
  pose proof (round53_exp a f). rewrite (value_le _ _ _ _ E) by lia.
  rewrite (value_le _ _ _ _ E) in H by lia. apply round53_le; lia.
Qed.

(** ** Operations *)

Lemma fmul_le a b : 0 <= f_man a -> 0 <= f_man b ->
  (value (fmul a b) <= value a * value b * (1 + ulp))%Q.
Proof.
  intros Ha Hb. destruct (round53_error (f_man a * f_man b) (f_exp a + f_exp b)) as [H _]; [nia|].
  unfold fmul. eapply Qle_trans; [exact H|]. unfold value.
  rewrite inject_Z_mult, two_to_add. apply Qle_lteq. right. ring.
Qed.

Lemma fadd_exact a b :
  let e := Z.min (f_exp a) (f_exp b) in
  (inject_Z (f_man a * 2 ^ (f_exp a - e) + f_man b * 2 ^ (f_exp b - e)) * two_to e == value a + value b)%Q.
Proof.
  intros e. unfold value. rewrite (value_scale (f_man a) (f_exp a) e), (value_scale (f_man b) (f_exp b) e) by lia.
  rewrite inject_Z_plus. ring.
Qed.

Lemma fsub_exact a b :
  let e := Z.min (f_exp a) (f_exp b) in
  (inject_Z (f_man a * 2 ^ (f_exp a - e) - f_man b * 2 ^ (f_exp b - e)) * two_to e == value a - value b)%Q.
Proof.
  intros e. unfold value. rewrite (value_scale (f_man a) (f_exp a) e), (value_scale (f_man b) (f_exp b) e) by lia.
  unfold Z.sub at 1. rewrite inject_Z_plus, inject_Z_opp. ring.
Qed.

Lemma scaled_nonneg m k : 0 <= m -> 0 <= m * 2 ^ k.
Proof.
  intros H. destruct (Z.le_gt_cases 0 k); [|rewrite Z.pow_neg_r by lia; lia].
  apply Z.mul_nonneg_nonneg; [done|]. apply Z.pow_nonneg. lia.
Qed.

Lemma fadd_le a b : 0 <= f_man a -> 0 <= f_man b ->
  (value (fadd a b) <= (value a + value b) * (1 + ulp))%Q.
Proof.
  intros Ha Hb. unfold fadd.
  destruct (round53_error (f_man a * 2 ^ (f_exp a - Z.min (f_exp a) (f_exp b)) +
    f_man b * 2 ^ (f_exp b - Z.min (f_exp a) (f_exp b))) (Z.min (f_exp a) (f_exp b))) as [H _].
  { pose proof (scaled_nonneg (f_man a) (f_exp a - Z.min (f_exp a) (f_exp b)) Ha).
    pose proof (scaled_nonneg (f_man b) (f_exp b - Z.min (f_exp a) (f_exp b)) Hb). lia. }
  eapply Qle_trans; [exact H|]. rewrite fadd_exact. apply Qle_lteq. right. ring.
Qed.

Lemma fsub_man a b : fleb b a = true ->
  0 <= f_man a * 2 ^ (f_exp a - Z.min (f_exp a) (f_exp b)) - f_man b * 2 ^ (f_exp b - Z.min (f_exp a) (f_exp b)).
Proof.
  intros H. apply fleb_value in H. unfold value in H.
  rewrite (value_le _ _ _ _ (Z.min (f_exp a) (f_exp b))) in H by lia. lia.
Qed.

Lemma fsub_le a b : fleb b a = true ->
  (value (fsub a b) <= (value a - value b) * (1 + ulp))%Q.
Proof.
  intros Hab. unfold fsub. destruct (round53_error _ (Z.min (f_exp a) (f_exp b)) (fsub_man a b Hab)) as [H _].
  eapply Qle_trans; [exact H|]. rewrite fsub_exact. apply Qle_lteq. right. ring.
Qed.

Lemma of_int_le n : 0 <= n -> (value (of_int n) <= inject_Z n * (1 + ulp))%Q.
Proof.
  intros Hn. destruct (round53_error n 0 Hn) as [H _]. eapply Qle_trans; [exact H|].
  assert (two_to 0 == 1)%Q as -> by reflexivity. apply Qle_lteq. right. ring.
Qed.

Lemma of_int_ge n : 0 <= n -> (inject_Z n * (1 - ulp) <= value (of_int n))%Q.
Proof.
  intros Hn. destruct (round53_error n 0 Hn) as [_ H]. eapply Qle_trans; [|exact H].
  assert (two_to 0 == 1)%Q as -> by reflexivity. apply Qle_lteq. right. ring.
Qed.

(** Integers of at most 53 bits convert exactly. *)
Lemma of_int_exact n : 0 <= n < 2 ^ 53 -> (value (of_int n) == inject_Z n)%Q.
Proof.
  intros Hn. unfold of_int, round53. destruct (Z.leb_spec (Z.log2 n - 52) 0) as [H|H].
  - unfold value. cbn [f_man f_exp]. change (two_to 0) with 1%Q. ring.
  - exfalso. destruct (Z.eq_dec n 0) as [->|]; [simpl in H; lia|].
    pose proof (Z.log2_lt_pow2 n 53). lia.
Qed.

(** With a divisor of the quotient's size the dividend has 54 bits more. *)
Lemma scaled_dividend x y : 0 < x -> 0 < y -> 2 ^ 54 * y <= x * 2 ^ Z.max 0 (55 + Z.log2 y - Z.log2 x).
Proof.
  intros Hx Hy. set (s := Z.max 0 _). pose proof (Z.log2_spec x Hx) as [Hl _]. pose proof (Z.log2_spec y Hy) as [_ Hu].
  transitivity (2 ^ (Z.log2 x + s)).
  - transitivity (2 ^ (54 + Z.succ (Z.log2 y))).
    + rewrite Z.pow_add_r by (pose proof (Z.log2_nonneg y); lia). nia.
    + apply Z.pow_le_mono_r; [lia|]. unfold s. lia.
  - rewrite Z.pow_add_r by (pose proof (Z.log2_nonneg x); unfold s; lia).
    apply Z.mul_le_mono_nonneg_r; [apply Z.pow_nonneg; lia|done].
Qed.

(** Twice the quotient with its sticky bit exceeds the exact value by less than
    one part in 2^54. *)
Lemma sticky_quotient x y : 0 <= x -> 0 < y ->
  let n := x * 2 ^ Z.max 0 (55 + Z.log2 y - Z.log2 x) in
  let t := 2 * (n / y) + (if n mod y =? 0 then 0 else 1) in
  0 <= t /\ t * y * 2 ^ 54 <= 2 * n * (2 ^ 54 + 1).
Proof.
  intros Hx Hy n t. assert (0 <= n) as Hn by (apply scaled_nonneg; done).
  pose proof (Z.div_pos n y Hn Hy) as Hq. pose proof (Z.div_mod n y ltac:(lia)) as Hdm. pose proof (Z.mod_pos_bound n y Hy) as Hmod.
  split; [unfold t; destruct (_ =? _); lia|]. destruct (Z.eq_dec (n mod y) 0) as [Hz|Hz].
  - unfold t. rewrite (proj2 (Z.eqb_eq _ _) Hz). nia.
  - assert (0 < x) as Hx' by (destruct (Z.eq_dec x 0) as [E|]; [unfold n in Hz; rewrite E in Hz; by rewrite Z.mod_0_l in Hz by lia|lia]).
    pose proof (scaled_dividend x y Hx' Hy) as Hbig. fold n in Hbig. unfold t. rewrite (proj2 (Z.eqb_neq _ _) Hz). nia.
Qed.

(** The quotient is computed with a sticky bit and rounded once more. *)
Lemma fdiv_le a b : 0 <= f_man a -> 0 < f_man b ->
  (value (fdiv a b) * value b <= value a * (1 + 3 * ulp))%Q.
Proof.
  intros Ha Hb. unfold fdiv. destruct (sticky_quotient (f_man a) (f_man b) Ha Hb) as [Ht Hbound].
  set (s := Z.max 0 (55 + Z.log2 (f_man b) - Z.log2 (f_man a))) in *.
  set (n := f_man a * 2 ^ s) in *. set (t := 2 * (n / f_man b) + (if n mod f_man b =? 0 then 0 else 1)) in *.
  destruct (round53_error t (f_exp a - f_exp b - s - 1) Ht) as [H _].
  set (w := two_to (f_exp a - s - 1)). pose proof (two_to_pos (f_exp a - s - 1)) as Hw. fold w in Hw.
  assert (value a == inject_Z n * (2 * w))%Q as Hva.
  { unfold value, w. rewrite (value_scale (f_man a) (f_exp a) (f_exp a - s)) by (unfold s; lia).
    replace (f_exp a - (f_exp a - s)) with s by lia. fold n.
    replace (f_exp a - s) with (1 + (f_exp a - s - 1)) at 1 by lia. by rewrite two_to_add. }
  assert (inject_Z t * two_to (f_exp a - f_exp b - s - 1) * value b == inject_Z (t * f_man b) * w)%Q as Hx.
  { unfold value, w. rewrite inject_Z_mult.
    replace (f_exp a - s - 1) with (f_exp a - f_exp b - s - 1 + f_exp b) by lia. rewrite two_to_add. ring. }
  assert (inject_Z (t * f_man b) <= 2 * inject_Z n * (1 + (1 # 2) * ulp))%Q as Htb.
  { rewrite Zle_Qle, !inject_Z_mult in Hbound. rewrite inject_Z_plus in Hbound.
    assert (ulp == 2 / inject_Z (2 ^ 54))%Q as -> by reflexivity.
    set (K := inject_Z (2 ^ 54)) in *. assert (0 < K)%Q as HK by reflexivity.
    apply (Qmult_le_r _ _ K HK). rewrite inject_Z_mult.
    assert (2 * inject_Z n * (1 + (1 # 2) * (2 / K)) * K == inject_Z 2 * inject_Z n * (K + inject_Z 1))%Q as ->; [|done].
    change (inject_Z 2) with 2%Q. change (inject_Z 1) with 1%Q. field. intros E. by rewrite E in HK. }
  set (x := (inject_Z t * two_to (f_exp a - f_exp b - s - 1))%Q) in *.
  pose proof (value_nonneg b ltac:(lia)) as Hvb.
  assert (x * value b <= value a * (1 + (1 # 2) * ulp))%Q as Hxb.
  { rewrite Hx, Hva. nra. }
  pose proof (value_nonneg a Ha) as Hva0.
  apply (Qle_trans _ (x * value b * (1 + ulp))).
  { apply (Qle_trans _ ((x + x * ulp) * value b)); [by apply Qmult_le_compat_r|].
    apply Qle_lteq. right. ring. }
  apply (Qle_trans _ (value a * (1 + (1 # 2) * ulp) * (1 + ulp))).
  { apply Qmult_le_compat_r; [done|]. discriminate. }
  rewrite <- Qmult_assoc, !(Qmult_comm (value a)). apply Qmult_le_compat_r; [|done]. discriminate.
Qed.
