(* ===== verification/Metrics.v ===== *)
(** Metrics: the process-local counters, gauges and the histogram of
    [internal/metrics/metrics.go].

    Counters are unbounded integers: an [int64] counter would need centuries to
    wrap. Observed durations go through [float64] seconds, as in the code. *)

From S2P Require Import Prelude Float64.


(** ** Histogram *)

Record Histogram := mkHistogram {
  h_bounds : list float64;
  h_counts : list Z;
  h_sum : Z
}.

(** One counter per bound, plus the +Inf bucket. *)
Definition NewHistogram (bounds : list float64) : Histogram :=
  mkHistogram bounds (repeat 0 (length bounds + 1)) 0.

(** [sort.SearchFloat64s]: the first index whose bound is at least [v]. *)
Fixpoint SearchFloat64s (bounds : list float64) (v : float64) : nat :=
  match bounds with
  | [] => 0
  | b :: bs => if fleb v b then 0 else S (SearchFloat64s bs v)
  end.

(** [h.counts[i].Add(1)]. *)
Definition count_one (i : nat) (counts : list Z) : list Z := alter (Z.add 1) i counts.

(** [Observe], in seconds; the sum is kept in nanoseconds. *)
Definition Observe (v : float64) (h : Histogram) : Histogram :=
  match h_counts h with
  | [] => h
  | _ => mkHistogram (h_bounds h) (count_one (SearchFloat64s (h_bounds h) v) (h_counts h))
           (h_sum h + to_int (fmul v (of_int 1000000000)))
  end.

(** [d.Seconds()] of a non-negative duration. *)
Definition Seconds (d : Z) : float64 :=
  fadd (of_int (d / Second)) (fdiv (of_int (d mod Second)) (of_int 1000000000)).

(** The cumulative counts [Write] renders, one per bound and the total. *)
Fixpoint accumulate (total : Z) (counts : list Z) : list Z :=
  match counts with
  | [] => []
  | c :: cs => (total + c) :: accumulate (total + c) cs
  end.
Definition rendered_counts (h : Histogram) : list Z := accumulate 0 (h_counts h).

(** ** Counters and gauges *)

Record Metrics := mkMetrics {
  TasksEnqueuedTotal : Z;
  TasksCanceledTotal : Z;
  TasksCompletedTotal : Z;
  TaskAttemptFailuresTotal : Z;
  TasksRetriedTotal : Z;
  TasksDeadTotal : Z;
  TasksReapedTotal : Z;
  ReaperFailuresTotal : Z;
  ClaimErrorsTotal : Z;
  WorkersActive : Z;
  WorkersInflight : Z;
  TaskExecutionDuration : Histogram
}.

(** [metrics.New]. *)
Definition execution_bounds : list float64 :=
  [ratio 5 1000; ratio 1 100; ratio 25 1000; ratio 5 100; ratio 1 10; ratio 25 100; ratio 5 10;
   of_int 1; ratio 25 10; of_int 5; of_int 10; of_int 30; of_int 60; of_int 300].
Definition zero_metrics : Metrics := mkMetrics 0 0 0 0 0 0 0 0 0 0 0 (NewHistogram execution_bounds).

(** [m.X.Add(n)] for each counter the program increments. *)
Definition add_enqueued n (m : Metrics) : Metrics :=
  mkMetrics (TasksEnqueuedTotal m + n) (TasksCanceledTotal m) (TasksCompletedTotal m)
    (TaskAttemptFailuresTotal m) (TasksRetriedTotal m) (TasksDeadTotal m) (TasksReapedTotal m)
    (ReaperFailuresTotal m) (ClaimErrorsTotal m) (WorkersActive m) (WorkersInflight m)
    (TaskExecutionDuration m).
Definition add_canceled n (m : Metrics) : Metrics :=
  mkMetrics (TasksEnqueuedTotal m) (TasksCanceledTotal m + n) (TasksCompletedTotal m)
    (TaskAttemptFailuresTotal m) (TasksRetriedTotal m) (TasksDeadTotal m) (TasksReapedTotal m)
    (ReaperFailuresTotal m) (ClaimErrorsTotal m) (WorkersActive m) (WorkersInflight m)
    (TaskExecutionDuration m).
Definition add_completed n (m : Metrics) : Metrics :=
  mkMetrics (TasksEnqueuedTotal m) (TasksCanceledTotal m) (TasksCompletedTotal m + n)
    (TaskAttemptFailuresTotal m) (TasksRetriedTotal m) (TasksDeadTotal m) (TasksReapedTotal m)
    (ReaperFailuresTotal m) (ClaimErrorsTotal m) (WorkersActive m) (WorkersInflight m)
    (TaskExecutionDuration m).
Definition add_attempt_failures n (m : Metrics) : Metrics :=
  mkMetrics (TasksEnqueuedTotal m) (TasksCanceledTotal m) (TasksCompletedTotal m)
    (TaskAttemptFailuresTotal m + n) (TasksRetriedTotal m) (TasksDeadTotal m) (TasksReapedTotal m)
    (ReaperFailuresTotal m) (ClaimErrorsTotal m) (WorkersActive m) (WorkersInflight m)
    (TaskExecutionDuration m).
Definition add_retried n (m : Metrics) : Metrics :=
  mkMetrics (TasksEnqueuedTotal m) (TasksCanceledTotal m) (TasksCompletedTotal m)
    (TaskAttemptFailuresTotal m) (TasksRetriedTotal m + n) (TasksDeadTotal m) (TasksReapedTotal m)
    (ReaperFailuresTotal m) (ClaimErrorsTotal m) (WorkersActive m) (WorkersInflight m)
    (TaskExecutionDuration m).
Definition add_dead n (m : Metrics) : Metrics :=
  mkMetrics (TasksEnqueuedTotal m) (TasksCanceledTotal m) (TasksCompletedTotal m)
    (TaskAttemptFailuresTotal m) (TasksRetriedTotal m) (TasksDeadTotal m + n) (TasksReapedTotal m)
    (ReaperFailuresTotal m) (ClaimErrorsTotal m) (WorkersActive m) (WorkersInflight m)
    (TaskExecutionDuration m).
Definition add_reaped n (m : Metrics) : Metrics :=
  mkMetrics (TasksEnqueuedTotal m) (TasksCanceledTotal m) (TasksCompletedTotal m)
    (TaskAttemptFailuresTotal m) (TasksRetriedTotal m) (TasksDeadTotal m) (TasksReapedTotal m + n)
    (ReaperFailuresTotal m) (ClaimErrorsTotal m) (WorkersActive m) (WorkersInflight m)
    (TaskExecutionDuration m).
Definition add_reaper_failures n (m : Metrics) : Metrics :=
  mkMetrics (TasksEnqueuedTotal m) (TasksCanceledTotal m) (TasksCompletedTotal m)
    (TaskAttemptFailuresTotal m) (TasksRetriedTotal m) (TasksDeadTotal m) (TasksReapedTotal m)
    (ReaperFailuresTotal m + n) (ClaimErrorsTotal m) (WorkersActive m) (WorkersInflight m)
    (TaskExecutionDuration m).
Definition add_claim_errors n (m : Metrics) : Metrics :=
  mkMetrics (TasksEnqueuedTotal m) (TasksCanceledTotal m) (TasksCompletedTotal m)
    (TaskAttemptFailuresTotal m) (TasksRetriedTotal m) (TasksDeadTotal m) (TasksReapedTotal m)
    (ReaperFailuresTotal m) (ClaimErrorsTotal m + n) (WorkersActive m) (WorkersInflight m)
    (TaskExecutionDuration m).
Definition add_active n (m : Metrics) : Metrics :=
  mkMetrics (TasksEnqueuedTotal m) (TasksCanceledTotal m) (TasksCompletedTotal m)
    (TaskAttemptFailuresTotal m) (TasksRetriedTotal m) (TasksDeadTotal m) (TasksReapedTotal m)
    (ReaperFailuresTotal m) (ClaimErrorsTotal m) (WorkersActive m + n) (WorkersInflight m)
    (TaskExecutionDuration m).
Definition add_inflight n (m : Metrics) : Metrics :=
  mkMetrics (TasksEnqueuedTotal m) (TasksCanceledTotal m) (TasksCompletedTotal m)
    (TaskAttemptFailuresTotal m) (TasksRetriedTotal m) (TasksDeadTotal m) (TasksReapedTotal m)
    (ReaperFailuresTotal m) (ClaimErrorsTotal m) (WorkersActive m) (WorkersInflight m + n)
    (TaskExecutionDuration m).

(** [m.TaskExecutionDuration.Observe(v)]. *)
Definition observe_execution v (m : Metrics) : Metrics :=
  mkMetrics (TasksEnqueuedTotal m) (TasksCanceledTotal m) (TasksCompletedTotal m)
    (TaskAttemptFailuresTotal m) (TasksRetriedTotal m) (TasksDeadTotal m) (TasksReapedTotal m)
    (ReaperFailuresTotal m) (ClaimErrorsTotal m) (WorkersActive m) (WorkersInflight m)
    (Observe v (TaskExecutionDuration m)).
