(* ===== verification/Pg.v ===== *)
(** Pg: the database the queue lives in, and the monad of code that talks to it.

    - The tables of [migrations/000001_init_task_queue.up.sql]: [Row] is a row
      of [tasks] (the [CHECK] on [status] is the type [TaskStatus]), [LogRow] of
      [task_logs], [DeadLetter] of [dead_letters]; [DB] is the committed state.
    - Everything the program does not determine is an [Event] of an [Oracle]:
      what other sessions commit between two of our calls ([ev_env]), the rows
      they hold locks on ([ev_locked]), the clock, [gen_random_uuid()], random
      bits, and whether the call fails ([ev_fault]). Call number [n] of a run
      meets event [n]; theorems quantify over all oracles.
    - [M] is explicit state passing over a [World]. A transaction is a list of
      pending writes over the committed state (READ COMMITTED: every statement
      sees the committed state of that moment under the transaction's own
      writes), an abort flag, and its start time, which is SQL's [now()].
    - [Fault]: [FailBefore] fails without effect; [FailAfter] takes effect on
      the server but the client sees an error (a lost acknowledgement).

    A statement that waits for a row lock runs after the commit it waited for;
    that commit is part of the event's [ev_env]. Once a transaction has written,
    the rows it wrote are locked, and commits of other sessions are ordered
    before its first write, so [ev_env] applies only while nothing is pending. *)


From S2P Require Import Prelude Dharatype Float64 Metrics.

(** A UUID is a 128-bit number; [uuid_nil] is Go's zero value. *)
Abbreviation uuid := N (only parsing).
Definition uuid_nil : uuid := 0%N.

(** ** Tables *)

Record Row := mkRow {
  r_id : uuid;
  r_idempotency_key : option string;
  r_type : string;
  r_payload : string;
  r_payload_hash : string;
  r_status : TaskStatus;
  r_priority : Z;
  r_attempts : Z;
  r_max_retries : Z;
  r_run_at : Z;
  r_started_at : option Z;
  r_completed_at : option Z;
  r_locked_by : option string;
  r_locked_at : option Z;
  r_last_error : option string;
  r_created_at : Z;
  r_updated_at : Z
}.

Record LogRow := mkLog {
  l_task_id : uuid;
  l_status : TaskStatus;
  l_message : string;
  l_created_at : Z
}.

Record DeadLetter := mkDeadLetter {
  d_task_id : uuid;
  d_last_error : string;
  d_created_at : Z
}.

(** The committed state. [task_logs] and [dead_letters] are in the order of
    their [BIGSERIAL] keys. *)
Record DB := mkDB {
  tasks : gmap uuid Row;
  task_logs : list LogRow;
  dead_letters : list DeadLetter
}.

Definition empty_db : DB := mkDB ∅ [] [].

(** ** Column updates, one per column a [SET] clause of the program names *)

Definition set_status s (r : Row) : Row :=
  mkRow (r_id r) (r_idempotency_key r) (r_type r) (r_payload r) (r_payload_hash r) s
    (r_priority r) (r_attempts r) (r_max_retries r) (r_run_at r) (r_started_at r)
    (r_completed_at r) (r_locked_by r) (r_locked_at r) (r_last_error r) (r_created_at r)
    (r_updated_at r).
Definition set_attempts n (r : Row) : Row :=
  mkRow (r_id r) (r_idempotency_key r) (r_type r) (r_payload r) (r_payload_hash r) (r_status r)
    (r_priority r) n (r_max_retries r) (r_run_at r) (r_started_at r)
    (r_completed_at r) (r_locked_by r) (r_locked_at r) (r_last_error r) (r_created_at r)
    (r_updated_at r).
Definition set_run_at t (r : Row) : Row :=
  mkRow (r_id r) (r_idempotency_key r) (r_type r) (r_payload r) (r_payload_hash r) (r_status r)
    (r_priority r) (r_attempts r) (r_max_retries r) t (r_started_at r)
    (r_completed_at r) (r_locked_by r) (r_locked_at r) (r_last_error r) (r_created_at r)
    (r_updated_at r).
Definition set_started_at t (r : Row) : Row :=
  mkRow (r_id r) (r_idempotency_key r) (r_type r) (r_payload r) (r_payload_hash r) (r_status r)
    (r_priority r) (r_attempts r) (r_max_retries r) (r_run_at r) t
    (r_completed_at r) (r_locked_by r) (r_locked_at r) (r_last_error r) (r_created_at r)
    (r_updated_at r).
Definition set_completed_at t (r : Row) : Row :=
  mkRow (r_id r) (r_idempotency_key r) (r_type r) (r_payload r) (r_payload_hash r) (r_status r)
    (r_priority r) (r_attempts r) (r_max_retries r) (r_run_at r) (r_started_at r)
    t (r_locked_by r) (r_locked_at r) (r_last_error r) (r_created_at r)
    (r_updated_at r).
Definition set_lock by_ at_ (r : Row) : Row :=
  mkRow (r_id r) (r_idempotency_key r) (r_type r) (r_payload r) (r_payload_hash r) (r_status r)
    (r_priority r) (r_attempts r) (r_max_retries r) (r_run_at r) (r_started_at r)
    (r_completed_at r) by_ at_ (r_last_error r) (r_created_at r)
    (r_updated_at r).
Definition set_last_error e (r : Row) : Row :=
  mkRow (r_id r) (r_idempotency_key r) (r_type r) (r_payload r) (r_payload_hash r) (r_status r)
    (r_priority r) (r_attempts r) (r_max_retries r) (r_run_at r) (r_started_at r)
    (r_completed_at r) (r_locked_by r) (r_locked_at r) e (r_created_at r)
    (r_updated_at r).
Definition set_updated_at t (r : Row) : Row :=
  mkRow (r_id r) (r_idempotency_key r) (r_type r) (r_payload r) (r_payload_hash r) (r_status r)
    (r_priority r) (r_attempts r) (r_max_retries r) (r_run_at r) (r_started_at r)
    (r_completed_at r) (r_locked_by r) (r_locked_at r) (r_last_error r) (r_created_at r)
    t.

(** ** Writes

    [DelLogs id n] and [DelOldLetters id n] delete the first [n] rows of a task:
    rows are only appended, so these are the rows a [DELETE] saw when it ran,
    also if others were added before it commits. *)

(** Removes the first [n] elements that satisfy [p]. *)
Fixpoint drop_where {A} (p : A -> bool) (n : nat) (l : list A) : list A :=
  match n, l with
  | O, _ => l
  | _, [] => []
  | S n', x :: l' => if p x then drop_where p n' l' else x :: drop_where p n l'
  end.

Inductive Write : Type :=
  | PutTask (r : Row)
  | DelTask (id : uuid)
  | AddLog (l : LogRow)
  | DelLogs (id : uuid) (n : nat)
  | AddDeadLetter (d : DeadLetter)
  | DelDeadLetters (id : uuid)
  | DelOldLetters (id : uuid) (n : nat).

Definition apply_write (w : Write) (db : DB) : DB :=
  match w with
  | PutTask r => mkDB (<[r_id r := r]> (tasks db)) (task_logs db) (dead_letters db)
  | DelTask id => mkDB (delete id (tasks db)) (task_logs db) (dead_letters db)
  | AddLog l => mkDB (tasks db) (task_logs db ++ [l]) (dead_letters db)
  | DelLogs id n =>
      mkDB (tasks db) (drop_where (fun l => bool_decide (l_task_id l = id)) n (task_logs db))
        (dead_letters db)
  | AddDeadLetter d => mkDB (tasks db) (task_logs db) (dead_letters db ++ [d])
  | DelDeadLetters id =>
      mkDB (tasks db) (task_logs db)
        (List.filter (fun d => negb (bool_decide (d_task_id d = id))) (dead_letters db))
  | DelOldLetters id n =>
      mkDB (tasks db) (task_logs db)
        (drop_where (fun d => bool_decide (d_task_id d = id)) n (dead_letters db))
  end.

Fixpoint apply_writes (ws : list Write) (db : DB) : DB :=
  match ws with
  | [] => db
  | w :: ws' => apply_writes ws' (apply_write w db)
  end.

(** ** Oracles, transactions and worlds *)

Inductive Fault : Type :=
  | NoFault
  | FailBefore (msg : string)
  | FailAfter (msg : string).

Record Event := mkEvent {
  ev_env : DB -> DB;
  ev_locked : gset uuid;
  ev_now : Z;
  ev_uuid : uuid;
  ev_pick : nat;
  ev_rand : Z;
  ev_fault : Fault
}.

Definition Oracle : Type := nat -> Event.

Record Tx := mkTx {
  tx_now : Z;
  tx_writes : list Write;
  tx_aborted : bool
}.

Record World := mkWorld {
  w_db : DB;
  w_tx : option Tx;
  w_metrics : Metrics;
  w_next : nat
}.

(** A process that has issued no call yet. *)
Definition world0 (db : DB) : World := mkWorld db None zero_metrics 0.

Definition set_tx t (w : World) : World := mkWorld (w_db w) t (w_metrics w) (w_next w).
Definition set_db db (w : World) : World := mkWorld db (w_tx w) (w_metrics w) (w_next w).

(** ** The monad *)

Definition M (A : Type) : Type := Oracle -> World -> A * World.

Definition ret {A} (a : A) : M A := fun _ w => (a, w).
Definition bind {A B} (m : M A) (k : A -> M B) : M B :=
  fun o w => let (a, w') := m o w in k a o w'.

(** [x, err := m; if err != nil { return fmt.Errorf("p: %w", err) }]. *)
Definition try_wrap {A B} (p : string) (m : M (res A)) (k : A -> M (res B)) : M (res B) :=
  bind m (fun r => match r with Ok a => k a | Err e => ret (Err (Wrapped p e)) end).

(** [x, err := m; if err != nil { return err }]. *)
Definition try {A B} (m : M (res A)) (k : A -> M (res B)) : M (res B) :=
  bind m (fun r => match r with Ok a => k a | Err e => ret (Err e) end).

Declare Scope dhara_scope.
Delimit Scope dhara_scope with dhara.
Notation "x <- m ; k" := (bind m (fun x => k))
  (at level 100, m at next level, right associativity, format "x  <-  m ;  '//' k") : dhara_scope.
Notation "x <-? m ; k" := (try m (fun x => k))
  (at level 100, m at next level, right associativity, format "x  <-?  m ;  '//' k") : dhara_scope.
Notation "x <-? m 'or' p ; k" := (try_wrap p m (fun x => k))
  (at level 100, m at next level, p at next level, right associativity,
   format "x  <-?  m  'or'  p ;  '//' k") : dhara_scope.

(** ** Calls to the database *)

(** A statement, given [now()], the event it meets and the state it sees: its
    result and its writes, or a server error. *)
Definition Stmt (A : Type) : Type := Z -> Event -> DB -> res (A * list Write).

(** Every call consumes one event; other sessions' commits become visible
    while this transaction holds no locks. *)
Definition pending (w : World) : list Write :=
  match w_tx w with Some tx => tx_writes tx | None => [] end.

Definition tick (o : Oracle) (w : World) : World :=
  mkWorld
    (match pending w with [] => ev_env (o (w_next w)) (w_db w) | _ => w_db w end)
    (w_tx w) (w_metrics w) (S (w_next w)).

(** [pool.Begin]. *)
Definition Begin : M (res unit) := fun o w =>
  let e := o (w_next w) in
  let w1 := tick o w in
  match ev_fault e with
  | NoFault => (Ok tt, set_tx (Some (mkTx (ev_now e) [] false)) w1)
  | FailBefore m | FailAfter m => (Err (DriverError m), w1)
  end.

(** [tx.Exec] and [tx.Query]: a server error aborts the transaction. *)
Definition tx_exec {A} (s : Stmt A) : M (res A) := fun o w =>
  let e := o (w_next w) in
  let w1 := tick o w in
  match w_tx w1 with
  | None => (Err (DriverError "tx is closed"), w1)
  | Some tx =>
      if tx_aborted tx then
        (Err (DriverError "current transaction is aborted, commands ignored until end of transaction block"), w1)
      else
        let abort := set_tx (Some (mkTx (tx_now tx) (tx_writes tx) true)) w1 in
        match ev_fault e with
        | FailBefore m | FailAfter m => (Err (DriverError m), abort)
        | NoFault =>
            match s (tx_now tx) e (apply_writes (tx_writes tx) (w_db w1)) with
            | Err er => (Err er, abort)
            | Ok (a, ws) => (Ok a, set_tx (Some (mkTx (tx_now tx) (tx_writes tx ++ ws) false)) w1)
            end
        end
  end.

(** [pool.Exec] and [pool.Query]: the statement is its own transaction. *)
Definition db_exec {A} (s : Stmt A) : M (res A) := fun o w =>
  let e := o (w_next w) in
  let w1 := tick o w in
  match ev_fault e with
  | FailBefore m => (Err (DriverError m), w1)
  | FailAfter m =>
      match s (ev_now e) e (w_db w1) with
      | Err er => (Err er, w1)
      | Ok (a, ws) => (Err (DriverError m), set_db (apply_writes ws (w_db w1)) w1)
      end
  | NoFault =>
      match s (ev_now e) e (w_db w1) with
      | Err er => (Err er, w1)
      | Ok (a, ws) => (Ok a, set_db (apply_writes ws (w_db w1)) w1)
      end
  end.

(** [QueryRow(...).Scan(...)]: an empty result is [pgx.ErrNoRows]. *)
Definition one_row {A} (m : M (res (option A))) : M (res A) :=
  bind m (fun r => ret
    match r with
    | Ok (Some a) => Ok a
    | Ok None => Err ErrNoRows
    | Err e => Err e
    end).

(** Reading the rows of a [Query] that succeeded ([rows.Next] until [rows.Err]):
    the connection may still fail. *)
Definition fetch {A} (m : M (res unit)) (rows : list A) : M (res (list A)) :=
  bind m (fun r => ret match r with Ok _ => Ok rows | Err e => Err e end).
Definition no_op : Stmt unit := fun _ _ _ => Ok (tt, []).
Definition tx_fetch {A} (rows : list A) : M (res (list A)) := fetch (tx_exec no_op) rows.
Definition db_fetch {A} (rows : list A) : M (res (list A)) := fetch (db_exec no_op) rows.

(** [tx.Commit]: committing an aborted transaction rolls it back and reports it. *)
Definition Commit : M (res unit) := fun o w =>
  let e := o (w_next w) in
  let w1 := tick o w in
  match w_tx w1 with
  | None => (Err (DriverError "tx is closed"), w1)
  | Some tx =>
      if tx_aborted tx then
        (Err (DriverError "commit unexpectedly resulted in rollback"), set_tx None w1)
      else
        match ev_fault e with
        | NoFault => (Ok tt, set_tx None (set_db (apply_writes (tx_writes tx) (w_db w1)) w1))
        | FailBefore m => (Err (DriverError m), set_tx None w1)
        | FailAfter m =>
            (Err (DriverError m), set_tx None (set_db (apply_writes (tx_writes tx) (w_db w1)) w1))
        end
  end.

(** [defer tx.Rollback(ctx)] around the rest of the function: after a commit it
    does nothing, otherwise the pending writes are dropped. *)
Definition defer_rollback {A} (m : M A) : M A := fun o w =>
  let (a, w') := m o w in (a, set_tx None w').

(** [metrics.X.Add(n)]. *)
Definition add_metric (f : Metrics -> Metrics) : M unit := fun _ w =>
  (tt, mkWorld (w_db w) (w_tx w) (f (w_metrics w)) (w_next w)).

(** [time.Now()] and the random bits of [math/rand]. *)
Definition time_Now : M Z := fun o w => (ev_now (o (w_next w)), tick o w).
Definition rand_bits : M Z := fun o w => (ev_rand (o (w_next w)), tick o w).

(** ** Oracles without interference or faults *)

Definition quiet_event (now : Z) (id : uuid) : Event :=
  mkEvent (fun db => db) ∅ now id 0 0 NoFault.

(** Nothing else touches the database. *)
Definition no_interference (o : Oracle) : Prop := forall n db, ev_env (o n) db = db.
(** No call fails. *)
Definition no_faults (o : Oracle) : Prop := forall n, ev_fault (o n) = NoFault.
(** What other sessions commit keeps a property of the database. *)
Definition env_preserves (P : DB -> Prop) (o : Oracle) : Prop :=
  forall n db, P db -> P (ev_env (o n) db).
