(* ===== verification/PgLogic.v ===== *)
(** PgLogic: a small program logic for the monad of [Pg].

    [wp m o Q w] says that running [m] from [w] under oracle [o] ends with a
    value and a world that satisfy [Q]. There is one rule per primitive of
    [Pg]; the rules for calls split on whether the call fails. Worlds are kept
    in constructor form, so that a proof reads as a run of the program. *)

From S2P Require Import Prelude Dharatype Float64 Metrics Pg.

Definition wp {A} (m : M A) (o : Oracle) (Q : A -> World -> Prop) (w : World) : Prop :=
  Q (m o w).1 (m o w).2.

Definition faulty (e : Event) (m : string) : Prop :=
  ev_fault e = FailBefore m \/ ev_fault e = FailAfter m.

Lemma fault_cases e : ev_fault e = NoFault \/ exists m, faulty e m.
Proof. unfold faulty. destruct (ev_fault e); eauto. Qed.

Section rules.
Context (o : Oracle).
Implicit Types (db : DB) (met : Metrics) (n : nat) (now : Z).

Lemma wp_mono {A} (m : M A) (Q Q' : A -> World -> Prop) w :
  wp m o Q w -> (forall a w', Q a w' -> Q' a w') -> wp m o Q' w.
Proof. unfold wp. auto. Qed.

Lemma wp_ret {A} (a : A) Q w : Q a w -> wp (ret a) o Q w.
Proof. done. Qed.

Lemma wp_bind {A B} (m : M A) (k : A -> M B) Q w :
  wp m o (fun a w' => wp (k a) o Q w') w -> wp (bind m k) o Q w.
Proof. unfold wp, bind. by destruct (m o w). Qed.

Lemma wp_try {A B} (m : M (res A)) (k : A -> M (res B)) Q w :
  wp m o (fun r w' => match r with Ok a => wp (k a) o Q w' | Err e => Q (Err e) w' end) w ->
  wp (try m k) o Q w.
Proof. unfold wp, try, bind. destruct (m o w) as [[a|e] w']; done. Qed.

Lemma wp_try_wrap {A B} p (m : M (res A)) (k : A -> M (res B)) Q w :
  wp m o (fun r w' => match r with
                      | Ok a => wp (k a) o Q w'
                      | Err e => Q (Err (Wrapped p e)) w'
                      end) w ->
  wp (try_wrap p m k) o Q w.
Proof. unfold wp, try_wrap, bind. destruct (m o w) as [[a|e] w']; done. Qed.

Lemma wp_defer_rollback {A} (m : M A) Q w :
  wp m o (fun a w' => Q a (set_tx None w')) w -> wp (defer_rollback m) o Q w.
Proof. unfold wp, defer_rollback. by destruct (m o w). Qed.

Lemma wp_one_row {A} (m : M (res (option A))) Q w :
  wp m o (fun r w' => match r with
                      | Ok (Some a) => Q (Ok a) w'
                      | Ok None => Q (Err ErrNoRows) w'
                      | Err e => Q (Err e) w'
                      end) w ->
  wp (one_row m) o Q w.
Proof. unfold wp, one_row, bind. destruct (m o w) as [[[a|]|e] w']; done. Qed.

Lemma wp_fetch {A} (m : M (res unit)) (rows : list A) Q w :
  wp m o (fun r w' => match r with Ok _ => Q (Ok rows) w' | Err e => Q (Err e) w' end) w ->
  wp (fetch m rows) o Q w.
Proof. unfold wp, fetch, bind. destruct (m o w) as [[a|e] w']; done. Qed.

Lemma wp_add_metric f Q db tx met n :
  Q tt (mkWorld db tx (f met) n) -> wp (add_metric f) o Q (mkWorld db tx met n).
Proof. done. Qed.

Lemma wp_time_Now Q db met n :
  Q (ev_now (o n)) (mkWorld (ev_env (o n) db) None met (S n)) ->
  wp time_Now o Q (mkWorld db None met n).
Proof. done. Qed.

Lemma wp_rand_bits Q db met n :
  Q (ev_rand (o n)) (mkWorld (ev_env (o n) db) None met (S n)) ->
  wp rand_bits o Q (mkWorld db None met n).
Proof. done. Qed.

Lemma wp_Begin Q db met n :
  (ev_fault (o n) = NoFault ->
     Q (Ok tt) (mkWorld (ev_env (o n) db) (Some (mkTx (ev_now (o n)) [] false)) met (S n))) ->
  (forall m, faulty (o n) m ->
     Q (Err (DriverError m)) (mkWorld (ev_env (o n) db) None met (S n))) ->
  wp Begin o Q (mkWorld db None met n).
Proof.
  intros Hok Herr. unfold wp, Begin, tick, pending, faulty in *. simpl.
  destruct (ev_fault (o n)); simpl; eauto.
Qed.

(** A statement in a transaction that has written nothing yet. *)
Lemma wp_tx_exec_first {A} (s : Stmt A) Q db now met n :
  (ev_fault (o n) = NoFault ->
     match s now (o n) (ev_env (o n) db) with
     | Ok (a, ws) => Q (Ok a) (mkWorld (ev_env (o n) db) (Some (mkTx now ws false)) met (S n))
     | Err e => Q (Err e) (mkWorld (ev_env (o n) db) (Some (mkTx now [] true)) met (S n))
     end) ->
  (forall m, faulty (o n) m ->
     Q (Err (DriverError m)) (mkWorld (ev_env (o n) db) (Some (mkTx now [] true)) met (S n))) ->
  wp (tx_exec s) o Q (mkWorld db (Some (mkTx now [] false)) met n).
Proof.
  intros Hok Herr. unfold wp, tx_exec, tick, pending, faulty in *. simpl.
  destruct (ev_fault (o n)); simpl; [|by eauto..].
  specialize (Hok eq_refl). destruct (s now (o n) _) as [[a ws]|e]; done.
Qed.

(** A statement in a transaction with pending writes. *)
Lemma wp_tx_exec_next {A} (s : Stmt A) Q db now x ws met n :
  (ev_fault (o n) = NoFault ->
     match s now (o n) (apply_writes (x :: ws) db) with
     | Ok (a, ws') => Q (Ok a) (mkWorld db (Some (mkTx now ((x :: ws) ++ ws') false)) met (S n))
     | Err e => Q (Err e) (mkWorld db (Some (mkTx now (x :: ws) true)) met (S n))
     end) ->
  (forall m, faulty (o n) m ->
     Q (Err (DriverError m)) (mkWorld db (Some (mkTx now (x :: ws) true)) met (S n))) ->
  wp (tx_exec s) o Q (mkWorld db (Some (mkTx now (x :: ws) false)) met n).
Proof.
  intros Hok Herr. unfold wp, tx_exec, tick, pending, faulty in *. simpl.
  destruct (ev_fault (o n)); simpl; [|by eauto..].
  specialize (Hok eq_refl). simpl in Hok.
  destruct (s now (o n) _) as [[a ws']|e]; done.
Qed.

(** A statement outside the transaction, while it has written nothing. *)
Lemma wp_db_exec {A} (s : Stmt A) Q db tx met n :
  (forall t, tx = Some t -> tx_writes t = []) ->
  (match s (ev_now (o n)) (o n) (ev_env (o n) db) with
   | Ok (a, ws) =>
       (ev_fault (o n) = NoFault ->
          Q (Ok a) (mkWorld (apply_writes ws (ev_env (o n) db)) tx met (S n))) /\
       (forall m, ev_fault (o n) = FailAfter m ->
          Q (Err (DriverError m)) (mkWorld (apply_writes ws (ev_env (o n) db)) tx met (S n)))
   | Err e => Q (Err e) (mkWorld (ev_env (o n) db) tx met (S n))
   end) ->
  (forall m, ev_fault (o n) = FailBefore m ->
     Q (Err (DriverError m)) (mkWorld (ev_env (o n) db) tx met (S n))) ->
  wp (db_exec s) o Q (mkWorld db tx met n).
Proof.
  intros Hclean Hok Herr. unfold wp, db_exec, tick, pending in *. simpl.
  assert (match match tx with Some tx => tx_writes tx | None => [] end with
          | [] => ev_env (o n) db | _ :: _ => db end = ev_env (o n) db) as ->.
  { destruct tx as [t|]; [|done]. by rewrite (Hclean t eq_refl). }
  destruct (s _ (o n) _) as [[a ws]|e]; destruct (ev_fault (o n)); simpl; naive_solver.
Qed.

Lemma wp_Commit Q db now x ws met n :
  (ev_fault (o n) = NoFault ->
     Q (Ok tt) (mkWorld (apply_writes (x :: ws) db) None met (S n))) ->
  (forall m, ev_fault (o n) = FailAfter m ->
     Q (Err (DriverError m)) (mkWorld (apply_writes (x :: ws) db) None met (S n))) ->
  (forall m, ev_fault (o n) = FailBefore m ->
     Q (Err (DriverError m)) (mkWorld db None met (S n))) ->
  wp Commit o Q (mkWorld db (Some (mkTx now (x :: ws) false)) met n).
Proof.
  intros H1 H2 H3. unfold wp, Commit, tick, pending. simpl.
  destruct (ev_fault (o n)); simpl; eauto.
Qed.

(** Committing a transaction that wrote nothing. *)
Lemma wp_Commit_empty Q db now met n :
  (ev_fault (o n) = NoFault -> Q (Ok tt) (mkWorld (ev_env (o n) db) None met (S n))) ->
  (forall m, faulty (o n) m ->
     Q (Err (DriverError m)) (mkWorld (ev_env (o n) db) None met (S n))) ->
  wp Commit o Q (mkWorld db (Some (mkTx now [] false)) met n).
Proof.
  intros H1 H2. unfold wp, Commit, tick, pending, faulty in *. simpl.
  destruct (ev_fault (o n)); simpl; eauto.
Qed.

(** Committing an aborted transaction rolls it back. *)
Lemma wp_Commit_aborted Q db now ws met n :
  (Q (Err (DriverError "commit unexpectedly resulted in rollback"))
     (mkWorld (match ws with [] => ev_env (o n) db | _ => db end) None met (S n))) ->
  wp Commit o Q (mkWorld db (Some (mkTx now ws true)) met n).
Proof. done. Qed.
End rules.

(** One step of a run. *)
Ltac wp_step :=
  lazymatch goal with
  | |- wp (ret _) _ _ _ => apply wp_ret
  | |- wp (bind _ _) _ _ _ => apply wp_bind
  | |- wp (try _ _) _ _ _ => apply wp_try
  | |- wp (try_wrap _ _ _) _ _ _ => apply wp_try_wrap
  | |- wp (defer_rollback _) _ _ _ => apply wp_defer_rollback
  | |- wp (one_row _) _ _ _ => apply wp_one_row
  | |- wp (fetch _ _) _ _ _ => apply wp_fetch
  | |- wp (tx_fetch _) _ _ _ => apply wp_fetch
  | |- wp (db_fetch _) _ _ _ => apply wp_fetch
  | |- wp (add_metric _) _ _ _ => apply wp_add_metric
  | |- wp time_Now _ _ _ => apply wp_time_Now
  | |- wp rand_bits _ _ _ => apply wp_rand_bits
  | |- wp Begin _ _ _ => apply wp_Begin
  | |- wp (tx_exec _) _ _ (mkWorld _ (Some (mkTx _ [] false)) _ _) => apply wp_tx_exec_first
  | |- wp (tx_exec _) _ _ (mkWorld _ (Some (mkTx _ (_ :: _) false)) _ _) => apply wp_tx_exec_next
  | |- wp Commit _ _ (mkWorld _ (Some (mkTx _ [] false)) _ _) => apply wp_Commit_empty
  | |- wp Commit _ _ (mkWorld _ (Some (mkTx _ (_ :: _) false)) _ _) => apply wp_Commit
  | |- wp Commit _ _ (mkWorld _ (Some (mkTx _ _ true)) _ _) => apply wp_Commit_aborted
  end.

Ltac wp_world w :=
  destruct w as [?db ?tx ?met ?n]; cbn [w_db w_tx w_metrics w_next] in *; subst.
