(* ===== verification/TaskStore.v ===== *)
(** TaskStore: [internal/store/task_store.go], every operation of
    [PostgresTaskStore].

    First the SQL statements of the file, each as a [Stmt] on the tables of
    [Pg]; then one definition per Go method that issues them in the order of
    the code, with its error wrapping, its early returns, its log rows and its
    counters. [TaskRow] is the Go struct: a method fills the fields its [Scan]
    names and leaves the others at Go's zero value.

    [PayloadHasher] is the interface of [hash_utils.go] towards this file. *)

From S2P Require Import Prelude Dharatype GoTime Float64 Metrics Pg.
Open Scope dhara_scope.

(** ** The interface of the payload hash *)

(** [hashPayload]: the digest of a JSON payload, [None] when it is not JSON. *)
Class PayloadHasher : Type := { hashPayload : string -> res string }.

(** ** Rows as Go sees them *)

(** The zero [time.Time], January 1 of year 1, relative to the Unix epoch. *)
Definition time_zero : Z := -62135596800 * Second.

Record TaskRow := mkTaskRow {
  t_ID : uuid;
  t_Type : string;
  t_Payload : string;
  t_PayloadHash : string;
  t_IdempotencyKey : option string;
  t_Status : string;
  t_Priority : Z;
  t_Attempts : Z;
  t_MaxRetries : Z;
  t_RunAt : Z;
  t_StartedAt : option Z;
  t_CompletedAt : option Z;
  t_LockedAt : option Z;
  t_LockedBy : option string;
  t_LastError : option string;
  t_CreatedAt : Z;
  t_UpdatedAt : Z
}.

(** [&TaskRow{}]. *)
Definition zero_TaskRow : TaskRow :=
  mkTaskRow uuid_nil EmptyString EmptyString EmptyString None EmptyString 0 0 0 time_zero
    None None None None None time_zero time_zero.

(** [Scan] of all columns but the payload, its hash and the lock: the columns
    [List], [Cancel] and [RetryDead] return. *)
Definition scan_public (r : Row) : TaskRow :=
  mkTaskRow (r_id r) (r_type r) EmptyString EmptyString (r_idempotency_key r)
    (status_text (r_status r)) (r_priority r) (r_attempts r) (r_max_retries r) (r_run_at r)
    (r_started_at r) (r_completed_at r) None None (r_last_error r) (r_created_at r) (r_updated_at r).

(** The columns [GetById] selects: also the payload. *)
Definition scan_GetById (r : Row) : TaskRow :=
  mkTaskRow (r_id r) (r_type r) (r_payload r) EmptyString (r_idempotency_key r)
    (status_text (r_status r)) (r_priority r) (r_attempts r) (r_max_retries r) (r_run_at r)
    (r_started_at r) (r_completed_at r) None None (r_last_error r) (r_created_at r) (r_updated_at r).

(** The columns [getByTypeAndIdempotencyKey] selects: also the payload hash. *)
Definition scan_by_key (r : Row) : TaskRow :=
  mkTaskRow (r_id r) (r_type r) (r_payload r) (r_payload_hash r) (r_idempotency_key r)
    (status_text (r_status r)) (r_priority r) (r_attempts r) (r_max_retries r) (r_run_at r)
    (r_started_at r) (r_completed_at r) None None (r_last_error r) (r_created_at r) (r_updated_at r).

(** The columns the claim returns. *)
Definition scan_claim (r : Row) : TaskRow :=
  mkTaskRow (r_id r) (r_type r) (r_payload r) EmptyString (r_idempotency_key r)
    EmptyString 0 (r_attempts r) (r_max_retries r) time_zero
    None None None None None time_zero time_zero.

(** ** SQL statements *)

Definition sql_error {A} (msg : string) : res A := Err (DriverError msg).

(** [VARCHAR(n)] columns refuse a longer text. *)
Definition fits (n : Z) (s : string) : bool := char_length s <=? n.

Definition same_key (typ : string) (key : option string) (r : Row) : bool :=
  match key, r_idempotency_key r with
  | Some k, Some k' => bool_decide (r_type r = typ) && bool_decide (k' = k)
  | _, _ => false
  end.

(** [INSERT INTO tasks(...) ... ON CONFLICT (type, idempotency_key) DO NOTHING
    RETURNING ...]: column types and the [CHECK] on [type] are verified first;
    a row with the same type and (non-NULL) key makes the insert return no row;
    a generated id that is taken violates the primary key. *)
Definition sql_insert_task (typ payload hash : string) (key : option string)
    (priority max_retries run_at : Z) : Stmt (option Row) := fun now e db =>
  if negb (in_int32 priority && in_int32 max_retries) then
    sql_error "integer out of range"
  else if negb (fits 100 typ && fits 255 (default EmptyString key)) then
    sql_error "value too long for type character varying"
  else if bool_decide (typ = EmptyString) then
    sql_error "new row violates check constraint"
  else
    match rows_where (same_key typ key) (tasks db) with
    | _ :: _ => Ok (None, [])
    | [] =>
        match tasks db !! ev_uuid e with
        | Some _ => sql_error "duplicate key value violates unique constraint"
        | None =>
            let r := mkRow (ev_uuid e) key typ payload hash PENDING priority 0 max_retries run_at
                       None None None None None now now in
            Ok (Some r, [PutTask r])
        end
    end.

(** [SELECT ... FROM tasks WHERE type = $1 AND idempotency_key = $2]. *)
Definition sql_get_by_key (typ key : string) : Stmt (option Row) := fun _ _ db =>
  Ok (head (rows_where (same_key typ (Some key)) (tasks db)), []).

(** [SELECT ... FROM tasks WHERE id = $1]. *)
Definition sql_get_by_id (id : uuid) : Stmt (option Row) := fun _ _ db =>
  Ok (tasks db !! id, []).

(** [UPDATE tasks SET f WHERE id = $1 AND p RETURNING ...]. *)
Definition sql_update (id : uuid) (p : Row -> bool) (f : Row -> Row) (db : DB) :
    option Row * list Write :=
  match tasks db !! id with
  | Some r => if p r then (Some (f r), [PutTask (f r)]) else (None, [])
  | None => (None, [])
  end.

Definition has_status (s : TaskStatus) (r : Row) : bool := bool_decide (r_status r = s).

(** [status = 'RUNNING' AND locked_by = $2]. *)
Definition owned_by (workerID : string) (r : Row) : bool :=
  has_status RUNNING r && bool_decide (r_locked_by r = Some workerID).

Definition set_cancel (now : Z) (r : Row) : Row :=
  set_updated_at now (set_status CANCELED r).

Definition sql_cancel (id : uuid) : Stmt (option Row) := fun now _ db =>
  Ok (sql_update id (has_status PENDING) (set_cancel now) db).

(** [WHERE status = 'PENDING' AND run_at <= now() ... FOR UPDATE SKIP LOCKED]. *)
Definition claimable (now : Z) (locked : gset uuid) (r : Row) : bool :=
  has_status PENDING r && (r_run_at r <=? now) && negb (bool_decide (r_id r ∈ locked)).

(** [ORDER BY priority DESC, run_at ASC]: [r1] may come before [r2]. *)
Definition claim_before (r1 r2 : Row) : bool :=
  (r_priority r2 <? r_priority r1) ||
  ((r_priority r1 =? r_priority r2) && (r_run_at r1 <=? r_run_at r2)).

(** [LIMIT 1] under that order. SQL leaves the choice among equals open: it is
    the event's [ev_pick]. *)
Definition claim_candidate (now : Z) (e : Event) (db : DB) : option Row :=
  let rows := rows_where (claimable now (ev_locked e)) (tasks db) in
  let firsts := List.filter (fun r => forallb (claim_before r) rows) rows in
  firsts !! (ev_pick e mod length firsts)%nat.

Definition set_claim (workerID : string) (now : Z) (r : Row) : Row :=
  set_updated_at now (set_attempts (r_attempts r + 1) (set_started_at (Some now)
    (set_lock (Some workerID) (Some now) (set_status RUNNING r)))).

Definition sql_claim (workerID : string) : Stmt (option Row) := fun now e db =>
  match claim_candidate now e db with
  | None => Ok (None, [])
  | Some r =>
      if negb (fits 100 workerID) then sql_error "value too long for type character varying"
      else if negb (in_int32 (r_attempts r + 1)) then sql_error "integer out of range"
      else let r' := set_claim workerID now r in Ok (Some r', [PutTask r'])
  end.

Definition set_heartbeat (workerID : string) (now : Z) (r : Row) : Row :=
  set_updated_at now (set_lock (r_locked_by r) (Some now) r).

(** [tag.RowsAffected()]. *)
Definition sql_heartbeat (taskID : uuid) (workerID : string) : Stmt Z := fun now _ db =>
  let (r, ws) := sql_update taskID (owned_by workerID) (set_heartbeat workerID now) db in
  Ok (match r with Some _ => 1 | None => 0 end, ws).

Definition set_completed (now : Z) (r : Row) : Row :=
  set_updated_at now (set_lock None None (set_completed_at (Some now) (set_status COMPLETED r))).

Definition sql_mark_completed (taskID : uuid) (workerID : string) : Stmt (option Row) :=
  fun now _ db => Ok (sql_update taskID (owned_by workerID) (set_completed now) db).

Definition set_pending (lastError : string) (nextRunAt now : Z) (r : Row) : Row :=
  set_updated_at now (set_lock None None (set_run_at nextRunAt
    (set_last_error (Some lastError) (set_status PENDING r)))).

Definition sql_mark_pending (taskID : uuid) (workerID lastError : string) (nextRunAt : Z) :
    Stmt (option Row) :=
  fun now _ db => Ok (sql_update taskID (owned_by workerID) (set_pending lastError nextRunAt now) db).

Definition set_dead (lastError : string) (now : Z) (r : Row) : Row :=
  set_updated_at now (set_lock None None (set_last_error (Some lastError) (set_status DEAD r))).

Definition sql_mark_dead (taskID : uuid) (workerID lastError : string) : Stmt (option Row) :=
  fun now _ db => Ok (sql_update taskID (owned_by workerID) (set_dead lastError now) db).

(** Rows of [task_logs] and [dead_letters] reference an existing task. *)
Definition sql_insert_dead_letter (taskID : uuid) (lastError : string) : Stmt unit := fun now _ db =>
  match tasks db !! taskID with
  | None => sql_error "insert or update violates foreign key constraint"
  | Some _ => Ok (tt, [AddDeadLetter (mkDeadLetter taskID lastError now)])
  end.

Definition sql_insert_log (taskID : uuid) (status : TaskStatus) (message : string) : Stmt unit :=
  fun now _ db =>
  match tasks db !! taskID with
  | None => sql_error "insert or update violates foreign key constraint"
  | Some _ => Ok (tt, [AddLog (mkLog taskID status message now)])
  end.

Definition set_retry_dead (now : Z) (r : Row) : Row :=
  set_updated_at now (set_last_error None (set_completed_at None (set_started_at None
    (set_lock None None (set_run_at now (set_attempts 0 (set_status PENDING r))))))).

Definition sql_retry_dead (taskID : uuid) : Stmt (option Row) := fun now _ db =>
  Ok (sql_update taskID (has_status DEAD) (set_retry_dead now) db).

Definition sql_delete_dead_letters (taskID : uuid) : Stmt unit := fun _ _ _ =>
  Ok (tt, [DelDeadLetters taskID]).

(** The CTE [stale]: [status = 'RUNNING' AND locked_at < now() - threshold],
    [FOR UPDATE SKIP LOCKED]; a NULL [locked_at] does not qualify. *)
Definition stale (now threshold : Z) (locked : gset uuid) (r : Row) : bool :=
  has_status RUNNING r &&
  match r_locked_at r with Some t => t <? now - threshold | None => false end &&
  negb (bool_decide (r_id r ∈ locked)).

Definition reaped_dead_error : string := "reaped: stale heartbeat (max retries exhausted)".
Definition reaped_pending_error : string := "reaped: stale heartbeat".

(** What the final [SELECT ... UNION ALL ...] returns per row. *)
Record reapedTask := mkReaped {
  rp_id : uuid;
  rp_status : TaskStatus;
  rp_attempts : Z;
  rp_maxRetries : Z;
  rp_lockedBy : string
}.

Definition reaped_row (s : TaskStatus) (r : Row) : reapedTask :=
  mkReaped (r_id r) s (r_attempts r) (r_max_retries r) (default EmptyString (r_locked_by r)).

Definition exhausted (r : Row) : bool := r_max_retries r <=? r_attempts r.

(** The whole [WITH stale ... to_dead ... insert_dead_letters ... to_pending]
    statement; its parts see the same snapshot. *)
Definition sql_requeue_stale (threshold : Z) : Stmt (list reapedTask) := fun now e db =>
  let st := rows_where (stale now threshold (ev_locked e)) (tasks db) in
  let deads := List.filter exhausted st in
  let pends := List.filter (fun r => negb (exhausted r)) st in
  Ok (map (reaped_row DEAD) deads ++ map (reaped_row PENDING) pends,
      map (fun r => PutTask (set_dead reaped_dead_error now r)) deads ++
      map (fun r => AddDeadLetter (mkDeadLetter (r_id r) reaped_dead_error now)) deads ++
      map (fun r => PutTask (set_pending reaped_pending_error now now r)) pends).

(** ** Listing *)

(** The [WHERE] clauses [List] builds, in its order. *)
Definition list_where (filter : TaskListFilter) : list (Row -> bool) :=
  (if bool_decide (f_Status filter = EmptyString) then []
   else [fun r => bool_decide (status_text (r_status r) = f_Status filter)]) ++
  (if bool_decide (f_Type filter = EmptyString) then []
   else [fun r => bool_decide (r_type r = f_Type filter)]) ++
  (match f_Retrying filter with
   | Some true => [has_status PENDING; fun r => 0 <? r_attempts r]
   | _ => []
   end).

(** The conjunction of the clauses; no clause selects every row. *)
Definition matches (clauses : list (Row -> bool)) (r : Row) : bool :=
  forallb (fun c => c r) clauses.

Definition sql_count (clauses : list (Row -> bool)) : Stmt Z := fun _ _ db =>
  Ok (Z.of_nat (length (rows_where (matches clauses) (tasks db))), []).

(** [ORDER BY created_at DESC]. *)
Definition newer (r1 r2 : Row) : Prop := r_created_at r2 <= r_created_at r1.
#[global] Instance newer_dec : RelDecision newer.
Proof. intros r1 r2. unfold newer. apply _. Defined.

(** [... ORDER BY created_at DESC LIMIT $n OFFSET $m]. *)
Definition sql_list (clauses : list (Row -> bool)) (limit offset : Z) : Stmt (list Row) :=
  fun _ _ db =>
  if limit <? 0 then sql_error "LIMIT must not be negative"
  else if offset <? 0 then sql_error "OFFSET must not be negative"
  else Ok (take (Z.to_nat limit) (drop (Z.to_nat offset)
             (merge_sort newer (rows_where (matches clauses) (tasks db)))), []).

(** ** Queue gauges *)

Record QueueDBMetrics := mkQueueDBMetrics {
  q_TasksPending : Z;
  q_TasksRunning : Z;
  q_TasksCompleted : Z;
  q_TasksCanceled : Z;
  q_TasksDead : Z;
  q_TasksPendingReady : Z;
  q_TasksPendingDelayed : Z
}.

(** [COUNT( * ) FILTER (WHERE p)]. *)
Definition count_rows (p : Row -> bool) (db : DB) : Z :=
  Z.of_nat (length (rows_where p (tasks db))).

Definition sql_queue_metrics : Stmt (option QueueDBMetrics) := fun now _ db =>
  Ok (Some (mkQueueDBMetrics
        (count_rows (has_status PENDING) db)
        (count_rows (has_status RUNNING) db)
        (count_rows (has_status COMPLETED) db)
        (count_rows (has_status CANCELED) db)
        (count_rows (has_status DEAD) db)
        (count_rows (fun r => has_status PENDING r && (r_run_at r <=? now)) db)
        (count_rows (fun r => has_status PENDING r && (now <? r_run_at r)) db)), []).

(** ** Operations *)

Definition insertLog (taskID : uuid) (status : TaskStatus) (message : string) : M (res unit) :=
  tx_exec (sql_insert_log taskID status message).

Definition getByTypeAndIdempotencyKey (taskType key : string) : M (res TaskRow) :=
  r <-? one_row (tx_exec (sql_get_by_key taskType key));
  ret (Ok (scan_by_key r)).

(** [GetById]: [Ok None] is Go's [(nil, nil)]. *)
Definition GetById (id : uuid) : M (res (option TaskRow)) :=
  r <- one_row (db_exec (sql_get_by_id id));
  match r with
  | Ok r => ret (Ok (Some (scan_GetById r)))
  | Err e => if errors_Is e ErrNoRows then ret (Ok None) else ret (Err e)
  end.

Definition List_ (filter : TaskListFilter) : M (res (list TaskRow * Z)) :=
  let clauses := list_where filter in
  total <-? db_exec (sql_count clauses) or "count tasks";
  rows <-? db_exec (sql_list clauses (f_Limit filter) (f_Offset filter)) or "list tasks";
  rows <-? db_fetch rows or "iterate task rows";
  ret (Ok (map scan_public rows, total)).

Definition cancel_message : string := "task canceled by user request".

(** [Cancel]: when no PENDING row was updated, the current state is read
    outside the transaction. *)
Definition Cancel (id : uuid) : M (res TaskRow) :=
  _ <-? Begin or "begin tx";
  defer_rollback (
    r <- one_row (tx_exec (sql_cancel id));
    match r with
    | Err e =>
        if errors_Is e ErrNoRows then
          current <-? GetById id;
          match current with
          | None => ret (Err ErrTaskNotFound)
          | Some t => ret (Ok t)
          end
        else ret (Err (Wrapped "cancel task" e))
    | Ok row =>
        _ <-? insertLog (r_id row) CANCELED cancel_message or "insert cancel log";
        _ <-? Commit or "commit cancel";
        _ <- add_metric (add_canceled 1);
        ret (Ok (scan_public row))
    end).

Definition claim_message (workerID : string) (t : TaskRow) : string :=
  "claimed by worker " +:+ workerID +:+ " (attempt " +:+ itoa (t_Attempts t) +:+ "/" +:+
  itoa (t_MaxRetries t) +:+ ")".

Definition Claim (workerID : string) : M (res TaskRow) :=
  _ <-? Begin or "begin tx";
  defer_rollback (
    r <- one_row (tx_exec (sql_claim workerID));
    match r with
    | Err e => if bool_decide (e = ErrNoRows) then ret (Err ErrTaskNotAvailable) else ret (Err e)
    | Ok row =>
        let task := scan_claim row in
        _ <-? insertLog (t_ID task) RUNNING (claim_message workerID task) or "insert claim log";
        _ <-? Commit or "commit claim";
        ret (Ok task)
    end).

Definition Heartbeat (taskID : uuid) (workerID : string) : M (res unit) :=
  affected <-? db_exec (sql_heartbeat taskID workerID) or "hearbeat task";
  if affected =? 0 then ret (Err ErrTaskOwnershipLost) else ret (Ok tt).

(** The ownership test shared by the three terminal writes. *)
Definition ownership_or (prefix : string) (e : error) : error :=
  if errors_Is e ErrNoRows then ErrTaskOwnershipLost else Wrapped prefix e.

Definition completed_message (workerID : string) (durationMs : Z) : string :=
  "completed by worker " +:+ workerID +:+ " after " +:+ itoa durationMs +:+ "ms".

Definition MarkCompleted (taskID : uuid) (workerID : string) (durationMs : Z) : M (res unit) :=
  _ <-? Begin or "begin tx";
  defer_rollback (
    r <- one_row (tx_exec (sql_mark_completed taskID workerID));
    match r with
    | Err e => ret (Err (ownership_or "mark complete" e))
    | Ok _ =>
        _ <-? insertLog taskID COMPLETED (completed_message workerID durationMs) or "insert complete log";
        _ <-? Commit or "commit complete";
        _ <- add_metric (add_completed 1);
        ret (Ok tt)
    end).

Definition pending_message (task : TaskRow) (lastError : string) (nextRunAt : Z) : string :=
  "attempt " +:+ itoa (t_Attempts task) +:+ "/" +:+ itoa (t_MaxRetries task) +:+
  " failed, retrying at " +:+ format_RFC3339 nextRunAt +:+ ": " +:+ lastError.

Definition MarkPending (task : TaskRow) (workerID lastError : string) (nextRunAt : Z) : M (res unit) :=
  _ <-? Begin or "begin tx";
  defer_rollback (
    r <- one_row (tx_exec (sql_mark_pending (t_ID task) workerID lastError nextRunAt));
    match r with
    | Err e => ret (Err (ownership_or "mark pending" e))
    | Ok _ =>
        _ <-? insertLog (t_ID task) PENDING (pending_message task lastError nextRunAt)
                or "insert pending log";
        _ <-? Commit or "commit pending";
        _ <- add_metric (add_attempt_failures 1);
        _ <- add_metric (add_retried 1);
        ret (Ok tt)
    end).

Definition MarkDead (taskID : uuid) (workerID lastError reason : string) : M (res unit) :=
  _ <-? Begin or "begin tx";
  defer_rollback (
    r <- one_row (tx_exec (sql_mark_dead taskID workerID lastError));
    match r with
    | Err e => ret (Err (ownership_or "mark dead" e))
    | Ok _ =>
        _ <-? tx_exec (sql_insert_dead_letter taskID lastError) or "insert dead letter";
        _ <-? insertLog taskID DEAD ("marked dead: " +:+ reason) or "insert dead log";
        _ <-? Commit or "commit dead";
        _ <- add_metric (add_attempt_failures 1);
        _ <- add_metric (add_dead 1);
        ret (Ok tt)
    end).

Definition retry_message : string := "manual retry requested".

Definition RetryDead (taskID : uuid) : M (res TaskRow) :=
  _ <-? Begin or "begin tx";
  defer_rollback (
    r <- one_row (tx_exec (sql_retry_dead taskID));
    match r with
    | Err e =>
        if errors_Is e ErrNoRows then
          existing <-? GetById taskID;
          match existing with
          | None => ret (Err ErrTaskNotFound)
          | Some _ => ret (Err ErrTaskNotDead)
          end
        else ret (Err (Wrapped "retry dead task" e))
    | Ok row =>
        _ <-? tx_exec (sql_delete_dead_letters taskID) or "delete dead letter";
        _ <-? insertLog taskID PENDING retry_message or "insert retry log";
        _ <-? Commit or "commit retry dead";
        ret (Ok (scan_public row))
    end).

Definition reaped_message (reaperID : string) (r : reapedTask) : string :=
  match rp_status r with
  | PENDING =>
      "reaped by " +:+ reaperID +:+ ": stale heartbeat; previous worker=" +:+ rp_lockedBy r +:+
      "; attempt " +:+ itoa (rp_attempts r) +:+ "/" +:+ itoa (rp_maxRetries r) +:+ " requeued"
  | DEAD =>
      "reaped by " +:+ reaperID +:+ ": stale heartbeat; previous worker=" +:+ rp_lockedBy r +:+
      "; attempt exhausted (" +:+ itoa (rp_attempts r) +:+ "/" +:+ itoa (rp_maxRetries r) +:+ ")"
  | _ => "reaped by " +:+ reaperID +:+ ": stale heartbeat"
  end.

(** The loop over the reaped rows: one log row each, [changed] counts them. *)
Fixpoint log_reaped (reaperID : string) (reaped : list reapedTask) (changed : Z) : M (res Z) :=
  match reaped with
  | [] => ret (Ok changed)
  | r :: rest =>
      _ <-? insertLog (rp_id r) (rp_status r) (reaped_message reaperID r) or "insert reaper log";
      log_reaped reaperID rest (changed + 1)
  end.

Definition RequeueStaleRunning (staleThreshold : Z) (reaperID : string) : M (res Z) :=
  _ <-? Begin or "begin tx";
  defer_rollback (
    rows <-? tx_exec (sql_requeue_stale staleThreshold) or "requeue stale running";
    reaped <-? tx_fetch rows or "iterate reaped rows";
    changed <-? log_reaped reaperID reaped 0;
    _ <-? Commit or "commit requeue stale running";
    _ <- add_metric (add_reaped changed);
    ret (Ok changed)).

Definition GetQueueDBMetrics : M (res QueueDBMetrics) :=
  m <-? one_row (db_exec sql_queue_metrics) or "get queue db metrics";
  ret (Ok m).

Section Insert.
Context {hasher : PayloadHasher}.

(** [Scan(&task.ID, &task.Status, &task.Attempts, &task.CreatedAt, &task.UpdatedAt)]. *)
Definition scan_inserted (task : TaskRow) (r : Row) : TaskRow :=
  mkTaskRow (r_id r) (t_Type task) (t_Payload task) (t_PayloadHash task) (t_IdempotencyKey task)
    (status_text (r_status r)) (t_Priority task) (r_attempts r) (t_MaxRetries task) (t_RunAt task)
    (t_StartedAt task) (t_CompletedAt task) (t_LockedAt task) (t_LockedBy task) (t_LastError task)
    (r_created_at r) (r_updated_at r).

(** pgx refuses to encode a number that is no [INT]; nothing reaches the server,
    and the transaction goes on. *)
Definition encodable (task : TaskRow) : bool := in_int32 (t_Priority task) && in_int32 (t_MaxRetries task).

(** [insertTask] and the [*task] it leaves behind. Only [ErrNoRows] is
    examined after the [INSERT]: any other error falls through to the
    success path with [task] as it was. [ErrNoRows] implies a conflicting
    key, so [*task.IdempotencyKey] is not nil then. *)
Definition insertTask (task : TaskRow) : M (res (bool * TaskRow)) :=
  match hashPayload (t_Payload task) with
  | Err e => ret (Err e)
  | Ok payloadHash =>
      r <- (if encodable task then
              one_row (tx_exec (sql_insert_task (t_Type task) (t_Payload task) payloadHash
                (t_IdempotencyKey task) (t_Priority task) (t_MaxRetries task) (t_RunAt task)))
            else ret (Err (DriverError "unable to encode into binary format for int4")));
      match r with
      | Err e =>
          if errors_Is e ErrNoRows then
            existingTask <-? getByTypeAndIdempotencyKey (t_Type task)
                               (default EmptyString (t_IdempotencyKey task));
            if negb (bool_decide (t_PayloadHash existingTask = payloadHash))
            then ret (Err ErrTaskConflict)
            else ret (Ok (false, existingTask))
          else
            _ <- add_metric (add_enqueued 1);
            ret (Ok (true, task))
      | Ok row =>
          _ <- add_metric (add_enqueued 1);
          ret (Ok (true, scan_inserted task row))
      end
  end.

Definition CreateTx (task : TaskRow) : M (res (bool * TaskRow)) := insertTask task.

Definition Create (task : TaskRow) : M (res (bool * TaskRow)) :=
  _ <-? Begin or "begin tx";
  defer_rollback (
    created <-? CreateTx task;
    _ <-? Commit or "commit tx";
    ret (Ok created)).
End Insert.
