(* ===== verification/Lifecycle.v ===== *)
(** Lifecycle: the abstract state machine of a task and the invariant of the
    database.

    [TaskView] is what the tables say about one task: its row, the statuses its
    log rows record in order, and the number of its dead letters. [task_step]
    is the specification: one rule per way a task may change, with its guard
    and the exact new row. [db_step] lifts it to the database. The operations
    of [TaskStore] are shown to follow it in [StoreRefine].

    [Inv] says that the log of every task, replayed through the state machine
    from a fresh PENDING task, gives the status and the attempt count of its
    row; that DEAD tasks, and only they, have exactly one dead letter; that
    RUNNING tasks, and only they, carry a lock; and that (type, key) is unique. *)

From S2P Require Import Prelude Dharatype GoTime Float64 Metrics Pg TaskStore.

(** ** Views *)

Definition is_log_of (id : uuid) (l : LogRow) : bool := bool_decide (l_task_id l = id).
Definition is_letter_of (id : uuid) (d : DeadLetter) : bool := bool_decide (d_task_id d = id).

Definition history (id : uuid) (db : DB) : list TaskStatus :=
  map l_status (List.filter (is_log_of id) (task_logs db)).

Definition dead_count (id : uuid) (db : DB) : nat :=
  length (List.filter (is_letter_of id) (dead_letters db)).

Record TaskView := mkView {
  v_row : option Row;
  v_hist : list TaskStatus;
  v_dead : nat
}.

Definition view (id : uuid) (db : DB) : TaskView :=
  mkView (tasks db !! id) (history id db) (dead_count id db).

(** ** The state machine *)

(** A row as [INSERT] leaves it. *)
Definition fresh_row (r : Row) : Prop :=
  r_status r = PENDING /\ r_attempts r = 0 /\ r_locked_by r = None /\ r_locked_at r = None /\
  r_started_at r = None /\ r_completed_at r = None /\ r_last_error r = None.

(** When a worker may send a running task back to PENDING: a parameter of the
    state machine, [any_retry] when every retry is allowed. *)
Class RetryPolicy : Type := retry_ok : Row -> Prop.

Inductive task_step {policy : RetryPolicy} (id : uuid) : TaskView -> TaskView -> Prop :=
  | ts_same v : task_step id v v
  | ts_enqueue r :
      fresh_row r -> r_id r = id ->
      task_step id (mkView None [] 0) (mkView (Some r) [] 0)
  | ts_cancel r h d now :
      r_status r = PENDING ->
      task_step id (mkView (Some r) h d) (mkView (Some (set_cancel now r)) (h ++ [CANCELED]) d)
  | ts_claim r h d workerID now :
      r_status r = PENDING -> r_run_at r <= now ->
      task_step id (mkView (Some r) h d)
        (mkView (Some (set_claim workerID now r)) (h ++ [RUNNING]) d)
  | ts_heartbeat r h d workerID now :
      owned_by workerID r = true ->
      task_step id (mkView (Some r) h d) (mkView (Some (set_heartbeat workerID now r)) h d)
  | ts_complete r h d workerID now :
      owned_by workerID r = true ->
      task_step id (mkView (Some r) h d) (mkView (Some (set_completed now r)) (h ++ [COMPLETED]) d)
  | ts_retry r h d workerID lastError nextRunAt now :
      owned_by workerID r = true -> retry_ok r ->
      task_step id (mkView (Some r) h d)
        (mkView (Some (set_pending lastError nextRunAt now r)) (h ++ [PENDING]) d)
  | ts_dead r h d workerID lastError now :
      owned_by workerID r = true ->
      task_step id (mkView (Some r) h d)
        (mkView (Some (set_dead lastError now r)) (h ++ [DEAD]) (S d))
  | ts_retry_dead r h d now :
      r_status r = DEAD ->
      task_step id (mkView (Some r) h d)
        (mkView (Some (set_retry_dead now r)) (h ++ [PENDING]) 0)
  | ts_reap_dead r h d threshold now :
      stale now threshold ∅ r = true -> exhausted r = true ->
      task_step id (mkView (Some r) h d)
        (mkView (Some (set_dead reaped_dead_error now r)) (h ++ [DEAD]) (S d))
  | ts_reap_pending r h d threshold now :
      stale now threshold ∅ r = true -> exhausted r = false ->
      task_step id (mkView (Some r) h d)
        (mkView (Some (set_pending reaped_pending_error now now r)) (h ++ [PENDING]) d).

(** A new task's (type, key) is not taken. *)
Definition keys_fresh (db db' : DB) : Prop :=
  forall id r, tasks db !! id = None -> tasks db' !! id = Some r ->
  forall id' r', tasks db' !! id' = Some r' ->
  same_key (r_type r) (r_idempotency_key r) r' = true -> id' = id.

Definition db_step {policy : RetryPolicy} (db db' : DB) : Prop :=
  (forall id, task_step id (view id db) (view id db')) /\ keys_fresh db db'.

(** ** The invariant *)

(** One log row of a task: its next status and attempt count, if the state
    machine allows it. *)
Definition advance (s : TaskStatus * Z) (next : TaskStatus) : option (TaskStatus * Z) :=
  match s, next with
  | (PENDING, n), RUNNING => Some (RUNNING, n + 1)
  | (PENDING, n), CANCELED => Some (CANCELED, n)
  | (RUNNING, n), COMPLETED => Some (COMPLETED, n)
  | (RUNNING, n), PENDING => Some (PENDING, n)
  | (RUNNING, n), DEAD => Some (DEAD, n)
  | (DEAD, _), PENDING => Some (PENDING, 0)
  | _, _ => None
  end.

Fixpoint replay_from (s : TaskStatus * Z) (h : list TaskStatus) : option (TaskStatus * Z) :=
  match h with
  | [] => Some s
  | next :: h' => match advance s next with Some s' => replay_from s' h' | None => None end
  end.

Definition replay : list TaskStatus -> option (TaskStatus * Z) := replay_from (PENDING, 0).

(** The lock columns are set exactly while RUNNING. *)
Definition lock_ok (r : Row) : Prop :=
  if decide (r_status r = RUNNING)
  then is_Some (r_locked_by r) /\ is_Some (r_locked_at r)
  else r_locked_by r = None /\ r_locked_at r = None.

Definition completed_ok (r : Row) : Prop :=
  is_Some (r_completed_at r) <-> r_status r = COMPLETED.

Definition view_ok (id : uuid) (v : TaskView) : Prop :=
  match v_row v with
  | None => v_hist v = [] /\ v_dead v = 0%nat
  | Some r =>
      r_id r = id /\
      replay (v_hist v) = Some (r_status r, r_attempts r) /\
      v_dead v = (if decide (r_status r = DEAD) then 1 else 0)%nat /\
      lock_ok r /\ completed_ok r
  end.

Definition unique_keys (db : DB) : Prop :=
  forall id1 r1 id2 r2, tasks db !! id1 = Some r1 -> tasks db !! id2 = Some r2 ->
  same_key (r_type r1) (r_idempotency_key r1) r2 = true -> id1 = id2.

Definition Inv (db : DB) : Prop := (forall id, view_ok id (view id db)) /\ unique_keys db.

(** What an existing task keeps for ever. *)
Definition identity (r : Row) :=
  (r_id r, r_type r, r_idempotency_key r, r_payload r, r_payload_hash r,
   r_priority r, r_max_retries r, r_created_at r).

(** ** Lemmas *)

Lemma replay_from_snoc s h next :
  replay_from s (h ++ [next]) = (replay_from s h ≫= fun s' => advance s' next).
Proof.
  revert s. induction h as [|x h IH]; intros s; simpl.
  - destruct (advance s next); done.
  - destruct (advance s x); simpl; [apply IH|done].
Qed.

Lemma replay_snoc h next s :
  replay h = Some s -> replay (h ++ [next]) = advance s next.
Proof. unfold replay. intros H. rewrite replay_from_snoc, H. done. Qed.

Lemma replay_attempts_nonneg s h s' n' :
  replay_from s h = Some (s', n') -> 0 <= s.2 -> 0 <= n'.
Proof.
  revert s. induction h as [|x h IH]; intros [s n]; cbn [replay_from].
  - by intros [= -> ->].
  - destruct (advance (s, n) x) as [[s1 n1]|] eqn:E; [|discriminate].
    intros H Hn. apply (IH _ H). destruct s, x; simpl in *; simplify_eq; lia.
Qed.

Lemma owned_by_true w r :
  owned_by w r = true <-> r_status r = RUNNING /\ r_locked_by r = Some w.
Proof.
  unfold owned_by, has_status. rewrite andb_true_iff, !bool_decide_eq_true. done.
Qed.

Lemma stale_running now thr l r : stale now thr l r = true -> r_status r = RUNNING.
Proof. unfold stale, has_status. intros H. bool_to_prop. done. Qed.

Lemma empty_db_Inv : Inv empty_db.
Proof.
  split.
  - intros id. unfold view_ok, view. simpl. by rewrite lookup_empty.
  - intros id1 r1 id2 r2 H. simpl in H. by rewrite lookup_empty in H.
Qed.

(** What a step needs to know of the status it starts from. *)
Ltac known_status :=
  repeat match goal with
  | H : owned_by _ _ = true |- _ => apply owned_by_true in H as [? ?]
  | H : stale _ _ _ _ = true |- _ => apply stale_running in H
  end;
  repeat match goal with
  | H : r_status ?r = _, H' : context [r_status ?r] |- _ => rewrite H in H'
  | H : r_status ?r = _ |- context [r_status ?r] => rewrite H
  end.

(** Every rule keeps the invariant of the task it changes. *)
Lemma task_step_ok {policy : RetryPolicy} id v v' : task_step id v v' -> view_ok id v -> view_ok id v'.
Proof.
  intros Hstep. destruct Hstep as [|r Hfresh Hid| | | | | | | | |]; [done|..].
  { intros _. destruct Hfresh as (Hs & Ha & Hb & Ht & _ & Hc & _).
    unfold view_ok, lock_ok, completed_ok. simpl. rewrite Hs, Ha, Hb, Ht, Hc. simpl.
    by repeat split. }
  all: unfold view_ok, lock_ok, completed_ok; simpl; intros (Hid & Hrep & Hd & Hl & Hc);
    known_status; simpl in *; try (rewrite (replay_snoc _ _ _ Hrep); simpl).
  all: naive_solver.
Qed.

(** A step keeps an existing task's row and its identity, and only appends to
    its history. *)
Lemma task_step_row {policy : RetryPolicy} id v v' r :
  task_step id v v' -> v_row v = Some r ->
  exists r', v_row v' = Some r' /\ identity r' = identity r.
Proof. by destruct 1; simpl; intros; simplify_eq; eauto. Qed.

Lemma task_step_hist {policy : RetryPolicy} id v v' : task_step id v v' -> v_hist v `prefix_of` v_hist v'.
Proof. destruct 1; simpl; try done; by eexists. Qed.

Definition final_row (r : Row) : Prop := r_status r = COMPLETED \/ r_status r = CANCELED.

Lemma task_step_final {policy : RetryPolicy} id v v' r :
  task_step id v v' -> v_row v = Some r -> final_row r -> v' = v.
Proof.
  unfold final_row. by destruct 1; simpl; intros; simplify_eq; known_status; naive_solver.
Qed.

Lemma same_key_identity r1 r2 r1' r2' :
  identity r1' = identity r1 -> identity r2' = identity r2 ->
  same_key (r_type r1') (r_idempotency_key r1') r2' = same_key (r_type r1) (r_idempotency_key r1) r2.
Proof.
  unfold identity, same_key. intros [= _ -> -> _ _ _ _ _] [= _ -> -> _ _ _ _ _]. done.
Qed.

Lemma same_key_comm r1 r2 :
  same_key (r_type r1) (r_idempotency_key r1) r2 = true ->
  same_key (r_type r2) (r_idempotency_key r2) r1 = true.
Proof.
  unfold same_key. repeat case_match; try done. intros. bool_to_prop. subst.
  rewrite andb_true_iff, !bool_decide_eq_true. done.
Qed.

(** Rows of the later state are rows of the earlier one or new. *)
Lemma db_step_row_origin {policy : RetryPolicy} db db' id r' :
  db_step db db' -> tasks db' !! id = Some r' ->
  tasks db !! id = None \/ exists r, tasks db !! id = Some r /\ identity r' = identity r.
Proof.
  intros [Hstep _] Hr'. destruct (tasks db !! id) as [r|] eqn:Hr; [|by left].
  destruct (task_step_row _ _ _ r (Hstep id) Hr) as (r'' & H1 & H2).
  simpl in H1. rewrite H1 in Hr'. injection Hr' as <-. right. by exists r.
Qed.

Lemma db_step_unique_keys {policy : RetryPolicy} db db' : db_step db db' -> unique_keys db -> unique_keys db'.
Proof.
  intros Hs Huniq id1 r1' id2 r2' H1 H2 Hk. pose proof (proj2 Hs) as Hfresh.
  destruct (db_step_row_origin _ _ _ _ Hs H1) as [Hn|(r1 & Hr1 & Hi1)];
    [symmetry; eapply Hfresh; eauto|].
  destruct (db_step_row_origin _ _ _ _ Hs H2) as [Hn|(r2 & Hr2 & Hi2)];
    [eapply Hfresh; eauto using same_key_comm|].
  apply (Huniq _ _ _ _ Hr1 Hr2). by rewrite <- (same_key_identity _ _ _ _ Hi1 Hi2).
Qed.

Lemma db_step_Inv {policy : RetryPolicy} db db' : db_step db db' -> Inv db -> Inv db'.
Proof.
  intros Hs [Hv Hu]. split; [|by eapply db_step_unique_keys].
  intros id. eapply task_step_ok; [apply Hs|apply Hv].
Qed.

Lemma db_steps_Inv {policy : RetryPolicy} db db' : rtc db_step db db' -> Inv db -> Inv db'.
Proof. induction 1; eauto using db_step_Inv. Qed.

Lemma db_step_refl {policy : RetryPolicy} db : db_step db db.
Proof. split; [constructor|]. intros id r H1 H2. congruence. Qed.

#[export] Hint Resolve db_step_refl db_step_Inv db_steps_Inv empty_db_Inv : dhara.

(** ** Consequences for whole histories *)

Lemma db_steps_row {policy : RetryPolicy} db db' id r :
  rtc db_step db db' -> tasks db !! id = Some r ->
  exists r', tasks db' !! id = Some r' /\ identity r' = identity r.
Proof.
  intros Hrtc. revert r. induction Hrtc as [|db db1 db' Hs _ IH]; [by eauto|]. intros r Hr.
  destruct (task_step_row _ _ _ r (proj1 Hs id) Hr) as (r1 & Hr1 & Hi1).
  destruct (IH _ Hr1) as (r' & Hr' & Hi'). exists r'. split; [done|congruence].
Qed.

Lemma db_steps_final {policy : RetryPolicy} db db' id r :
  rtc db_step db db' -> tasks db !! id = Some r -> final_row r -> view id db' = view id db.
Proof.
  intros Hrtc. induction Hrtc as [|db db1 db' Hs _ IH]; [done|]. intros Hr Hf.
  pose proof (task_step_final _ _ _ _ (proj1 Hs id) Hr Hf) as Heq.
  rewrite <- Heq. apply IH; [|done]. by injection Heq as ->.
Qed.

Lemma db_steps_history {policy : RetryPolicy} db db' id :
  rtc db_step db db' -> history id db `prefix_of` history id db'.
Proof.
  induction 1 as [|db db1 db' Hs _ IH]; [done|]. etrans; [|exact IH].
  apply (task_step_hist _ _ _ (proj1 Hs id)).
Qed.
