(* ===== verification/StoreRefine.v ===== *)
(** StoreRefine: the operations of [TaskStore] follow the state machine of
    [Lifecycle], whatever fails and whatever other sessions commit. *)

From S2P Require Import Prelude Dharatype GoTime Float64 Metrics Pg PgLogic TaskStore Lifecycle.

(** Other sessions follow the state machine too. *)
Definition env_ok {policy : RetryPolicy} (o : Oracle) : Prop := forall n db, rtc db_step db (ev_env (o n) db).

(** [m] moves the committed database along the state machine and leaves no
    transaction open, for every oracle whose other sessions do. *)
Definition refines {policy : RetryPolicy} {A} (m : M A) : Prop :=
  forall o w, env_ok o -> w_tx w = None -> Inv (w_db w) ->
  rtc db_step (w_db w) (w_db (m o w).2) /\ w_tx (m o w).2 = None.

(** ** Views of written states *)

(** What a write does to the view of task [id]. *)
Definition view_write (id : uuid) (v : TaskView) (w : Write) : TaskView :=
  match w with
  | PutTask r => if decide (r_id r = id) then mkView (Some r) (v_hist v) (v_dead v) else v
  | DelTask i => if decide (i = id) then mkView None (v_hist v) (v_dead v) else v
  | AddLog l =>
      if decide (l_task_id l = id) then mkView (v_row v) (v_hist v ++ [l_status l]) (v_dead v) else v
  | DelLogs i n => if decide (i = id) then mkView (v_row v) (drop n (v_hist v)) (v_dead v) else v
  | AddDeadLetter d =>
      if decide (d_task_id d = id) then mkView (v_row v) (v_hist v) (S (v_dead v)) else v
  | DelDeadLetters i => if decide (i = id) then mkView (v_row v) (v_hist v) 0 else v
  | DelOldLetters i n => if decide (i = id) then mkView (v_row v) (v_hist v) (v_dead v - n) else v
  end.

Lemma filter_negb_nil {A} (p : A -> bool) l :
  List.filter p (List.filter (fun x => negb (p x)) l) = [].
Proof.
  induction l as [|x l IH]; [done|]. simpl. destruct (p x) eqn:E; simpl; [done|]. by rewrite E.
Qed.

Lemma filter_filter_other {A} (p q : A -> bool) l :
  (forall x, p x = true -> q x = true) -> List.filter p (List.filter q l) = List.filter p l.
Proof.
  intros H. induction l as [|x l IH]; [done|]. simpl.
  destruct (q x) eqn:E; simpl; [by rewrite IH|].
  destruct (p x) eqn:E'; [|done]. by rewrite (H _ E') in E.
Qed.

Lemma filter_del_same {A} (key : A -> uuid) id l :
  List.filter (fun x => bool_decide (key x = id))
    (List.filter (fun x => negb (bool_decide (key x = id))) l) = [].
Proof. apply filter_negb_nil. Qed.

Lemma filter_del_other {A} (key : A -> uuid) i id l :
  i <> id ->
  List.filter (fun x => bool_decide (key x = id))
    (List.filter (fun x => negb (bool_decide (key x = i))) l) =
  List.filter (fun x => bool_decide (key x = id)) l.
Proof.
  intros Hne. apply filter_filter_other. intros x Hx. bool_to_prop.
  rewrite bool_decide_false; [done|congruence].
Qed.

Lemma filter_drop_where {A} (p : A -> bool) n l :
  List.filter p (drop_where p n l) = drop n (List.filter p l).
Proof.
  revert n. induction l as [|x l IH]; intros [|n]; [done..|]. simpl.
  destruct (p x) eqn:E; simpl; [apply IH|]. by rewrite E, IH.
Qed.

Lemma filter_drop_other {A} (key : A -> uuid) i id n l :
  i <> id ->
  List.filter (fun x => bool_decide (key x = id)) (drop_where (fun x => bool_decide (key x = i)) n l) =
  List.filter (fun x => bool_decide (key x = id)) l.
Proof.
  intros Hne. revert n. induction l as [|x l IH]; intros [|n]; [done..|]. simpl.
  case_bool_decide as E; simpl; [|by rewrite IH].
  rewrite (bool_decide_false (key x = id)) by congruence. apply IH.
Qed.

Lemma view_apply_write id w db : view id (apply_write w db) = view_write id (view id db) w.
Proof.
  unfold view, history, dead_count, is_log_of, is_letter_of.
  destruct w as [r|i|l|i n|d|i|i n]; simpl; case_decide as Hd; try subst.
  - by rewrite lookup_insert_eq.
  - by rewrite lookup_insert_ne.
  - by rewrite lookup_delete_eq.
  - by rewrite lookup_delete_ne.
  - rewrite List.filter_app, map_app. simpl. by rewrite bool_decide_true.
  - rewrite List.filter_app, map_app. simpl. rewrite bool_decide_false by done.
    by rewrite app_nil_r.
  - rewrite filter_drop_where. f_equal. apply fmap_drop.
  - by rewrite filter_drop_other.
  - rewrite List.filter_app, length_app. simpl. rewrite bool_decide_true by done. simpl.
    f_equal. lia.
  - rewrite List.filter_app. simpl. rewrite bool_decide_false by done. by rewrite app_nil_r.
  - by rewrite filter_del_same.
  - by rewrite filter_del_other.
  - by rewrite filter_drop_where, length_drop.
  - by rewrite filter_drop_other.
Qed.

Lemma view_apply_writes id ws db :
  view id (apply_writes ws db) = foldl (view_write id) (view id db) ws.
Proof.
  revert db. induction ws as [|w ws IH]; intros db; [done|]. simpl.
  by rewrite IH, view_apply_write.
Qed.

(** A write to another task does not show in the view. *)
Definition about (w : Write) : uuid :=
  match w with
  | PutTask r => r_id r
  | DelTask i | DelLogs i _ | DelDeadLetters i | DelOldLetters i _ => i
  | AddLog l => l_task_id l
  | AddDeadLetter d => d_task_id d
  end.

Lemma view_write_other id v w : about w <> id -> view_write id v w = v.
Proof. destruct w; simpl; intros; by rewrite decide_False. Qed.

Lemma view_writes_other id v ws : Forall (fun w => about w <> id) ws -> foldl (view_write id) v ws = v.
Proof.
  intros H. revert v. induction H as [|w ws Hw _ IH]; intros v; [done|]. simpl.
  by rewrite view_write_other.
Qed.

Lemma view_write_put id v r :
  r_id r = id -> view_write id v (PutTask r) = mkView (Some r) (v_hist v) (v_dead v).
Proof. intros H. simpl. by rewrite decide_True. Qed.
Lemma view_write_log id v l :
  l_task_id l = id -> view_write id v (AddLog l) = mkView (v_row v) (v_hist v ++ [l_status l]) (v_dead v).
Proof. intros H. simpl. by rewrite decide_True. Qed.
Lemma view_write_letter id v d :
  d_task_id d = id -> view_write id v (AddDeadLetter d) = mkView (v_row v) (v_hist v) (S (v_dead v)).
Proof. intros H. simpl. by rewrite decide_True. Qed.
Lemma view_write_del_letters id v :
  view_write id v (DelDeadLetters id) = mkView (v_row v) (v_hist v) 0.
Proof. simpl. by rewrite decide_True. Qed.
Lemma view_lookup id r db :
  tasks db !! id = Some r -> view id db = mkView (Some r) (history id db) (dead_count id db).
Proof. intros H. unfold view. by rewrite H. Qed.

(** Writes about one existing task make a database step if they make a step of
    that task. *)
Lemma db_step_at {policy : RetryPolicy} id r db ws :
  tasks db !! id = Some r -> Forall (fun w => about w = id) ws ->
  task_step id (view id db) (foldl (view_write id) (view id db) ws) ->
  db_step db (apply_writes ws db).
Proof.
  intros Hr Hws Hstep.
  assert (forall id', id' <> id -> view id' (apply_writes ws db) = view id' db) as Hother.
  { intros id' Hne. rewrite view_apply_writes. apply view_writes_other.
    eapply Forall_impl; [exact Hws|]. simpl. congruence. }
  split.
  - intros id'. destruct (decide (id' = id)) as [->|Hne].
    + by rewrite view_apply_writes.
    + rewrite Hother by done. constructor.
  - intros id1 r1 Hn Hs. assert (id1 <> id) as Hne by congruence.
    pose proof (f_equal v_row (Hother _ Hne)) as Heq. simpl in Heq. congruence.
Qed.

(** ** One step per operation *)

Lemma Inv_id db id r : Inv db -> tasks db !! id = Some r -> r_id r = id.
Proof. intros [Hv _] Hr. specialize (Hv id). unfold view_ok, view in Hv. simpl in Hv. rewrite Hr in Hv. apply Hv. Qed.

(** Closes [db_step db (apply_writes ws db)] for concrete writes about the task
    [r] with a rule of the state machine. *)
Ltac step_at id r rule :=
  apply (db_step_at id r); [done|by repeat constructor|];
  cbn [foldl];
  rewrite ?view_write_put, ?view_write_log, ?view_write_letter, ?view_write_del_letters by done;
  rewrite (view_lookup id r) by done; cbn [v_row v_hist v_dead l_status];
  rule.

Section steps.
Context {policy : RetryPolicy}.
Context (db : DB) (id : uuid) (r : Row) (HInv : Inv db) (Hr : tasks db !! id = Some r).
Implicit Types (now : Z).

Local Lemma r_is_id : r_id r = id.
Proof. by eapply Inv_id. Qed.

Lemma step_cancel now m t : r_status r = PENDING ->
  db_step db (apply_writes [PutTask (set_cancel now r); AddLog (mkLog id CANCELED m t)] db).
Proof. intros. pose proof r_is_id. by step_at id r ltac:(apply ts_cancel). Qed.

Lemma step_claim workerID now m t : r_status r = PENDING -> r_run_at r <= now ->
  db_step db (apply_writes [PutTask (set_claim workerID now r); AddLog (mkLog id RUNNING m t)] db).
Proof. intros. pose proof r_is_id. by step_at id r ltac:(apply ts_claim). Qed.

Lemma step_heartbeat workerID now : owned_by workerID r = true ->
  db_step db (apply_writes [PutTask (set_heartbeat workerID now r)] db).
Proof. intros. pose proof r_is_id. by step_at id r ltac:(apply ts_heartbeat). Qed.

Lemma step_complete workerID now m t : owned_by workerID r = true ->
  db_step db (apply_writes [PutTask (set_completed now r); AddLog (mkLog id COMPLETED m t)] db).
Proof. intros. pose proof r_is_id. by step_at id r ltac:(eapply ts_complete). Qed.

Lemma step_retry workerID lastError next now m t : owned_by workerID r = true -> retry_ok r ->
  db_step db (apply_writes
    [PutTask (set_pending lastError next now r); AddLog (mkLog id PENDING m t)] db).
Proof. intros. pose proof r_is_id. by step_at id r ltac:(eapply ts_retry). Qed.

Lemma step_dead workerID lastError now e m t1 t2 : owned_by workerID r = true ->
  db_step db (apply_writes
    [PutTask (set_dead lastError now r); AddDeadLetter (mkDeadLetter id e t1);
     AddLog (mkLog id DEAD m t2)] db).
Proof. intros. pose proof r_is_id. by step_at id r ltac:(eapply ts_dead). Qed.

Lemma step_retry_dead now m t : r_status r = DEAD ->
  db_step db (apply_writes
    [PutTask (set_retry_dead now r); DelDeadLetters id; AddLog (mkLog id PENDING m t)] db).
Proof. intros. pose proof r_is_id. by step_at id r ltac:(apply ts_retry_dead). Qed.
End steps.

(** ** Runs *)

(** What [UPDATE ... WHERE id = $1 AND p] did. *)
Lemma sql_update_cases id p f db :
  (exists r, tasks db !! id = Some r /\ p r = true /\
     sql_update id p f db = (Some (f r), [PutTask (f r)])) \/
  sql_update id p f db = (None, []).
Proof.
  unfold sql_update. destruct (tasks db !! id) as [r|]; [|by right].
  destruct (p r) eqn:Hp; [left; by exists r|by right].
Qed.

(** After a write to a task the foreign key of its log row holds. *)
Lemma lookup_put r db : tasks (apply_write (PutTask r) db) !! r_id r = Some r.
Proof. simpl. apply lookup_insert_eq. Qed.

Lemma env_ok_reach {policy : RetryPolicy} o n db db1 :
  env_ok o -> rtc db_step db db1 -> rtc db_step db (ev_env (o n) db1).
Proof. intros Henv H. etrans; [exact H|apply Henv]. Qed.

Lemma env_ok_Inv {policy : RetryPolicy} o n db : env_ok o -> Inv db -> Inv (ev_env (o n) db).
Proof. intros Henv H. eapply db_steps_Inv; [apply Henv|done]. Qed.

(** Reachability leaves: commits of other sessions, then at most one own step. *)
Ltac reach_env := repeat (apply env_ok_reach; [assumption|]); apply rtc_refl.
Ltac reach :=
  split; [|reflexivity]; cbn [w_db set_tx];
  first
  [ reach_env
  | match goal with |- rtc _ _ (apply_writes _ ?d) =>
      apply (rtc_r _ d _); [reach_env|]
    end ].

Ltac inv_env := repeat (apply env_ok_Inv; [assumption|]); assumption.

(** Runs the program, leaving the statements' outcomes and the leaves. *)
Ltac run := repeat (wp_step; intros; cbn beta iota; autorewrite with dhara; cbn beta iota).

Ltac start_refine :=
  let o := fresh "o" in let w := fresh "w" in
  intros o w Henv Htx HInv; wp_world w;
  match goal with |- rtc _ ?db (w_db (?m o ?w).2) /\ _ =>
    change (wp m o (fun _ w' => rtc db_step db (w_db w') /\ w_tx w' = None) w)
  end.

(** The log row written after an update of task [id] refers to it. *)
Lemma sql_insert_log_after_put id r ws status m now e db :
  r_id r = id -> Forall (fun w => match w with PutTask _ | DelTask _ => False | _ => True end) ws ->
  sql_insert_log id status m now e (apply_writes (PutTask r :: ws) db) =
  Ok (tt, [AddLog (mkLog id status m now)]).
Proof.
  intros Hid Hws. unfold sql_insert_log. cbn [apply_writes].
  assert (forall db, tasks (apply_writes ws db) = tasks db) as ->.
  { induction Hws as [|w ws Hw _ IH]; intros db'; [done|]. cbn [apply_writes]. rewrite IH. by destruct w. }
  cbn [apply_write tasks]. by rewrite <- Hid, lookup_insert_eq.
Qed.

Lemma sql_insert_letter_after_put id r m now e db :
  r_id r = id ->
  sql_insert_dead_letter id m now e (apply_writes [PutTask r] db) =
  Ok (tt, [AddDeadLetter (mkDeadLetter id m now)]).
Proof.
  intros Hid. unfold sql_insert_dead_letter. cbn. by rewrite <- Hid, lookup_insert_eq.
Qed.

Ltac after_put :=
  rewrite ?sql_insert_log_after_put, ?sql_insert_letter_after_put by (done || by repeat constructor);
  cbn beta iota; cbn [app].

(** Cases of the guarded update at the head of a run. *)
Ltac update_cases stmt r Hr Hp :=
  unfold stmt;
  match goal with |- context [sql_update ?id ?p ?f ?d] =>
    let HI := fresh "HI" in
    assert (Inv d) as HI by inv_env;
    destruct (sql_update_cases id p f d) as [(r & Hr & Hp & ->)| ->];
    [let Hid := fresh "Hid" in pose proof (Inv_id _ _ _ HI Hr) as Hid|]; cbn beta iota
  end.

Lemma MarkCompleted_refines {policy : RetryPolicy} taskID workerID durationMs :
  refines (MarkCompleted taskID workerID durationMs).
Proof.
  start_refine. unfold MarkCompleted, insertLog. run; try reach.
  update_cases sql_mark_completed r Hr Hp; run; try reach.
  after_put. run; try reach; by eapply step_complete.
Qed.

Lemma MarkPending_refines {policy : RetryPolicy} task workerID lastError nextRunAt :
  (forall r, retry_ok r) -> refines (MarkPending task workerID lastError nextRunAt).
Proof.
  intros Hany. start_refine. unfold MarkPending, insertLog. run; try reach.
  update_cases sql_mark_pending r Hr Hp; run; try reach.
  after_put. run; try reach; by eapply step_retry.
Qed.

Lemma MarkDead_refines {policy : RetryPolicy} taskID workerID lastError reason :
  refines (MarkDead taskID workerID lastError reason).
Proof.
  start_refine. unfold MarkDead, insertLog. run; try reach.
  update_cases sql_mark_dead r Hr Hp; run; try reach.
  after_put. run; try reach. after_put. run; try reach; by eapply step_dead.
Qed.

(** Reads have no effect of their own. *)
Lemma wp_GetById o id Q db tx met n :
  (forall t, tx = Some t -> tx_writes t = []) ->
  (ev_fault (o n) = NoFault ->
     Q (Ok (scan_GetById <$> tasks (ev_env (o n) db) !! id))
       (mkWorld (ev_env (o n) db) tx met (S n))) ->
  (forall m, faulty (o n) m -> Q (Err (DriverError m)) (mkWorld (ev_env (o n) db) tx met (S n))) ->
  wp (GetById id) o Q (mkWorld db tx met n).
Proof.
  intros Hclean Hok Herr. unfold GetById. do 2 wp_step. apply wp_db_exec; [done|simpl|].
  - split.
    + intros Hf. specialize (Hok Hf). revert Hok.
      destruct (tasks _ !! id); simpl; intros; by apply wp_ret.
    + intros m Hf. apply wp_ret, Herr. by right.
  - intros m Hf. apply wp_ret, Herr. by left.
Qed.

Lemma Cancel_refines {policy : RetryPolicy} id : refines (Cancel id).
Proof.
  start_refine. unfold Cancel, insertLog. run; try reach.
  update_cases sql_cancel r Hr Hp; run; try reach.
  - apply bool_decide_eq_true in Hp. cbn [set_cancel set_updated_at set_status r_id].
    rewrite ?Hid. after_put. run; try reach; by eapply step_cancel.
  - apply wp_GetById; [naive_solver|intros|intros; reach].
    destruct (_ <$> _); run; reach.
Qed.

Lemma RetryDead_refines {policy : RetryPolicy} id : refines (RetryDead id).
Proof.
  start_refine. unfold RetryDead, insertLog. run; try reach.
  update_cases sql_retry_dead r Hr Hp; run; try reach.
  - apply bool_decide_eq_true in Hp. cbn [sql_delete_dead_letters app]. run; try reach.
    after_put. run; try reach; by eapply step_retry_dead.
  - apply wp_GetById; [naive_solver|intros|intros; reach].
    destruct (_ <$> _); run; reach.
Qed.

(** ** Claim *)

(** What the claim's subquery selects. *)
Lemma claim_candidate_spec now e db r :
  claim_candidate now e db = Some r ->
  claimable now (ev_locked e) r = true /\ (exists id, tasks db !! id = Some r) /\
  forall id r', tasks db !! id = Some r' -> claimable now (ev_locked e) r' = true ->
  claim_before r r' = true.
Proof.
  unfold claim_candidate. intros H. apply list_elem_of_lookup_2 in H.
  rewrite list_elem_of_In, List.filter_In, <- list_elem_of_In, elem_of_rows_where in H.
  destruct H as [[Hc Hid] Hall]. split_and!; [done|done|].
  intros id r' Hr' Hc'. rewrite forallb_forall in Hall. apply Hall.
  apply list_elem_of_In, elem_of_rows_where. eauto.
Qed.

Lemma Claim_refines {policy : RetryPolicy} workerID : refines (Claim workerID).
Proof.
  start_refine. unfold Claim, insertLog. run; try reach.
  unfold sql_claim.
  destruct (claim_candidate _ _ _) as [r|] eqn:Hc; cbn beta iota; [|by run; reach].
  apply claim_candidate_spec in Hc as (Hc & [id Hr] & _).
  destruct (negb (fits 100 workerID)); [by run; reach|].
  destruct (negb (in_int32 (r_attempts r + 1))); [by run; reach|].
  assert (Inv (ev_env (o (S n)) (ev_env (o n) db))) as HI by inv_env.
  pose proof (Inv_id _ _ _ HI Hr) as Hid. unfold claimable, has_status in Hc. bool_to_prop.
  run; cbn [scan_claim set_claim t_ID r_id set_updated_at set_attempts set_started_at set_lock set_status];
    try reach.
  rewrite Hid. after_put. run; try reach; by eapply step_claim.
Qed.

Lemma Heartbeat_refines {policy : RetryPolicy} taskID workerID : refines (Heartbeat taskID workerID).
Proof.
  start_refine. unfold Heartbeat. wp_step.
  assert (Inv (ev_env (o n) db)) as HI by inv_env.
  apply wp_db_exec; [done| |intros; reach].
  unfold sql_heartbeat.
  destruct (sql_update_cases taskID (owned_by workerID) (set_heartbeat workerID (ev_now (o n)))
    (ev_env (o n) db)) as [(r & Hr & Hp & ->)| ->]; cbn beta iota; split; intros;
    try (cbn [Z.eqb]; run; reach); try reach; by eapply step_heartbeat.
Qed.

(** ** Reads *)

Lemma GetById_refines {policy : RetryPolicy} id : refines (GetById id).
Proof. start_refine. apply wp_GetById; [done|intros; reach|intros; reach]. Qed.

Lemma List_refines {policy : RetryPolicy} filter : refines (List_ filter).
Proof.
  start_refine. unfold List_. wp_step. apply wp_db_exec; [done| |intros; reach].
  cbn [sql_count]. split; [|intros; reach]. intros. wp_step.
  apply wp_db_exec; [done| |intros; reach]. unfold sql_list.
  destruct (_ <? _); [reach|]. destruct (_ <? _); [reach|]. cbn beta iota.
  split; [|intros; reach]. intros. do 2 wp_step.
  apply wp_db_exec; [done| |intros; reach]. cbn. split; intros; [wp_step; reach|reach].
Qed.

Lemma GetQueueDBMetrics_refines {policy : RetryPolicy} : refines GetQueueDBMetrics.
Proof.
  start_refine. unfold GetQueueDBMetrics. do 2 wp_step.
  apply wp_db_exec; [done| |intros; reach]. cbn [sql_queue_metrics]. cbn beta iota.
  split; intros; [wp_step; reach|reach].
Qed.

(** ** Create *)

Lemma step_enqueue {policy : RetryPolicy} db r :
  Inv db -> tasks db !! r_id r = None -> fresh_row r ->
  rows_where (same_key (r_type r) (r_idempotency_key r)) (tasks db) = [] ->
  db_step db (apply_writes [PutTask r] db).
Proof.
  intros [Hv _] Hnone Hfresh Hkeys. rewrite rows_where_nil in Hkeys. split.
  - intros id. rewrite view_apply_writes. cbn [foldl].
    destruct (decide (r_id r = id)) as [<-|Hne].
    + rewrite view_write_put by done. specialize (Hv (r_id r)). revert Hv.
      unfold view_ok, view. simpl. rewrite Hnone. intros [-> ->]. by constructor.
    + rewrite view_write_other by done. constructor.
  - intros id r1 H1 H2 id' r' H' Hk. simpl in H2, H'.
    apply lookup_insert_Some in H2 as [[<- <-]|[_ H2]]; [|congruence].
    apply lookup_insert_Some in H' as [[<- _]|[_ H']]; [done|].
    by rewrite (Hkeys _ _ H') in Hk.
Qed.

(** The three answers of the insert. *)
Lemma sql_insert_task_cases typ payload hash key prio retries run_at now e db :
  (exists m, sql_insert_task typ payload hash key prio retries run_at now e db = Err (DriverError m)) \/
  (exists r, r ∈ rows_where (same_key typ key) (tasks db) /\
     sql_insert_task typ payload hash key prio retries run_at now e db = Ok (None, [])) \/
  (let r := mkRow (ev_uuid e) key typ payload hash PENDING prio 0 retries run_at
              None None None None None now now in
   rows_where (same_key typ key) (tasks db) = [] /\ tasks db !! ev_uuid e = None /\
   sql_insert_task typ payload hash key prio retries run_at now e db = Ok (Some r, [PutTask r])).
Proof.
  unfold sql_insert_task, sql_error.
  destruct (negb _); [by eauto|]. destruct (negb _); [by eauto|]. case_bool_decide; [by eauto|].
  destruct (rows_where _ _) as [|r l] eqn:Hrows.
  - destruct (tasks db !! ev_uuid e) eqn:Hid; [by eauto|]. right; right. done.
  - right; left. exists r. split; [constructor|done].
Qed.

Lemma Create_refines {policy : RetryPolicy} `{!PayloadHasher} task : refines (Create task).
Proof.
  start_refine. unfold Create, CreateTx, insertTask. run; try reach.
  destruct (hashPayload _) as [h|e]; [|run; reach].
  destruct (encodable task); [|do 2 wp_step; cbn beta iota; autorewrite with dhara; run; reach]. run; try reach.
  - destruct (sql_insert_task_cases (t_Type task) (t_Payload task) h (t_IdempotencyKey task)
      (t_Priority task) (t_MaxRetries task) (t_RunAt task) (ev_now (o n)) (o (S n))
      (ev_env (o (S n)) (ev_env (o n) db))) as [[m ->]|[(r & _ & ->)|(Hk & Hid & ->)]];
      cbn beta iota; autorewrite with dhara.
    + run; reach.
    + cbn beta iota. unfold getByTypeAndIdempotencyKey. run; try reach.
      cbn [sql_get_by_key]. destruct (head _); run; try reach.
      destruct (negb _); run; reach.
    + run; try reach; apply step_enqueue; try done; inv_env.
Qed.

(** ** The reaper *)

Definition reaper_log (reaperID : string) (now : Z) (r : reapedTask) : Write :=
  AddLog (mkLog (rp_id r) (rp_status r) (reaped_message reaperID r) now).

Lemma tasks_apply_log l db : tasks (apply_write (AddLog l) db) = tasks db.
Proof. done. Qed.

Lemma apply_writes_app ws1 ws2 db : apply_writes (ws1 ++ ws2) db = apply_writes ws2 (apply_writes ws1 db).
Proof. revert db. induction ws1 as [|w ws1 IH]; intros db; [done|]. simpl. apply IH. Qed.

(** The loop over the reaped rows appends one log row each, or fails. *)
Lemma wp_log_reaped o reaperID Q db now met reaped x ws changed n :
  (forall r, r ∈ reaped -> is_Some (tasks (apply_writes (x :: ws) db) !! rp_id r)) ->
  Q (Ok (changed + Z.of_nat (length reaped)))
    (mkWorld db (Some (mkTx now ((x :: ws) ++ map (reaper_log reaperID now) reaped) false)) met
       (n + length reaped)) ->
  (forall e ws' n' k m, faulty (o k) m ->
     Q (Err e) (mkWorld db (Some (mkTx now ws' true)) met n')) ->
  wp (log_reaped reaperID reaped changed) o Q (mkWorld db (Some (mkTx now (x :: ws) false)) met n).
Proof.
  revert ws changed n. induction reaped as [|r reaped IH]; intros ws changed n Hfk Hok Herr.
  - cbn [log_reaped]. apply wp_ret. cbn [map] in Hok. rewrite app_nil_r in Hok.
    by rewrite Z.add_0_r, Nat.add_0_r in Hok.
  - cbn [log_reaped]. wp_step. unfold insertLog. wp_step; [intros _|by eauto].
    unfold sql_insert_log. destruct (Hfk r) as [row Hrow]; [constructor|]. rewrite Hrow.
    cbn beta iota. rewrite <- app_comm_cons. apply IH.
    + intros r' Hr'. rewrite app_comm_cons, apply_writes_app. apply Hfk. by constructor.
    + rewrite app_comm_cons, <- app_assoc. cbn [map length] in Hok.
      replace (changed + 1 + Z.of_nat (length reaped)) with (changed + Z.of_nat (S (length reaped))) by lia.
      by rewrite <- Nat.add_succ_comm in Hok.
    + done.
Qed.

(** The rows of a table are listed once each. *)
Lemma NoDup_map_filter {A B} (f : A -> B) (p : A -> bool) l :
  NoDup (map f l) -> NoDup (map f (List.filter p l)).
Proof.
  induction l as [|x l IH]; simpl; [done|]. intros [Hx Hl]%NoDup_cons.
  destruct (p x); simpl; [|by auto]. constructor; [|by auto].
  intros (y & Heq & Hy)%list_elem_of_fmap. apply Hx, list_elem_of_fmap. exists y. split; [done|].
  rewrite list_elem_of_In in *. by apply List.filter_In in Hy as [? _].
Qed.

Lemma rows_where_NoDup p db : Inv db -> NoDup (map r_id (rows_where p (tasks db))).
Proof.
  intros HI. unfold rows_where. apply NoDup_map_filter.
  replace (map r_id (map snd (map_to_list (tasks db)))) with (map_to_list (tasks db)).*1.
  { apply NoDup_fst_map_to_list. }
  rewrite map_map. apply map_ext_in. intros [k r] Hin. simpl. symmetry.
  apply (Inv_id db); [done|]. by apply elem_of_map_to_list, list_elem_of_In.
Qed.

(** Writes, one per listed row, seen from one of the rows. *)
Lemma foldl_view_one (g : Row -> Write) l r v :
  (forall r', about (g r') = r_id r') -> NoDup (map r_id l) -> r ∈ l ->
  foldl (view_write (r_id r)) v (map g l) = view_write (r_id r) v (g r).
Proof.
  intros Hg. revert v. induction l as [|x l IH]; intros v Hnd Hin; [by apply elem_of_nil in Hin|].
  apply NoDup_cons in Hnd as [Hx Hnd]. cbn [map foldl]. apply elem_of_cons in Hin as [->|Hin].
  - apply view_writes_other, Forall_forall. intros w (y & -> & Hy)%list_elem_of_fmap.
    rewrite Hg. intros Heq. apply Hx. rewrite <- Heq. apply list_elem_of_fmap. eauto.
  - rewrite view_write_other; [by apply IH|]. rewrite Hg. intros Heq. apply Hx.
    rewrite Heq. apply list_elem_of_fmap. eauto.
Qed.

Lemma foldl_view_none (g : Row -> Write) l id v :
  (forall r', about (g r') = r_id r') -> (forall r, r ∈ l -> r_id r <> id) ->
  foldl (view_write id) v (map g l) = v.
Proof.
  intros Hg Hl. apply view_writes_other, Forall_forall. intros w (y & -> & Hy)%list_elem_of_fmap.
  rewrite Hg. auto.
Qed.

(** All the writes of a reaper run over the stale rows [st]. *)
Definition reap_writes (reaperID : string) (now : Z) (st : list Row) : list Write :=
  let deads := List.filter exhausted st in
  let pends := List.filter (fun r => negb (exhausted r)) st in
  map (fun r => PutTask (set_dead reaped_dead_error now r)) deads ++
  map (fun r => AddDeadLetter (mkDeadLetter (r_id r) reaped_dead_error now)) deads ++
  map (fun r => PutTask (set_pending reaped_pending_error now now r)) pends ++
  map (fun r => reaper_log reaperID now (reaped_row DEAD r)) deads ++
  map (fun r => reaper_log reaperID now (reaped_row PENDING r)) pends.

Lemma elem_of_filter_In {A} (p : A -> bool) l x : x ∈ List.filter p l <-> x ∈ l /\ p x = true.
Proof. by rewrite !list_elem_of_In, List.filter_In. Qed.

(** The view of every task after those writes. *)
Lemma view_reap_writes reaperID now st v r :
  NoDup (map r_id st) -> r ∈ st ->
  foldl (view_write (r_id r)) v (reap_writes reaperID now st) =
  if exhausted r
  then mkView (Some (set_dead reaped_dead_error now r)) (v_hist v ++ [DEAD]) (S (v_dead v))
  else mkView (Some (set_pending reaped_pending_error now now r)) (v_hist v ++ [PENDING]) (v_dead v).
Proof.
  intros Hnd Hin. unfold reap_writes. rewrite !foldl_app.
  assert (forall p, p r = false -> forall r', r' ∈ List.filter p st -> r_id r' <> r_id r) as Hother.
  { intros p Hp r' [Hr' Hp']%elem_of_filter_In Heq.
    assert (r' = r) as ->; [|congruence]. revert Hin Hr' Heq Hnd. clear. intros Hin Hr' Heq Hnd.
    induction st as [|y st IH]; [by apply elem_of_nil in Hin|]. apply NoDup_cons in Hnd as [Hy Hnd].
    apply elem_of_cons in Hin as [->|Hin], Hr' as [->|Hr']; auto.
    - destruct Hy. rewrite <- Heq. apply list_elem_of_fmap. eauto.
    - destruct Hy. rewrite Heq. apply list_elem_of_fmap. eauto. }
  destruct (exhausted r) eqn:Hex.
  - assert (r ∈ List.filter exhausted st) by by apply elem_of_filter_In.
    assert (forall r', r' ∈ List.filter (fun r => negb (exhausted r)) st -> r_id r' <> r_id r) as Hno
      by (apply Hother; by rewrite Hex).
    rewrite !(foldl_view_one _ (List.filter exhausted st)) by (done || by apply NoDup_map_filter).
    rewrite !(foldl_view_none _ (List.filter (fun r => negb (exhausted r)) st)) by done.
    unfold reaper_log. by rewrite view_write_put, view_write_letter, view_write_log by done.
  - assert (r ∈ List.filter (fun r => negb (exhausted r)) st)
      by (apply elem_of_filter_In; by rewrite Hex).
    rewrite !(foldl_view_one _ (List.filter (fun r => negb (exhausted r)) st))
      by (done || by apply NoDup_map_filter).
    rewrite !(foldl_view_none _ (List.filter exhausted st)) by (done || by apply Hother).
    unfold reaper_log. by rewrite view_write_put, view_write_log by done.
Qed.

Lemma view_reap_writes_other reaperID now st v id :
  (forall r, r ∈ st -> r_id r <> id) ->
  foldl (view_write id) v (reap_writes reaperID now st) = v.
Proof.
  intros Hno. unfold reap_writes. rewrite !foldl_app.
  by repeat (rewrite foldl_view_none; [|done|by intros r [? _]%elem_of_filter_In; auto]).
Qed.

Lemma stale_unlocked now threshold locked r :
  stale now threshold locked r = true -> stale now threshold ∅ r = true.
Proof.
  unfold stale. intros H. bool_to_prop. rewrite !andb_true_iff. split_and!; try done.
Qed.

Lemma step_reap {policy : RetryPolicy} reaperID now threshold locked db :
  Inv db ->
  db_step db (apply_writes
    (reap_writes reaperID now (rows_where (stale now threshold locked) (tasks db))) db).
Proof.
  intros HI. set (st := rows_where _ _).
  assert (NoDup (map r_id st)) as Hnd by by apply rows_where_NoDup.
  assert (forall id, (exists r, r ∈ st /\ r_id r = id) \/ forall r, r ∈ st -> r_id r <> id) as Hdec.
  { intros id. destruct (decide (Exists (fun r => r_id r = id) st)) as [He|He].
    - left. apply Exists_exists in He as (r & ? & ?). eauto.
    - right. intros r Hr Heq. apply He, Exists_exists. eauto. }
  split.
  - intros id. rewrite view_apply_writes. destruct (Hdec id) as [(r & Hr & <-)|Hno].
    + rewrite view_reap_writes by done. apply elem_of_rows_where in Hr as [Hst [k Hk]].
      pose proof (Inv_id _ _ _ HI Hk) as <-. rewrite (view_lookup _ _ _ Hk). simpl.
      apply stale_unlocked in Hst. destruct (exhausted r) eqn:Hex.
      * by eapply ts_reap_dead.
      * by eapply ts_reap_pending.
    + rewrite view_reap_writes_other by done. constructor.
  - intros id r Hn Hs. exfalso. destruct (Hdec id) as [(r' & Hr & <-)|Hno].
    + apply elem_of_rows_where in Hr as [_ [k Hk]].
      pose proof (Inv_id _ _ _ HI Hk). congruence.
    + pose proof (f_equal v_row (view_apply_writes id
        (reap_writes reaperID now st) db)) as Heq.
      rewrite view_reap_writes_other in Heq by done. simpl in Heq. congruence.
Qed.

Definition reap_puts (now : Z) (st : list Row) : list Write :=
  map (fun r => PutTask (set_dead reaped_dead_error now r)) (List.filter exhausted st) ++
  map (fun r => AddDeadLetter (mkDeadLetter (r_id r) reaped_dead_error now)) (List.filter exhausted st) ++
  map (fun r => PutTask (set_pending reaped_pending_error now now r))
    (List.filter (fun r => negb (exhausted r)) st).

Definition reap_rows (st : list Row) : list reapedTask :=
  map (reaped_row DEAD) (List.filter exhausted st) ++
  map (reaped_row PENDING) (List.filter (fun r => negb (exhausted r)) st).

Lemma sql_requeue_stale_eq threshold now e db :
  let st := rows_where (stale now threshold (ev_locked e)) (tasks db) in
  sql_requeue_stale threshold now e db = Ok (reap_rows st, reap_puts now st).
Proof. done. Qed.

Lemma reap_puts_logs reaperID now st :
  reap_puts now st ++ map (reaper_log reaperID now) (reap_rows st) = reap_writes reaperID now st.
Proof.
  unfold reap_puts, reap_rows, reap_writes. by rewrite map_app, !map_map, <- !app_assoc.
Qed.

Lemma lookup_apply_writes_some id ws db :
  Forall (fun w => match w with DelTask _ => False | _ => True end) ws ->
  is_Some (tasks db !! id) -> is_Some (tasks (apply_writes ws db) !! id).
Proof.
  intros Hws. revert db. induction Hws as [|w ws Hw _ IH]; intros db Hs; [done|].
  simpl. apply IH. destruct w; simpl; try done. rewrite lookup_insert. case_decide; eauto.
Qed.

Lemma reap_puts_fk now st db r :
  (forall r, r ∈ st -> is_Some (tasks db !! r_id r)) -> r ∈ reap_rows st ->
  is_Some (tasks (apply_writes (reap_puts now st) db) !! rp_id r).
Proof.
  intros Hst Hr. apply lookup_apply_writes_some.
  - unfold reap_puts. rewrite !Forall_app. split_and!; apply Forall_forall;
      by intros w (y & -> & _)%list_elem_of_fmap.
  - apply elem_of_app in Hr as [(y & -> & [Hy _]%elem_of_filter_In)%list_elem_of_fmap|
      (y & -> & [Hy _]%elem_of_filter_In)%list_elem_of_fmap]; by apply Hst.
Qed.

Lemma length_filter_negb {A} (p : A -> bool) (l : list A) :
  (length (List.filter p l) + length (List.filter (fun x => negb (p x)) l) = length l)%nat.
Proof. induction l as [|x l IH]; [done|]. simpl. destruct (p x); simpl; lia. Qed.

Lemma length_reap_rows st : length (reap_rows st) = length st.
Proof. unfold reap_rows. rewrite length_app, !length_map. apply length_filter_negb. Qed.

Lemma reap_puts_nil now st : reap_puts now st = [] -> st = [].
Proof.
  intros H. pose proof (f_equal length H) as Hl. unfold reap_puts in Hl.
  rewrite !length_app, !length_map in Hl. simpl in Hl.
  pose proof (length_filter_negb exhausted st). destruct st; [done|]. simpl in *. lia.
Qed.

Lemma RequeueStaleRunning_refines {policy : RetryPolicy} threshold reaperID : refines (RequeueStaleRunning threshold reaperID).
Proof.
  start_refine. unfold RequeueStaleRunning. run; try reach.
  rewrite sql_requeue_stale_eq. set (db0 := ev_env (o (S n)) (ev_env (o n) db)).
  set (now := ev_now (o n)). set (st := rows_where _ _).
  assert (Inv db0) as HI by inv_env.
  assert (forall r, r ∈ st -> is_Some (tasks db0 !! r_id r)) as Hst.
  { intros r [_ [k Hk]]%elem_of_rows_where. rewrite (Inv_id _ _ _ HI Hk). eauto. }
  pose proof (step_reap reaperID now threshold (ev_locked (o (S n))) db0 HI) as Hstep.
  fold st in Hstep. rewrite <- reap_puts_logs in Hstep.
  assert (rtc db_step db db0) as Hreach by reach_env. clearbody db0.
  destruct (reap_puts now st) as [|x ws] eqn:Hws.
  - apply reap_puts_nil in Hws. rewrite Hws. run; cbn [no_op]; try reach.
    all: cbn [reap_rows log_reaped map app List.filter]; run;
      (split; [|done]); repeat (apply env_ok_reach; [done|]); exact Hreach.
  - cbn beta iota. do 2 wp_step. apply wp_tx_exec_next; [intros _|intros; cbn beta iota; by split].
    cbn [no_op]. rewrite app_nil_r. wp_step. apply wp_log_reaped.
    + rewrite <- Hws. intros r Hr. by apply reap_puts_fk.
    + cbn beta iota. cbn [app]. run; (split; [|done]); cbn [w_db set_tx];
        first [exact Hreach | by eapply rtc_r].
    + intros. cbn beta iota. by split.
Qed.

(** ** All operations *)

(** Without a policy every retry is allowed. *)
#[global] Instance any_retry : RetryPolicy := fun _ => True.

Lemma MarkPending_refines_any task workerID lastError nextRunAt :
  refines (MarkPending task workerID lastError nextRunAt).
Proof. by apply MarkPending_refines. Qed.

(** A call of the [TaskStore] interface. *)
Inductive StoreOp : Type :=
  | OpCreate (task : TaskRow)
  | OpGetById (id : uuid)
  | OpList (filter : TaskListFilter)
  | OpCancel (id : uuid)
  | OpClaim (workerID : string)
  | OpHeartbeat (taskID : uuid) (workerID : string)
  | OpMarkCompleted (taskID : uuid) (workerID : string) (durationMS : Z)
  | OpMarkPending (task : TaskRow) (workerID lastError : string) (runAt : Z)
  | OpMarkDead (taskID : uuid) (workerID lastError reason : string)
  | OpRetryDead (taskID : uuid)
  | OpRequeueStaleRunning (staleThreshold : Z) (reaperID : string)
  | OpGetQueueDBMetrics.

(** Only whether the call failed is kept of its answer. *)
Definition outcome {A} (m : M (res A)) : M (res unit) :=
  bind m (fun r => ret match r with Ok _ => Ok tt | Err e => Err e end).

Section ops.
Context {hasher : PayloadHasher}.

Definition run_op (op : StoreOp) : M (res unit) :=
  match op with
  | OpCreate t => outcome (Create t)
  | OpGetById id => outcome (GetById id)
  | OpList f => outcome (List_ f)
  | OpCancel id => outcome (Cancel id)
  | OpClaim w => outcome (Claim w)
  | OpHeartbeat id w => outcome (Heartbeat id w)
  | OpMarkCompleted id w d => outcome (MarkCompleted id w d)
  | OpMarkPending t w e r => outcome (MarkPending t w e r)
  | OpMarkDead id w e r => outcome (MarkDead id w e r)
  | OpRetryDead id => outcome (RetryDead id)
  | OpRequeueStaleRunning s r => outcome (RequeueStaleRunning s r)
  | OpGetQueueDBMetrics => outcome GetQueueDBMetrics
  end.

(** A session: its calls one after the other, whatever they answer. *)
Fixpoint run_ops (ops : list StoreOp) : M unit :=
  match ops with
  | [] => ret tt
  | op :: ops' => bind (run_op op) (fun _ => run_ops ops')
  end.

Lemma refines_bind {policy : RetryPolicy} {A B} (m : M A) (k : A -> M B) :
  refines m -> (forall a, refines (k a)) -> refines (bind m k).
Proof.
  intros Hm Hk o w Henv Htx HI. unfold bind.
  destruct (Hm o w Henv Htx HI) as [H1 H2]. destruct (m o w) as [a w']. simpl in *.
  destruct (Hk a o w' Henv H2) as [H3 H4]; [by eapply db_steps_Inv|].
  split; [by etrans|done].
Qed.

Lemma refines_ret {policy : RetryPolicy} {A} (a : A) : refines (ret a).
Proof. intros o w _ Htx _. by split. Qed.

Lemma refines_outcome {policy : RetryPolicy} {A} (m : M (res A)) : refines m -> refines (outcome m).
Proof. intros H. apply refines_bind; [done|]. intros. apply refines_ret. Qed.

Lemma run_op_refines op : refines (run_op op).
Proof.
  destruct op; simpl; apply refines_outcome;
    auto using Create_refines, GetById_refines, List_refines, Cancel_refines, Claim_refines,
      Heartbeat_refines, MarkCompleted_refines, MarkPending_refines_any, MarkDead_refines,
      RetryDead_refines, RequeueStaleRunning_refines, GetQueueDBMetrics_refines.
Qed.

Lemma run_ops_refines ops : refines (run_ops ops).
Proof.
  induction ops as [|op ops IH]; simpl; [apply refines_ret|].
  apply refines_bind; [apply run_op_refines|done].
Qed.

(** States a session reaches from an empty database satisfy the invariant. *)
Lemma run_ops_Inv ops o : env_ok o -> Inv (w_db (run_ops ops o (world0 empty_db)).2).
Proof.
  intros Henv. destruct (run_ops_refines ops o (world0 empty_db) Henv) as [H _]; [done|apply empty_db_Inv|].
  eapply db_steps_Inv; [exact H|apply empty_db_Inv].
Qed.
End ops.
