(* ===== verification/StoreTheorems.v ===== *)
(** StoreTheorems: what the refinement of [StoreRefine] means for the tables.

    The theorems quantify over every sequence of store calls, every pattern of
    call failures and every interleaving with sessions that follow the same
    state machine. *)

From S2P Require Import Prelude Dharatype GoTime Float64 Metrics Pg PgLogic TaskStore Lifecycle.
From S2P Require Import StoreRefine.

(** A payload hash and an oracle for concrete runs. *)
Definition demo_hasher : PayloadHasher := {| hashPayload := fun s => Ok s |}.
Definition demo_oracle : Oracle := fun n => quiet_event (Z.of_nat n * Second) (N.of_nat (n + 1)).
Definition demo_task (typ : string) (key : option string) (max_retries : Z) : TaskRow :=
  mkTaskRow uuid_nil typ "{}" EmptyString key EmptyString 0 0 max_retries 0
    None None None None None time_zero time_zero.

Lemma demo_oracle_env_ok : env_ok demo_oracle.
Proof. intros n db. apply rtc_refl. Qed.

Section reachable.
Context {hasher : PayloadHasher}.

(** C1: Every sequence of store operations, under every pattern of call
    failures and with other sessions committing in between that follow the
    lifecycle themselves, changes each task only along the lifecycle state
    machine, and leaves no transaction open. *)
Theorem store_refines_lifecycle ops o w :
  env_ok o -> w_tx w = None -> Inv (w_db w) ->
  rtc db_step (w_db w) (w_db (run_ops ops o w).2) /\ w_tx (run_ops ops o w).2 = None.
Proof. apply run_ops_refines. Qed.

(** C2: In every state reached from an empty database the audit log of a task
    determines its row: replayed through the state machine it yields exactly
    the status and the number of attempts the row holds. *)
Theorem audit_log_replays ops o id r :
  env_ok o ->
  let db := w_db (run_ops ops o (world0 empty_db)).2 in
  tasks db !! id = Some r -> replay (history id db) = Some (r_status r, r_attempts r).
Proof.
  intros Henv db Hr. destruct (run_ops_Inv ops o Henv) as [Hv _]. specialize (Hv id).
  unfold view_ok, view in Hv. simpl in Hv. fold db in Hv. rewrite Hr in Hv. apply Hv.
Qed.

(** C3: In every reached state a task has exactly one dead letter while it is
    DEAD and none otherwise, and an id without a task has neither dead
    letters nor log rows. *)
Theorem dead_letters_exact ops o id :
  env_ok o ->
  let db := w_db (run_ops ops o (world0 empty_db)).2 in
  dead_count id db = match tasks db !! id with
                     | Some r => if decide (r_status r = DEAD) then 1%nat else 0%nat
                     | None => 0%nat
                     end
  /\ (tasks db !! id = None -> history id db = []).
Proof.
  intros Henv db. destruct (run_ops_Inv ops o Henv) as [Hv _]. specialize (Hv id).
  unfold view_ok, view in Hv. simpl in Hv. fold db in Hv. destruct (tasks db !! id) as [r|].
  - split; [apply Hv|done].
  - split; [apply Hv|intros _; apply Hv].
Qed.

(** C4: In every reached state the lock columns of a task are set exactly
    while it is RUNNING, and its completion time exactly when it is COMPLETED. *)
Theorem lock_exactly_while_running ops o id r :
  env_ok o ->
  let db := w_db (run_ops ops o (world0 empty_db)).2 in
  tasks db !! id = Some r ->
  (is_Some (r_locked_by r) <-> r_status r = RUNNING) /\
  (is_Some (r_locked_at r) <-> r_status r = RUNNING) /\
  (is_Some (r_completed_at r) <-> r_status r = COMPLETED).
Proof.
  intros Henv db Hr. destruct (run_ops_Inv ops o Henv) as [Hv _]. specialize (Hv id).
  unfold view_ok, view in Hv. simpl in Hv. fold db in Hv. rewrite Hr in Hv.
  destruct Hv as (_ & _ & _ & Hl & Hc). unfold lock_ok in Hl. split_and!; try done.
  all: destruct (decide (r_status r = RUNNING)) as [Hs|Hs]; destruct Hl as [H1 H2];
    [done|rewrite H1 || rewrite H2; split; [by intros []|done]].
Qed.

(** In every reached state at most one task has a given type and
    idempotency key. *)
Theorem idempotency_key_unique ops o id1 id2 r1 r2 key :
  env_ok o ->
  let db := w_db (run_ops ops o (world0 empty_db)).2 in
  tasks db !! id1 = Some r1 -> tasks db !! id2 = Some r2 ->
  r_type r1 = r_type r2 -> r_idempotency_key r1 = Some key -> r_idempotency_key r2 = Some key ->
  id1 = id2.
Proof.
  intros Henv db H1 H2 Ht Hk1 Hk2. destruct (run_ops_Inv ops o Henv) as [_ Hu].
  apply (Hu _ _ _ _ H1 H2). unfold same_key. rewrite Hk1, Hk2, Ht.
  by rewrite !bool_decide_true.
Qed.

(** C6: Nothing ever changes a COMPLETED or CANCELED task: whatever operations
    run afterwards, its row, its log and its dead letters stay as they are. *)
Theorem final_tasks_immutable ops o w id r :
  env_ok o -> w_tx w = None -> Inv (w_db w) ->
  tasks (w_db w) !! id = Some r -> r_status r = COMPLETED \/ r_status r = CANCELED ->
  view id (w_db (run_ops ops o w).2) = view id (w_db w).
Proof.
  intros Henv Htx HI Hr Hf. destruct (run_ops_refines ops o w Henv Htx HI) as [H _].
  by eapply db_steps_final.
Qed.

(** C7: No operation loses a task, rewrites what was submitted (type, key,
    payload, hash, priority, retry budget, creation time), or removes rows of
    its audit log. *)
Theorem tasks_never_lost ops o w id r :
  env_ok o -> w_tx w = None -> Inv (w_db w) -> tasks (w_db w) !! id = Some r ->
  let db' := w_db (run_ops ops o w).2 in
  (exists r', tasks db' !! id = Some r' /\ identity r' = identity r) /\
  history id (w_db w) `prefix_of` history id db'.
Proof.
  intros Henv Htx HI Hr db'. destruct (run_ops_refines ops o w Henv Htx HI) as [H _].
  split; [by eapply db_steps_row|by apply db_steps_history].
Qed.
End reachable.

(** ** Concrete runs *)

(** Enqueue, claim, fail, claim again, exhaust, retry by hand. *)
Definition demo_ops : list StoreOp :=
  [OpCreate (demo_task "echo" (Some "k") 1);
   OpClaim "w-1";
   OpMarkDead 2 "w-1" "boom" "all attempts exhausted";
   OpRetryDead 2;
   OpClaim "w-2";
   OpMarkCompleted 2 "w-2" 17].

#[local] Abbreviation run := (@run_ops demo_hasher).
#[local] Abbreviation demo_world := (run demo_ops demo_oracle (world0 empty_db)).2.

Lemma demo_row : exists r,
  tasks (w_db demo_world) !! 2%N = Some r /\ r_status r = COMPLETED /\ r_attempts r = 1 /\
  r_idempotency_key r = Some "k".
Proof. eexists. split; [vm_compute; reflexivity|]. repeat split; reflexivity. Qed.

Lemma demo_tx : w_tx demo_world = None.
Proof. vm_compute. reflexivity. Qed.

Lemma demo_Inv : Inv (w_db demo_world).
Proof. apply run_ops_Inv, demo_oracle_env_ok. Qed.

Lemma store_refines_lifecycle_witness :
  rtc db_step empty_db (w_db demo_world) /\ w_tx demo_world = None.
Proof.
  exact (@store_refines_lifecycle demo_hasher demo_ops demo_oracle (world0 empty_db)
    demo_oracle_env_ok eq_refl empty_db_Inv).
Defined.

Lemma audit_log_replays_witness : exists r,
  r_status r = COMPLETED /\ r_attempts r = 1 /\
  replay (history 2 (w_db demo_world)) = Some (r_status r, r_attempts r).
Proof.
  destruct demo_row as (r & Hr & Hs & Ha & _). exists r. split; [exact Hs|]. split; [exact Ha|].
  exact (@audit_log_replays demo_hasher demo_ops demo_oracle 2%N r demo_oracle_env_ok Hr).
Defined.

Lemma dead_letters_exact_witness : dead_count 2 (w_db demo_world) = 0%nat.
Proof.
  destruct (@dead_letters_exact demo_hasher demo_ops demo_oracle 2%N demo_oracle_env_ok) as [H _].
  destruct demo_row as (r & Hr & Hs & _). rewrite Hr, Hs in H. exact H.
Defined.

Lemma lock_exactly_while_running_witness : exists r,
  tasks (w_db demo_world) !! 2%N = Some r /\ ~ is_Some (r_locked_by r).
Proof.
  destruct demo_row as (r & Hr & Hs & _). exists r. split; [exact Hr|].
  rewrite (proj1 (@lock_exactly_while_running demo_hasher demo_ops demo_oracle 2%N r
    demo_oracle_env_ok Hr)). rewrite Hs. discriminate.
Defined.

Lemma idempotency_key_unique_witness : exists r, tasks (w_db demo_world) !! 2%N = Some r /\ 2%N = 2%N.
Proof.
  destruct demo_row as (r & Hr & _ & _ & Hk). exists r. split; [exact Hr|].
  exact (@idempotency_key_unique demo_hasher demo_ops demo_oracle 2%N 2%N r r "k"
    demo_oracle_env_ok Hr Hr eq_refl Hk Hk).
Defined.

Lemma final_tasks_immutable_witness :
  view 2 (w_db (run [OpCancel 2; OpClaim "w-3"] demo_oracle demo_world).2) = view 2 (w_db demo_world).
Proof.
  destruct demo_row as (r & Hr & Hs & _).
  exact (@final_tasks_immutable demo_hasher [OpCancel 2; OpClaim "w-3"] demo_oracle demo_world 2%N r
    demo_oracle_env_ok demo_tx demo_Inv Hr (or_introl Hs)).
Defined.

Lemma tasks_never_lost_witness :
  exists r', tasks (w_db (run [OpCancel 2] demo_oracle demo_world).2) !! 2%N = Some r'.
Proof.
  destruct demo_row as (r & Hr & _).
  destruct (@tasks_never_lost demo_hasher [OpCancel 2] demo_oracle demo_world 2%N r
    demo_oracle_env_ok demo_tx demo_Inv Hr) as [(r' & Hr' & _) _].
  exists r'. exact Hr'.
Defined.
