(* ===== verification/Schema.v ===== *)
(** Schema: the column constraints of [migrations/000001_init_task_queue.up.sql].

    The statements of the task store reject a value that does not fit its
    column, so every row that is ever written satisfies the declared types,
    lengths and checks. The proof is a small program logic: statements that
    write only rows that fit, and the programs made of them. *)

From S2P Require Import Prelude Dharatype Float64 Metrics Pg PgLogic TaskStore Lifecycle StoreRefine StoreTheorems.
Open Scope dhara_scope.

(** The declarations of [tasks], column by column; [UUID], [JSONB], [BYTEA] and
    [TIMESTAMPTZ] are the types of the model, the [CHECK] on [status] is
    [TaskStatus]. *)
Definition row_fits (r : Row) : bool :=
  fits 255 (default EmptyString (r_idempotency_key r)) &&
  fits 100 (r_type r) && negb (bool_decide (r_type r = EmptyString)) &&
  in_int32 (r_priority r) && in_int32 (r_attempts r) && in_int32 (r_max_retries r) &&
  fits 100 (default EmptyString (r_locked_by r)).

(** [REFERENCES tasks (id)] of the two other tables, and the unique key. *)
Definition references_ok (db : DB) : Prop :=
  Forall (fun l => is_Some (tasks db !! l_task_id l)) (task_logs db) /\
  Forall (fun d => is_Some (tasks db !! d_task_id d)) (dead_letters db).

Definition columns_ok (db : DB) : Prop := forall id r, tasks db !! id = Some r -> row_fits r = true.

(** ** Statements and programs *)

Definition write_fits (w : Write) : Prop := match w with PutTask r => row_fits r = true | _ => True end.

Lemma columns_apply ws db : columns_ok db -> Forall write_fits ws -> columns_ok (apply_writes ws db).
Proof.
  intros Hdb Hws. revert db Hdb. induction Hws as [|w ws Hw _ IH]; intros db Hdb; [done|]. cbn [apply_writes]. apply IH.
  intros id r. destruct w as [r0|id0| | | | |]; cbn [apply_write tasks]; try apply Hdb.
  - rewrite lookup_insert_Some. intros [[_ <-]|[_ H]]; [done|by eapply Hdb].
  - rewrite lookup_delete_Some. intros [_ H]. by eapply Hdb.
Qed.

(** A statement that writes rows that fit, from rows that fit. *)
Definition stmt_fits {A} (s : Stmt A) : Prop :=
  forall now e db a ws, columns_ok db -> s now e db = Ok (a, ws) -> Forall write_fits ws.

(** Other sessions respect the constraints too. *)
Definition env_fits (o : Oracle) : Prop := forall n db, columns_ok db -> columns_ok (ev_env (o n) db).

Definition world_fits (w : World) : Prop := columns_ok (w_db w) /\ Forall write_fits (pending w).

Definition prog_fits {A} (m : M A) : Prop := forall o w, env_fits o -> world_fits w -> world_fits (m o w).2.

Lemma world_tick o w : env_fits o -> world_fits w -> world_fits (tick o w).
Proof.
  intros He [Hdb Hp]. split; [|exact Hp]. unfold tick. cbn [w_db]. destruct (pending w); [by apply He|done].
Qed.

Lemma fits_bind {A B} (m : M A) (k : A -> M B) : prog_fits m -> (forall a, prog_fits (k a)) -> prog_fits (bind m k).
Proof. intros Hm Hk o w He Hw. unfold bind. specialize (Hm o w He Hw). destruct (m o w). by apply Hk. Qed.

Lemma fits_ret {A} (a : A) : prog_fits (ret a).
Proof. by intros o w. Qed.

Lemma fits_metric f : prog_fits (add_metric f).
Proof. by intros o w He Hw. Qed.

Lemma fits_Begin : prog_fits Begin.
Proof.
  intros o w He Hw. pose proof (world_tick o w He Hw) as [Hdb Hp]. unfold Begin.
  destruct (ev_fault _); cbn [snd]; by split; try constructor.
Qed.

Lemma fits_Commit : prog_fits Commit.
Proof.
  intros o w He Hw. pose proof (world_tick o w He Hw) as Ht. pose proof Ht as [Hdb Hp]. unfold Commit. unfold pending in Hp.
  destruct (w_tx (tick o w)) as [tx|] eqn:Htx; [|exact Ht].
  destruct (tx_aborted tx); [|destruct (ev_fault _)]; cbn [snd]; (split; [|by constructor]); try done;
    cbn [w_db set_tx set_db]; by apply columns_apply.
Qed.

Lemma fits_tx_exec {A} (s : Stmt A) : stmt_fits s -> prog_fits (tx_exec s).
Proof.
  intros Hs o w He Hw. pose proof (world_tick o w He Hw) as Ht. pose proof Ht as [Hdb Hp]. unfold tx_exec. unfold pending in Hp.
  destruct (w_tx (tick o w)) as [tx|] eqn:Htx; [|exact Ht].
  destruct (tx_aborted tx); [exact Ht|].
  destruct (ev_fault _); cbn [snd]; [|by split..].
  destruct (s _ _ _) as [[a ws]|e] eqn:Hr; cbn [snd]; [|by split]. split; [done|]. cbn. apply Forall_app.
  split; [done|]. eapply Hs; [|exact Hr]. by apply columns_apply.
Qed.

Lemma fits_db_exec {A} (s : Stmt A) : stmt_fits s -> prog_fits (db_exec s).
Proof.
  intros Hs o w He Hw. pose proof (world_tick o w He Hw) as Ht. destruct Ht as [Hdb Hp]. unfold db_exec.
  destruct (s (ev_now (o (w_next w))) (o (w_next w)) (w_db (tick o w))) as [[a ws]|e] eqn:Hr;
    destruct (ev_fault _); cbn [snd]; try (by split); (split; [|exact Hp]); cbn [w_db set_db];
    (apply columns_apply; [done|by eapply Hs]).
Qed.

Lemma fits_defer {A} (m : M A) : prog_fits m -> prog_fits (defer_rollback m).
Proof.
  intros Hm o w He Hw. specialize (Hm o w He Hw). unfold defer_rollback. destruct (m o w) as [a w'].
  destruct Hm as [Hdb _]. by split; [|constructor].
Qed.

(** ** The statements of the store *)

Lemma fits_reads {A} (s : Stmt A) : (forall now e db a ws, s now e db = Ok (a, ws) -> ws = []) -> stmt_fits s.
Proof. intros H now e db a ws _ Hr. rewrite (H _ _ _ _ _ Hr). constructor. Qed.

Lemma sql_update_fits id p f db a ws :
  columns_ok db -> (forall r, p r = true -> row_fits r = true -> row_fits (f r) = true) ->
  sql_update id p f db = (a, ws) -> Forall write_fits ws.
Proof.
  intros Hdb Hf. unfold sql_update. destruct (tasks db !! id) as [r|] eqn:Hr; [|by intros [= _ <-]].
  destruct (p r) eqn:Hp; [|by intros [= _ <-]]. intros [= _ <-]. repeat constructor. cbn. by apply Hf, (Hdb id).
Qed.

Lemma row_fits_spec r : row_fits r = true <->
  fits 255 (default EmptyString (r_idempotency_key r)) = true /\ fits 100 (r_type r) = true /\
  r_type r <> EmptyString /\ in_int32 (r_priority r) = true /\ in_int32 (r_attempts r) = true /\
  in_int32 (r_max_retries r) = true /\ fits 100 (default EmptyString (r_locked_by r)) = true.
Proof. unfold row_fits. rewrite !andb_true_iff, negb_true_iff, bool_decide_eq_false. tauto. Qed.

(** The updates of the store change status, lock, times and error, and reset the
    attempts or add one. *)
Ltac update_fits :=
  let now := fresh "now" in let ev := fresh "ev" in let db := fresh "db" in
  let a := fresh "a" in let ws := fresh "ws" in let Hdb := fresh "Hdb" in
  intros now ev db a ws Hdb; cbn beta;
  match goal with |- context [sql_update ?id ?p ?f ?d] =>
    let r := fresh "r" in let w := fresh "w" in let Hu := fresh "Hu" in
    destruct (sql_update id p f d) as [r w] eqn:Hu;
    intros [= <- <-]; eapply sql_update_fits; [done| |exact Hu]
  end;
  intros r0 _ (? & ? & ? & ? & ? & ? & ?)%row_fits_spec; apply row_fits_spec; by split_and!.

Lemma fits_cancel id : stmt_fits (sql_cancel id).
Proof. unfold sql_cancel. update_fits. Qed.
Lemma fits_heartbeat id w : stmt_fits (sql_heartbeat id w).
Proof. unfold sql_heartbeat. update_fits. Qed.
Lemma fits_mark_completed id w : stmt_fits (sql_mark_completed id w).
Proof. unfold sql_mark_completed. update_fits. Qed.
Lemma fits_mark_pending id w e next : stmt_fits (sql_mark_pending id w e next).
Proof. unfold sql_mark_pending. update_fits. Qed.
Lemma fits_mark_dead id w e : stmt_fits (sql_mark_dead id w e).
Proof. unfold sql_mark_dead. update_fits. Qed.
Lemma fits_retry_dead id : stmt_fits (sql_retry_dead id).
Proof. unfold sql_retry_dead. update_fits. Qed.

Lemma fits_claim name : stmt_fits (sql_claim name).
Proof.
  intros now e db a ws Hdb. unfold sql_claim. destruct (claim_candidate now e db) as [r|] eqn:Hc; [|by intros [= _ <-]].
  apply claim_candidate_spec in Hc as (_ & [id Hr] & _). destruct (fits 100 name) eqn:Hn; [|done].
  destruct (in_int32 (r_attempts r + 1)) eqn:Ha; [|done]. intros [= _ <-]. repeat constructor. cbn.
  pose proof (Hdb id r Hr) as (? & ? & ? & ? & ? & ? & ?)%row_fits_spec. apply row_fits_spec. by split_and!.
Qed.

Lemma fits_insert_task typ payload hash key priority max_retries run_at :
  stmt_fits (sql_insert_task typ payload hash key priority max_retries run_at).
Proof.
  intros now e db a ws _. unfold sql_insert_task.
  destruct (in_int32 priority && in_int32 max_retries) eqn:Hi; [|done]. cbn [negb].
  destruct (fits 100 typ && fits 255 (default EmptyString key)) eqn:Hf; [|done]. cbn [negb].
  case_bool_decide; [done|]. destruct (rows_where _ _); [|by intros [= _ <-]].
  destruct (tasks db !! ev_uuid e); [done|]. intros [= _ <-]. apply andb_true_iff in Hi as [? ?], Hf as [? ?].
  repeat constructor. apply row_fits_spec. by split_and!.
Qed.

Lemma fits_requeue_stale threshold : stmt_fits (sql_requeue_stale threshold).
Proof.
  intros now e db a ws Hdb. rewrite sql_requeue_stale_eq. intros [= _ <-]. unfold reap_puts.
  assert (forall p r, r ∈ List.filter p (rows_where (stale now threshold (ev_locked e)) (tasks db)) -> row_fits r = true) as Hst.
  { intros p r [[_ [id Hr]]%elem_of_rows_where _]%elem_of_filter_In. by eapply Hdb. }
  rewrite !Forall_app. split_and!; apply Forall_forall; intros w (r & -> & Hr)%list_elem_of_fmap; try done;
    apply Hst, row_fits_spec in Hr as (? & ? & ? & ? & ? & ? & ?); apply row_fits_spec; by split_and!.
Qed.

Lemma fits_insert_log id s m : stmt_fits (sql_insert_log id s m).
Proof. intros now e db a ws _. unfold sql_insert_log. case_match; [|done]. intros [= _ <-]. by repeat constructor. Qed.
Lemma fits_insert_letter id e : stmt_fits (sql_insert_dead_letter id e).
Proof. intros now ev db a ws _. unfold sql_insert_dead_letter. case_match; [|done]. intros [= _ <-]. by repeat constructor. Qed.
Lemma fits_delete_letters id : stmt_fits (sql_delete_dead_letters id).
Proof. intros now e db a ws _ [= _ <-]. by repeat constructor. Qed.
Lemma fits_list clauses limit offset : stmt_fits (sql_list clauses limit offset).
Proof. apply fits_reads. intros now e db a ws. unfold sql_list. repeat case_match; by intros [= _ <-]. Qed.

Create HintDb schema discriminated.
#[export] Hint Resolve fits_cancel fits_heartbeat fits_mark_completed fits_mark_pending fits_mark_dead fits_retry_dead
  fits_claim fits_insert_task fits_requeue_stale fits_insert_log fits_insert_letter fits_delete_letters fits_list : schema.

(** Walks through a program. *)
Ltac prog_walk :=
  repeat first
    [ lazymatch goal with
      | |- prog_fits (ret _) => apply fits_ret
      | |- prog_fits (add_metric _) => apply fits_metric
      | |- prog_fits Begin => apply fits_Begin
      | |- prog_fits Commit => apply fits_Commit
      | |- prog_fits (defer_rollback _) => apply fits_defer
      | |- prog_fits (tx_exec _) => apply fits_tx_exec
      | |- prog_fits (db_exec _) => apply fits_db_exec
      | |- prog_fits (insertLog _ _ _) => apply fits_tx_exec
      | |- prog_fits (bind _ _) => apply fits_bind; [|intros ?]
      | |- prog_fits (try _ _) => unfold try at 1
      | |- prog_fits (try_wrap _ _ _) => unfold try_wrap at 1
      | |- prog_fits (one_row _) => unfold one_row at 1
      | |- prog_fits (tx_fetch _) => unfold tx_fetch, fetch
      | |- prog_fits (db_fetch _) => unfold db_fetch, fetch
      | |- prog_fits (match ?x with _ => _ end) => destruct x
      end
    | solve [eauto 1 with schema]
    | solve [apply fits_reads; by intros ????? [= _ <-]] ].

Section Ops.
Context {hasher : PayloadHasher}.

Lemma fits_GetById id : prog_fits (GetById id).
Proof. unfold GetById. prog_walk. Qed.

Lemma fits_log_reaped name rows n : prog_fits (log_reaped name rows n).
Proof. revert n. induction rows as [|r rows IH]; intros n; cbn [log_reaped]; prog_walk. Qed.

Lemma run_op_fits op : prog_fits (run_op op).
Proof.
  destruct op; cbn [run_op]; unfold outcome; (apply fits_bind; [|intros ?; apply fits_ret]).
  - unfold Create, CreateTx, insertTask, getByTypeAndIdempotencyKey. prog_walk.
  - apply fits_GetById.
  - unfold List_. prog_walk.
  - unfold Cancel. prog_walk. apply fits_GetById.
  - unfold Claim. prog_walk.
  - unfold Heartbeat. prog_walk.
  - unfold MarkCompleted. prog_walk.
  - unfold MarkPending. prog_walk.
  - unfold MarkDead. prog_walk.
  - unfold RetryDead. prog_walk. apply fits_GetById.
  - unfold RequeueStaleRunning. prog_walk. apply fits_log_reaped.
  - unfold GetQueueDBMetrics. prog_walk.
Qed.

Lemma run_ops_fits ops : prog_fits (run_ops ops).
Proof. induction ops as [|op ops IH]; cbn [run_ops]; [apply fits_ret|]. apply fits_bind; [apply run_op_fits|done]. Qed.
End Ops.

(** ** References *)

Lemma view_None id db : view_ok id (view id db) -> tasks db !! id = None -> history id db = [] /\ dead_count id db = 0%nat.
Proof. unfold view_ok, view. cbn [v_row v_hist v_dead]. intros H Hn. by rewrite Hn in H. Qed.

Lemma Inv_references db : Inv db -> references_ok db.
Proof.
  intros [Hv _]. split; apply Forall_forall.
  - intros l Hl. destruct (tasks db !! l_task_id l) eqn:Hn; [by eexists|]. exfalso.
    destruct (view_None _ _ (Hv (l_task_id l)) Hn) as [Hh _]. unfold history in Hh. apply map_eq_nil in Hh.
    assert (In l (List.filter (is_log_of (l_task_id l)) (task_logs db))) as Hin; [|by rewrite Hh in Hin].
    apply filter_In. split; [by apply list_elem_of_In|]. by apply bool_decide_eq_true.
  - intros d Hd. destruct (tasks db !! d_task_id d) eqn:Hn; [by eexists|]. exfalso.
    destruct (view_None _ _ (Hv (d_task_id d)) Hn) as [_ Hc]. unfold dead_count in Hc. apply length_zero_iff_nil in Hc.
    assert (In d (List.filter (is_letter_of (d_task_id d)) (dead_letters db))) as Hin; [|by rewrite Hc in Hin].
    apply filter_In. split; [by apply list_elem_of_In|]. by apply bool_decide_eq_true.
Qed.

(** ** Theorem *)

(** C5: The schema's constraints hold of every state the store's operations
    reach, whatever fails and whatever other sessions do, as long as those keep
    to the lifecycle and to the constraints: types are not empty and at most 100
    characters, keys at most 255, worker names at most 100; priority, attempts
    and max_retries are 32-bit integers; every log row and dead letter refers to
    an existing task; and (type, key) is unique. *)
Theorem schema_constraints_hold {hasher : PayloadHasher} ops o :
  env_ok o -> env_fits o ->
  let db := w_db (run_ops ops o (world0 empty_db)).2 in
  columns_ok db /\ references_ok db /\ unique_keys db.
Proof.
  intros He Hf db. pose proof (run_ops_Inv ops o He) as HI. fold db in HI. split; [|split; [by apply Inv_references|apply HI]].
  refine (proj1 (run_ops_fits ops o (world0 empty_db) Hf _)). split; [|constructor].
  intros id r H. cbn in H. by rewrite lookup_empty in H.
Qed.

Lemma schema_constraints_hold_witness :
  exists r, tasks (w_db (@run_ops demo_hasher [OpCreate (demo_task "echo" (Some "k") 1); OpClaim "w-1"] demo_oracle
    (world0 empty_db)).2) !! 2%N = Some r /\ row_fits r = true.
Proof.
  destruct (@schema_constraints_hold demo_hasher [OpCreate (demo_task "echo" (Some "k") 1); OpClaim "w-1"] demo_oracle
    demo_oracle_env_ok (fun _ _ H => H)) as (H & _).
  assert (exists r, tasks (w_db (@run_ops demo_hasher [OpCreate (demo_task "echo" (Some "k") 1); OpClaim "w-1"] demo_oracle
    (world0 empty_db)).2) !! 2%N = Some r) as [r Hr] by (eexists; vm_compute; reflexivity).
  exists r. split; [exact Hr|exact (H _ r Hr)].
Defined.
