(* ===== verification/StoreSpec.v ===== *)
(** StoreSpec: what each store operation answers and does on every branch.

    The theorems describe runs in which no call fails and no other session
    commits in between ([calm]); [failed_calls_have_no_effect] covers runs with
    failures. *)

From S2P Require Import Prelude Dharatype GoTime Float64 Metrics Pg PgLogic TaskStore Lifecycle.
From S2P Require Import StoreRefine StoreTheorems.

(** Nothing fails and nobody interferes. *)
Definition calm (o : Oracle) : Prop := no_faults o /\ no_interference o.

Lemma demo_oracle_calm : calm demo_oracle.
Proof. by split. Qed.

(** A process between two operations, on a database that satisfies the invariant. *)
Definition idle (w : World) : Prop := w_tx w = None /\ Inv (w_db w).

Lemma not_faulty o n m : calm o -> faulty (o n) m -> False.
Proof. intros [Hf _] [H|H]; by rewrite (Hf n) in H. Qed.

Lemma not_fail_after o n m : calm o -> ev_fault (o n) = FailAfter m -> False.
Proof. intros [Hf _] H. by rewrite (Hf n) in H. Qed.

Lemma not_fail_before o n m : calm o -> ev_fault (o n) = FailBefore m -> False.
Proof. intros [Hf _] H. by rewrite (Hf n) in H. Qed.

(** A step of a calm run: the failure branches are closed. *)
Ltac calm_close :=
  try match goal with
  | Hc : calm ?o, H : faulty (?o _) _ |- _ => by destruct (not_faulty _ _ _ Hc H)
  | Hc : calm ?o, H : ev_fault (?o _) = FailAfter _ |- _ => by destruct (not_fail_after _ _ _ Hc H)
  | Hc : calm ?o, H : ev_fault (?o _) = FailBefore _ |- _ => by destruct (not_fail_before _ _ _ Hc H)
  end.

Ltac calm_run :=
  repeat (first [wp_step | apply wp_GetById; [naive_solver|..]]; intros; calm_close;
          repeat match goal with Hc : calm ?o |- context [ev_env (?o ?n) ?d] =>
            rewrite (proj2 Hc n d) end;
          cbn beta iota; autorewrite with dhara; cbn beta iota).

(** Running [m] answers [a] and leaves the database [db'], the counters [met']
    and no open transaction. *)
Definition yields {A} (m : M A) (o : Oracle) (w : World) (a : A) (db' : DB) (met' : Metrics) : Prop :=
  (m o w).1 = a /\ w_db (m o w).2 = db' /\ w_metrics (m o w).2 = met' /\ w_tx (m o w).2 = None.

Ltac start_yields :=
  match goal with Hi : idle ?w |- _ => destruct Hi as [Htx HInv]; wp_world w end;
  match goal with |- yields ?m ?o ?w ?a ?d ?t =>
    change (wp m o (fun a' w' => a' = a /\ w_db w' = d /\ w_metrics w' = t /\ w_tx w' = None) w)
  end.

(** ** Ownership *)

(** The worker does not hold the task. *)
Definition not_owner (db : DB) (taskID : uuid) (workerID : string) : Prop :=
  forall r, tasks db !! taskID = Some r -> owned_by workerID r = false.

Lemma sql_update_not_owner db taskID workerID f :
  not_owner db taskID workerID -> sql_update taskID (owned_by workerID) f db = (None, []).
Proof.
  intros H. unfold sql_update. destruct (tasks db !! taskID) as [r|] eqn:Hr; [|done].
  by rewrite (H _ Hr).
Qed.

Lemma sql_update_some db id p f r :
  tasks db !! id = Some r -> p r = true -> sql_update id p f db = (Some (f r), [PutTask (f r)]).
Proof. intros Hr Hp. unfold sql_update. by rewrite Hr, Hp. Qed.

Lemma sql_update_none db id p f :
  (forall r, tasks db !! id = Some r -> p r = false) -> sql_update id p f db = (None, []).
Proof.
  intros H. unfold sql_update. destruct (tasks db !! id) as [r|]; [|done].
  by rewrite (H r).
Qed.

Section calm_runs.
Context (o : Oracle) (w : World).
Hypothesis Hcalm : calm o.
Hypothesis Hidle : idle w.

(** [now()] of the next transaction. *)
Local Abbreviation now := (ev_now (o (w_next w))).
Local Abbreviation db := (w_db w).
Local Abbreviation met := (w_metrics w).

Lemma MarkCompleted_owner id workerID d r :
  tasks db !! id = Some r -> owned_by workerID r = true ->
  yields (MarkCompleted id workerID d) o w (Ok tt)
    (apply_writes [PutTask (set_completed now r);
                   AddLog (mkLog id COMPLETED (completed_message workerID d) now)] db)
    (add_completed 1 met).
Proof.
  intros Hr Hp. start_yields. pose proof (Inv_id _ _ _ HInv Hr) as Hid.
  unfold MarkCompleted, insertLog. calm_run. unfold sql_mark_completed.
  rewrite (sql_update_some _ _ _ _ r) by done. cbn beta iota. calm_run. after_put. by calm_run.
Qed.

Lemma MarkPending_owner task workerID lastError next r :
  tasks db !! t_ID task = Some r -> owned_by workerID r = true ->
  yields (MarkPending task workerID lastError next) o w (Ok tt)
    (apply_writes [PutTask (set_pending lastError next now r);
                   AddLog (mkLog (t_ID task) PENDING (pending_message task lastError next) now)] db)
    (add_retried 1 (add_attempt_failures 1 met)).
Proof.
  intros Hr Hp. start_yields. pose proof (Inv_id _ _ _ HInv Hr) as Hid.
  unfold MarkPending, insertLog. calm_run. unfold sql_mark_pending.
  rewrite (sql_update_some _ _ _ _ r) by done. cbn beta iota. calm_run. after_put. by calm_run.
Qed.

Lemma MarkDead_owner id workerID lastError reason r :
  tasks db !! id = Some r -> owned_by workerID r = true ->
  yields (MarkDead id workerID lastError reason) o w (Ok tt)
    (apply_writes [PutTask (set_dead lastError now r);
                   AddDeadLetter (mkDeadLetter id lastError now);
                   AddLog (mkLog id DEAD ("marked dead: " +:+ reason) now)] db)
    (add_dead 1 (add_attempt_failures 1 met)).
Proof.
  intros Hr Hp. start_yields. pose proof (Inv_id _ _ _ HInv Hr) as Hid.
  unfold MarkDead, insertLog. calm_run. unfold sql_mark_dead.
  rewrite (sql_update_some _ _ _ _ r) by done. cbn beta iota. calm_run. after_put. calm_run.
  after_put. by calm_run.
Qed.

Lemma Heartbeat_owner id workerID r :
  tasks db !! id = Some r -> owned_by workerID r = true ->
  yields (Heartbeat id workerID) o w (Ok tt)
    (apply_writes [PutTask (set_heartbeat workerID now r)] db) met.
Proof.
  intros Hr Hp. start_yields. unfold Heartbeat. calm_run. apply wp_db_exec; [done| |intros; calm_close].
  unfold sql_heartbeat. rewrite (proj2 Hcalm), (sql_update_some _ _ _ _ r) by done. cbn beta iota.
  split; intros; calm_close. by calm_run.
Qed.

Lemma MarkCompleted_not_owner id workerID d :
  not_owner db id workerID ->
  yields (MarkCompleted id workerID d) o w (Err ErrTaskOwnershipLost) db met.
Proof.
  intros Hn. start_yields. unfold MarkCompleted. calm_run. unfold sql_mark_completed.
  rewrite sql_update_not_owner by done. cbn beta iota. by calm_run.
Qed.

Lemma MarkPending_not_owner task workerID lastError next :
  not_owner db (t_ID task) workerID ->
  yields (MarkPending task workerID lastError next) o w (Err ErrTaskOwnershipLost) db met.
Proof.
  intros Hn. start_yields. unfold MarkPending. calm_run. unfold sql_mark_pending.
  rewrite sql_update_not_owner by done. cbn beta iota. by calm_run.
Qed.

Lemma MarkDead_not_owner id workerID lastError reason :
  not_owner db id workerID ->
  yields (MarkDead id workerID lastError reason) o w (Err ErrTaskOwnershipLost) db met.
Proof.
  intros Hn. start_yields. unfold MarkDead. calm_run. unfold sql_mark_dead.
  rewrite sql_update_not_owner by done. cbn beta iota. by calm_run.
Qed.

Lemma Heartbeat_not_owner id workerID :
  not_owner db id workerID ->
  yields (Heartbeat id workerID) o w (Err ErrTaskOwnershipLost) db met.
Proof.
  intros Hn. start_yields. unfold Heartbeat. calm_run. apply wp_db_exec; [done| |intros; calm_close].
  unfold sql_heartbeat. rewrite (proj2 Hcalm), sql_update_not_owner by done. cbn beta iota.
  split; intros; calm_close. by calm_run.
Qed.

(** ** Cancel and manual retry *)

Lemma Cancel_pending id r :
  tasks db !! id = Some r -> r_status r = PENDING ->
  yields (Cancel id) o w (Ok (scan_public (set_cancel now r)))
    (apply_writes [PutTask (set_cancel now r); AddLog (mkLog id CANCELED cancel_message now)] db)
    (add_canceled 1 met).
Proof.
  intros Hr Hs. start_yields. pose proof (Inv_id _ _ _ HInv Hr) as Hid.
  unfold Cancel, insertLog. calm_run. unfold sql_cancel.
  rewrite (sql_update_some _ _ _ _ r) by (done || by apply bool_decide_eq_true_2). cbn beta iota.
  change (r_id (set_cancel (ev_now (o n)) r)) with (r_id r). rewrite Hid.
  calm_run. after_put. by calm_run.
Qed.

Lemma Cancel_other id r :
  tasks db !! id = Some r -> r_status r <> PENDING ->
  yields (Cancel id) o w (Ok (scan_GetById r)) db met.
Proof.
  intros Hr Hs. start_yields. unfold Cancel. calm_run. unfold sql_cancel.
  rewrite sql_update_none by (intros; simplify_eq; by apply bool_decide_eq_false_2). cbn beta iota.
  calm_run. rewrite Hr. cbn. by calm_run.
Qed.

Lemma Cancel_absent id :
  tasks db !! id = None -> yields (Cancel id) o w (Err ErrTaskNotFound) db met.
Proof.
  intros Hr. start_yields. unfold Cancel. calm_run. unfold sql_cancel.
  rewrite sql_update_none by (intros; simplify_eq). cbn beta iota.
  calm_run. rewrite Hr. cbn. by calm_run.
Qed.

Lemma RetryDead_dead id r :
  tasks db !! id = Some r -> r_status r = DEAD ->
  yields (RetryDead id) o w (Ok (scan_public (set_retry_dead now r)))
    (apply_writes [PutTask (set_retry_dead now r); DelDeadLetters id;
                   AddLog (mkLog id PENDING retry_message now)] db) met.
Proof.
  intros Hr Hs. start_yields. pose proof (Inv_id _ _ _ HInv Hr) as Hid.
  unfold RetryDead, insertLog. calm_run. unfold sql_retry_dead.
  rewrite (sql_update_some _ _ _ _ r) by (done || by apply bool_decide_eq_true_2). cbn beta iota.
  calm_run. cbn [sql_delete_dead_letters app]. calm_run. after_put. by calm_run.
Qed.

Lemma RetryDead_other id r :
  tasks db !! id = Some r -> r_status r <> DEAD ->
  yields (RetryDead id) o w (Err ErrTaskNotDead) db met.
Proof.
  intros Hr Hs. start_yields. unfold RetryDead. calm_run. unfold sql_retry_dead.
  rewrite sql_update_none by (intros; simplify_eq; by apply bool_decide_eq_false_2). cbn beta iota.
  calm_run. rewrite Hr. cbn. by calm_run.
Qed.

Lemma RetryDead_absent id :
  tasks db !! id = None -> yields (RetryDead id) o w (Err ErrTaskNotFound) db met.
Proof.
  intros Hr. start_yields. unfold RetryDead. calm_run. unfold sql_retry_dead.
  rewrite sql_update_none by (intros; simplify_eq). cbn beta iota.
  calm_run. rewrite Hr. cbn. by calm_run.
Qed.
End calm_runs.

(** ** Claim, reaper, insert *)

Definition claim_log (workerID : string) (now : Z) (r : Row) : LogRow :=
  mkLog (r_id r) RUNNING (claim_message workerID (scan_claim (set_claim workerID now r))) now.

(** No attempt counter is at the end of its [INT] column. *)
Definition attempts_fit (db : DB) : Prop :=
  forall id r, tasks db !! id = Some r -> in_int32 (r_attempts r + 1) = true.

(** Some row is selected as soon as one qualifies: the order has a first element. *)
Lemma claim_before_refl r : claim_before r r = true.
Proof. unfold claim_before. rewrite orb_true_iff, andb_true_iff, Z.eqb_eq, Z.leb_le. lia. Qed.

Lemma claim_before_trans r1 r2 r3 :
  claim_before r1 r2 = true -> claim_before r2 r3 = true -> claim_before r1 r3 = true.
Proof.
  unfold claim_before.
  rewrite !orb_true_iff, !andb_true_iff, !Z.ltb_lt, !Z.eqb_eq, !Z.leb_le. lia.
Qed.

Lemma claim_before_total r1 r2 : claim_before r1 r2 = true \/ claim_before r2 r1 = true.
Proof.
  unfold claim_before.
  rewrite !orb_true_iff, !andb_true_iff, !Z.ltb_lt, !Z.eqb_eq, !Z.leb_le. lia.
Qed.

Lemma first_exists (l : list Row) :
  l <> [] -> exists r, r ∈ l /\ forall r', r' ∈ l -> claim_before r r' = true.
Proof.
  induction l as [|x l IH]; [done|]. intros _. destruct l as [|y l].
  - exists x. split; [constructor|]. intros r' [->|H]%elem_of_cons; [apply claim_before_refl|].
    by apply elem_of_nil in H.
  - destruct IH as (r & Hr & Hall); [done|]. destruct (claim_before_total x r) as [Hx|Hx].
    + exists x. split; [constructor|]. intros r' [->|H]%elem_of_cons; [apply claim_before_refl|].
      by eapply claim_before_trans; [|apply Hall].
    + exists r. split; [by constructor|]. intros r' [->|H]%elem_of_cons; auto.
Qed.

Lemma claim_candidate_None now e db :
  claim_candidate now e db = None <->
  forall id r, tasks db !! id = Some r -> claimable now (ev_locked e) r = false.
Proof.
  rewrite <- rows_where_nil. unfold claim_candidate. set (rows := rows_where _ _).
  set (firsts := List.filter _ _). split.
  - intros Hnone. destruct rows as [|x rows'] eqn:Hrows; [done|]. exfalso.
    destruct (first_exists rows) as (r & Hr & Hall); [by rewrite Hrows|].
    assert (r ∈ firsts) as Hin.
    { unfold firsts. apply elem_of_filter_In. rewrite <- Hrows. split; [done|].
      apply forallb_forall. intros r' Hr'. by apply Hall, list_elem_of_In. }
    apply lookup_ge_None in Hnone. destruct firsts as [|f fs] eqn:Hf; [by apply elem_of_nil in Hin|].
    pose proof (Nat.mod_upper_bound (ev_pick e) (length (f :: fs))). simpl in *. lia.
  - unfold firsts. by intros ->.
Qed.

Section calm_runs2.
Context (o : Oracle) (w : World).
Hypothesis Hcalm : calm o.
Hypothesis Hidle : idle w.

Local Abbreviation now := (ev_now (o (w_next w))).
Local Abbreviation db := (w_db w).
Local Abbreviation met := (w_metrics w).
(** The event the operation's first statement meets. *)
Local Abbreviation ev := (o (S (w_next w))).

Lemma Claim_some workerID r :
  fits 100 workerID = true -> in_int32 (r_attempts r + 1) = true -> claim_candidate now ev db = Some r ->
  yields (Claim workerID) o w (Ok (scan_claim (set_claim workerID now r)))
    (apply_writes [PutTask (set_claim workerID now r); AddLog (claim_log workerID now r)] db) met.
Proof.
  intros Hfit Hatt Hc. pose proof (claim_candidate_spec _ _ _ _ Hc) as (_ & [id Hr] & _).
  start_yields. pose proof (Inv_id _ _ _ HInv Hr) as Hid.
  unfold Claim, insertLog. calm_run. unfold sql_claim. rewrite Hc, Hfit, Hatt.
  cbn [negb]. cbn beta iota. calm_run.
  cbn [scan_claim t_ID r_id set_claim set_updated_at set_attempts set_started_at set_lock set_status].
  after_put. by calm_run.
Qed.

Lemma Claim_none workerID :
  claim_candidate now ev db = None ->
  yields (Claim workerID) o w (Err ErrTaskNotAvailable) db met.
Proof.
  intros Hc. start_yields. unfold Claim. calm_run. unfold sql_claim. rewrite Hc. cbn beta iota.
  by calm_run.
Qed.

Lemma Claim_name_too_long workerID r :
  fits 100 workerID = false -> claim_candidate now ev db = Some r ->
  yields (Claim workerID) o w
    (Err (DriverError "value too long for type character varying")) db met.
Proof.
  intros Hfit Hc. start_yields. unfold Claim. calm_run. unfold sql_claim. rewrite Hc, Hfit.
  cbn [negb]. cbn beta iota. by calm_run.
Qed.

Lemma RequeueStaleRunning_calm threshold reaperID :
  let st := rows_where (stale now threshold (ev_locked ev)) (tasks db) in
  yields (RequeueStaleRunning threshold reaperID) o w (Ok (Z.of_nat (length st)))
    (apply_writes (reap_writes reaperID now st) db) (add_reaped (Z.of_nat (length st)) met).
Proof.
  intros st.
  assert (forall r, r ∈ st -> is_Some (tasks db !! r_id r)) as Hst.
  { intros r [_ [k Hk]]%elem_of_rows_where. rewrite (Inv_id _ _ _ (proj2 Hidle) Hk). eauto. }
  start_yields.
  unfold RequeueStaleRunning. calm_run. rewrite sql_requeue_stale_eq. fold st.
  rewrite <- reap_puts_logs.
  destruct (reap_puts _ st) as [|x ws] eqn:Hws.
  - apply reap_puts_nil in Hws. rewrite Hws. cbn beta iota. calm_run. cbn [no_op].
    cbn [reap_rows log_reaped map app List.filter]. by calm_run.
  - cbn beta iota. do 2 wp_step. apply wp_tx_exec_next; [intros _|intros; calm_close].
    cbn [no_op]. rewrite app_nil_r. wp_step. apply wp_log_reaped.
    + rewrite <- Hws. intros r Hr. by apply reap_puts_fk.
    + cbn beta iota. cbn [app]. rewrite Z.add_0_l, length_reap_rows. by calm_run.
    + intros. calm_close.
Qed.
End calm_runs2.

(** At most one row has a given type and key. *)
Lemma rows_with_key db id r typ key :
  Inv db -> tasks db !! id = Some r -> same_key typ key r = true ->
  rows_where (same_key typ key) (tasks db) = [r].
Proof.
  intros HInv Hr Hkey.
  pose proof (rows_where_NoDup (same_key typ key) db HInv) as Hnd.
  assert (forall r', r' ∈ rows_where (same_key typ key) (tasks db) -> r' = r) as Hall.
  { intros r' [Hk' [k' Hr']]%elem_of_rows_where.
    assert (k' = id) as ->; [|congruence].
    apply (proj2 HInv _ _ _ _ Hr' Hr). revert Hkey Hk'. unfold same_key.
    repeat case_match; try done. intros. bool_to_prop. subst.
    rewrite andb_true_iff, !bool_decide_eq_true. split; congruence. }
  assert (r ∈ rows_where (same_key typ key) (tasks db)) as Hin
    by (apply elem_of_rows_where; eauto).
  destruct (rows_where _ _) as [|a [|b l]]; [by apply elem_of_nil in Hin|..].
  - f_equal. apply Hall. constructor.
  - exfalso. rewrite (Hall a), (Hall b) in Hnd by (repeat constructor).
    apply NoDup_cons in Hnd as [Hnd _]. apply Hnd. constructor.
Qed.

(** What the column types and the [CHECK] constraint of the table ask for. *)
Definition row_acceptable (task : TaskRow) : bool :=
  in_int32 (t_Priority task) && in_int32 (t_MaxRetries task) && fits 100 (t_Type task) &&
  fits 255 (default EmptyString (t_IdempotencyKey task)) &&
  negb (bool_decide (t_Type task = EmptyString)).

Lemma acceptable_encodable task : row_acceptable task = true -> encodable task = true.
Proof. unfold row_acceptable, encodable. intros H. bool_to_prop. by apply andb_true_iff. Qed.

(** The row an accepted submission becomes. *)
Definition submitted_row (task : TaskRow) (h : string) (now : Z) (id : uuid) : Row :=
  mkRow id (t_IdempotencyKey task) (t_Type task) (t_Payload task) h PENDING
    (t_Priority task) 0 (t_MaxRetries task) (t_RunAt task) None None None None None now now.

Lemma sql_insert_acceptable task h now ev db :
  row_acceptable task = true ->
  sql_insert_task (t_Type task) (t_Payload task) h (t_IdempotencyKey task) (t_Priority task)
    (t_MaxRetries task) (t_RunAt task) now ev db =
  match rows_where (same_key (t_Type task) (t_IdempotencyKey task)) (tasks db) with
  | _ :: _ => Ok (None, [])
  | [] => match tasks db !! ev_uuid ev with
          | Some _ => sql_error "duplicate key value violates unique constraint"
          | None => Ok (Some (submitted_row task h now (ev_uuid ev)),
                        [PutTask (submitted_row task h now (ev_uuid ev))])
          end
  end.
Proof.
  unfold row_acceptable, sql_insert_task. intros H. bool_to_prop.
  rewrite H, H3, H2, H1. cbn [negb andb]. by rewrite bool_decide_false by done.
Qed.

Section calm_insert.
Context {hasher : PayloadHasher} (o : Oracle) (w : World) (task : TaskRow) (h : string).
Hypothesis Hcalm : calm o.
Hypothesis Hidle : idle w.
Hypothesis Hhash : hashPayload (t_Payload task) = Ok h.

Local Abbreviation now := (ev_now (o (w_next w))).
Local Abbreviation db := (w_db w).
Local Abbreviation met := (w_metrics w).
Local Abbreviation ev := (o (S (w_next w))).

Definition inserted_row : Row := submitted_row task h now (ev_uuid ev).

Lemma Create_new :
  row_acceptable task = true -> tasks db !! ev_uuid ev = None ->
  rows_where (same_key (t_Type task) (t_IdempotencyKey task)) (tasks db) = [] ->
  yields (Create task) o w (Ok (true, scan_inserted task inserted_row))
    (apply_writes [PutTask inserted_row] db) (add_enqueued 1 met).
Proof.
  intros Hok Hid Hkey. pose proof (sql_insert_acceptable task h now ev db Hok) as Hsql.
  unfold inserted_row in *. start_yields.
  unfold Create, CreateTx, insertTask. calm_run. rewrite Hhash, (acceptable_encodable task Hok). calm_run.
  rewrite Hsql, Hkey, Hid. cbn beta iota. by calm_run.
Qed.

(** A replay: a task with this type and key exists. *)
Lemma Create_existing id r :
  row_acceptable task = true -> tasks db !! id = Some r ->
  same_key (t_Type task) (t_IdempotencyKey task) r = true ->
  yields (Create task) o w
    (if bool_decide (r_payload_hash r = h) then Ok (false, scan_by_key r) else Err ErrTaskConflict)
    db met.
Proof.
  intros Hok Hr Hkey. pose proof (sql_insert_acceptable task h now ev db Hok) as Hsql.
  pose proof (rows_with_key _ _ _ _ _ (proj2 Hidle) Hr Hkey) as Hrows. start_yields.
  assert (exists k, t_IdempotencyKey task = Some k) as [k Hk].
  { unfold same_key in Hkey. destruct (t_IdempotencyKey task); [eauto|done]. }
  unfold Create, CreateTx, insertTask. calm_run. rewrite Hhash, (acceptable_encodable task Hok). calm_run.
  rewrite Hsql, Hrows. cbn beta iota. calm_run. unfold getByTypeAndIdempotencyKey. calm_run.
  unfold sql_get_by_key. rewrite Hk in Hrows |- *. cbn [default from_option]. change (Datatypes.id k) with k.
  rewrite Hrows. cbn [head]. cbn beta iota. calm_run. cbn [scan_by_key t_PayloadHash].
  case_bool_decide; cbn [negb]; by calm_run.
Qed.

End calm_insert.

(** ** Failures *)

(** No call takes effect while reporting an error. *)
Definition no_lost_ack (o : Oracle) : Prop := forall n m, ev_fault (o n) <> FailAfter m.

(** When [m] answers an error, the database is as before. *)
Definition fails_safely {A} (m : M (res A)) : Prop :=
  forall o w, no_interference o -> no_lost_ack o -> idle w ->
  forall e, (m o w).1 = Err e -> w_db (m o w).2 = w_db w.

Ltac start_fail :=
  let o := fresh "o" in let w := fresh "w" in
  intros o w Hquiet Hack [Htx HInv]; wp_world w;
  match goal with |- forall e, (?m o ?w).1 = _ -> _ = ?db =>
    change (wp m o (fun r w' => forall e, r = Err e -> w_db w' = db) w)
  end.

Ltac quiet_run :=
  repeat (first [wp_step | apply wp_GetById; [naive_solver|..]]; intros;
          try match goal with
          | Ha : no_lost_ack ?o, H : ev_fault (?o _) = FailAfter _ |- _ => by destruct (Ha _ _ H)
          end;
          repeat match goal with Hc : no_interference ?o |- context [ev_env (?o ?n) ?d] =>
            rewrite (Hc n d) end;
          cbn beta iota; autorewrite with dhara; cbn beta iota; try by intros).

Ltac quiet_update stmt r Hr :=
  unfold stmt;
  match goal with |- context [sql_update ?id ?p ?f ?d] =>
    let Hp := fresh "Hp" in
    destruct (sql_update_cases id p f d) as [(r & Hr & Hp & ->)| ->];
    [match goal with HI : Inv d |- _ => pose proof (Inv_id _ _ _ HI Hr) end|]; cbn beta iota
  end.

Lemma MarkCompleted_fails_safely id workerID d : fails_safely (MarkCompleted id workerID d).
Proof.
  start_fail. unfold MarkCompleted, insertLog. quiet_run.
  quiet_update sql_mark_completed r Hr; quiet_run. after_put. quiet_run.
Qed.

Lemma MarkPending_fails_safely t workerID e next : fails_safely (MarkPending t workerID e next).
Proof.
  start_fail. unfold MarkPending, insertLog. quiet_run.
  quiet_update sql_mark_pending r Hr; quiet_run. after_put. quiet_run.
Qed.

Lemma MarkDead_fails_safely id workerID e reason : fails_safely (MarkDead id workerID e reason).
Proof.
  start_fail. unfold MarkDead, insertLog. quiet_run.
  quiet_update sql_mark_dead r Hr; quiet_run. after_put. quiet_run. after_put. quiet_run.
Qed.

Lemma Cancel_fails_safely id : fails_safely (Cancel id).
Proof.
  start_fail. unfold Cancel, insertLog. quiet_run.
  quiet_update sql_cancel r Hr; quiet_run.
  - after_put. quiet_run.
  - destruct (_ <$> _); quiet_run.
Qed.

Lemma RetryDead_fails_safely id : fails_safely (RetryDead id).
Proof.
  start_fail. unfold RetryDead, insertLog. quiet_run.
  quiet_update sql_retry_dead r Hr; quiet_run.
  - cbn [sql_delete_dead_letters app]. quiet_run. after_put. quiet_run.
  - destruct (_ <$> _); quiet_run.
Qed.

Lemma Claim_fails_safely workerID : fails_safely (Claim workerID).
Proof.
  start_fail. unfold Claim, insertLog. quiet_run. unfold sql_claim.
  destruct (claim_candidate _ _ _) as [r|] eqn:Hc; cbn beta iota; [|by quiet_run].
  destruct (negb (fits 100 workerID)); [by quiet_run|].
  destruct (negb (in_int32 (r_attempts r + 1))); [by quiet_run|]. cbn beta iota.
  quiet_run. cbn [scan_claim t_ID]. after_put. quiet_run.
Qed.

Lemma Heartbeat_fails_safely id workerID : fails_safely (Heartbeat id workerID).
Proof.
  start_fail. unfold Heartbeat. wp_step. apply wp_db_exec; [done| |].
  - rewrite Hquiet. unfold sql_heartbeat.
    destruct (sql_update_cases id (owned_by workerID) (set_heartbeat workerID (ev_now (o n))) db)
      as [(r & Hr & _ & ->)| ->]; cbn beta iota;
      (split; [intros; by quiet_run|intros m Hm; by destruct (Hack _ _ Hm)]).
  - intros. by rewrite Hquiet.
Qed.

Lemma GetById_fails_safely id : fails_safely (GetById id).
Proof. start_fail. quiet_run. Qed.

Lemma List_fails_safely filter : fails_safely (List_ filter).
Proof.
  start_fail. unfold List_. wp_step. apply wp_db_exec; [done| |intros; by rewrite Hquiet].
  rewrite Hquiet. cbn [sql_count]. split; [|intros m Hm; by destruct (Hack _ _ Hm)]. intros. wp_step.
  apply wp_db_exec; [done| |intros; by rewrite Hquiet]. rewrite Hquiet. unfold sql_list.
  destruct (_ <? _); [done|]. destruct (_ <? _); [done|]. cbn beta iota.
  split; [|intros m Hm; by destruct (Hack _ _ Hm)]. intros. do 2 wp_step.
  apply wp_db_exec; [done| |intros; by rewrite Hquiet]. cbn. rewrite Hquiet.
  split; intros; [by quiet_run|by destruct (Hack (S (S n)) m)].
Qed.

Lemma GetQueueDBMetrics_fails_safely : fails_safely GetQueueDBMetrics.
Proof.
  start_fail. unfold GetQueueDBMetrics. do 2 wp_step.
  apply wp_db_exec; [done| |intros; by rewrite Hquiet]. rewrite Hquiet.
  cbn [sql_queue_metrics]. cbn beta iota.
  split; [intros; by quiet_run|intros m Hm; by destruct (Hack _ _ Hm)].
Qed.

Lemma Create_fails_safely {hasher : PayloadHasher} task : fails_safely (Create task).
Proof.
  start_fail. unfold Create, CreateTx, insertTask. quiet_run.
  destruct (hashPayload _) as [h|e]; [|by quiet_run]. destruct (encodable task); [|by quiet_run]. quiet_run.
  destruct (sql_insert_task_cases (t_Type task) (t_Payload task) h (t_IdempotencyKey task)
    (t_Priority task) (t_MaxRetries task) (t_RunAt task) (ev_now (o n)) (o (S n)) db)
    as [[m ->]|[(r & _ & ->)|(Hk & Hid & ->)]]; cbn beta iota; autorewrite with dhara; quiet_run.
  unfold getByTypeAndIdempotencyKey. quiet_run. cbn [sql_get_by_key]. destruct (head _);
    [quiet_run|by quiet_run].
  destruct (negb _); by quiet_run.
Qed.

Lemma RequeueStaleRunning_fails_safely threshold reaperID :
  fails_safely (RequeueStaleRunning threshold reaperID).
Proof.
  start_fail. unfold RequeueStaleRunning. quiet_run. rewrite sql_requeue_stale_eq.
  set (st := rows_where _ _).
  assert (forall r, r ∈ st -> is_Some (tasks db !! r_id r)) as Hst.
  { intros r [_ [k Hk]]%elem_of_rows_where. rewrite (Inv_id _ _ _ HInv Hk). eauto. }
  destruct (reap_puts _ st) as [|x ws] eqn:Hws.
  - apply reap_puts_nil in Hws. rewrite Hws. cbn beta iota. quiet_run; cbn [no_op].
    all: cbn [reap_rows log_reaped map app List.filter]; by quiet_run.
  - cbn beta iota. do 2 wp_step. apply wp_tx_exec_next; [intros _|by intros].
    cbn [no_op]. rewrite app_nil_r. wp_step. apply wp_log_reaped.
    + rewrite <- Hws. intros r Hr. by apply reap_puts_fk.
    + cbn beta iota. cbn [app]. quiet_run.
    + by intros.
Qed.

Lemma fails_safely_outcome {A} (m : M (res A)) : fails_safely m -> fails_safely (outcome m).
Proof.
  intros Hm o w Hq Ha Hi e. unfold outcome, bind. specialize (Hm o w Hq Ha Hi).
  destruct (m o w) as [[a|e'] w']; simpl in *; [done|]. intros _. by eapply Hm.
Qed.

Lemma run_op_fails_safely {hasher : PayloadHasher} op : fails_safely (run_op op).
Proof.
  destruct op; simpl; apply fails_safely_outcome;
    auto using Create_fails_safely, GetById_fails_safely, List_fails_safely, Cancel_fails_safely,
      Claim_fails_safely, Heartbeat_fails_safely, MarkCompleted_fails_safely,
      MarkPending_fails_safely, MarkDead_fails_safely, RetryDead_fails_safely,
      RequeueStaleRunning_fails_safely, GetQueueDBMetrics_fails_safely.
Qed.
