(* ===== verification/StoreContracts.v ===== *)
(** StoreContracts: the contract of each store operation.

    Built from the branch lemmas of [StoreSpec]: what a claim selects, who may
    write an outcome, what the reaper touches, how idempotency keys behave,
    what a listing contains, and what a failed call leaves behind. *)

From S2P Require Import Prelude Dharatype GoTime Float64 Metrics Pg PgLogic TaskStore Lifecycle.
From S2P Require Import StoreRefine StoreTheorems StoreSpec.

(** [r] is a row of the table, under its id. *)
Definition has_row (db : DB) (r : Row) : Prop := tasks db !! r_id r = Some r.

(** The row [workerID] holds under this id, if it does. *)
Definition held_row (db : DB) (id : uuid) (workerID : string) : option Row :=
  match tasks db !! id with
  | Some r => if owned_by workerID r then Some r else None
  | None => None
  end.

Lemma held_row_Some db id workerID r :
  held_row db id workerID = Some r -> tasks db !! id = Some r /\ owned_by workerID r = true.
Proof. unfold held_row. intros. repeat case_match; naive_solver. Qed.

Lemma held_row_None db id workerID : held_row db id workerID = None -> not_owner db id workerID.
Proof. unfold held_row, not_owner. intros H r Hr. rewrite Hr in H. by destruct (owned_by _ _). Qed.

(** What the reaper makes of one task. *)
Definition reaped_view (now threshold : Z) (locked : gset uuid) (v : TaskView) : TaskView :=
  match v_row v with
  | Some r =>
      if stale now threshold locked r then
        if exhausted r
        then mkView (Some (set_dead reaped_dead_error now r)) (v_hist v ++ [DEAD]) (S (v_dead v))
        else mkView (Some (set_pending reaped_pending_error now now r)) (v_hist v ++ [PENDING]) (v_dead v)
      else v
  | None => v
  end.

Lemma view_reaped reaperID now threshold locked db id :
  Inv db ->
  view id (apply_writes (reap_writes reaperID now (rows_where (stale now threshold locked) (tasks db))) db) =
  reaped_view now threshold locked (view id db).
Proof.
  intros HInv. rewrite view_apply_writes. unfold reaped_view. simpl.
  destruct (tasks db !! id) as [r|] eqn:Hr.
  - pose proof (Inv_id _ _ _ HInv Hr) as Hid. destruct (stale now threshold locked r) eqn:Hst.
    + rewrite <- Hid. rewrite view_reap_writes;
        [done|by apply rows_where_NoDup|apply elem_of_rows_where; eauto].
    + apply view_reap_writes_other. intros r' [Hst' [k Hk]]%elem_of_rows_where Heq.
      pose proof (Inv_id _ _ _ HInv Hk). congruence.
  - apply view_reap_writes_other. intros r' [_ [k Hk]]%elem_of_rows_where Heq.
    pose proof (Inv_id _ _ _ HInv Hk). congruence.
Qed.

Lemma calm_env_ok o : calm o -> env_ok o.
Proof. intros [_ H] n db. rewrite H. apply rtc_refl. Qed.

(** ** Listing *)

(** The condition a filter stands for. *)
Definition filter_meaning (f : TaskListFilter) (r : Row) : Prop :=
  (f_Status f = EmptyString \/ status_text (r_status r) = f_Status f) /\
  (f_Type f = EmptyString \/ r_type r = f_Type f) /\
  (f_Retrying f = Some true -> r_status r = PENDING /\ 0 < r_attempts r).

Lemma matches_filter f r : matches (list_where f) r = true <-> filter_meaning f r.
Proof.
  unfold matches, list_where, filter_meaning. rewrite !forallb_app, !andb_true_iff.
  assert (forall (P Q : Prop) `{!Decision P, !Decision Q} (g : Row -> bool),
    g r = bool_decide Q -> (forallb (fun c => c r) (if bool_decide P then [] else [g]) = true <-> P \/ Q)) as Hif.
  { intros P Q HP HQ g Hg. destruct (decide P) as [Hp|Hp].
    - rewrite bool_decide_true by done. split; [by left|done].
    - rewrite bool_decide_false by done. cbn [forallb].
      rewrite Hg, andb_true_r, bool_decide_eq_true. tauto. }
  rewrite !(Hif _ _ _ _ _ eq_refl). apply and_iff_compat_l, and_iff_compat_l.
  destruct (f_Retrying f) as [[]|]; simpl; [|naive_solver..].
  unfold has_status. rewrite andb_true_r, andb_true_iff, bool_decide_eq_true, Z.ltb_lt. naive_solver.
Qed.

(** All rows that match, newest first. *)
Definition listing (f : TaskListFilter) (db : DB) : list Row :=
  merge_sort newer (rows_where (matches (list_where f)) (tasks db)).

#[global] Instance newer_total : Total newer.
Proof. intros r1 r2. unfold newer. lia. Qed.
#[global] Instance newer_trans : Transitive newer.
Proof. intros r1 r2 r3. unfold newer. lia. Qed.

Lemma listing_sorted f db : StronglySorted newer (listing f db).
Proof. apply (StronglySorted_merge_sort _). Qed.

Lemma listing_Permutation f db : Permutation (listing f db) (rows_where (matches (list_where f)) (tasks db)).
Proof. apply merge_sort_Permutation. Qed.

Lemma elem_of_listing f db r : Inv db -> r ∈ listing f db <-> has_row db r /\ filter_meaning f r.
Proof.
  intros HInv. rewrite listing_Permutation, elem_of_rows_where, matches_filter. unfold has_row. split.
  - intros [Hm [k Hk]]. by rewrite (Inv_id _ _ _ HInv Hk).
  - intros [Hr Hm]. eauto.
Qed.

Lemma listing_NoDup f db : Inv db -> NoDup (map r_id (listing f db)).
Proof.
  intros HInv. rewrite listing_Permutation. by apply rows_where_NoDup.
Qed.

Lemma List_calm f o w :
  calm o -> idle w -> 0 <= f_Limit f -> 0 <= f_Offset f ->
  yields (List_ f) o w
    (Ok (map scan_public (take (Z.to_nat (f_Limit f)) (drop (Z.to_nat (f_Offset f)) (listing f (w_db w)))),
         Z.of_nat (length (listing f (w_db w))))) (w_db w) (w_metrics w).
Proof.
  intros Hcalm Hidle Hl Ho. rewrite (Permutation_length (listing_Permutation f _)).
  start_yields. unfold List_.
  wp_step. apply wp_db_exec; [done| |intros; calm_close].
  cbn [sql_count]. rewrite (proj2 Hcalm). split; [intros _|intros; calm_close]. cbn [apply_writes].
  wp_step. apply wp_db_exec; [done| |intros; calm_close]. rewrite (proj2 Hcalm). unfold sql_list.
  destruct (Z.ltb_spec (f_Limit f) 0); [lia|]. destruct (Z.ltb_spec (f_Offset f) 0); [lia|].
  split; [intros _|intros; calm_close]. cbn [apply_writes].
  do 2 wp_step. apply wp_db_exec; [done| |intros; calm_close]. cbn [no_op]. rewrite (proj2 Hcalm).
  split; [intros _|intros; calm_close]. wp_step. unfold listing. done.
Qed.

(** ** Gauges *)

Lemma length_filter_split {A} (p q : A -> bool) (l : list A) :
  length (List.filter p l) =
  (length (List.filter (fun x => p x && q x) l) + length (List.filter (fun x => p x && negb (q x)) l))%nat.
Proof. induction l as [|x l IH]; [done|]. simpl. destruct (p x), (q x); simpl; lia. Qed.

Lemma count_pending now db :
  count_rows (has_status PENDING) db =
  count_rows (fun r => has_status PENDING r && (r_run_at r <=? now)) db +
  count_rows (fun r => has_status PENDING r && (now <? r_run_at r)) db.
Proof.
  unfold count_rows, rows_where.
  rewrite (length_filter_split (has_status PENDING) (fun r => r_run_at r <=? now)), Nat2Z.inj_add.
  do 3 f_equal. apply filter_ext. intros r. f_equal. by rewrite Z.ltb_antisym.
Qed.

Lemma count_statuses db :
  count_rows (has_status PENDING) db + count_rows (has_status RUNNING) db +
  count_rows (has_status COMPLETED) db + count_rows (has_status CANCELED) db +
  count_rows (has_status DEAD) db = Z.of_nat (size (tasks db)).
Proof.
  rewrite <- length_map_to_list.
  unfold count_rows, rows_where. rewrite <- (length_map snd (map_to_list _)). generalize (map snd (map_to_list (tasks db))).
  intros l. induction l as [|r l IH]; [done|]. unfold has_status in *. simpl.
  destruct (r_status r); repeat (rewrite bool_decide_true by done || rewrite bool_decide_false by done);
    simpl length; lia.
Qed.

Lemma GetQueueDBMetrics_calm o w :
  calm o -> idle w ->
  exists m, sql_queue_metrics (ev_now (o (w_next w))) (o (w_next w)) (w_db w) = Ok (Some m, []) /\
    yields GetQueueDBMetrics o w (Ok m) (w_db w) (w_metrics w).
Proof.
  intros Hcalm Hidle. eexists. split; [reflexivity|]. start_yields. unfold GetQueueDBMetrics.
  do 2 wp_step. apply wp_db_exec; [done| |intros; calm_close]. rewrite (proj2 Hcalm).
  cbn [sql_queue_metrics]. split; [intros _|intros; calm_close]. by wp_step.
Qed.

(** ** An insert that fails *)

(** The [INSERT] of [insertTask], with its arguments. *)
Definition insert_statement (task : TaskRow) (h : string) : Stmt (option Row) :=
  sql_insert_task (t_Type task) (t_Payload task) h (t_IdempotencyKey task) (t_Priority task)
    (t_MaxRetries task) (t_RunAt task).

Lemma tx_exec_metrics {A} (s : Stmt A) o w : w_metrics (tx_exec s o w).2 = w_metrics w.
Proof. unfold tx_exec, tick, set_tx. simpl. repeat case_match; done. Qed.

(** ** Contracts *)

Section contracts.
Context (o : Oracle) (w : World).
Local Abbreviation now := (ev_now (o (w_next w))).
Local Abbreviation locked := (ev_locked (o (S (w_next w)))).
Local Abbreviation db := (w_db w).
Local Abbreviation met := (w_metrics w).

(** The claim takes PENDING tasks that are due and that no other session has
    locked, the highest priority first and of those the earliest run time. *)
Definition available (r : Row) : Prop :=
  has_row db r /\ r_status r = PENDING /\ r_run_at r <= now /\ r_id r ∉ locked.
Definition goes_first (r r' : Row) : Prop :=
  r_priority r' < r_priority r \/ (r_priority r' = r_priority r /\ r_run_at r <= r_run_at r').

(** The row a claim leaves: only status, attempts, start, lock and update time
    are new. *)
Definition taken_row (workerID : string) (r : Row) : Row :=
  mkRow (r_id r) (r_idempotency_key r) (r_type r) (r_payload r) (r_payload_hash r) RUNNING (r_priority r)
    (r_attempts r + 1) (r_max_retries r) (r_run_at r) (Some now) (r_completed_at r) (Some workerID) (Some now)
    (r_last_error r) (r_created_at r) now.
Definition taken_log (workerID : string) (r : Row) : LogRow :=
  mkLog (r_id r) RUNNING ("claimed by worker " +:+ workerID +:+ " (attempt " +:+ itoa (r_attempts r + 1) +:+ "/" +:+
    itoa (r_max_retries r) +:+ ")") now.

Lemma available_claimable r : has_row db r -> claimable now locked r = true <-> available r.
Proof.
  intros Hr. unfold claimable, available, has_status. rewrite !andb_true_iff, negb_true_iff, Z.leb_le,
    bool_decide_eq_true, bool_decide_eq_false. tauto.
Qed.

Lemma goes_first_before r r' : claim_before r r' = true <-> goes_first r r'.
Proof. unfold claim_before, goes_first. rewrite orb_true_iff, andb_true_iff, Z.ltb_lt, Z.eqb_eq, Z.leb_le. naive_solver lia. Qed.

(** C8: A claim, undisturbed, takes a PENDING task that is due and not locked by
    another session, of the highest priority and among those of the earliest run
    time; it moves exactly that row to RUNNING under the worker's name, counts
    the attempt and logs it. It answers "not available", and changes nothing,
    exactly when there is no such task. *)
Theorem claim_contract workerID :
  calm o -> idle w -> fits 100 workerID = true -> attempts_fit db ->
  (exists r, available r /\ (forall r', available r' -> goes_first r r') /\
     yields (Claim workerID) o w (Ok (scan_claim (taken_row workerID r)))
       (apply_writes [PutTask (taken_row workerID r); AddLog (taken_log workerID r)] db) met)
  \/ ((forall r, ~ available r) /\ yields (Claim workerID) o w (Err ErrTaskNotAvailable) db met).
Proof.
  intros Hcalm Hidle Hfit Hatt.
  destruct (claim_candidate now (o (S (w_next w))) db) as [r|] eqn:Hc.
  - left. exists r. pose proof (claim_candidate_spec _ _ _ _ Hc) as (Hcl & [id Hr] & Hbest).
    assert (has_row db r) as Hrow by (unfold has_row; by rewrite (Inv_id _ _ _ (proj2 Hidle) Hr)).
    split_and!; [by apply available_claimable| |by apply Claim_some; [..|by eapply Hatt|]].
    intros r' Hr'. pose proof (proj1 Hr') as Hrow'. apply goes_first_before, (Hbest (r_id r') r'); [done|].
    by apply available_claimable.
  - right. split; [|by apply Claim_none]. intros r Hr. pose proof (proj1 Hr) as Hrow.
    apply available_claimable in Hr; [|done]. by rewrite (proj1 (claim_candidate_None _ _ _) Hc (r_id r) r Hrow) in Hr.
Qed.


(** Cancelling takes effect on PENDING tasks only: such a task becomes
    CANCELED, logged and counted; any other task is returned as it is and
    nothing changes; an unknown id is "not found". *)
Theorem cancel_contract id :
  calm o -> idle w ->
  match tasks db !! id with
  | Some r =>
      if decide (r_status r = PENDING)
      then yields (Cancel id) o w (Ok (scan_public (set_cancel now r)))
             (apply_writes [PutTask (set_cancel now r); AddLog (mkLog id CANCELED cancel_message now)] db)
             (add_canceled 1 met)
      else yields (Cancel id) o w (Ok (scan_GetById r)) db met
  | None => yields (Cancel id) o w (Err ErrTaskNotFound) db met
  end.
Proof.
  intros Hcalm Hidle. destruct (tasks db !! id) as [r|] eqn:Hr; [|by apply Cancel_absent].
  case_decide; [by apply Cancel_pending|by apply (Cancel_other _ _ Hcalm Hidle id r)].
Qed.

(** A manual retry revives DEAD tasks only: the task becomes PENDING and
    due now with a fresh attempt budget, its dead letters are removed and the
    retry is logged; otherwise nothing changes. *)
Theorem retry_contract id :
  calm o -> idle w ->
  match tasks db !! id with
  | Some r =>
      if decide (r_status r = DEAD)
      then yields (RetryDead id) o w (Ok (scan_public (set_retry_dead now r)))
             (apply_writes [PutTask (set_retry_dead now r); DelDeadLetters id;
                            AddLog (mkLog id PENDING retry_message now)] db) met
      else yields (RetryDead id) o w (Err ErrTaskNotDead) db met
  | None => yields (RetryDead id) o w (Err ErrTaskNotFound) db met
  end.
Proof.
  intros Hcalm Hidle. destruct (tasks db !! id) as [r|] eqn:Hr; [|by apply RetryDead_absent].
  case_decide; [by apply RetryDead_dead|by apply (RetryDead_other _ _ Hcalm Hidle id r)].
Qed.


(** A listing contains, newest first, the requested page of exactly the
    tasks the filter describes, each of them once, and the total count of
    them; it changes nothing. *)
Theorem list_contract f :
  calm o -> idle w -> 0 <= f_Limit f -> 0 <= f_Offset f ->
  exists all, StronglySorted newer all /\ NoDup (map r_id all) /\
    (forall r, r ∈ all <-> has_row db r /\ filter_meaning f r) /\
    yields (List_ f) o w
      (Ok (map scan_public (take (Z.to_nat (f_Limit f)) (drop (Z.to_nat (f_Offset f)) all)),
           Z.of_nat (length all))) db met.
Proof.
  intros Hcalm Hidle Hl Ho. exists (listing f db).
  split_and!; [apply listing_sorted|by apply listing_NoDup, Hidle| |by apply List_calm].
  intros r. apply elem_of_listing, Hidle.
Qed.

(** The queue gauges are consistent: ready and delayed tasks add up to
    the pending ones, and the five statuses to the number of tasks. *)
Theorem queue_metrics_consistent :
  calm o -> idle w ->
  exists m, yields GetQueueDBMetrics o w (Ok m) db met /\
    q_TasksPendingReady m + q_TasksPendingDelayed m = q_TasksPending m /\
    q_TasksPending m + q_TasksRunning m + q_TasksCompleted m + q_TasksCanceled m + q_TasksDead m =
      Z.of_nat (size (tasks db)).
Proof.
  intros Hcalm Hidle. destruct (GetQueueDBMetrics_calm o w Hcalm Hidle) as (m & Hm & Hy).
  exists m. split; [done|]. injection Hm as <-. simpl. split.
  - symmetry. apply count_pending.
  - apply count_statuses.
Qed.
End contracts.

Section insert_contracts.
Context {hasher : PayloadHasher} (o : Oracle) (w : World).

Local Abbreviation db := (w_db w).
Local Abbreviation met := (w_metrics w).

Definition no_row_with_key (d : DB) (task : TaskRow) : Prop :=
  forall r, has_row d r -> same_key (t_Type task) (t_IdempotencyKey task) r = false.

Lemma no_row_with_key_nil task :
  idle w -> no_row_with_key db task ->
  rows_where (same_key (t_Type task) (t_IdempotencyKey task)) (tasks db) = [].
Proof.
  intros Hidle H. apply rows_where_nil. intros k r Hr. apply H. unfold has_row.
  by rewrite (Inv_id _ _ _ (proj2 Hidle) Hr).
Qed.

(** Creating a task whose type and idempotency key are not in use stores
    one PENDING row with the submitted fields, zero attempts and the new id.
    When they are in use, nothing is stored: the existing task is returned if
    the payload hash is the same, and the call is a conflict otherwise. *)
Theorem create_contract task h :
  calm o -> idle w -> hashPayload (t_Payload task) = Ok h -> row_acceptable task = true ->
  (tasks db !! ev_uuid (o (S (w_next w))) = None -> no_row_with_key db task ->
     yields (Create task) o w (Ok (true, scan_inserted task (inserted_row o w task h)))
       (apply_writes [PutTask (inserted_row o w task h)] db) (add_enqueued 1 met)) /\
  (forall r, has_row db r -> same_key (t_Type task) (t_IdempotencyKey task) r = true ->
     yields (Create task) o w
       (if bool_decide (r_payload_hash r = h) then Ok (false, scan_by_key r) else Err ErrTaskConflict)
       db met).
Proof.
  intros Hcalm Hidle Hh Hok. split.
  - intros Hid Hno. apply Create_new; try done. by apply no_row_with_key_nil.
  - intros r Hr Hk. by eapply Create_existing.
Qed.

(** After a first submission its row is stored and found by its key. *)
Lemma create_first task h k :
  calm o -> idle w -> hashPayload (t_Payload task) = Ok h -> row_acceptable task = true ->
  t_IdempotencyKey task = Some k ->
  tasks db !! ev_uuid (o (S (w_next w))) = None -> no_row_with_key db task ->
  exists t1 w1 r, Create task o w = (Ok (true, t1), w1) /\ idle w1 /\ tasks (w_db w1) !! r_id r = Some r /\
    same_key (t_Type task) (Some k) r = true /\ r_payload_hash r = h /\ t_ID t1 = r_id r.
Proof.
  intros Hcalm Hidle Hh Hok Hk Hid Hno.
  pose proof (Create_new o w task h Hcalm Hidle Hh Hok Hid (no_row_with_key_nil _ Hidle Hno)) as Hnew.
  pose proof (Create_refines task o w (calm_env_ok _ Hcalm) (proj1 Hidle) (proj2 Hidle)) as Href.
  destruct (Create task o w) as [a w1] eqn:Hrun. destruct Hnew as (Ha & Hdb & _ & Htx).
  rewrite Hrun in *. cbn [fst snd] in *. subst a. eexists _, w1, (inserted_row o w task h). split; [done|].
  split; [split; [done|]; eapply db_steps_Inv; [apply Href|apply Hidle]|].
  split; [rewrite Hdb; apply lookup_insert_eq|]. split_and!; [|done..].
  unfold same_key, inserted_row, submitted_row. cbn [r_idempotency_key r_type]. rewrite Hk. by rewrite !bool_decide_true.
Qed.

(** C11: Submitting twice under one idempotency key stores one task: after a
    first successful submission a second one with an equal payload hash
    answers "not created" with the id of the first, one with a different hash
    answers a conflict, and neither changes the database or the counters. *)
Theorem create_twice task task' h h' k :
  calm o -> idle w ->
  hashPayload (t_Payload task) = Ok h -> row_acceptable task = true ->
  hashPayload (t_Payload task') = Ok h' -> row_acceptable task' = true ->
  t_IdempotencyKey task = Some k -> t_IdempotencyKey task' = Some k ->
  t_Type task' = t_Type task ->
  tasks db !! ev_uuid (o (S (w_next w))) = None -> no_row_with_key db task ->
  exists t1 w1, Create task o w = (Ok (true, t1), w1) /\
    if bool_decide (h' = h)
    then exists t2, yields (Create task') o w1 (Ok (false, t2)) (w_db w1) (w_metrics w1) /\
                    t_ID t2 = t_ID t1
    else yields (Create task') o w1 (Err ErrTaskConflict) (w_db w1) (w_metrics w1).
Proof.
  intros Hcalm Hidle Hh Hok Hh' Hok' Hk Hk' Ht Hid Hno.
  destruct (create_first task h k Hcalm Hidle Hh Hok Hk Hid Hno) as (t1 & w1 & r & Hrun & Hidle1 & Hr & Hsame & <- & Hid1).
  eexists t1, w1. split; [done|]. rewrite <- Hk', <- Ht in Hsame.
  pose proof (Create_existing o w1 task' h' Hcalm Hidle1 Hh' (r_id r) r Hok' Hr Hsame) as Hex.
  destruct (decide (h' = r_payload_hash r)) as [->|Hne].
  - rewrite bool_decide_true in Hex |- * by done. eexists. split; [exact Hex|]. by rewrite Hid1.
  - rewrite bool_decide_false in Hex |- * by congruence. exact Hex.
Qed.

(** C12: A store operation that reports an error has changed nothing, for
    every pattern of failing calls in which no acknowledgement is lost (no call
    takes effect while reporting an error) and without other sessions. *)
Theorem failed_calls_have_no_effect op e :
  no_interference o -> no_lost_ack o -> idle w ->
  (run_op op o w).1 = Err e -> w_db (run_op op o w).2 = db.
Proof. intros Hq Ha Hi. by apply run_op_fails_safely. Qed.

(** When the [INSERT] itself fails (the table refuses the row, the
    payload is not storable, the connection breaks), [insertTask] reports a
    created task: the answer carries the caller's own, unset id and status,
    and the enqueue counter is incremented, although no row exists. *)
Theorem failed_insert_reported_created task h m :
  hashPayload (t_Payload task) = Ok h -> encodable task = true ->
  (tx_exec (insert_statement task h) o w).1 = Err (DriverError m) ->
  (CreateTx task o w).1 = Ok (true, task) /\
  w_metrics (CreateTx task o w).2 = add_enqueued 1 met /\
  w_db (CreateTx task o w).2 = w_db (tx_exec (insert_statement task h) o w).2.
Proof.
  intros Hh Henc Hfail. pose proof (tx_exec_metrics (insert_statement task h) o w) as Hm.
  unfold CreateTx, insertTask, bind, one_row. rewrite Hh, Henc. fold (insert_statement task h).
  unfold bind. destruct (tx_exec (insert_statement task h) o w) as [r w']. simpl in *. subst r. simpl.
  by rewrite Hm.
Qed.
End insert_contracts.

(** ** Concrete runs *)

#[local] Abbreviation run := (@run_ops demo_hasher).
(** One PENDING task, with id 2. *)
#[local] Abbreviation pending_world :=
  (run [OpCreate (demo_task "echo" (Some "k") 1)] demo_oracle (world0 empty_db)).2.
(** The same task, claimed by worker [w-1]. *)
#[local] Abbreviation running_world :=
  (run [OpCreate (demo_task "echo" (Some "k") 1); OpClaim "w-1"] demo_oracle (world0 empty_db)).2.

Lemma pending_world_idle : idle pending_world.
Proof. split; [reflexivity|apply run_ops_Inv, demo_oracle_env_ok]. Qed.

Lemma running_world_idle : idle running_world.
Proof. split; [reflexivity|apply run_ops_Inv, demo_oracle_env_ok]. Qed.

Lemma world0_idle : idle (world0 empty_db).
Proof. split; [done|apply empty_db_Inv]. Qed.

Lemma pending_row : exists r, has_row (w_db pending_world) r /\ r_id r = 2%N /\ r_status r = PENDING /\
  claimable (ev_now (demo_oracle (w_next pending_world)))
    (ev_locked (demo_oracle (S (w_next pending_world)))) r = true /\
  same_key "echo" (Some "k") r = true /\ r_payload_hash r = "{}".
Proof.
  assert (exists r, tasks (w_db pending_world) !! 2%N = Some r /\ r_id r = 2%N /\ r_status r = PENDING /\
    claimable (ev_now (demo_oracle (w_next pending_world)))
      (ev_locked (demo_oracle (S (w_next pending_world)))) r = true /\
    same_key "echo" (Some "k") r = true /\ r_payload_hash r = "{}") as (r & Hr & Hid & Hrest).
  { eexists. split; [vm_compute; reflexivity|]. by vm_compute. }
  exists r. unfold has_row. rewrite Hid. done.
Qed.

Lemma running_row : exists r, held_row (w_db running_world) 2 "w-1" = Some r.
Proof. eexists. vm_compute. reflexivity. Qed.

Lemma pending_attempts : attempts_fit (w_db pending_world).
Proof.
  intros id r Hr. unfold run_ops in Hr.
  assert (tasks (w_db pending_world) = {[2%N := default r (tasks (w_db pending_world) !! 2%N)]}) as Heq
    by (vm_compute; reflexivity).
  change (tasks (w_db pending_world) !! id = Some r) in Hr.
  rewrite Heq in Hr. apply lookup_singleton_Some in Hr as [<- <-]. reflexivity.
Qed.

(** Four tasks: two of priority 5, one of priority 1, and one of priority 9 that
    is due much later. *)
Definition task_of_priority (priority run_at : Z) : TaskRow :=
  mkTaskRow uuid_nil "echo" "{}" EmptyString None EmptyString priority 0 1 run_at
    None None None None None time_zero time_zero.
#[local] Abbreviation queued_world :=
  (run [OpCreate (task_of_priority 1 0); OpCreate (task_of_priority 5 3); OpCreate (task_of_priority 5 2);
        OpCreate (task_of_priority 9 (Hour))] demo_oracle (world0 empty_db)).2.

Lemma queued_world_idle : idle queued_world.
Proof. split; [reflexivity|apply run_ops_Inv, demo_oracle_env_ok]. Qed.

Lemma queued_attempts : attempts_fit (w_db queued_world).
Proof.
  assert (map_Forall (fun _ r => in_int32 (r_attempts r + 1) = true) (tasks (w_db queued_world))) as H
    by (apply (bool_decide_unpack _); vm_compute; exact I).
  exact H.
Qed.

(** The earlier of the two goes first, and the task of priority 9 is not due. *)
Lemma claim_contract_witness :
  exists r, (Claim "w-1" demo_oracle queued_world).1 = Ok (scan_claim (taken_row demo_oracle queued_world "w-1" r)) /\
    r_priority r = 5 /\ r_run_at r = 2.
Proof.
  assert (exists t r0, (Claim "w-1" demo_oracle queued_world).1 = Ok t /\
    tasks (w_db queued_world) !! t_ID t = Some r0 /\ r_priority r0 = 5 /\ r_run_at r0 = 2) as (t & r0 & Ht & Hr0 & H)
    by (eexists _, _; split; [vm_compute; reflexivity|split; [vm_compute; reflexivity|split; reflexivity]]).
  destruct (claim_contract demo_oracle queued_world "w-1" demo_oracle_calm queued_world_idle eq_refl
    queued_attempts) as [(r & (Hr & _) & _ & Hy & _)|[_ [Hno _]]].
  - exists r. split; [exact Hy|]. rewrite Ht in Hy. injection Hy as ->. unfold has_row in Hr.
    cbn [scan_claim taken_row t_ID r_id] in Hr0. rewrite Hr in Hr0. injection Hr0 as ->. exact H.
  - exfalso. rewrite Ht in Hno. discriminate Hno.
Defined.


Lemma cancel_contract_witness :
  (exists t, (Cancel 2 demo_oracle pending_world).1 = Ok t) /\
  (Cancel 9 demo_oracle pending_world).1 = Err ErrTaskNotFound.
Proof.
  split.
  - pose proof (cancel_contract demo_oracle pending_world 2 demo_oracle_calm pending_world_idle) as H.
    destruct pending_row as (r & Hr & Hid & Hs & _). unfold has_row in Hr. rewrite Hid in Hr.
    rewrite Hr in H. destruct (decide (r_status r = PENDING)) as [_|Hne]; [|by destruct Hne].
    destruct H as (Hy & _). eexists. exact Hy.
  - exact (proj1 (cancel_contract demo_oracle pending_world 9 demo_oracle_calm pending_world_idle)).
Defined.

Lemma retry_contract_witness :
  (RetryDead 2 demo_oracle pending_world).1 = Err ErrTaskNotDead.
Proof.
  pose proof (retry_contract demo_oracle pending_world 2 demo_oracle_calm pending_world_idle) as H.
  destruct pending_row as (r & Hr & Hid & Hs & _). unfold has_row in Hr. rewrite Hid in Hr.
  rewrite Hr in H. destruct (decide (r_status r = DEAD)) as [Hd|_]; [congruence|].
  exact (proj1 H).
Defined.


Lemma list_contract_witness :
  exists ts, (List_ (mkFilter EmptyString EmptyString None 10 0) demo_oracle pending_world).1 = Ok ts.
Proof.
  destruct (list_contract demo_oracle pending_world (mkFilter EmptyString EmptyString None 10 0)
    demo_oracle_calm pending_world_idle ltac:(simpl; lia) ltac:(simpl; lia)) as (all & _ & _ & _ & Hy & _).
  eexists. exact Hy.
Defined.

Lemma queue_metrics_consistent_witness :
  exists m, (GetQueueDBMetrics demo_oracle pending_world).1 = Ok m /\
    q_TasksPendingReady m + q_TasksPendingDelayed m = q_TasksPending m.
Proof.
  destruct (queue_metrics_consistent demo_oracle pending_world demo_oracle_calm pending_world_idle)
    as (m & (Hy & _) & Hs & _).
  exists m. split; [exact Hy|exact Hs].
Defined.

Lemma no_row_in_empty task : no_row_with_key (w_db (world0 empty_db)) task.
Proof. intros r Hr. unfold has_row in Hr. simpl in Hr. by rewrite lookup_empty in Hr. Qed.

Lemma create_contract_witness :
  (@Create demo_hasher (demo_task "echo" (Some "k") 1) demo_oracle pending_world).1 =
  Ok (false, scan_by_key (default (mkRow 0 None EmptyString EmptyString EmptyString DEAD 0 0 0 0 None None None None None 0 0)
    (tasks (w_db pending_world) !! 2%N))).
Proof.
  destruct (@create_contract demo_hasher demo_oracle pending_world (demo_task "echo" (Some "k") 1) "{}"
    demo_oracle_calm pending_world_idle eq_refl eq_refl) as [_ H].
  destruct pending_row as (r & Hr & Hid & _ & _ & Hk & Hh). specialize (H r Hr Hk).
  unfold has_row in Hr. rewrite Hid in Hr. rewrite Hr. destruct H as [H _]. rewrite H, Hh. reflexivity.
Defined.

Lemma create_twice_witness :
  exists t1 w1, @Create demo_hasher (demo_task "echo" (Some "k") 1) demo_oracle (world0 empty_db) =
    (Ok (true, t1), w1) /\
  exists t2, yields (@Create demo_hasher (demo_task "echo" (Some "k") 5)) demo_oracle w1
    (Ok (false, t2)) (w_db w1) (w_metrics w1) /\ t_ID t2 = t_ID t1.
Proof.
  exact (@create_twice demo_hasher demo_oracle (world0 empty_db) (demo_task "echo" (Some "k") 1)
    (demo_task "echo" (Some "k") 5) "{}" "{}" "k" demo_oracle_calm world0_idle eq_refl eq_refl eq_refl
    eq_refl eq_refl eq_refl eq_refl eq_refl (no_row_in_empty _)).
Defined.

(** The third and later calls fail before they take effect. *)
Definition failing_oracle : Oracle := fun n =>
  mkEvent (fun db => db) ∅ 0 7 0 0 (if (5 <=? Z.of_nat n) then FailBefore "connection reset" else NoFault).

Lemma failing_oracle_quiet : no_interference failing_oracle.
Proof. by intros n db. Qed.

Lemma failing_oracle_ack : no_lost_ack failing_oracle.
Proof. intros n m. unfold failing_oracle. simpl. by case_match. Qed.

Lemma failed_calls_have_no_effect_witness :
  w_db (@run_op demo_hasher (OpCancel 2) failing_oracle pending_world).2 = w_db pending_world.
Proof.
  exact (@failed_calls_have_no_effect demo_hasher failing_oracle pending_world (OpCancel 2)
    (Wrapped "insert cancel log" (DriverError "connection reset")) failing_oracle_quiet failing_oracle_ack
    pending_world_idle eq_refl).
Defined.

Lemma failed_insert_reported_created_witness :
  (@CreateTx demo_hasher (demo_task EmptyString None 1) demo_oracle
    (mkWorld empty_db (Some (mkTx 0 [] false)) zero_metrics 0)).1 =
  Ok (true, demo_task EmptyString None 1).
Proof.
  exact (proj1 (@failed_insert_reported_created demo_hasher demo_oracle
    (mkWorld empty_db (Some (mkTx 0 [] false)) zero_metrics 0) (demo_task EmptyString None 1) "{}"
    "new row violates check constraint" eq_refl eq_refl eq_refl)).
Defined.
