(* ===== verification/Client.v ===== *)
(** Client: the library's public client, [types.go] and [client.go].

    [InsertParams] keeps Go's pointers as options: [None] is "not provided".
    [Validate] and [toStoreTask] dereference pointers that [Normalize] has set;
    [deref] names that, and [Normalize_set] shows they are never nil where the
    client calls them. A task id is the UUID its text denotes.

    The client's operations are programs of [Pg]'s monad that call the store. *)

From S2P Require Import Prelude Dharatype GoTime Float64 Metrics Pg PgLogic TaskStore Lifecycle.
From S2P Require Import StoreRefine StoreTheorems StoreSpec StoreContracts.
Open Scope dhara_scope.

(** ** Data *)

Record Task := mkTask {
  ID : uuid;
  Type_ : string;
  Status : string;
  Priority : Z;
  Attempts : Z;
  MaxRetries : Z;
  RunAt : Z;
  IdempotencyKey : option string;
  StartedAt : option Z;
  CompletedAt : option Z;
  LastError : option string;
  CreatedAt : Z;
  UpdatedAt : Z
}.

(** The error is shown for DEAD and RUNNING tasks and for tasks that wait for
    a retry. *)
Definition shown_error (t : TaskRow) : option string :=
  match t_LastError t with
  | None => None
  | Some e =>
      if bool_decide (t_Status t = status_text DEAD) || bool_decide (t_Status t = status_text RUNNING)
      then Some e
      else if bool_decide (t_Status t = status_text PENDING) then
        if 0 <? t_Attempts t then Some e else None
      else None
  end.

Definition newTask (t : TaskRow) : Task :=
  mkTask (t_ID t) (t_Type t) (t_Status t) (t_Priority t) (t_Attempts t) (t_MaxRetries t) (t_RunAt t)
    (t_IdempotencyKey t) (t_StartedAt t) (t_CompletedAt t) (shown_error t) (t_CreatedAt t)
    (t_UpdatedAt t).

Record EnqueueResult := mkEnqueueResult { er_Task : Task; er_Duplicate : bool }.

Record InsertParams := mkInsertParams {
  p_Type : string;
  p_Payload : option string;
  p_IdempotencyKey : option string;
  p_Priority : option Z;
  p_MaxRetries : option Z;
  p_RunAt : option Z
}.

Definition DefaultPriority : Z := 0.
Definition DefaultMaxRetries : Z := 5.

Definition Normalize (now : Z) (p : InsertParams) : InsertParams :=
  mkInsertParams (p_Type p)
    (match p_Payload p with None => Some "{}" | s => s end)
    (p_IdempotencyKey p)
    (match p_Priority p with None => Some DefaultPriority | s => s end)
    (match p_MaxRetries p with None => Some DefaultMaxRetries | s => s end)
    (match p_RunAt p with None => Some now | s => s end).

(** [*q] of a pointer known not to be nil. *)
Definition deref (q : option Z) : Z := default 0 q.
(** [[]byte(nil)] is empty. *)
Definition payload_bytes (p : InsertParams) : string := default EmptyString (p_Payload p).

(** The checks in the order of the code. *)
Definition Validate (now : Z) (p : InsertParams) : res unit :=
  if bool_decide (p_Type p = EmptyString) then Err (NewError "type is required")
  else if 100 <? len (p_Type p) then Err (NewError "type must be 100 characters or fewer")
  else if (deref (p_Priority p) <? 0) || (100 <? deref (p_Priority p)) then
    Err (NewError "priority must be between 0 and 100")
  else if (deref (p_MaxRetries p) <? 0) || (20 <? deref (p_MaxRetries p)) then
    Err (NewError "max_retries must be between 0 and 20")
  else if match p_IdempotencyKey p with Some k => 255 <? len k | None => false end then
    Err (NewError "idempotency_key must be 255 characters or fewer")
  else if 64 * 1024 <? len (payload_bytes p) then Err (NewError "payload must not exceed 64KB")
  else if deref (p_RunAt p) <? now + -5 * Minute then Err (NewError "run_at cannot be in the past")
  else if now + 30 * 24 * Hour <? deref (p_RunAt p) then
    Err (NewError "run_at cannot be more than 30 days in the future")
  else Ok tt.

(** The fields the literal leaves out have Go's zero values. *)
Definition toStoreTask (p : InsertParams) : TaskRow :=
  mkTaskRow uuid_nil (p_Type p) (payload_bytes p) EmptyString (p_IdempotencyKey p) EmptyString
    (deref (p_Priority p)) 0 (deref (p_MaxRetries p)) (deref (p_RunAt p))
    None None None None None time_zero time_zero.

(** ** Options *)

Definition EnqueueOption : Type := InsertParams -> InsertParams.

Definition WithIdempotencyKey (key : string) : EnqueueOption := fun p =>
  mkInsertParams (p_Type p) (p_Payload p) (Some key) (p_Priority p) (p_MaxRetries p) (p_RunAt p).
Definition WithPriority (priority : Z) : EnqueueOption := fun p =>
  mkInsertParams (p_Type p) (p_Payload p) (p_IdempotencyKey p) (Some priority) (p_MaxRetries p) (p_RunAt p).
Definition WithMaxRetries (maxRetries : Z) : EnqueueOption := fun p =>
  mkInsertParams (p_Type p) (p_Payload p) (p_IdempotencyKey p) (p_Priority p) (Some maxRetries) (p_RunAt p).
Definition WithRunAt (runAt : Z) : EnqueueOption := fun p =>
  mkInsertParams (p_Type p) (p_Payload p) (p_IdempotencyKey p) (p_Priority p) (p_MaxRetries p) (Some runAt).

(** [payload] is what [json.Marshal] makes of the argument; [None] is a nil
    argument. Options are applied in order. *)
Definition buildInsertParams (taskType : string) (payload : option (res string))
    (opts : list EnqueueOption) : res InsertParams :=
  let apply raw :=
    Ok (foldl (fun p opt => opt p) (mkInsertParams taskType raw None None None None) opts) in
  match payload with
  | None => apply None
  | Some (Ok raw) => apply (Some raw)
  | Some (Err e) => Err (Wrapped "dhara: marshal payload" e)
  end.

(** ** Operations *)

Section Client.
Context {hasher : PayloadHasher}.

Definition Insert (params : InsertParams) : M (res EnqueueResult) :=
  now <- time_Now;
  let params := Normalize now params in
  match Validate now params with
  | Err e => ret (Err (ValidationError e))
  | Ok _ =>
      created <-? Create (toStoreTask params);
      ret (Ok (mkEnqueueResult (newTask created.2) (negb created.1)))
  end.

Definition InsertTx (params : InsertParams) : M (res EnqueueResult) :=
  now <- time_Now;
  let params := Normalize now params in
  match Validate now params with
  | Err e => ret (Err (ValidationError e))
  | Ok _ =>
      created <-? CreateTx (toStoreTask params);
      ret (Ok (mkEnqueueResult (newTask created.2) (negb created.1)))
  end.

Definition Enqueue (taskType : string) (payload : option (res string)) (opts : list EnqueueOption) :
    M (res EnqueueResult) :=
  match buildInsertParams taskType payload opts with
  | Err e => ret (Err e)
  | Ok params => Insert params
  end.

Definition EnqueueTx (taskType : string) (payload : option (res string)) (opts : list EnqueueOption) :
    M (res EnqueueResult) :=
  match buildInsertParams taskType payload opts with
  | Err e => ret (Err e)
  | Ok params => InsertTx params
  end.
End Client.

Definition GetTask (id : uuid) : M (res Task) :=
  task <-? GetById id;
  match task with
  | None => ret (Err ErrTaskNotFound)
  | Some t => ret (Ok (newTask t))
  end.

Definition ListTasks (filter : TaskListFilter) : M (res (list Task * Z)) :=
  r <-? List_ filter;
  ret (Ok (map newTask r.1, r.2)).

(** [Cancel] never answers [(nil, nil)]. *)
Definition CancelTask (id : uuid) : M (res Task) :=
  task <-? Cancel id;
  ret (Ok (newTask task)).

Definition RetryTask (id : uuid) : M (res Task) :=
  task <-? RetryDead id;
  ret (Ok (newTask task)).

(** [QueueMetrics] copies the store's record field by field. *)
Definition QueueMetrics : M (res QueueDBMetrics) :=
  qm <-? GetQueueDBMetrics;
  ret (Ok (mkQueueDBMetrics (q_TasksPending qm) (q_TasksRunning qm) (q_TasksCompleted qm)
    (q_TasksCanceled qm) (q_TasksDead qm) (q_TasksPendingReady qm) (q_TasksPendingDelayed qm))).

Record MetricsSnapshot := mkSnapshot {
  s_TasksEnqueuedTotal : Z;
  s_TasksCompletedTotal : Z;
  s_TaskAttemptFailuresTotal : Z;
  s_TasksRetriedTotal : Z;
  s_TasksDeadTotal : Z;
  s_TasksCanceledTotal : Z;
  s_TasksReapedTotal : Z;
  s_ReaperFailuresTotal : Z;
  s_ClaimErrorsTotal : Z;
  s_WorkersActive : Z;
  s_WorkersInflight : Z
}.

Definition snapshotMetrics (m : Metrics) : MetricsSnapshot :=
  mkSnapshot (TasksEnqueuedTotal m) (TasksCompletedTotal m) (TaskAttemptFailuresTotal m)
    (TasksRetriedTotal m) (TasksDeadTotal m) (TasksCanceledTotal m) (TasksReapedTotal m)
    (ReaperFailuresTotal m) (ClaimErrorsTotal m) (WorkersActive m) (WorkersInflight m).

(** ** Lemmas *)

(** After [Normalize] no pointer is nil. *)
Lemma Normalize_set now p :
  is_Some (p_Payload (Normalize now p)) /\ is_Some (p_Priority (Normalize now p)) /\
  is_Some (p_MaxRetries (Normalize now p)) /\ is_Some (p_RunAt (Normalize now p)).
Proof. unfold Normalize. simpl. split_and!; case_match; eauto. Qed.

Lemma Normalize_idem now now' p : Normalize now' (Normalize now p) = Normalize now p.
Proof. unfold Normalize. simpl. f_equal; by repeat case_match. Qed.

Lemma fits_len n s : len s <= n -> fits n s = true.
Proof. intros. unfold fits. apply Z.leb_le. pose proof (char_length_le_len s). lia. Qed.

(** What the checks guarantee of the row that is stored. *)
Lemma Validate_bounds now p :
  Validate now p = Ok tt ->
  p_Type p <> EmptyString /\ len (p_Type p) <= 100 /\
  0 <= deref (p_Priority p) <= 100 /\ 0 <= deref (p_MaxRetries p) <= 20 /\
  len (default EmptyString (p_IdempotencyKey p)) <= 255 /\
  len (payload_bytes p) <= 65536 /\
  now - 5 * Minute <= deref (p_RunAt p) <= now + 30 * 24 * Hour.
Proof.
  unfold Validate. intros H. repeat (case_match; [done|]). bool_to_prop.
  split_and!; try lia; [done|]. destruct (p_IdempotencyKey p) as [k|]; simpl in *; bool_to_prop; [|done].
  unfold Datatypes.id. lia.
Qed.

Lemma Validate_acceptable now p : Validate now p = Ok tt -> row_acceptable (toStoreTask p) = true.
Proof.
  intros (Ht & Hl & Hp & Hm & Hk & _)%Validate_bounds. unfold row_acceptable, toStoreTask, in_int32. simpl.
  rewrite !fits_len, bool_decide_false by done. unfold int32_min, int32_max.
  by rewrite !(proj2 (Z.leb_le _ _)) by lia.
Qed.

(** The world after one call that changed nothing. *)
Definition bump (w : World) : World := mkWorld (w_db w) (w_tx w) (w_metrics w) (S (w_next w)).

Lemma idle_bump w : idle w -> idle (bump w).
Proof. done. Qed.

Lemma yields_time_Now {A} (k : Z -> M A) o w a db' met' :
  calm o -> idle w -> yields (k (ev_now (o (w_next w)))) o (bump w) a db' met' ->
  yields (bind time_Now k) o w a db' met'.
Proof.
  intros [_ Hq] [Htx _]. unfold yields, bind, time_Now, tick, pending. rewrite Htx, Hq.
  unfold bump. by rewrite Htx.
Qed.

(** A pure continuation of an operation with a known answer. *)
Lemma yields_try_ok {A B} (m : M (res A)) (f : A -> B) o w a db' met' :
  yields m o w (Ok a) db' met' -> yields (try m (fun x => ret (Ok (f x)))) o w (Ok (f a)) db' met'.
Proof. unfold yields, try, bind. destruct (m o w) as [r w']. simpl. intros (-> & ? & ? & ?). done. Qed.

Lemma yields_try_err {A B} (m : M (res A)) (k : A -> M (res B)) o w e db' met' :
  yields m o w (Err e) db' met' -> yields (try m k) o w (Err e) db' met'.
Proof. unfold yields, try, bind. destruct (m o w) as [r w']. simpl. intros (-> & ? & ? & ?). done. Qed.

Lemma GetTask_calm id o w :
  calm o -> idle w ->
  yields (GetTask id) o w
    match tasks (w_db w) !! id with
    | Some r => Ok (newTask (scan_GetById r))
    | None => Err ErrTaskNotFound
    end (w_db w) (w_metrics w).
Proof.
  intros Hcalm Hidle. start_yields. unfold GetTask. calm_run.
  destruct (tasks db !! id); cbn; by calm_run.
Qed.

(** An operation that refines the lifecycle leaves an idle world idle. *)
Lemma refines_idle {A} (m : M A) o w a db' met' :
  refines m -> calm o -> idle w -> yields m o w a db' met' -> idle (m o w).2.
Proof.
  intros Href Hcalm [Htx HInv] (_ & _ & _ & Htx'). split; [done|].
  eapply db_steps_Inv; [|exact HInv]. by apply Href; [apply calm_env_ok|..].
Qed.

(** ** Inserting *)

(** The row a stored submission becomes, and that it looks the same through
    the insert and through a later read. *)
Lemma newTask_inserted p row :
  r_type row = p_Type p -> r_idempotency_key row = p_IdempotencyKey p ->
  r_priority row = deref (p_Priority p) -> r_max_retries row = deref (p_MaxRetries p) ->
  r_run_at row = deref (p_RunAt p) -> r_started_at row = None -> r_completed_at row = None ->
  r_last_error row = None ->
  newTask (scan_inserted (toStoreTask p) row) = newTask (scan_GetById row).
Proof.
  intros Ht Hk Hp Hm Hr Hs Hc He. unfold newTask, shown_error, scan_inserted, toStoreTask, scan_GetById.
  simpl. by rewrite He, Ht, Hk, Hp, Hm, Hr, Hs, Hc.
Qed.

Section insert.
Context {hasher : PayloadHasher}.

(** Whatever fails: a positive answer of [Create] describes a stored row, and
    a row that was not there before is a submitted one. *)
Definition create_post (db : DB) (p : InsertParams) (r : res (bool * TaskRow)) (w' : World) : Prop :=
  w_tx w' = None /\
  (forall c t, r = Ok (c, t) -> exists row,
     tasks (w_db w') !! t_ID t = Some row /\ newTask t = newTask (scan_GetById row)) /\
  (forall id row, tasks (w_db w') !! id = Some row ->
     tasks db !! id = Some row \/
     (r_type row = p_Type p /\ r_idempotency_key row = p_IdempotencyKey p /\
      r_priority row = deref (p_Priority p) /\ r_max_retries row = deref (p_MaxRetries p) /\
      r_run_at row = deref (p_RunAt p) /\ r_payload row = payload_bytes p /\
      r_status row = PENDING /\ r_attempts row = 0)).

Lemma create_post_err db met n p e : create_post db p (Err e) (mkWorld db None met n).
Proof. split_and!; [done|done|]. by left. Qed.

Lemma create_post_stored db met n p row r :
  r_type row = p_Type p -> r_idempotency_key row = p_IdempotencyKey p ->
  r_priority row = deref (p_Priority p) -> r_max_retries row = deref (p_MaxRetries p) ->
  r_run_at row = deref (p_RunAt p) -> r_payload row = payload_bytes p -> r_status row = PENDING ->
  r_attempts row = 0 -> r_started_at row = None -> r_completed_at row = None ->
  r_last_error row = None ->
  (forall c t, r = Ok (c, t) -> t = scan_inserted (toStoreTask p) row) ->
  create_post db p r (mkWorld (apply_writes [PutTask row] db) None met n).
Proof.
  intros Ht Hk Hp Hm Hr Hpl Hs Ha Hst Hc He Hok. split_and!; [done| |].
  - intros c t ->. rewrite (Hok c t eq_refl). exists row.
    split; [simpl; apply lookup_insert_eq|by apply newTask_inserted].
  - intros id row' Hrow. simpl in Hrow. apply lookup_insert_Some in Hrow as [[<- <-]|[_ Hrow]];
      [right; by split_and!|by left].
Qed.

Lemma create_post_existing db met n p row c :
  Inv db -> (exists id, tasks db !! id = Some row) ->
  create_post db p (Ok (c, scan_by_key row)) (mkWorld db None met n).
Proof.
  intros HInv [id Hrow]. split_and!; [done| |by left]. intros c' t [= <- <-]. exists row.
  cbn [scan_by_key t_ID]. by rewrite (Inv_id _ _ _ HInv Hrow).
Qed.

Lemma wp_Create_insert p o db met n :
  no_interference o -> Inv db -> row_acceptable (toStoreTask p) = true ->
  wp (Create (toStoreTask p)) o (create_post db p) (mkWorld db None met n).
Proof.
  intros Hquiet HInv Hok. unfold Create, CreateTx, insertTask. quiet_run; try apply create_post_err.
  destruct (hashPayload _) as [h|e]; [|run; by apply create_post_err].
  rewrite (acceptable_encodable _ Hok).
  destruct (sql_insert_task_cases (t_Type (toStoreTask p)) (t_Payload (toStoreTask p)) h
    (t_IdempotencyKey (toStoreTask p)) (t_Priority (toStoreTask p)) (t_MaxRetries (toStoreTask p))
    (t_RunAt (toStoreTask p)) (ev_now (o n)) (o (S n)) db) as [[m Hins]|[(r & Hr & Hins)|(Hk & Hid & Hins)]];
    quiet_run; try apply create_post_err; rewrite Hins; cbn beta iota; autorewrite with dhara;
    quiet_run; try apply create_post_err.
  - unfold getByTypeAndIdempotencyKey. quiet_run; try apply create_post_err.
    cbn [sql_get_by_key]. destruct (head _) as [row|] eqn:Hhead; quiet_run; try apply create_post_err.
    destruct (negb _); quiet_run; try apply create_post_err. apply create_post_existing; [done|].
    apply head_Some_elem_of, elem_of_rows_where in Hhead. apply Hhead.
  - apply create_post_stored; try done. intros c t [= <- <-]. done.
  - apply create_post_stored; try done.
Qed.

(** The same for [Insert], which also refuses invalid parameters. *)
Definition insert_post (now : Z) (db : DB) (p : InsertParams) (r : res EnqueueResult) (w' : World) : Prop :=
  (forall er, r = Ok er -> exists row,
     tasks (w_db w') !! ID (er_Task er) = Some row /\ er_Task er = newTask (scan_GetById row)) /\
  (forall id row, tasks (w_db w') !! id = Some row ->
     tasks db !! id = Some row \/
     (Validate now (Normalize now p) = Ok tt /\
      r_type row = p_Type p /\ r_idempotency_key row = p_IdempotencyKey p /\
      r_priority row = deref (p_Priority (Normalize now p)) /\
      r_max_retries row = deref (p_MaxRetries (Normalize now p)) /\
      r_run_at row = deref (p_RunAt (Normalize now p)) /\
      r_payload row = payload_bytes (Normalize now p) /\
      r_status row = PENDING /\ r_attempts row = 0)).

Lemma wp_Insert p o db met n :
  no_interference o -> Inv db ->
  wp (Insert p) o (fun r w' => w_tx w' = None /\ insert_post (ev_now (o n)) db p r w') (mkWorld db None met n).
Proof.
  intros Hquiet HInv. unfold Insert. quiet_run. set (now := ev_now (o n)).
  destruct (Validate now (Normalize now p)) as [[]|e] eqn:Hv; quiet_run;
    [|split; [done|]; split; [done|by left]].
  eapply wp_mono; [apply wp_Create_insert; try done; by eapply Validate_acceptable|].
  intros [[c t]|e] w' (Htx & Hok & Hrows); quiet_run;
    (split; [done|]); split; try done.
  - intros er [= <-]. by apply (Hok c t).
  - intros id row Hrow. destruct (Hrows _ _ Hrow) as [|H]; [by left|by right].
  - intros id row Hrow. destruct (Hrows _ _ Hrow) as [|H]; [by left|by right].
Qed.

Lemma Insert_refines p : refines (Insert p).
Proof.
  unfold Insert. apply refines_bind.
  - intros o w Henv Htx HInv. unfold time_Now, tick, pending. rewrite Htx. simpl. split; [|done].
    apply Henv.
  - intros now. destruct (Validate _ _); [|apply refines_ret].
    unfold try. apply refines_bind; [apply Create_refines|]. intros []; apply refines_ret.
Qed.
End insert.

(** ** Theorems *)

Section client_theorems.
Context {hasher : PayloadHasher} (o : Oracle) (w : World).

Local Abbreviation now := (ev_now (o (w_next w))).
Local Abbreviation db := (w_db w).
Local Abbreviation met := (w_metrics w).

(** What [Insert] does on each branch. *)
Lemma Insert_calm params h :
  calm o -> idle w ->
  let p := Normalize now params in
  let task := toStoreTask p in
  hashPayload (t_Payload task) = Ok h ->
  match Validate now p with
  | Err e => yields (Insert params) o w (Err (ValidationError e)) db met
  | Ok _ =>
      (tasks db !! ev_uuid (o (S (S (w_next w)))) = None -> no_row_with_key db task ->
       let row := inserted_row o (bump w) task h in
       yields (Insert params) o w
         (Ok (mkEnqueueResult (newTask (scan_inserted task row)) false))
         (apply_writes [PutTask row] db) (add_enqueued 1 met)) /\
      (forall r, has_row db r -> same_key (t_Type task) (t_IdempotencyKey task) r = true ->
       yields (Insert params) o w
         (if bool_decide (r_payload_hash r = h)
          then Ok (mkEnqueueResult (newTask (scan_by_key r)) true)
          else Err ErrTaskConflict) db met)
  end.
Proof.
  intros Hcalm Hidle p task Hh.
  destruct (Validate now p) as [[]|e] eqn:Hv.
  - pose proof (Validate_acceptable _ _ Hv) as Hok. split.
    + intros Hid Hno row. apply yields_time_Now; [done..|]. cbv beta zeta. fold p. rewrite Hv.
      apply (yields_try_ok _ (fun c => mkEnqueueResult (newTask c.2) (negb c.1)) _ _ (true, _)).
      apply (Create_new o (bump w) task h); try done. by apply (no_row_with_key_nil (bump w)).
    + intros r Hr Hk. apply yields_time_Now; [done..|]. cbv beta zeta. fold p. rewrite Hv.
      pose proof (Create_existing o (bump w) task h Hcalm Hidle Hh (r_id r) r Hok Hr Hk) as Hy.
      destruct (bool_decide (r_payload_hash r = h)).
      * by apply (yields_try_ok _ (fun c => mkEnqueueResult (newTask c.2) (negb c.1)) _ _ (false, _)).
      * by apply yields_try_err.
  - apply yields_time_Now; [done..|]. cbv beta zeta. fold p. rewrite Hv. by split_and!; try apply Hidle.
Qed.


(** What an insert answers is what a later read answers: whenever
    [Insert] succeeds, as a new task or as a duplicate, and whatever calls
    failed on the way, [GetTask] of the returned id returns the same task. *)
Theorem insert_get_roundtrip o' params er w1 :
  no_interference o -> idle w -> Insert params o w = (Ok er, w1) ->
  calm o' -> (GetTask (ID (er_Task er)) o' w1).1 = Ok (er_Task er).
Proof.
  intros Hquiet [Htx HInv] Hrun Hcalm'.
  pose proof (wp_Insert params o db met (w_next w) Hquiet HInv) as H.
  pose proof (Insert_refines params o w) as Href.
  replace (mkWorld db None met (w_next w)) with w in H by (destruct w; simpl in *; by subst).
  unfold wp in H. rewrite Hrun in H, Href. destruct H as (Htx1 & Hok & _).
  destruct (Hok er eq_refl) as (row & Hrow & Heq). cbn [fst snd] in *.
  assert (idle w1) as Hidle1.
  { split; [done|]. eapply db_steps_Inv; [apply Href|]; try done.
    intros n d. rewrite Hquiet. apply rtc_refl. }
  destruct (GetTask_calm (ID (er_Task er)) o' w1 Hcalm' Hidle1) as [HG _].
  rewrite HG, Hrow. by f_equal.
Qed.

(** C16: Whatever fails, every task an insert adds to the table is the
    submitted one and within the documented bounds: a non-empty type of at
    most 100 bytes, priority 0..100, max_retries 0..20, a key of at most 255
    bytes, a payload of at most 64KB, a run time from 5 minutes before to 30
    days after the call ([now] is the clock as the call reads it first); it is
    PENDING with no attempt made. *)
Theorem inserted_rows_in_bounds params id row :
  no_interference o -> idle w ->
  tasks (w_db (Insert params o w).2) !! id = Some row -> tasks db !! id = None ->
  r_type row = p_Type params /\ r_type row <> EmptyString /\ len (r_type row) <= 100 /\
  0 <= r_priority row <= 100 /\ 0 <= r_max_retries row <= 20 /\
  len (default EmptyString (r_idempotency_key row)) <= 255 /\ len (r_payload row) <= 65536 /\
  r_status row = PENDING /\ r_attempts row = 0 /\
  now - 5 * Minute <= r_run_at row <= now + 30 * 24 * Hour.
Proof.
  intros Hquiet [Htx HInv] Hrow Hnone.
  pose proof (wp_Insert params o db met (w_next w) Hquiet HInv) as H.
  replace (mkWorld db None met (w_next w)) with w in H by (destruct w; simpl in *; by subst).
  destruct H as (_ & _ & Hrows). destruct (Hrows _ _ Hrow) as [|(Hv & Ht & Hk & Hp & Hm & Hr & Hpl & Hs & Ha)];
    [congruence|].
  apply Validate_bounds in Hv as (H1 & H2 & H3 & H4 & H5 & H6 & H7).
  rewrite Ht, Hk, Hp, Hm, Hr, Hpl. split_and!; try done; lia.
Qed.

(** C17: [InsertTx] writes inside the caller's transaction and nothing else:
    the committed tables stay as they are, the new row joins the caller's
    pending writes, and a commit publishes both together. *)
Theorem insert_tx_atomic params h tnow ws :
  calm o -> w_tx w = Some (mkTx tnow ws false) ->
  let p := Normalize now params in
  let task := toStoreTask p in
  let cur := apply_writes ws db in
  let row := submitted_row task h tnow (ev_uuid (o (S (w_next w)))) in
  hashPayload (t_Payload task) = Ok h -> Validate now p = Ok tt ->
  tasks cur !! r_id row = None ->
  rows_where (same_key (t_Type task) (t_IdempotencyKey task)) (tasks cur) = [] ->
  exists w1, InsertTx params o w =
    (Ok (mkEnqueueResult (newTask (scan_inserted task row)) false), w1) /\
    w_db w1 = db /\ w_tx w1 = Some (mkTx tnow (ws ++ [PutTask row]) false) /\
    w_db (Commit o w1).2 = apply_writes (ws ++ [PutTask row]) db /\
    w_db (defer_rollback (ret tt) o w1).2 = db.
Proof.
  intros [Hf Hq] Htx p task cur row Hh Hv Hid Hkeys.
  assert (row_acceptable task = true) as Hok by by eapply Validate_acceptable.
  assert (forall u, match pending u with [] => ev_env (o (w_next u)) (w_db u) | _ => w_db u end = w_db u)
    as Henv by (intros u; rewrite Hq; by destruct (pending u)).
  assert (tx_exec (insert_statement task h) o (tick o w) =
    (Ok (Some row), mkWorld db (Some (mkTx tnow (ws ++ [PutTask row]) false)) met (S (S (w_next w))))) as Hins.
  { unfold tx_exec, tick. rewrite !Henv. cbn [w_tx w_next w_db w_metrics]. rewrite Htx.
    cbn [tx_aborted]. rewrite Hf. cbn [tx_now tx_writes]. fold cur.
    unfold insert_statement. rewrite sql_insert_acceptable, Hkeys by done.
    cbn [r_id submitted_row row] in Hid. by rewrite Hid. }
  eexists. unfold InsertTx, bind at 1, time_Now at 1. fold p. rewrite Hv. fold task.
  unfold CreateTx, insertTask. rewrite Hh, (acceptable_encodable task Hok). fold (insert_statement task h).
  unfold try, bind, one_row, bind. rewrite Hins. cbn. split; [reflexivity|]. split_and!; try done.
  unfold Commit, tick. rewrite !Henv. cbn. by rewrite Hf.
Qed.

(** The zero filter, documented as listing all tasks with the default
    limit, lists none: its limit is taken as zero. *)
Theorem zero_filter_lists_nothing :
  calm o -> idle w ->
  yields (ListTasks (mkFilter EmptyString EmptyString None 0 0)) o w
    (Ok ([], Z.of_nat (length (rows_where (fun _ => true) (tasks db))))) db met.
Proof.
  intros Hcalm Hidle.
  pose proof (List_calm (mkFilter EmptyString EmptyString None 0 0) o w Hcalm Hidle) as Hy.
  rewrite (Permutation_length (listing_Permutation _ _)) in Hy.
  by apply (yields_try_ok _ (fun r => (map newTask r.1, r.2)) _ _ ([], _)), Hy.
Qed.
End client_theorems.

(** ** Concrete runs *)

Definition demo_params : InsertParams := mkInsertParams "echo" None (Some "k") None None None.


#[local] Abbreviation demo_insert := (@Insert demo_hasher demo_params demo_oracle (world0 empty_db)).

Lemma insert_get_roundtrip_witness :
  exists er w1, demo_insert = (Ok er, w1) /\ (GetTask (ID (er_Task er)) demo_oracle w1).1 = Ok (er_Task er).
Proof.
  assert (exists er w1, demo_insert = (Ok er, w1)) as (er & w1 & H) by (eexists _, _; vm_compute; reflexivity).
  exists er, w1. split; [exact H|].
  exact (@insert_get_roundtrip demo_hasher demo_oracle (world0 empty_db) demo_oracle demo_params er w1
    (proj2 demo_oracle_calm) world0_idle H demo_oracle_calm).
Defined.

Lemma inserted_rows_in_bounds_witness :
  exists row, tasks (w_db demo_insert.2) !! 3%N = Some row /\ 0 <= r_max_retries row <= 20.
Proof.
  assert (exists row, tasks (w_db demo_insert.2) !! 3%N = Some row) as [row Hrow]
    by (eexists; vm_compute; reflexivity).
  exists row. split; [exact Hrow|].
  destruct (@inserted_rows_in_bounds demo_hasher demo_oracle (world0 empty_db) demo_params 3%N row
    (proj2 demo_oracle_calm) world0_idle Hrow eq_refl) as (_ & _ & _ & _ & H & _).
  exact H.
Defined.

Lemma insert_tx_atomic_witness :
  exists er w1, @InsertTx demo_hasher demo_params demo_oracle
    (mkWorld empty_db (Some (mkTx 0 [] false)) zero_metrics 0) = (Ok er, w1) /\
    w_db w1 = empty_db.
Proof.
  destruct (@insert_tx_atomic demo_hasher demo_oracle (mkWorld empty_db (Some (mkTx 0 [] false)) zero_metrics 0)
    demo_params "{}" 0 [] demo_oracle_calm eq_refl eq_refl eq_refl eq_refl eq_refl) as (w1 & H & Hdb & _).
  eexists _, w1. split; [exact H|exact Hdb].
Defined.

Lemma zero_filter_lists_nothing_witness :
  (ListTasks (mkFilter EmptyString EmptyString None 0 0) demo_oracle
    (run_ops [OpCreate (demo_task "echo" (Some "k") 1)] (hasher := demo_hasher) demo_oracle (world0 empty_db)).2).1
  = Ok ([], 1).
Proof.
  exact (proj1 (zero_filter_lists_nothing demo_oracle
    (run_ops [OpCreate (demo_task "echo" (Some "k") 1)] (hasher := demo_hasher) demo_oracle (world0 empty_db)).2
    demo_oracle_calm pending_world_idle)).
Defined.
