(* ===== verification/Worker.v ===== *)
(** Worker: the engine that claims and executes tasks, [internal/worker] with
    [internal/tasks/registry.go].

    - A handler is user code: from its payload and the event it runs at it
      returns (an error or nil) or panics; theorems quantify over handlers.
    - The heartbeat goroutine overlaps the handler and the write of the outcome.
      Its ticks are calls of their own; how many fall before that write and how
      many after it is decided by the events ([ev_pick]).
    - A context is a function from the call number to "cancelled".
    - [Start]'s loop runs for a number of rounds (fuel) and reports what each
      round did; logging is modelled where the code decides about it. *)

From S2P Require Import Prelude Dharatype GoTime Float64 Metrics Pg TaskStore.
Open Scope dhara_scope.

(** ** Handlers and their registry *)

Inductive HandlerOutcome : Type :=
  | Returned (err : option error)
  | Panicked (value : string).

Definition HandlerFunc : Type := string -> Event -> HandlerOutcome.

Record MapRegistry := mkRegistry { handlers : gmap string HandlerFunc }.

(** [NewRegistry]; a nil map is replaced by an empty one. *)
Definition NewRegistry (hs : option (gmap string HandlerFunc)) : MapRegistry :=
  mkRegistry (default ∅ hs).
Definition Add (taskType : string) (handler : HandlerFunc) (r : MapRegistry) : MapRegistry :=
  mkRegistry (<[taskType := handler]> (handlers r)).
Definition Get (taskType : string) (r : MapRegistry) : option HandlerFunc := handlers r !! taskType.

(** ** Worker *)

Record Worker := mkWorker {
  workerID : string;
  registry : MapRegistry;
  pollInterval : Z;
  heartbeatInterval : Z;
  handlerTimeout : Z;
  baseBackoff : Z;
  maxBackoff : Z
}.

Definition Ctx : Type := nat -> bool.

(** [context.DeadlineExceeded]. *)
Definition DeadlineExceeded : error := NewError "context deadline exceeded".

Section Worker.
Context (w : Worker).

Definition claim : M (res TaskRow) :=
  r <- Claim (workerID w);
  match r with
  | Err e => if errors_Is e ErrTaskNotAvailable then ret (Err e) else ret (Err (Wrapped "claim task" e))
  | Ok task => ret (Ok task)
  end.

(** [rand.Float64()] is [k / 2^53] for a random 53-bit [k]. *)
Definition rand_Float64 (bits : Z) : float64 := mkFloat (bits mod 2 ^ 53) (-53).

Definition computeBackoff (bits attempts : Z) : Z :=
  let base := of_int (baseBackoff w) in
  let cap := of_int (maxBackoff w) in
  let attempt := Z.max (attempts - 1) 0 in
  let exp := fmin cap (fmul base (pow2 attempt)) in
  let jitter := fmul (rand_Float64 bits) exp in
  to_int jitter.

Definition handleFailure (task : TaskRow) (err : error) : M (res unit) :=
  storeErr <-
    (if t_MaxRetries task <=? t_Attempts task then
       MarkDead (t_ID task) (workerID w) (Error err) "all attempts exhausted"
     else
       bits <- rand_bits;
       let backoff := computeBackoff bits (t_Attempts task) in
       now <- time_Now;
       MarkPending task (workerID w) (Error err) (now + backoff));
  match storeErr with
  | Ok _ => ret (Ok tt)
  | Err e => if errors_Is e ErrTaskOwnershipLost then ret (Ok tt) else ret (Err e)
  end.

(** The handler under its panic guard. *)
Definition runTaskHandler (task : TaskRow) (handler : HandlerFunc) : M (option error) :=
  fun o wd =>
    (match handler (t_Payload task) (o (w_next wd)) with
     | Returned err => err
     | Panicked v => Some (NewError ("handler panicked: " +:+ v))
     end, tick o wd).

(** One tick of the heartbeat goroutine; the answer is whether it goes on: it
    stops when ownership is lost and carries on after any other error. *)
Definition beat (task : TaskRow) : M bool :=
  r <- Heartbeat (t_ID task) (workerID w);
  match r with
  | Ok _ => ret true
  | Err e => ret (negb (errors_Is e ErrTaskOwnershipLost))
  end.

(** At most [n] ticks of a heartbeat that is still [beating]. *)
Fixpoint heartbeats (task : TaskRow) (n : nat) (beating : bool) : M bool :=
  match n with
  | O => ret beating
  | S n' => if beating then goes_on <- beat task; heartbeats task n' goes_on else ret false
  end.

(** How many ticks fall here. *)
Definition ticks : M nat := fun o wd => (ev_pick (o (w_next wd)), tick o wd).

Definition Milliseconds (d : Z) : Z := Z.quot d Millisecond.

(** The write of the outcome, [taskStartTime] being the start of the attempt. *)
Definition persist (task : TaskRow) (taskStartTime : Z) (handlerErr : option error) : M (res unit) :=
  match handlerErr with
  | Some err => handleFailure task err
  | None =>
      done <- time_Now;
      r <- MarkCompleted (t_ID task) (workerID w) (Milliseconds (done - taskStartTime));
      match r with
      | Ok _ => ret (Ok tt)
      | Err e => if errors_Is e ErrTaskOwnershipLost then ret (Ok tt)
                 else ret (Err (Wrapped "mark task completed" e))
      end
  end.

(** The handler's run and the observation of its duration. *)
Definition run_timed (task : TaskRow) (handler : HandlerFunc) (taskStartTime : Z) : M (option error) :=
  handlerErr <- runTaskHandler task handler;
  finished <- time_Now;
  _ <- add_metric (observe_execution (Seconds (finished - taskStartTime)));
  ret handlerErr.

(** The part of [execute] between the start of the heartbeat and its deferred
    calls, with whether the heartbeat goroutine is still there. *)
Definition run_and_persist (task : TaskRow) (handler : HandlerFunc) : M (res unit * bool) :=
  taskStartTime <- time_Now;
  before <- ticks;
  beating <- heartbeats task before true;
  handlerErr <- run_timed task handler taskStartTime;
  r <- persist task taskStartTime handlerErr;
  ret (r, beating).

(** What [MarkDead] of a task without a handler is told. *)
Definition no_handler_error (task : TaskRow) : string :=
  "no handler registered for type: " +:+ t_Type task.

(** [execute] of a task of a type nobody registered. *)
Definition no_handler (task : TaskRow) : M (res unit) :=
  r <- MarkDead (t_ID task) (workerID w) (no_handler_error task) "no handler registered";
  match r with
  | Ok _ => ret (Ok tt)
  | Err e => if errors_Is e ErrTaskOwnershipLost then ret (Ok tt) else ret (Err e)
  end.

(** The deferred calls run in reverse: the gauge first, then [stopHeartbeat]. A
    tick before the gauge is decremented does the same as one after it. *)
Definition execute (task : TaskRow) : M (res unit) :=
  match Get (t_Type task) (registry w) with
  | None => no_handler task
  | Some handler =>
      _ <- add_metric (add_inflight 1);
      r <- run_and_persist task handler;
      _ <- add_metric (add_inflight (-1));
      after <- ticks;
      _ <- heartbeats task after r.2;
      ret r.1
  end.

(** *** The polling loop *)

(** What a round of the loop did; [logged] is the warning about a failed claim. *)
Inductive Round : Type :=
  | Executed (task : TaskRow) (result : res unit)
  | ClaimFailed (err : error) (logged : bool)
  | NoTask.

(** [ctx.Err() != nil] now, and [select] on the ticker and [ctx.Done()]: when both
    are ready it may take either, which the event decides. *)
Definition ctx_Err (ctx : Ctx) : M bool := fun _ wd => (ctx (w_next wd), wd).
Definition select_tick (ctx : Ctx) : M bool := fun o wd =>
  (ctx (S (w_next wd)) && negb (Nat.odd (ev_pick (o (w_next wd)))), tick o wd).

(** A failed claim that is not an empty queue is counted; the answer is whether
    claims are failing. *)
Definition claim_error (err : error) : M bool :=
  if negb (errors_Is err ErrTaskNotAvailable) then
    _ <- add_metric (add_claim_errors 1);
    ret true
  else ret false.

(** [fuel] rounds of the loop; the first component says that it returned. *)
Fixpoint loop (ctx : Ctx) (fuel : nat) (claimFailing : bool) : M (bool * list Round) :=
  match fuel with
  | O => ret (false, [])
  | S fuel' =>
      r <- claim;
      match r with
      | Ok task =>
          execErr <- execute task;
          rest <- loop ctx fuel' false;
          ret (rest.1, Executed task execErr :: rest.2)
      | Err err =>
          stop <- ctx_Err ctx;
          if (stop : bool) then ret (true, [])
          else
            claimFailing' <- claim_error err;
            let round := if (claimFailing' : bool) then ClaimFailed err (negb claimFailing) else NoTask in
            stop <- select_tick ctx;
            if (stop : bool) then ret (true, [round])
            else
              rest <- loop ctx fuel' claimFailing';
              ret (rest.1, round :: rest.2)
      end
  end.

(** [Start]: the gauge is decremented when the loop returns. *)
Definition Start (ctx : Ctx) (fuel : nat) : M (bool * list Round) :=
  _ <- add_metric (add_active 1);
  r <- loop ctx fuel false;
  _ <- (if (r.1 : bool) then add_metric (add_active (-1)) else ret tt);
  ret r.
End Worker.

(** ** Settings and the pool *)

Record Settings := mkSettings {
  WorkerPrefix : string;
  PollInterval : Z;
  Concurrency : Z;
  HeartbeatInterval : Z;
  HandlerTimeout : Z;
  BaseBackoff : Z;
  MaxBackoff : Z;
  ReaperInterval : Z;
  StaleThreshold : Z
}.

(** [if x <= 0 { x = def }]. *)
Definition or_default (def x : Z) : Z := if x <=? 0 then def else x.

Definition normalize (s : Settings) : Settings :=
  let base := or_default (10 * Second) (BaseBackoff s) in
  let max := or_default (5 * Minute) (MaxBackoff s) in
  mkSettings
    (if bool_decide (WorkerPrefix s = EmptyString) then "dhara-worker" else WorkerPrefix s)
    (or_default (250 * Millisecond) (PollInterval s))
    (or_default 1 (Concurrency s))
    (or_default (30 * Second) (HeartbeatInterval s))
    (or_default (5 * Minute) (HandlerTimeout s))
    (if max <? base then max else base)
    max
    (or_default (30 * Second) (ReaperInterval s))
    (or_default (5 * Minute) (StaleThreshold s)).

Record Reaper := mkReaper {
  interval : Z;
  staleThreshold : Z;
  reaperID : string
}.

Definition newReaper (interval staleThreshold : Z) (reaperID : string) : Reaper :=
  mkReaper (or_default (15 * Second) interval) (or_default (30 * Second) staleThreshold)
    (if bool_decide (reaperID = EmptyString) then "dhara-reaper" else reaperID).

(** One tick of the reaper: an error is counted, and the loop goes on. *)
Definition reaper_tick (r : Reaper) : M unit :=
  n <- RequeueStaleRunning (staleThreshold r) (reaperID r);
  match n with
  | Err _ => add_metric (add_reaper_failures 1)
  | Ok _ => ret tt
  end.

(** [start]: ticks until the context is done, at most [fuel] of them. *)
Fixpoint reaper_start (r : Reaper) (ctx : Ctx) (fuel : nat) : M unit :=
  match fuel with
  | O => ret tt
  | S fuel' =>
      stop <- select_tick ctx;
      if (stop : bool) then ret tt
      else
        _ <- reaper_tick r;
        reaper_start r ctx fuel'
  end.

(** The pool's state: its settings, its registry, the [started] flag and the
    goroutines it spawned. *)
Record WorkerPool := mkPool {
  p_settings : Settings;
  p_registry : MapRegistry;
  p_started : bool;
  p_workers : list Worker;
  p_reaper : option Reaper
}.

Definition NewWorkerPool (reg : MapRegistry) (s : Settings) : WorkerPool :=
  mkPool (normalize s) reg false [] None.

Definition newWorker (p : WorkerPool) (workerID : string) : Worker :=
  mkWorker workerID (p_registry p) (PollInterval (p_settings p)) (HeartbeatInterval (p_settings p))
    (HandlerTimeout (p_settings p)) (BaseBackoff (p_settings p)) (MaxBackoff (p_settings p)).

(** [fmt.Sprintf("%s-%d", prefix, i+1)]. *)
Definition worker_name (prefix : string) (i : nat) : string :=
  prefix +:+ "-" +:+ itoa (Z.of_nat i + 1).

(** [Start]: a second call is ignored. *)
Definition pool_Start (p : WorkerPool) : WorkerPool :=
  if p_started p then p
  else
    let s := p_settings p in
    mkPool s (p_registry p) true
      (map (fun i => newWorker p (worker_name (WorkerPrefix s) i)) (seq 0 (Z.to_nat (Concurrency s))))
      (Some (newReaper (ReaperInterval s) (StaleThreshold s) (WorkerPrefix s +:+ "-reaper"))).
