(* ===== verification/Calls.v ===== *)
(** Calls: the calls of a run are numbered upwards, so that an event a program
    met lies between the numbers it started and ended with. *)

From S2P Require Import Prelude Dharatype GoTime Float64 Metrics Pg TaskStore Worker.
Open Scope dhara_scope.

Definition advancing {A} (m : M A) : Prop := forall o w, (w_next w <= w_next (m o w).2)%nat.

Lemma advancing_bind {A B} (m : M A) (k : A -> M B) :
  advancing m -> (forall a, advancing (k a)) -> advancing (bind m k).
Proof.
  intros Hm Hk o w. unfold bind. specialize (Hm o w). destruct (m o w) as [a w']. simpl in *.
  specialize (Hk a o w'). lia.
Qed.

Lemma advancing_ret {A} (a : A) : advancing (ret a).
Proof. intros o w. simpl. lia. Qed.

Lemma advancing_Begin : advancing Begin.
Proof. intros o w. unfold Begin. destruct (ev_fault _); simpl; lia. Qed.

Lemma advancing_Commit : advancing Commit.
Proof. intros o w. unfold Commit. repeat case_match; simpl; lia. Qed.

Lemma advancing_tx_exec {A} (s : Stmt A) : advancing (tx_exec s).
Proof. intros o w. unfold tx_exec. repeat case_match; simpl; lia. Qed.

Lemma advancing_defer {A} (m : M A) : advancing m -> advancing (defer_rollback m).
Proof. intros Hm o w. unfold defer_rollback. specialize (Hm o w). by destruct (m o w). Qed.

Lemma advancing_Claim x : advancing (Claim x).
Proof.
  unfold Claim, try_wrap, one_row, insertLog. apply advancing_bind; [apply advancing_Begin|].
  intros [[]|e]; [|apply advancing_ret]. apply advancing_defer.
  apply advancing_bind; [apply advancing_bind; [apply advancing_tx_exec|intros; apply advancing_ret]|].
  intros [row|e]; [|case_match; apply advancing_ret].
  apply advancing_bind; [apply advancing_tx_exec|]. intros [[]|e]; [|apply advancing_ret].
  apply advancing_bind; [apply advancing_Commit|]. intros [[]|e]; apply advancing_ret.
Qed.

Lemma advancing_tick {A} (f : Event -> A) : advancing (fun o w => (f (o (w_next w)), tick o w)).
Proof. intros o w. simpl. lia. Qed.

Lemma advancing_metric f : advancing (add_metric f).
Proof. intros o w. simpl. lia. Qed.

Lemma advancing_db_exec {A} (s : Stmt A) : advancing (db_exec s).
Proof. intros o w. unfold db_exec. repeat case_match; simpl; lia. Qed.

Create HintDb advancing discriminated.
#[export] Hint Resolve advancing_ret advancing_Begin advancing_Commit advancing_tx_exec advancing_db_exec
  advancing_defer advancing_metric advancing_tick advancing_Claim : advancing.

(** Walks through a program. *)
Ltac advance :=
  repeat first
    [ progress eauto 1 with advancing
    | match goal with
      | |- advancing (bind _ _) => apply advancing_bind; [|intros ?]
      | |- advancing (defer_rollback _) => apply advancing_defer
      end
    | case_match ].

Lemma advancing_Heartbeat id wid : advancing (Heartbeat id wid).
Proof. unfold Heartbeat, try_wrap, try, one_row. advance. Qed.

Lemma advancing_MarkCompleted id wid ms : advancing (MarkCompleted id wid ms).
Proof. unfold MarkCompleted, try_wrap, try, one_row, insertLog. advance. Qed.

Lemma advancing_MarkPending t wid e at_ : advancing (MarkPending t wid e at_).
Proof. unfold MarkPending, try_wrap, try, one_row, insertLog. advance. Qed.

Lemma advancing_MarkDead id wid e m : advancing (MarkDead id wid e m).
Proof. unfold MarkDead, try_wrap, try, one_row, insertLog. advance. Qed.
#[export] Hint Resolve advancing_Heartbeat advancing_MarkCompleted advancing_MarkPending advancing_MarkDead : advancing.

Section Advancing.
Context (w : Worker).

Lemma advancing_heartbeats t n b : advancing (heartbeats w t n b).
Proof. revert b. induction n as [|n IH]; intros b; cbn [heartbeats]; unfold beat; advance. Qed.

Lemma advancing_handler t h : advancing (runTaskHandler t h).
Proof. intros o wd. simpl. lia. Qed.
#[local] Hint Resolve advancing_heartbeats advancing_handler : advancing.

Lemma advancing_execute t : advancing (execute w t).
Proof. unfold execute, run_and_persist, run_timed, persist, no_handler, handleFailure, ticks, time_Now, rand_bits. advance. Qed.
End Advancing.
