(* ===== verification/Pool.v ===== *)
(** Pool: the goroutines of a started pool, interleaved.

    [pool_Start] of Worker.v says which goroutines a pool spawns; here they run.
    Each worker is in a state of its own ([WState], a position in
    [internal/worker/worker.go]'s [Start] and [execute]) and moves by one piece
    of that code at a time; its heartbeat goroutine, the reaper and a
    cancellation move in between. A schedule is a list of labels, so a theorem
    about every schedule is one about every interleaving. A move that is not
    enabled changes nothing.

    The pieces are the definitions of Worker.v, all workers share the pool's
    database and metrics, and what other processes do between two calls is the
    oracle's, as before. The calls of one move are not interleaved with those
    of another goroutine of the same pool. *)

From S2P Require Import Prelude Dharatype GoTime Float64 Metrics Pg TaskStore Worker.
Open Scope dhara_scope.

(** ** Calls under a context *)

(** pgx refuses a call whose context is done. *)
Definition refuse (e : Event) : Event :=
  mkEvent (ev_env e) (ev_locked e) (ev_now e) (ev_uuid e) (ev_pick e) (ev_rand e) (FailBefore "context canceled").

Definition under_ctx (cancelled : bool) {A} (m : M A) : M A :=
  fun o => m (fun n => if cancelled then refuse (o n) else o n).

(** ** One worker *)

(** What the goroutine does next. [beating]: the heartbeat goroutine of the
    task is still there. *)
Inductive WState : Type :=
  | Spawned
  | Claiming (claimFailing : bool)
  | Refused (claimFailing : bool) (err : error)
  | Waiting (claimFailing : bool)
  | Claimed (task : TaskRow)
  | Handling (task : TaskRow) (handler : HandlerFunc) (taskStartTime : Z) (beating : bool)
  | Persisting (task : TaskRow) (taskStartTime : Z) (handlerErr : option error) (beating : bool)
  | Unwinding (task : TaskRow) (beating : bool)
  | Exited.

(** [Advance] is the next piece of the worker's own goroutine, [Wake] the
    ticker's branch of its [select], [Beat] a tick of the heartbeat goroutine. *)
Inductive Action : Type := Advance | Wake | Beat.

Section Moves.
Context (w : Worker) (cancelled : bool).

Definition exit_worker : M WState :=
  _ <- add_metric (add_active (-1));
  ret Exited.

Definition advance_worker (st : WState) : M WState :=
  match st with
  | Spawned =>
      _ <- add_metric (add_active 1);
      ret (Claiming false)
  | Claiming claimFailing =>
      r <- under_ctx cancelled (claim w);
      ret (match r with Ok task => Claimed task | Err err => Refused claimFailing err end)
  | Refused claimFailing err =>
      if cancelled then exit_worker
      else
        claimFailing' <- claim_error err;
        ret (Waiting claimFailing')
  | Waiting _ => if cancelled then exit_worker else ret st
  | Claimed task =>
      match Get (t_Type task) (registry w) with
      | None => _ <- no_handler w task; ret (Claiming false)
      | Some handler =>
          _ <- add_metric (add_inflight 1);
          taskStartTime <- time_Now;
          ret (Handling task handler taskStartTime true)
      end
  | Handling task handler taskStartTime beating =>
      handlerErr <- run_timed task handler taskStartTime;
      ret (Persisting task taskStartTime handlerErr beating)
  | Persisting task taskStartTime handlerErr beating =>
      _ <- persist w task taskStartTime handlerErr;
      ret (Unwinding task beating)
  | Unwinding _ _ =>
      _ <- add_metric (add_inflight (-1));
      ret (Claiming false)
  | Exited => ret Exited
  end.

Definition wake_worker (st : WState) : M WState :=
  match st with
  | Waiting claimFailing => fun o wd => (Claiming claimFailing, tick o wd)
  | _ => ret st
  end.

(** The heartbeat's context is a child of the pool's. *)
Definition beat_worker (st : WState) : M WState :=
  match st with
  | Handling task handler start true =>
      b <- under_ctx cancelled (beat w task); ret (Handling task handler start b)
  | Persisting task start handlerErr true =>
      b <- under_ctx cancelled (beat w task); ret (Persisting task start handlerErr b)
  | Unwinding task true =>
      b <- under_ctx cancelled (beat w task); ret (Unwinding task b)
  | _ => ret st
  end.

Definition worker_move (a : Action) (st : WState) : M WState :=
  match a with Advance => advance_worker st | Wake => wake_worker st | Beat => beat_worker st end.
End Moves.

(** ** The pool *)

(** [q_reaper]: the reaper while its goroutine runs. [q_cancelled]: [p.ctx] is
    done. *)
Record Pool := mkPoolState {
  q_workers : list (Worker * WState);
  q_reaper : option Reaper;
  q_cancelled : bool;
  q_world : World
}.

(** [Elapse]: nothing but what other processes do. *)
Inductive Label : Type :=
  | OfWorker (i : nat) (a : Action)
  | ReaperTick
  | ReaperDone
  | Cancelled
  | Elapse.

(** The goroutines [Start] spawned. *)
Definition launch (p : WorkerPool) (wd : World) : Pool :=
  mkPoolState (map (fun w => (w, Spawned)) (p_workers p)) (p_reaper p) false wd.

Definition Started (p : WorkerPool) : bool := p_started p.

(** [Stop]: a pool that was never started has no [cancel]. *)
Definition cancel_pool (s : Pool) : Pool :=
  mkPoolState (q_workers s) (q_reaper s) true (q_world s).
Definition pool_Stop (s : option Pool) : option Pool := option_map cancel_pool s.

Definition move_worker (o : Oracle) (i : nat) (a : Action) (s : Pool) : Pool :=
  match q_workers s !! i with
  | None => s
  | Some (w, st) =>
      let '(st', wd') := worker_move w (q_cancelled s) a st o (q_world s) in
      mkPoolState (<[i := (w, st')]> (q_workers s)) (q_reaper s) (q_cancelled s) wd'
  end.

Definition move_reaper (o : Oracle) (s : Pool) : Pool :=
  match q_reaper s with
  | None => s
  | Some r =>
      mkPoolState (q_workers s) (q_reaper s) (q_cancelled s)
        (under_ctx (q_cancelled s) (reaper_tick r) o (q_world s)).2
  end.

Definition pool_step (o : Oracle) (s : Pool) (l : Label) : Pool :=
  match l with
  | OfWorker i a => move_worker o i a s
  | ReaperTick => move_reaper o s
  | ReaperDone => if q_cancelled s then mkPoolState (q_workers s) None true (q_world s) else s
  | Cancelled => cancel_pool s
  | Elapse => mkPoolState (q_workers s) (q_reaper s) (q_cancelled s) (tick o (q_world s))
  end.

Definition run_pool (o : Oracle) (schedule : list Label) (s : Pool) : Pool :=
  fold_left (pool_step o) schedule s.

(** [p.wg.Wait()] returns when every goroutine has. *)
Definition exited (st : WState) : bool := match st with Exited => true | _ => false end.
Definition drained (s : Pool) : bool :=
  forallb (fun x => exited x.2) (q_workers s) && negb (bool_decide (is_Some (q_reaper s))).

(** [Wait]: [None] while it blocks. When both channels are ready [select] may
    take either; [first] says which. *)
Definition pool_Wait (expired first : bool) (s : Pool) : option (res unit) :=
  if expired && (first || negb (drained s)) then Some (Err DeadlineExceeded)
  else if drained s then Some (Ok tt) else None.
