(* ===== verification/WorkerRefine.v ===== *)
(** WorkerRefine: the worker keeps to the lifecycle, and to the retry budget.

    The store lets whoever holds a task requeue it; that a task is not requeued
    once its attempts are used up is a decision of [handleFailure], taken on
    the copy of the row the claim returned. The proof is by rely and guarantee:
    a worker relies on the other sessions never taking the lock under its name
    ([env_foreign]) and then only takes steps of the lifecycle with the policy
    [strict_retry]. *)

From S2P Require Import Prelude Dharatype GoTime Float64 Metrics Pg PgLogic TaskStore Lifecycle.
From S2P Require Import StoreRefine StoreTheorems StoreSpec StoreContracts Worker.
Open Scope dhara_scope.

(** A running task goes back to PENDING only with attempts left. *)
Definition strict_retry : RetryPolicy := fun r => r_attempts r < r_max_retries r.

(** Other sessions do not lock tasks under the name [me]. *)
Definition env_foreign (me : string) (o : Oracle) : Prop :=
  forall n db id r, held_row (ev_env (o n) db) id me = Some r -> held_row db id me = Some r.

(** Non-task writes. *)
Definition no_task_write (w : Write) : Prop :=
  match w with PutTask _ | DelTask _ => False | _ => True end.

Lemma tasks_apply_no_task ws db : Forall no_task_write ws -> tasks (apply_writes ws db) = tasks db.
Proof.
  intros H. revert db. induction H as [|w ws Hw _ IH]; intros db; [done|]. cbn [apply_writes].
  rewrite IH. by destruct w.
Qed.

Lemma tasks_apply_put r ws db :
  Forall no_task_write ws -> tasks (apply_writes (PutTask r :: ws) db) = <[r_id r := r]> (tasks db).
Proof. intros H. cbn [apply_writes]. by rewrite tasks_apply_no_task. Qed.

(** [m], started where [P] holds, follows the lifecycle as long as the other
    sessions do and leave [me]'s locks alone, and ends in [Q]. *)
Definition triple {policy : RetryPolicy} (me : string) {A} (P : DB -> Prop) (m : M A)
    (Q : A -> DB -> Prop) : Prop :=
  forall o w, env_ok o -> env_foreign me o -> w_tx w = None -> Inv (w_db w) -> P (w_db w) ->
  rtc db_step (w_db w) (w_db (m o w).2) /\ w_tx (m o w).2 = None /\ Q (m o w).1 (w_db (m o w).2).

Lemma triple_bind {policy : RetryPolicy} me {A B} P Q R (m : M A) (k : A -> M B) :
  triple me P m Q -> (forall a, triple me (Q a) (k a) R) -> triple me P (bind m k) R.
Proof.
  intros Hm Hk o w He Hf Htx HI Hl. unfold bind.
  destruct (Hm o w He Hf Htx HI Hl) as (H1 & H2 & H3). destruct (m o w) as [a w']. simpl in *.
  destruct (Hk a o w' He Hf H2) as (H4 & H5 & H6); [by eapply db_steps_Inv|done|].
  split_and!; [by etrans|done..].
Qed.

Lemma triple_ret {policy : RetryPolicy} me {A} (P : DB -> Prop) (a : A) (Q : A -> DB -> Prop) :
  (forall db, P db -> Q a db) -> triple me P (ret a) Q.
Proof. intros H o w _ _ Htx _ Hl. split_and!; [apply rtc_refl|done|by apply H]. Qed.

Lemma triple_consequence {policy : RetryPolicy} me {A} (P P' : DB -> Prop) (m : M A) (Q Q' : A -> DB -> Prop) :
  triple me P' m Q' -> (forall db, P db -> P' db) -> (forall a db, Q' a db -> Q a db) -> triple me P m Q.
Proof. intros H HP HQ o w He Hf Htx HI Hl. destruct (H o w He Hf Htx HI (HP _ Hl)) as (? & ? & ?). eauto. Qed.

Section guarded.
Context {policy : RetryPolicy} (me : string) (t : TaskRow).

(** The row the worker holds is the one it was given. *)
Definition lock_agrees (db : DB) : Prop :=
  forall r, held_row db (t_ID t) me = Some r ->
  r_attempts r = t_Attempts t /\ r_max_retries r = t_MaxRetries t.

(** [m] keeps the lock as it was given. *)
Definition guarded {A} (m : M A) : Prop := triple me lock_agrees m (fun _ => lock_agrees).

Lemma lock_agrees_env o n db : env_foreign me o -> lock_agrees db -> lock_agrees (ev_env (o n) db).
Proof. intros Hf H r Hr. by apply H, (Hf n). Qed.

Lemma lock_agrees_put db r ws :
  r_id r = t_ID t -> Forall no_task_write ws ->
  (owned_by me r = true -> r_attempts r = t_Attempts t /\ r_max_retries r = t_MaxRetries t) ->
  lock_agrees (apply_writes (PutTask r :: ws) db).
Proof.
  intros Hid Hws Hown r'. unfold held_row. rewrite tasks_apply_put, <- Hid, lookup_insert_eq by done.
  destruct (owned_by me r) eqn:Ho; [|done]. intros [= <-]. by apply Hown.
Qed.

Lemma guarded_bind {A B} (m : M A) (k : A -> M B) :
  guarded m -> (forall a, guarded (k a)) -> guarded (bind m k).
Proof. apply triple_bind. Qed.

Lemma guarded_ret {A} (a : A) : guarded (ret a).
Proof. by apply triple_ret. Qed.

(** A call that only lets time pass. *)
Lemma guarded_tick {A} (f : Event -> A) : guarded (fun o w => (f (o (w_next w)), tick o w)).
Proof.
  intros o w He Hf Htx HI Hl. unfold tick, pending. simpl. rewrite Htx.
  split_and!; [apply He|done|by apply lock_agrees_env].
Qed.

Lemma guarded_add_metric f : guarded (add_metric f).
Proof. intros o w _ _ Htx _ Hl. split_and!; [apply rtc_refl|done..]. Qed.

(** Of an operation that refines the lifecycle, only the lock is left to show. *)
Lemma guarded_refines {A} (m : M A) :
  refines m ->
  (forall o w, env_ok o -> env_foreign me o -> w_tx w = None -> Inv (w_db w) -> lock_agrees (w_db w) ->
     wp m o (fun _ w' => lock_agrees (w_db w')) w) ->
  guarded m.
Proof.
  intros Href Hlock o w He Hf Htx HI Hl. destruct (Href o w He Htx HI). split_and!; [done..|].
  by apply Hlock.
Qed.

Ltac lock_leaf :=
  cbn [w_db set_tx]; repeat (apply lock_agrees_env; [assumption|]); assumption.

Ltac lock_put :=
  match goal with |- lock_agrees _ => cbn [w_db set_tx]; apply lock_agrees_put end;
  [done|by repeat constructor|].

Lemma Heartbeat_guarded : guarded (Heartbeat (t_ID t) me).
Proof.
  apply guarded_refines; [apply Heartbeat_refines|]. intros o w He Hf Htx HI Hl. wp_world w.
  unfold Heartbeat. wp_step. assert (Inv (ev_env (o n) db)) as HI' by inv_env.
  assert (lock_agrees (ev_env (o n) db)) as Hl' by by apply lock_agrees_env.
  apply wp_db_exec; [done| |intros; lock_leaf]. unfold sql_heartbeat.
  destruct (sql_update_cases (t_ID t) (owned_by me) (set_heartbeat me (ev_now (o n))) (ev_env (o n) db))
    as [(r & Hr & Hp & ->)| ->]; cbn beta iota; [|split; intros; cbn [Z.eqb]; run; lock_leaf].
  pose proof (Inv_id _ _ _ HI' Hr). specialize (Hl' r). unfold held_row in Hl'. rewrite Hr, Hp in Hl'.
  split; intros; cbn [Z.eqb]; run; lock_put; intros _; by apply Hl'.
Qed.

Lemma MarkCompleted_guarded d : guarded (MarkCompleted (t_ID t) me d).
Proof.
  apply guarded_refines; [apply MarkCompleted_refines|]. intros o w He Hf Htx HI Hl. wp_world w.
  unfold MarkCompleted, insertLog. run; try lock_leaf.
  update_cases sql_mark_completed r Hr Hp; run; try lock_leaf.
  after_put. run; try lock_leaf; by lock_put.
Qed.

Lemma MarkDead_guarded e reason : guarded (MarkDead (t_ID t) me e reason).
Proof.
  apply guarded_refines; [apply MarkDead_refines|]. intros o w He Hf Htx HI Hl. wp_world w.
  unfold MarkDead, insertLog. run; try lock_leaf.
  update_cases sql_mark_dead r Hr Hp; run; try lock_leaf.
  after_put. run; try lock_leaf. after_put. run; try lock_leaf; by lock_put.
Qed.

(** The row is requeued only if the policy allows what the worker was given. *)
Lemma MarkPending_guarded e next :
  (forall r, r_attempts r = t_Attempts t -> r_max_retries r = t_MaxRetries t -> retry_ok r) ->
  guarded (MarkPending t me e next).
Proof.
  intros Hpol o w He Hf Htx HI Hl. wp_world w.
  match goal with |- rtc _ ?db (w_db (?m o ?w).2) /\ _ =>
    cut (wp m o (fun _ w' => (rtc db_step db (w_db w') /\ w_tx w' = None) /\ lock_agrees (w_db w')) w);
    [by intros [[]]|]
  end.
  unfold MarkPending, insertLog.
  assert (forall r, held_row (ev_env (o (S n)) (ev_env (o n) db)) (t_ID t) me = Some r -> retry_ok r) as Hok.
  { intros r Hr. apply Hpol; apply Hl; by apply (Hf n), (Hf (S n)). }
  run; try (split; [reach|lock_leaf]).
  update_cases sql_mark_pending r Hr Hp; run; try (split; [reach|lock_leaf]).
  specialize (Hok r). unfold held_row in Hok. rewrite Hr, Hp in Hok.
  after_put. run; try (split; [reach|lock_leaf]);
    (split; [reach; eapply step_retry; eauto|by lock_put]).
Qed.
End guarded.

(** ** The worker *)

Section worker.
Context (w : Worker).
Local Existing Instance strict_retry.

Local Abbreviation me := (workerID w).

Lemma runTaskHandler_guarded t handler : guarded me t (runTaskHandler t handler).
Proof.
  exact (guarded_tick me t (fun e =>
    match handler (t_Payload t) e with
    | Returned err => err
    | Panicked v => Some (NewError ("handler panicked: " +:+ v))
    end)).
Qed.

Ltac solve_guard :=
  repeat lazymatch goal with
  | |- guarded _ _ (ret _) => apply guarded_ret
  | |- guarded _ _ (add_metric _) => apply guarded_add_metric
  | |- guarded _ _ (Heartbeat _ _) => apply Heartbeat_guarded
  | |- guarded _ _ (MarkCompleted _ _ _) => apply MarkCompleted_guarded
  | |- guarded _ _ (MarkDead _ _ _ _) => apply MarkDead_guarded
  | |- guarded _ _ time_Now => apply guarded_tick
  | |- guarded _ _ rand_bits => apply guarded_tick
  | |- guarded _ _ ticks => apply guarded_tick
  | |- guarded _ _ (runTaskHandler _ _) => apply runTaskHandler_guarded
  | |- guarded _ _ (bind _ _) => apply guarded_bind; [|intros ?]
  end.

Lemma beat_guarded t : guarded me t (beat w t).
Proof. unfold beat. solve_guard. case_match; solve_guard. Qed.

Lemma heartbeats_guarded t n b : guarded me t (heartbeats w t n b).
Proof.
  revert b. induction n as [|n IH]; intros b; cbn [heartbeats]; [solve_guard|]. destruct b; [|solve_guard].
  apply guarded_bind; [apply beat_guarded|intros b; apply IH].
Qed.

Lemma handleFailure_guarded t err : guarded me t (handleFailure w t err).
Proof.
  unfold handleFailure. apply guarded_bind; [|intros; repeat case_match; solve_guard].
  destruct (Z.leb_spec (t_MaxRetries t) (t_Attempts t)); solve_guard.
  apply MarkPending_guarded. intros r Ha Hm. unfold retry_ok, strict_retry. lia.
Qed.

Lemma run_timed_guarded t handler start : guarded me t (run_timed t handler start).
Proof. unfold run_timed. solve_guard. Qed.

Lemma persist_guarded t start err : guarded me t (persist w t start err).
Proof.
  destruct err as [e|]; cbn [persist]; [apply handleFailure_guarded|].
  solve_guard. repeat case_match; solve_guard.
Qed.

Lemma no_handler_guarded t : guarded me t (no_handler w t).
Proof. unfold no_handler. solve_guard. repeat case_match; solve_guard. Qed.

Lemma execute_guarded t : guarded me t (execute w t).
Proof.
  unfold execute. destruct (Get _ _) as [handler|]; [|apply no_handler_guarded].
  apply guarded_bind; [solve_guard|intros _]. apply guarded_bind; [|intros; solve_guard; apply heartbeats_guarded].
  unfold run_and_persist. apply guarded_bind; [solve_guard|intros start]. apply guarded_bind; [solve_guard|intros n].
  apply guarded_bind; [apply heartbeats_guarded|intros b]. apply guarded_bind; [apply run_timed_guarded|intros err].
  apply guarded_bind; [apply persist_guarded|intros r; solve_guard].
Qed.

(** A successful claim leaves the lock as it reports it. *)
Lemma claim_triple :
  triple me (fun _ => True) (claim w)
    (fun r db => match r with Ok t => lock_agrees me t db | Err _ => True end).
Proof.
  intros o wd He Hf Htx HI _. pose proof (Claim_refines me o wd He Htx HI) as [H1 H2].
  unfold claim, bind. destruct (Claim me o wd) as [r w'] eqn:Hrun.
  assert (wp (Claim me) o (fun r w' => forall t, r = Ok t -> lock_agrees me t (w_db w')) wd) as Hwp.
  { clear r w' Hrun H1 H2. wp_world wd. unfold Claim, insertLog. run; try done. unfold sql_claim.
    destruct (claim_candidate _ _ _) as [r|] eqn:Hc; cbn beta iota; [|by run].
    apply claim_candidate_spec in Hc as (_ & [id Hr] & _).
    destruct (negb (fits 100 me)); [by run|].
    destruct (negb (in_int32 (r_attempts r + 1))); [by run|].
    run; try done. rewrite sql_insert_log_after_put by (done || by repeat constructor). cbn beta iota. cbn [app].
    run; try done. match goal with H : Ok _ = Ok _ |- _ => injection H as <- end. cbn [w_db set_tx app]. apply lock_agrees_put; [done|by repeat constructor|done]. }
  unfold wp in Hwp. rewrite Hrun in Hwp. simpl in *.
  destruct r as [t|e]; [|destruct (errors_Is e _)]; simpl; split_and!; try done. by apply Hwp.
Qed.

Local Abbreviation anything := (fun _ : DB => True).

Lemma triple_refines {A} (m : M A) : refines m -> triple me anything m (fun _ => anything).
Proof. intros H o wd He _ Htx HI _. by destruct (H o wd He Htx HI). Qed.

Lemma refines_tick {A} (f : Oracle -> World -> A) : refines (fun o wd => (f o wd, tick o wd)).
Proof. intros o wd He Htx _. unfold tick, pending. simpl. rewrite Htx. split; [apply He|done]. Qed.

Lemma refines_add_metric f : refines (add_metric f).
Proof. intros o wd _ Htx _. by split. Qed.

Lemma execute_triple t : triple me (lock_agrees me t) (execute w t) (fun _ => anything).
Proof. by eapply triple_consequence; [apply execute_guarded|..]. Qed.

Lemma loop_triple ctx fuel failing : triple me anything (loop w ctx fuel failing) (fun _ => anything).
Proof.
  revert failing. induction fuel as [|fuel IH]; intros failing; cbn [loop]; [by apply triple_ret|].
  eapply triple_bind; [apply claim_triple|]. intros [t|err].
  - eapply triple_bind; [apply execute_triple|]. intros r.
    eapply triple_bind; [apply IH|]. intros rest. by apply triple_ret.
  - eapply (triple_bind _ _ (fun _ => anything)).
    { intros o wd _ _ Htx _ _. split_and!; [apply rtc_refl|done..]. }
    intros stop. destruct stop; [by apply triple_ret|].
    eapply (triple_bind _ _ (fun _ => anything)).
    { apply triple_refines. unfold claim_error. destruct (negb _); [|apply refines_ret].
      apply refines_bind; [apply refines_add_metric|intros; apply refines_ret]. }
    intros failing'. eapply triple_bind; [apply triple_refines, refines_tick|].
    intros stop. destruct stop; [by apply triple_ret|].
    eapply triple_bind; [apply IH|]. intros rest. by apply triple_ret.
Qed.

Lemma Start_triple ctx fuel : triple me anything (Start w ctx fuel) (fun _ => anything).
Proof.
  unfold Start. eapply triple_bind; [apply triple_refines, refines_add_metric|]. intros ?.
  eapply triple_bind; [apply loop_triple|]. intros r.
  eapply (triple_bind _ _ (fun _ => anything)); [|intros x; by apply triple_ret].
  apply triple_refines. destruct r.1; [apply refines_add_metric|apply refines_ret].
Qed.
End worker.

(** ** The retry budget *)

(** A task may be attempted once, or [max_retries] times if that is more. *)
Definition budget (r : Row) : Z := Z.max 1 (r_max_retries r).

Definition within_budget (r : Row) : Prop :=
  r_attempts r <= budget r /\ (r_status r = PENDING -> r_attempts r < budget r).

Definition Budget (db : DB) : Prop := forall id r, tasks db !! id = Some r -> within_budget r.

Lemma task_step_budget id v v' r' :
  @task_step strict_retry id v v' -> (forall r, v_row v = Some r -> within_budget r) ->
  v_row v' = Some r' -> within_budget r'.
Proof.
  intros Hstep Hb Hr'.
  destruct Hstep as [| r (Hs & Ha & _) _ | r h d now Hs | r h d x now Hs _ | r h d x now Ho | r h d x now Ho
    | r h d x e next now Ho Hok | r h d x e now Ho | r h d now Hs | r h d thr now Hst Hex | r h d thr now Hst Hex];
    simpl in *; try (apply Hb; done); injection Hr' as <-; unfold within_budget, budget in *;
    try (destruct (Hb r eq_refl) as [Hle Hlt]).
  all: cbn; unfold retry_ok, strict_retry, exhausted in *; bool_to_prop; try (split; [lia|done]).
  all: try (rewrite Ha, ?Hs; split; lia). all: try (specialize (Hlt Hs); split; [lia|done]).
  all: split; [lia|]; intros; try lia.
Qed.

Lemma db_steps_budget db db' : rtc (@db_step strict_retry) db db' -> Budget db -> Budget db'.
Proof.
  induction 1 as [|db db1 db' Hs _ IH]; [done|]. intros Hb. apply IH. intros id r Hr.
  eapply (task_step_budget id _ _ _ (proj1 Hs id)); [intros r0 Hr0; by apply (Hb id)|done].
Qed.

(** ** What other processes do *)

(** [m] never makes [me] the holder of a task. *)
Definition foreign {policy : RetryPolicy} (me : string) {A} (m : M A) : Prop :=
  forall o w, env_ok o -> env_foreign me o -> w_tx w = None -> Inv (w_db w) ->
  wp m o (fun _ w' => forall id r, held_row (w_db w') id me = Some r -> held_row (w_db w) id me = Some r) w.

Section foreign.
Context {policy : RetryPolicy} {hasher : PayloadHasher} (me : string).

(** Writes that leave no row in the hands of [me]. *)
Definition releases (w : Write) : Prop :=
  match w with PutTask r => owned_by me r = false | DelTask _ => False | _ => True end.

Lemma held_writes ws db id x :
  Forall releases ws -> held_row (apply_writes ws db) id me = Some x -> held_row db id me = Some x.
Proof.
  intros Hws. revert db. induction Hws as [|w ws Hw _ IH]; intros db Hx; [done|].
  apply IH in Hx. revert Hx. destruct w as [r| | | | | |]; cbn [releases] in Hw; try done.
  unfold held_row. cbn [apply_write tasks]. destruct (decide (r_id r = id)) as [<-|Hne].
  - by rewrite lookup_insert_eq, Hw.
  - by rewrite lookup_insert_ne.
Qed.

Lemma held_env o n db id x :
  env_foreign me o -> held_row (ev_env (o n) db) id me = Some x -> held_row db id me = Some x.
Proof. intros H. apply H. Qed.

Ltac held_leaf :=
  cbn beta iota; intros;
  match goal with Hx : held_row _ ?i me = Some ?x |- held_row _ ?i me = Some ?x =>
    cbn [w_db set_tx] in Hx;
    repeat match type of Hx with
    | held_row (ev_env _ _) _ _ = _ => apply held_env in Hx; [|assumption]
    | held_row (apply_writes _ _) _ _ = _ =>
        apply held_writes in Hx; [|first [assumption | by repeat constructor]]
    end; exact Hx
  end.

Ltac start_foreign := intros o w He Hf Htx HI; wp_world w.

Lemma MarkCompleted_foreign id x d : foreign me (MarkCompleted id x d).
Proof.
  start_foreign. unfold MarkCompleted, insertLog. run; try held_leaf.
  update_cases sql_mark_completed r Hr Hp; run; try held_leaf. after_put. run; held_leaf.
Qed.

Lemma MarkPending_foreign t x e next : foreign me (MarkPending t x e next).
Proof.
  start_foreign. unfold MarkPending, insertLog. run; try held_leaf.
  update_cases sql_mark_pending r Hr Hp; run; try held_leaf. after_put. run; held_leaf.
Qed.

Lemma MarkDead_foreign id x e reason : foreign me (MarkDead id x e reason).
Proof.
  start_foreign. unfold MarkDead, insertLog. run; try held_leaf.
  update_cases sql_mark_dead r Hr Hp; run; try held_leaf. after_put. run; try held_leaf.
  after_put. run; held_leaf.
Qed.

Lemma Cancel_foreign id : foreign me (Cancel id).
Proof.
  start_foreign. unfold Cancel, insertLog. run; try held_leaf.
  update_cases sql_cancel r Hr Hp; run; try held_leaf.
  - cbn [set_cancel set_updated_at set_status r_id]. rewrite ?Hid. after_put. run; held_leaf.
  - apply wp_GetById; [naive_solver|intros|intros; held_leaf]. destruct (_ <$> _); run; held_leaf.
Qed.

Lemma RetryDead_foreign id : foreign me (RetryDead id).
Proof.
  start_foreign. unfold RetryDead, insertLog. run; try held_leaf.
  update_cases sql_retry_dead r Hr Hp; run; try held_leaf.
  - cbn [sql_delete_dead_letters app]. run; try held_leaf. after_put. run; held_leaf.
  - apply wp_GetById; [naive_solver|intros|intros; held_leaf]. destruct (_ <$> _); run; held_leaf.
Qed.

Lemma owned_by_other x r : r_locked_by r = Some x -> x <> me -> owned_by me r = false.
Proof.
  intros Hr Hx. unfold owned_by. rewrite Hr. apply andb_false_intro2, bool_decide_eq_false_2. congruence.
Qed.

(** A claim or heartbeat under another name. *)
Lemma Claim_foreign x : x <> me -> foreign me (Claim x).
Proof.
  intros Hx. start_foreign. unfold Claim, insertLog.
  run; try held_leaf; [|rewrite bool_decide_false by done; run; held_leaf]. unfold sql_claim.
  destruct (claim_candidate _ _ _) as [r|]; cbn beta iota;
    [|rewrite bool_decide_true by done; run; held_leaf].
  destruct (negb (fits 100 x)); [cbn [sql_error]; cbn beta iota; rewrite bool_decide_false by done; run; held_leaf|].
  destruct (negb (in_int32 (r_attempts r + 1)));
    [cbn [sql_error]; cbn beta iota; rewrite bool_decide_false by done; run; held_leaf|].
  assert (owned_by me (set_claim x (ev_now (o n)) r) = false) as Ho by by eapply owned_by_other.
  run; try held_leaf. rewrite sql_insert_log_after_put by (done || by repeat constructor).
  cbn beta iota. cbn [app]. run; held_leaf.
Qed.

Lemma Heartbeat_foreign id x : x <> me -> foreign me (Heartbeat id x).
Proof.
  intros Hx. start_foreign. unfold Heartbeat. wp_step.
  apply wp_db_exec; [done| |intros; held_leaf]. unfold sql_heartbeat.
  destruct (sql_update_cases id (owned_by x) (set_heartbeat x (ev_now (o n))) (ev_env (o n) db))
    as [(r & Hr & Hp & ->)| ->]; cbn beta iota; [|split; intros; cbn [Z.eqb]; run; held_leaf].
  apply owned_by_true in Hp as [_ Hp].
  assert (owned_by me (set_heartbeat x (ev_now (o n)) r) = false) as Ho by by eapply owned_by_other.
  split; intros; cbn [Z.eqb]; run; held_leaf.
Qed.

Lemma Create_foreign task : foreign me (Create task).
Proof.
  start_foreign. unfold Create, CreateTx, insertTask. run; try held_leaf.
  destruct (hashPayload _) as [h|e]; [|run; held_leaf]. destruct (encodable task); [|run; held_leaf]. run; try held_leaf.
  destruct (sql_insert_task_cases (t_Type task) (t_Payload task) h (t_IdempotencyKey task)
    (t_Priority task) (t_MaxRetries task) (t_RunAt task) (ev_now (o n)) (o (S n))
    (ev_env (o (S n)) (ev_env (o n) db))) as [[m ->]|[(r & _ & ->)|(Hk & Hid & ->)]];
    cbn beta iota; autorewrite with dhara.
  - run; held_leaf.
  - unfold getByTypeAndIdempotencyKey. run; try held_leaf.
    cbn [sql_get_by_key]. destruct (head _); run; try held_leaf. destruct (negb _); run; held_leaf.
  - run; held_leaf.
Qed.

Lemma releases_reap reaperID now st :
  Forall releases (reap_puts now st ++ map (reaper_log reaperID now) (reap_rows st)).
Proof.
  unfold reap_puts. rewrite !Forall_app. split_and!; apply Forall_forall;
    by intros w (y & -> & _)%list_elem_of_fmap.
Qed.

Lemma RequeueStaleRunning_foreign threshold reaperID : foreign me (RequeueStaleRunning threshold reaperID).
Proof.
  start_foreign. unfold RequeueStaleRunning. run; try held_leaf.
  rewrite sql_requeue_stale_eq. set (st := rows_where _ _).
  assert (Inv (ev_env (o (S n)) (ev_env (o n) db))) as HI' by inv_env.
  assert (forall r, r ∈ st -> is_Some (tasks (ev_env (o (S n)) (ev_env (o n) db)) !! r_id r)) as Hst.
  { intros r [_ [k Hk]]%elem_of_rows_where. rewrite (Inv_id _ _ _ HI' Hk). eauto. }
  pose proof (releases_reap reaperID (ev_now (o n)) st) as Hrel.
  destruct (reap_puts (ev_now (o n)) st) as [|x ws] eqn:Hws.
  - apply reap_puts_nil in Hws. rewrite Hws. run; cbn [no_op]; try held_leaf.
    all: cbn [reap_rows log_reaped map app List.filter]; run; held_leaf.
  - cbn beta iota. do 2 wp_step. apply wp_tx_exec_next; [intros _|intros; cbn beta iota; held_leaf].
    cbn [no_op]. rewrite app_nil_r. wp_step. apply wp_log_reaped.
    + rewrite <- Hws. intros r Hr. by apply reap_puts_fk.
    + cbn beta iota. cbn [app] in *. run; held_leaf.
    + intros. cbn beta iota. held_leaf.
Qed.

Lemma GetById_foreign id : foreign me (GetById id).
Proof. start_foreign. apply wp_GetById; [done|intros; held_leaf|intros; held_leaf]. Qed.

Lemma List_foreign filter : foreign me (List_ filter).
Proof.
  start_foreign. unfold List_. wp_step. apply wp_db_exec; [done| |intros; held_leaf].
  cbn [sql_count]. split; [|intros; held_leaf]. intros. wp_step.
  apply wp_db_exec; [done| |intros; held_leaf]. unfold sql_list.
  unfold sql_error. destruct (_ <? _); [held_leaf|]. destruct (_ <? _); [held_leaf|]. cbn beta iota.
  split; [|intros; held_leaf]. intros. do 2 wp_step.
  apply wp_db_exec; [done| |intros; held_leaf]. cbn. split; intros; [wp_step; held_leaf|held_leaf].
Qed.

Lemma GetQueueDBMetrics_foreign : foreign me GetQueueDBMetrics.
Proof.
  start_foreign. unfold GetQueueDBMetrics. do 2 wp_step.
  apply wp_db_exec; [done| |intros; held_leaf]. cbn [sql_queue_metrics]. cbn beta iota.
  split; intros; [wp_step; held_leaf|held_leaf].
Qed.

Lemma foreign_bind {A B} (m : M A) (k : A -> M B) :
  foreign me m -> refines m -> (forall a, foreign me (k a)) -> foreign me (bind m k).
Proof.
  intros Hm Href Hk o w He Hf Htx HI. apply wp_bind. destruct (Href o w He Htx HI) as [Hs Htx'].
  specialize (Hm o w He Hf Htx HI). unfold wp in *. destruct (m o w) as [a w']. simpl in *.
  intros id r Hr. apply Hm. apply (Hk a o w'); try done. by eapply db_steps_Inv.
Qed.

Lemma foreign_ret {A} (a : A) : foreign me (ret a).
Proof. by intros o w _ _ _ _ id r Hr. Qed.

Lemma foreign_outcome {A} (m : M (res A)) : foreign me m -> refines m -> foreign me (outcome m).
Proof. intros Hm Href. apply foreign_bind; [done..|]. intros. apply foreign_ret. Qed.
End foreign.

(** The name a store call acts under, when it takes or refreshes a lock. *)
Definition lock_name (op : StoreOp) : option string :=
  match op with
  | OpClaim x | OpHeartbeat _ x => Some x
  | _ => None
  end.

Lemma run_op_foreign {hasher : PayloadHasher} me op :
  lock_name op <> Some me -> foreign me (run_op op).
Proof.
  intros Hn. destruct op; cbn [run_op]; apply foreign_outcome;
    auto using Create_foreign, GetById_foreign, List_foreign, Cancel_foreign, MarkCompleted_foreign,
      MarkPending_foreign, MarkDead_foreign, RetryDead_foreign, RequeueStaleRunning_foreign,
      GetQueueDBMetrics_foreign, Create_refines, GetById_refines, List_refines, Cancel_refines, Claim_refines,
      Heartbeat_refines, MarkCompleted_refines, MarkPending_refines_any, MarkDead_refines,
      RetryDead_refines, RequeueStaleRunning_refines, GetQueueDBMetrics_refines.
  - apply Claim_foreign. cbn in Hn. congruence.
  - apply Heartbeat_foreign. cbn in Hn. congruence.
Qed.

Lemma run_ops_foreign {hasher : PayloadHasher} me ops :
  Forall (fun op => lock_name op <> Some me) ops -> foreign me (run_ops ops).
Proof.
  induction 1 as [|op ops Hop _ IH]; cbn [run_ops]; [apply foreign_ret|].
  apply foreign_bind; [by apply run_op_foreign|apply run_op_refines|done].
Qed.
