(* ===== verification/WorkerTheorems.v ===== *)
(** WorkerTheorems: the worker's retry budget, its back-off, what executing a
    task does to it, and the counters of the polling loop. *)

From S2P Require Import Prelude Dharatype GoTime Float64 Metrics Pg PgLogic TaskStore Lifecycle.
From S2P Require Import StoreRefine StoreTheorems StoreSpec StoreContracts Client Worker Calls WorkerRefine.
Open Scope dhara_scope.

(** ** Back-off *)

Lemma fleb_spec a b E :
  E <= f_exp a -> E <= f_exp b ->
  fleb a b = true <-> f_man a * 2 ^ (f_exp a - E) <= f_man b * 2 ^ (f_exp b - E).
Proof.
  intros Ha Hb. unfold fleb. destruct (Z.leb_spec (f_exp b) (f_exp a)) as [H|H]; rewrite Z.leb_le.
  - replace (f_exp a - E) with (f_exp a - f_exp b + (f_exp b - E)) by lia.
    rewrite Z.pow_add_r, Z.mul_assoc by lia.
    assert (0 < 2 ^ (f_exp b - E)) by (apply Z.pow_pos_nonneg; lia). nia.
  - replace (f_exp b - E) with (f_exp b - f_exp a + (f_exp a - E)) by lia.
    rewrite Z.pow_add_r, Z.mul_assoc by lia.
    assert (0 < 2 ^ (f_exp a - E)) by (apply Z.pow_pos_nonneg; lia). nia.
Qed.

(** The value of a float with a non-negative exponent. *)
Definition fvalue (f : float64) : Z := f_man f * 2 ^ f_exp f.

Lemma fmin_le a b :
  0 <= f_exp a -> 0 <= f_exp b -> fvalue (fmin a b) <= fvalue a /\ fvalue (fmin a b) <= fvalue b.
Proof.
  intros Ha Hb. unfold fmin, fvalue. pose proof (fleb_spec a b 0 Ha Hb) as Hle.
  rewrite !Z.sub_0_r in Hle. destruct (fleb a b); [split; [lia|by apply Hle]|].
  split; [|lia]. destruct (Z.le_gt_cases (f_man a * 2 ^ f_exp a) (f_man b * 2 ^ f_exp b)); [|lia].
  by apply Hle in H.
Qed.

(** A random fraction of a number is at most that number. *)
Lemma jitter_bound bits f :
  0 <= f_man f <= 2 ^ 53 -> 0 <= f_exp f ->
  0 <= to_int (fmul (rand_Float64 bits) f) <= fvalue f.
Proof.
  intros Hm He. pose proof (Z.mod_pos_bound bits (2 ^ 53) ltac:(lia)) as Hk.
  unfold fmul, rand_Float64. simpl f_man. simpl f_exp. set (k := bits mod 2 ^ 53) in *.
  assert (0 <= k * f_man f) by nia. split.
  - apply to_int_nonneg. by apply round53_man.
  - set (E := Z.min (-53 + f_exp f) 0). apply (to_int_le _ _ E).
    + pose proof (round53_exp (k * f_man f) (-53 + f_exp f)). lia.
    + lia.
    + unfold fvalue. rewrite <- Z.mul_assoc, <- Z.pow_add_r by lia.
      replace (f_exp f + - E) with (f_exp f - E) by lia. apply round53_le; try lia.
      replace (f_exp f - E) with (53 + (-53 + f_exp f - E)) by lia. rewrite (Z.pow_add_r 2 53) by lia.
      assert (0 < 2 ^ (-53 + f_exp f - E)) by (apply Z.pow_pos_nonneg; lia). nia.
Qed.

Lemma computeBackoff_bound w bits attempts :
  0 < baseBackoff w <= 2 ^ 53 -> 0 < maxBackoff w <= 2 ^ 53 ->
  0 <= computeBackoff w bits attempts <= Z.min (maxBackoff w) (baseBackoff w * 2 ^ Z.max (attempts - 1) 0).
Proof.
  intros Hb Hm. unfold computeBackoff. set (n := Z.max (attempts - 1) 0).
  set (cap := of_int (maxBackoff w)). set (b := fmul (of_int (baseBackoff w)) (pow2 n)).
  destruct (of_int_value (maxBackoff w)) as [Hce Hcv]; [lia|].
  destruct (of_int_value (baseBackoff w)) as [Hbe Hbv]; [lia|].
  pose proof (round53_man (maxBackoff w) 0 ltac:(lia)) as Hcm.
  pose proof (round53_man (baseBackoff w) 0 ltac:(lia)) as Hbm.
  assert (0 <= f_exp b /\ 0 <= f_man b <= 2 ^ 53 /\ fvalue b <= baseBackoff w * 2 ^ n) as (Hb1 & Hb2 & Hb3).
  { unfold b, fmul, pow2, fvalue. simpl f_man. simpl f_exp. rewrite Z.mul_1_r. fold (of_int (baseBackoff w)) in *.
    pose proof (round53_exp (f_man (of_int (baseBackoff w))) (f_exp (of_int (baseBackoff w)) + n)).
    split_and!; [lia|apply round53_man; lia..|].
    pose proof (round53_le (f_man (of_int (baseBackoff w))) (f_exp (of_int (baseBackoff w)) + n)
      (f_man (of_int (baseBackoff w))) (f_exp (of_int (baseBackoff w)) + n) 0) as Hr.
    rewrite !Z.sub_0_r in Hr. etrans; [apply Hr; lia|]. rewrite Z.pow_add_r, Z.mul_assoc by lia.
    apply Z.mul_le_mono_nonneg_r; [apply Z.pow_nonneg; lia|done]. }
  destruct (fmin_le cap b Hce Hb1) as [H1 H2].
  assert (0 <= f_man (fmin cap b) <= 2 ^ 53 /\ 0 <= f_exp (fmin cap b)) as [H3 H4]
    by (unfold fmin; destruct (fleb cap b); done).
  pose proof (jitter_bound bits _ H3 H4). unfold fvalue in *. fold cap in Hcv. lia.
Qed.

(** ** Executing a task *)

(** An operation with a known result, as a step of a longer run. *)
Lemma wp_op {A} (m : M A) o w a db' met' Q :
  refines m -> advancing m -> calm o -> idle w -> yields m o w a db' met' ->
  (forall w', idle w' -> w_db w' = db' -> w_metrics w' = met' -> (w_next w <= w_next w')%nat -> Q a w') -> wp m o Q w.
Proof.
  intros Href Hadv Hcalm Hidle Hy HQ. pose proof (refines_idle m o w _ _ _ Href Hcalm Hidle Hy) as Hidle'.
  destruct Hy as (Ha & Hdb & Hmet & _). unfold wp. rewrite Ha. by apply HQ; [..|apply Hadv].
Qed.

Lemma wp_result {A} (m : M A) o w Q a w' : (m o w).1 = a -> (m o w).2 = w' -> Q a w' -> wp m o Q w.
Proof. by intros <- <-. Qed.

Lemma wp_tick {A} (f : Event -> A) o w Q :
  calm o -> idle w ->
  (forall w', idle w' -> w_db w' = w_db w -> w_metrics w' = w_metrics w -> w_next w' = S (w_next w) ->
     Q (f (o (w_next w))) w') ->
  wp (fun o w => (f (o (w_next w)), tick o w)) o Q w.
Proof.
  intros [_ Hq] [Htx HI] HQ. unfold wp. simpl. unfold tick, pending. rewrite Htx, Hq. by apply HQ.
Qed.

Lemma wp_metric f o w Q :
  idle w -> (forall w', idle w' -> w_db w' = w_db w -> w_metrics w' = f (w_metrics w) -> w_next w' = w_next w -> Q tt w') ->
  wp (add_metric f) o Q w.
Proof. intros Hidle HQ. unfold wp. simpl. by apply HQ. Qed.

(** A row whose heartbeat was refreshed. *)
Definition beaten (r r' : Row) : Prop :=
  exists t u, r' = set_updated_at u (set_lock (r_locked_by r) t r).

Lemma beaten_refl r : beaten r r.
Proof. exists (r_locked_at r), (r_updated_at r). by destruct r. Qed.

Lemma beaten_trans r r' r'' : beaten r r' -> beaten r' r'' -> beaten r r''.
Proof. intros (t & u & ->) (t' & u' & ->). by exists t', u'. Qed.

Lemma beaten_heartbeat me now r : beaten r (set_heartbeat me now r).
Proof. by exists (Some now), now. Qed.

(** The terminal writes overwrite what a heartbeat changed. *)
Lemma beaten_completed r r' now : beaten r r' -> set_completed now r' = set_completed now r.
Proof. by intros (t & u & ->). Qed.
Lemma beaten_pending r r' e next now : beaten r r' -> set_pending e next now r' = set_pending e next now r.
Proof. by intros (t & u & ->). Qed.
Lemma beaten_dead r r' e now : beaten r r' -> set_dead e now r' = set_dead e now r.
Proof. by intros (t & u & ->). Qed.
Lemma beaten_id r r' : beaten r r' -> r_id r' = r_id r.
Proof. by intros (t & u & ->). Qed.

(** Writing the same row again. *)
Lemma put_put r r' ws db :
  r_id r' = r_id r -> apply_writes (PutTask r' :: ws) (apply_writes [PutTask r] db) = apply_writes (PutTask r' :: ws) db.
Proof. intros H. simpl. by rewrite H, insert_insert_eq. Qed.

Lemma put_same r id db : r_id r = id -> tasks db !! id = Some r -> apply_writes [PutTask r] db = db.
Proof. intros <- Hr. simpl. rewrite insert_id by done. by destruct db. Qed.

Lemma held_put_same db r id me :
  r_id r = id -> owned_by me r = true -> held_row (apply_writes [PutTask r] db) id me = Some r.
Proof. intros <- Ho. unfold held_row. simpl. by rewrite lookup_insert_eq, Ho. Qed.

Section execute.
Context (w : Worker) (t : TaskRow) (o : Oracle).
Hypothesis Hcalm : calm o.

Local Abbreviation me := (workerID w).
Local Abbreviation id := (t_ID t).

Lemma wp_heartbeats n wd r Q :
  idle wd -> held_row (w_db wd) id me = Some r ->
  (forall w' r', idle w' -> beaten r r' -> owned_by me r' = true ->
     w_db w' = apply_writes [PutTask r'] (w_db wd) -> w_metrics w' = w_metrics wd ->
     (w_next wd <= w_next w')%nat -> Q true w') ->
  wp (heartbeats w t n true) o Q wd.
Proof.
  revert wd r. induction n as [|n IH]; intros wd r Hidle Hh HQ;
    apply held_row_Some in Hh as [Hr Ho]; pose proof (Inv_id _ _ _ (proj2 Hidle) Hr) as Hid; cbn [heartbeats].
  - wp_step. apply (HQ wd r); [done|apply beaten_refl|done| |done..]. symmetry. by eapply put_same.
  - unfold beat. do 2 wp_step. eapply wp_op; [apply Heartbeat_refines|apply advancing_Heartbeat|done..|by apply Heartbeat_owner|].
    intros w1 Hidle1 Hdb1 Hmet1 Hn1. cbn beta iota. wp_step. cbn beta iota. set (now := ev_now _) in *.
    assert (owned_by me (set_heartbeat me now r) = true) as Ho1 by exact Ho.
    apply (IH w1 (set_heartbeat me now r) Hidle1); [rewrite Hdb1; by apply held_put_same|].
    intros w' r' Hidle' Hb Ho' Hdb Hmet Hn.
    apply (HQ w' r'); [done|eapply beaten_trans; [apply beaten_heartbeat|exact Hb]|done|..].
    + rewrite Hdb, Hdb1. apply put_put. by apply beaten_id in Hb.
    + congruence.
    + lia.
Qed.

(** After the outcome is written the heartbeat finds the lock gone. *)
Lemma wp_heartbeats_lost n b wd Q :
  idle wd -> not_owner (w_db wd) id me ->
  (forall b w', idle w' -> w_db w' = w_db wd -> w_metrics w' = w_metrics wd -> (w_next wd <= w_next w')%nat -> Q b w') ->
  wp (heartbeats w t n b) o Q wd.
Proof.
  intros Hidle Hn HQ. destruct n as [|n]; cbn [heartbeats]; [wp_step; by apply HQ|].
  destruct b; [|wp_step; by apply HQ]. wp_step. unfold beat. wp_step.
  eapply wp_op; [apply Heartbeat_refines|apply advancing_Heartbeat|done..|by apply Heartbeat_not_owner|].
  intros w1 Hidle1 Hdb1 Hmet1 Hn1. cbn beta iota. autorewrite with dhara. wp_step. cbn [negb].
  destruct n as [|n]; cbn [heartbeats]; wp_step; by apply HQ.
Qed.

Lemma not_owner_put db r ws :
  r_id r = id -> owned_by me r = false -> Forall no_task_write ws ->
  not_owner (apply_writes (PutTask r :: ws) db) id me.
Proof.
  intros Hid Ho Hws r'. rewrite tasks_apply_put, <- Hid, lookup_insert_eq by done. by intros [= <-].
Qed.

(** The error a handler's outcome stands for. *)
Definition outcome_error (out : HandlerOutcome) : option error :=
  match out with
  | Returned err => err
  | Panicked v => Some (NewError ("handler panicked: " +:+ v))
  end.

(** The row an attempt leaves: unlocked, updated at [now]. *)
Definition left_row (status : TaskStatus) (run_at : Z) (completed : option Z) (lastError : option string) (now : Z)
    (r : Row) : Row :=
  mkRow (r_id r) (r_idempotency_key r) (r_type r) (r_payload r) (r_payload_hash r) status (r_priority r)
    (r_attempts r) (r_max_retries r) run_at (r_started_at r) completed None None lastError (r_created_at r) now.

(** The attempts of the task are used up. *)
Definition last_attempt : bool := t_MaxRetries t <=? t_Attempts t.

(** What ends an attempt that began at event [start] and whose handler ran at
    event [h] with the error [err]: the row, the log and the dead letter. Event
    [h + 1] is the observation of the duration; the calls that follow read the
    clock and the random bits and begin the transaction. *)
Definition attempt_writes (start h : nat) (r : Row) (err : option error) : list Write :=
  match err with
  | None =>
      let now := ev_now (o (h + 3)%nat) in
      let ms := Z.quot (ev_now (o (h + 2)%nat) - ev_now (o start)) Millisecond in
      [PutTask (left_row COMPLETED (r_run_at r) (Some now) (r_last_error r) now r);
       AddLog (mkLog id COMPLETED ("completed by worker " +:+ me +:+ " after " +:+ itoa ms +:+ "ms") now)]
  | Some e =>
      if last_attempt then
        let now := ev_now (o (h + 2)%nat) in
        [PutTask (left_row DEAD (r_run_at r) (r_completed_at r) (Some (Error e)) now r);
         AddDeadLetter (mkDeadLetter id (Error e) now);
         AddLog (mkLog id DEAD "marked dead: all attempts exhausted" now)]
      else
        let next := ev_now (o (h + 3)%nat) + computeBackoff w (ev_rand (o (h + 2)%nat)) (t_Attempts t) in
        let now := ev_now (o (h + 4)%nat) in
        [PutTask (left_row PENDING next (r_completed_at r) (Some (Error e)) now r);
         AddLog (mkLog id PENDING ("attempt " +:+ itoa (t_Attempts t) +:+ "/" +:+ itoa (t_MaxRetries t) +:+
           " failed, retrying at " +:+ format_RFC3339 next +:+ ": " +:+ Error e) now)]
  end.

(** The counters of an attempt. *)
Definition attempt_counted (err : option error) (met met' : Metrics) : Prop :=
  let count (b : bool) := if b then 1 else 0 in
  let failed := match err with Some _ => true | None => false end in
  TasksCompletedTotal met' = TasksCompletedTotal met + count (negb failed) /\
  TaskAttemptFailuresTotal met' = TaskAttemptFailuresTotal met + count failed /\
  TasksRetriedTotal met' = TasksRetriedTotal met + count (failed && negb last_attempt) /\
  TasksDeadTotal met' = TasksDeadTotal met + count (failed && last_attempt) /\
  WorkersInflight met' = WorkersInflight met.

Local Abbreviation outcome_at handler h := (outcome_error (handler (t_Payload t) (o h))).

Lemma wp_persist wd start h r r' err Q :
  idle wd -> r_id r = id -> tasks (w_db wd) !! id = Some r' -> beaten r r' -> owned_by me r' = true ->
  w_next wd = (h + 2)%nat ->
  (forall w', idle w' -> w_db w' = apply_writes (attempt_writes start h r err) (w_db wd) ->
     attempt_counted err (w_metrics wd) (w_metrics w') -> (h < w_next w')%nat -> Q (Ok tt) w') ->
  wp (persist w t (ev_now (o start)) err) o Q wd.
Proof.
  intros Hidle Hid Hr Hb Ho Hn HQ. unfold persist. destruct err as [e|].
  - unfold handleFailure, attempt_counted, attempt_writes in *. unfold last_attempt in *. wp_step.
    destruct (t_MaxRetries t <=? t_Attempts t) eqn:Hex.
    + eapply wp_op; [apply MarkDead_refines|apply advancing_MarkDead|done..|by apply MarkDead_owner|].
      intros w1 Hi1 Hd1 Hm1 Hn1. cbn beta iota. wp_step.
      apply HQ; [done| |rewrite Hm1; split_and!; simpl; lia|lia].
      by rewrite Hd1, (beaten_dead _ _ _ _ Hb), Hn.
    + wp_step. apply (wp_tick ev_rand); [done..|]. intros w1 Hi1 Hd1 Hm1 Hn1.
      wp_step. apply (wp_tick ev_now); [done..|]. intros w2 Hi2 Hd2 Hm2 Hn2.
      eapply wp_op; [apply MarkPending_refines_any|apply advancing_MarkPending|done..|
        apply MarkPending_owner; [done..|by rewrite Hd2, Hd1|done]|].
      intros w3 Hi3 Hd3 Hm3 Hn3. cbn beta iota. wp_step.
      apply HQ; [done| |rewrite Hm3, Hm2, Hm1; split_and!; simpl; lia|lia].
      rewrite Hd3, Hd2, Hd1, (beaten_pending _ _ _ _ _ Hb), Hn2, Hn1, Hn.
      replace (S (h + 2)) with (h + 3)%nat by lia. by replace (S (h + 3)) with (h + 4)%nat by lia.
  - wp_step. apply (wp_tick ev_now); [done..|]. intros w1 Hi1 Hd1 Hm1 Hn1. wp_step.
    eapply wp_op; [apply MarkCompleted_refines|apply advancing_MarkCompleted|done..|
      apply MarkCompleted_owner; [done..|by rewrite Hd1|done]|].
    intros w2 Hi2 Hd2 Hm2 Hn2. cbn beta iota. wp_step.
    apply HQ; [done| |rewrite Hm2, Hm1; split_and!; simpl; lia|lia].
    rewrite Hd2, Hd1, (beaten_completed _ _ _ Hb), Hn1, Hn. by replace (S (h + 2)) with (h + 3)%nat by lia.
Qed.

(** The first write of an attempt overwrites what the heartbeats wrote. *)
Lemma attempt_overwrites start h r r' err db :
  r_id r' = r_id r ->
  apply_writes (attempt_writes start h r err) (apply_writes [PutTask r'] db) =
    apply_writes (attempt_writes start h r err) db.
Proof.
  intros Hid. unfold attempt_writes. destruct err as [e|]; [destruct last_attempt|]; apply put_put; by rewrite Hid.
Qed.

Lemma attempt_releases start h r err db :
  r_id r = id -> not_owner (apply_writes (attempt_writes start h r err) db) id me.
Proof.
  intros Hid. unfold attempt_writes. destruct err as [e|]; [destruct last_attempt|];
    (apply not_owner_put; [done..|by repeat constructor]).
Qed.

Lemma wp_run_and_persist handler wd r Q :
  idle wd -> held_row (w_db wd) id me = Some r ->
  (forall w' h, idle w' -> (w_next wd < h < w_next w')%nat ->
     w_db w' = apply_writes (attempt_writes (w_next wd) h r (outcome_at handler h)) (w_db wd) ->
     attempt_counted (outcome_at handler h) (w_metrics wd) (w_metrics w') -> Q (Ok tt, true) w') ->
  wp (run_and_persist w t handler) o Q wd.
Proof.
  intros Hidle Hh HQ. unfold run_and_persist, run_timed.
  wp_step. apply (wp_tick ev_now); [done..|]. intros w1 Hi1 Hd1 Hm1 Hn1.
  wp_step. apply (wp_tick ev_pick); [done..|]. intros w2 Hi2 Hd2 Hm2 Hn2.
  wp_step. apply (wp_heartbeats _ _ r); [done|by rewrite Hd2, Hd1|].
  intros w3 r' Hi3 Hb Ho Hd3 Hm3 Hn3. rewrite Hd2, Hd1 in Hd3.
  do 2 wp_step. apply (wp_tick (fun e => outcome_error (handler (t_Payload t) e))); [done..|].
  intros w4 Hi4 Hd4 Hm4 Hn4. set (h := w_next w3) in *.
  wp_step. apply (wp_tick ev_now); [done..|]. intros w5 Hi5 Hd5 Hm5 Hn5.
  wp_step. apply wp_metric; [done|]. intros w6 Hi6 Hd6 Hm6 Hn6. wp_step. wp_step.
  assert (w_db w6 = apply_writes [PutTask r'] (w_db wd)) as Hdb by congruence.
  apply held_row_Some in Hh as [Hr _]. pose proof (Inv_id _ _ _ (proj2 Hidle) Hr) as Hid.
  assert (r_id r' = id) as Hid' by (by rewrite (beaten_id _ _ Hb)).
  apply (wp_persist w6 (w_next wd) h r r'); [done..|rewrite Hdb, <- Hid'; apply lookup_put|done|done|lia|].
  intros w7 Hi7 Hd7 Hm7 Hn7. wp_step. apply (HQ w7 h); [done|lia| |].
  - rewrite Hd7, Hdb. apply attempt_overwrites. by rewrite Hid'.
  - revert Hm7. unfold attempt_counted. rewrite Hm6, Hm5, Hm4, Hm3, Hm2, Hm1. done.
Qed.

Lemma wp_execute handler wd r Q :
  idle wd -> held_row (w_db wd) id me = Some r -> Get (t_Type t) (registry w) = Some handler ->
  (forall w' h, idle w' -> (w_next wd < h < w_next w')%nat ->
     w_db w' = apply_writes (attempt_writes (w_next wd) h r (outcome_at handler h)) (w_db wd) ->
     attempt_counted (outcome_at handler h) (w_metrics wd) (w_metrics w') -> Q (Ok tt) w') ->
  wp (execute w t) o Q wd.
Proof.
  intros Hidle Hh Hget HQ. unfold execute. rewrite Hget.
  pose proof (held_row_Some _ _ _ _ Hh) as [Hr _]. pose proof (Inv_id _ _ _ (proj2 Hidle) Hr) as Hid.
  wp_step. apply wp_metric; [done|]. intros w1 Hi1 Hd1 Hm1 Hn1.
  wp_step. eapply (wp_run_and_persist handler w1 r); [done|by rewrite Hd1|].
  intros w2 h Hi2 Hh2 Hd2 Hm2. rewrite Hn1 in *. rewrite Hd1 in Hd2.
  wp_step. apply wp_metric; [done|]. intros w3 Hi3 Hd3 Hm3 Hn3.
  wp_step. apply (wp_tick ev_pick); [done..|]. intros w4 Hi4 Hd4 Hm4 Hn4.
  wp_step. apply wp_heartbeats_lost; [done|rewrite Hd4, Hd3, Hd2; by apply attempt_releases|].
  intros b5 w5 Hi5 Hd5 Hm5 Hn5. wp_step.
  apply (HQ w5 h); [done|lia|congruence|].
  revert Hm2. unfold attempt_counted. rewrite Hm5, Hm4, Hm3, Hm1. simpl. lia.
Qed.
End execute.

(** A context that is never cancelled. *)
Definition background : Ctx := fun _ => false.

(** ** Counters of the loop *)

(** [m] leaves what [f] reads of the metrics as it is, whatever happens. *)
Definition keeps {X A} (f : Metrics -> X) (m : M A) : Prop :=
  forall o w, f (w_metrics (m o w).2) = f (w_metrics w).

Section keeps.
Context {X : Type} (f : Metrics -> X).

Lemma keeps_bind {A B} (m : M A) (k : A -> M B) :
  keeps f m -> (forall a, keeps f (k a)) -> keeps f (bind m k).
Proof.
  intros Hm Hk o w. unfold bind. specialize (Hm o w). destruct (m o w) as [a w']. simpl in *.
  by rewrite Hk.
Qed.
Lemma keeps_ret {A} (a : A) : keeps f (ret a).
Proof. done. Qed.
Lemma keeps_tick {A} (g : Event -> A) : keeps f (fun o w => (g (o (w_next w)), tick o w)).
Proof. done. Qed.
Lemma keeps_Begin : keeps f Begin.
Proof. intros o w. unfold Begin. by destruct (ev_fault _). Qed.
Lemma keeps_Commit : keeps f Commit.
Proof. intros o w. unfold Commit. by repeat case_match. Qed.
Lemma keeps_tx_exec {A} (s : Stmt A) : keeps f (tx_exec s).
Proof. intros o w. by rewrite tx_exec_metrics. Qed.
Lemma keeps_db_exec {A} (s : Stmt A) : keeps f (db_exec s).
Proof. intros o w. unfold db_exec. by repeat case_match. Qed.
Lemma keeps_defer {A} (m : M A) : keeps f m -> keeps f (defer_rollback m).
Proof. intros Hm o w. unfold defer_rollback. specialize (Hm o w). by destruct (m o w). Qed.
Lemma keeps_add g : (forall met, f (g met) = f met) -> keeps f (add_metric g).
Proof. intros Hg o w. simpl. by rewrite Hg. Qed.
End keeps.

Ltac keep :=
  repeat lazymatch goal with
  | |- keeps _ (bind _ _) => apply keeps_bind; [|intros ?]
  | |- keeps _ (try _ _) => unfold try at 1
  | |- keeps _ (try_wrap _ _ _) => unfold try_wrap at 1
  | |- keeps _ (one_row _) => unfold one_row at 1
  | |- keeps _ (defer_rollback _) => apply keeps_defer
  | |- keeps _ (ret _) => apply keeps_ret
  | |- keeps _ (tx_exec _) => apply keeps_tx_exec
  | |- keeps _ (db_exec _) => apply keeps_db_exec
  | |- keeps _ (insertLog _ _ _) => apply keeps_tx_exec
  | |- keeps _ Begin => apply keeps_Begin
  | |- keeps _ Commit => apply keeps_Commit
  | |- keeps _ time_Now => apply keeps_tick
  | |- keeps _ rand_bits => apply keeps_tick
  | |- keeps _ ticks => apply keeps_tick
  | |- keeps _ (add_metric _) => apply keeps_add; intros ?; reflexivity
  | |- keeps _ (match ?x with _ => _ end) => destruct x
  end.

(** What the loop itself counts. *)
Definition loop_counters (m : Metrics) : Z * Z := (ClaimErrorsTotal m, WorkersActive m).
Definition inflight_and_loop (m : Metrics) : Z * (Z * Z) := (WorkersInflight m, loop_counters m).

Section counters.
Context (w : Worker).

Lemma Claim_keeps : keeps inflight_and_loop (Claim (workerID w)).
Proof. unfold Claim. keep. Qed.

Lemma Heartbeat_keeps id : keeps inflight_and_loop (Heartbeat id (workerID w)).
Proof. unfold Heartbeat. keep. Qed.

Lemma MarkDead_keeps id e reason : keeps inflight_and_loop (MarkDead id (workerID w) e reason).
Proof. unfold MarkDead. keep. Qed.

Lemma MarkPending_keeps t e next : keeps inflight_and_loop (MarkPending t (workerID w) e next).
Proof. unfold MarkPending. keep. Qed.

Lemma MarkCompleted_keeps id d : keeps inflight_and_loop (MarkCompleted id (workerID w) d).
Proof. unfold MarkCompleted. keep. Qed.

Lemma beat_keeps t : keeps inflight_and_loop (beat w t).
Proof. apply keeps_bind; [apply Heartbeat_keeps|intros ?]. keep. Qed.

Lemma heartbeats_keeps t n b : keeps inflight_and_loop (heartbeats w t n b).
Proof.
  revert b. induction n as [|n IH]; intros b; cbn [heartbeats]; [by keep|]. destruct b; [|by keep].
  apply keeps_bind; [apply beat_keeps|intros b; apply IH].
Qed.

Lemma handleFailure_keeps t e : keeps inflight_and_loop (handleFailure w t e).
Proof.
  unfold handleFailure. apply keeps_bind; [|intros; keep].
  destruct (_ <=? _); [apply MarkDead_keeps|]. keep. apply MarkPending_keeps.
Qed.

Lemma run_timed_keeps t h start : keeps inflight_and_loop (run_timed t h start).
Proof. unfold run_timed. apply keeps_bind; [done|intros ?]. keep. Qed.

Lemma persist_keeps t start err : keeps inflight_and_loop (persist w t start err).
Proof.
  destruct err as [e|]; cbn [persist]; [apply handleFailure_keeps|].
  apply keeps_bind; [keep|intros ?]. apply keeps_bind; [apply MarkCompleted_keeps|intros ?]. keep.
Qed.

Lemma no_handler_keeps t : keeps inflight_and_loop (no_handler w t).
Proof. apply keeps_bind; [apply MarkDead_keeps|intros ?]. keep. Qed.

Lemma run_and_persist_keeps t h : keeps inflight_and_loop (run_and_persist w t h).
Proof.
  unfold run_and_persist. apply keeps_bind; [keep|intros ?]. apply keeps_bind; [keep|intros ?].
  apply keeps_bind; [apply heartbeats_keeps|intros ?]. apply keeps_bind; [apply run_timed_keeps|intros ?].
  apply keeps_bind; [apply persist_keeps|intros ?; keep].
Qed.

(** The in-flight gauge is balanced however the attempt ends. *)
Lemma execute_keeps t : keeps inflight_and_loop (execute w t).
Proof.
  unfold execute. destruct (Get _ _) as [h|].
  - assert (forall b r, keeps inflight_and_loop (after <- ticks; _ <- heartbeats w t after b; ret (r : res unit))) as Hend.
    { intros b r. apply keeps_bind; [keep|intros ?]. apply keeps_bind; [apply heartbeats_keeps|intros ?]. keep. }
    intros o wd. unfold bind at 1, add_metric at 1. set (w1 := mkWorld _ _ _ _).
    pose proof (run_and_persist_keeps t h o w1) as Hk. unfold bind at 1.
    destruct (run_and_persist w t h o w1) as [r w2]. unfold bind at 1, add_metric at 1. rewrite Hend.
    unfold inflight_and_loop, loop_counters in *. simpl in *. injection Hk as -> -> ->. simpl. f_equal. lia.
  - apply no_handler_keeps.
Qed.

(** How many claims failed in these rounds. *)
Definition failed_claims (rs : list Round) : Z :=
  Z.of_nat (length (List.filter (fun r => match r with ClaimFailed _ _ => true | _ => false end) rs)).

(** A warning is logged for the first failure of each outage only. *)
Fixpoint warned_once (failing : bool) (rs : list Round) : Prop :=
  match rs with
  | [] => True
  | ClaimFailed _ logged :: rs' => logged = negb failing /\ warned_once true rs'
  | _ :: rs' => warned_once false rs'
  end.

Lemma keeps_loop_counters {A} (m : M A) : keeps inflight_and_loop m -> keeps loop_counters m.
Proof. intros H o wd. exact (f_equal snd (H o wd)). Qed.

Lemma claim_keeps_gauges : keeps inflight_and_loop (claim w).
Proof. unfold claim. apply keeps_bind; [apply Claim_keeps|intros ?]. keep. Qed.

Lemma claim_keeps : keeps loop_counters (claim w).
Proof. apply keeps_loop_counters, claim_keeps_gauges. Qed.

Lemma loop_counts ctx fuel failing o wd :
  let r := (loop w ctx fuel failing o wd).1.2 in
  let met' := w_metrics (loop w ctx fuel failing o wd).2 in
  loop_counters met' =
    (ClaimErrorsTotal (w_metrics wd) + failed_claims r, WorkersActive (w_metrics wd)) /\
  warned_once failing r.
Proof.
  revert failing wd. induction fuel as [|fuel IH]; intros failing wd; cbn [loop]; cbv zeta in *.
  { unfold loop_counters, failed_claims. simpl. split; [f_equal; lia|done]. }
  pose proof (claim_keeps o wd) as Hc. unfold bind. destruct (claim w o wd) as [[t|e] w1]; cbn [fst snd] in *.
  - pose proof (keeps_loop_counters _ (execute_keeps t) o w1) as He.
    destruct (execute w t o w1) as [r w2]. specialize (IH false w2). cbn [fst snd] in *.
    destruct (loop w ctx fuel false o w2) as [[b rs] w3]. cbn [fst snd ret] in *. destruct IH as [-> IHw].
    unfold loop_counters in *. split; [|done].
    change (failed_claims (Executed t r :: rs)) with (failed_claims rs). congruence.
  - unfold ctx_Err, select_tick. destruct (ctx (w_next w1)); cbn [fst snd ret].
    { unfold failed_claims. simpl. split; [|done]. rewrite Hc. unfold loop_counters. f_equal. lia. }
    assert (forall rs, failed_claims (NoTask :: rs) = failed_claims rs) as Hno by done.
    assert (forall e l rs, failed_claims (ClaimFailed e l :: rs) = 1 + failed_claims rs) as Hyes
      by (intros; unfold failed_claims; cbn [List.filter length]; lia).
    unfold loop_counters in *. injection Hc as Hc1 Hc2. unfold claim_error, bind.
    destruct (errors_Is e ErrTaskNotAvailable); cbn [negb fst snd ret add_metric].
    + destruct (ctx _ && _); cbn [fst snd ret]; [split; [|done]; rewrite Hno; simpl; unfold failed_claims; simpl; f_equal; lia|].
      specialize (IH false (tick o w1)). destruct (loop w ctx fuel false o (tick o w1)) as [[b rs] w3].
      cbn [fst snd ret] in *. destruct IH as [-> IHw]. split; [|done]. rewrite Hno. simpl. f_equal; congruence.
    + set (w2 := mkWorld _ _ _ _).
      destruct (ctx _ && _); cbn [fst snd ret]; [split; [|done]; rewrite Hyes; unfold failed_claims; simpl; f_equal; lia|].
      specialize (IH true (tick o w2)). destruct (loop w ctx fuel true o (tick o w2)) as [[b rs] w3].
      cbn [fst snd ret] in *. destruct IH as [-> IHw]. split; [|done]. rewrite Hyes. simpl. f_equal; lia.
Qed.
End counters.

(** ** Settings and the pool *)

Lemma or_default_pos def x : 0 < def -> 0 < or_default def x.
Proof. intros H. unfold or_default. destruct (Z.leb_spec x 0); lia. Qed.

Lemma or_default_id def x : 0 < x -> or_default def x = x.
Proof. intros H. unfold or_default. destruct (Z.leb_spec x 0); lia. Qed.

Lemma or_default_le def x b : def <= b -> x <= b -> or_default def x <= b.
Proof. intros. unfold or_default. destruct (x <=? 0); lia. Qed.

Lemma normalize_backoff s :
  0 < BaseBackoff (normalize s) <= MaxBackoff (normalize s).
Proof.
  unfold normalize. cbn [BaseBackoff MaxBackoff].
  pose proof (or_default_pos (10 * Second) (BaseBackoff s) eq_refl).
  pose proof (or_default_pos (5 * Minute) (MaxBackoff s) eq_refl).
  destruct (Z.ltb_spec (or_default (5 * Minute) (MaxBackoff s)) (or_default (10 * Second) (BaseBackoff s))); lia.
Qed.

(** Settings that need no correction. *)
Definition sane (s : Settings) : Prop :=
  WorkerPrefix s <> EmptyString /\ 0 < PollInterval s /\ 0 < Concurrency s /\ 0 < HeartbeatInterval s /\
  0 < HandlerTimeout s /\ 0 < BaseBackoff s <= MaxBackoff s /\ 0 < ReaperInterval s /\ 0 < StaleThreshold s.

Lemma normalize_sane s : sane (normalize s).
Proof.
  pose proof (normalize_backoff s). unfold sane. split_and!; try lia;
    try (unfold normalize; cbn [PollInterval Concurrency HeartbeatInterval HandlerTimeout ReaperInterval
      StaleThreshold]; by apply or_default_pos).
  unfold normalize. cbn [WorkerPrefix]. by case_bool_decide.
Qed.

Lemma sane_normalize s : sane s -> normalize s = s.
Proof.
  intros (Hp & H1 & H2 & H3 & H4 & H5 & H6 & H7). unfold normalize.
  rewrite !or_default_id by lia. rewrite bool_decide_false by done.
  destruct (Z.ltb_spec (MaxBackoff s) (BaseBackoff s)); [lia|by destruct s].
Qed.

Lemma itoa_inj : Inj (=) (=) itoa.
Proof. intros x y H. by apply (inj pretty). Qed.

Lemma worker_name_inj prefix : Inj (=) (=) (worker_name prefix).
Proof.
  intros i j H. unfold worker_name in H. do 2 apply (inj (String.append _)) in H.
  apply itoa_inj in H. lia.
Qed.

(** ** Theorems *)

(** Whatever fails and whatever its handlers do, a worker only takes steps
    of the lifecycle in which a task is requeued with attempts left, as long as
    the other sessions do the same and take no lock under its name; so the
    attempt counter of a task never exceeds max(1, max_retries). *)
Theorem worker_respects_budget w ctx fuel o wd :
  @env_ok strict_retry o -> env_foreign (workerID w) o -> w_tx wd = None -> Inv (w_db wd) ->
  Budget (w_db wd) ->
  let db' := w_db (Start w ctx fuel o wd).2 in
  rtc (@db_step strict_retry) (w_db wd) db' /\ Budget db'.
Proof.
  intros He Hf Htx HI Hb db'.
  destruct (Start_triple w ctx fuel o wd He Hf Htx HI I) as (H & _ & _).
  split; [done|by eapply db_steps_budget].
Qed.

(** What the worker relies on is what the other processes give: any
    sequence of store calls that locks under other names (clients, reapers,
    other workers) never makes the worker the holder of a task it did not
    already hold in that state. *)
Theorem other_names_keep_locks {hasher : PayloadHasher} me ops o wd id r :
  env_ok o -> env_foreign me o -> w_tx wd = None -> Inv (w_db wd) ->
  Forall (fun op => lock_name op <> Some me) ops ->
  held_row (w_db (run_ops ops o wd).2) id me = Some r -> held_row (w_db wd) id me = Some r.
Proof. intros He Hf Htx HI Hops. by apply (run_ops_foreign me ops Hops o wd). Qed.

(** The delay before a retry. *)
Section backoff.
Context (reg : MapRegistry) (s : Settings) (name : string).
Local Abbreviation p := (NewWorkerPool reg s).

(** C18: For a pool with any settings (of less than about 104 days) the
    back-off of every attempt is between zero and the smaller of the maximum
    and base * 2^(attempts-1), computed in float64 and truncated. *)
Theorem backoff_bounded bits attempts :
  BaseBackoff s <= 2 ^ 53 -> MaxBackoff s <= 2 ^ 53 ->
  0 <= computeBackoff (newWorker p name) bits attempts <=
    Z.min (MaxBackoff (p_settings p)) (BaseBackoff (p_settings p) * 2 ^ Z.max (attempts - 1) 0).
Proof.
  intros Hb Hm. pose proof (normalize_backoff s) as Hn.
  assert (MaxBackoff (normalize s) <= 2 ^ 53) by (by apply or_default_le).
  apply computeBackoff_bound; cbn [newWorker baseBackoff maxBackoff p_settings NewWorkerPool]; lia.
Qed.
End backoff.

(** C19: One attempt at a task the worker holds, undisturbed, ends in exactly one
    way, however many heartbeats fall before and after. The handler runs once, at
    an event [h] of the attempt: when it returns nil the task is COMPLETED;
    otherwise (an error or a panic) it is DEAD with a dead letter when the
    attempts are used up, and PENDING again when they are not, due after the
    back-off from the clock read after the handler's run. Row, log, dead letter
    and each counter are exactly those of that outcome, and the in-flight gauge is
    back where it was. *)
Theorem attempt_outcome w t o handler wd r :
  calm o -> idle wd -> held_row (w_db wd) (t_ID t) (workerID w) = Some r ->
  Get (t_Type t) (registry w) = Some handler ->
  (execute w t o wd).1 = Ok tt /\
  exists h, let err := outcome_error (handler (t_Payload t) (o h)) in
    (w_next wd < h < w_next (execute w t o wd).2)%nat /\
    w_db (execute w t o wd).2 = apply_writes (attempt_writes w t o (w_next wd) h r err) (w_db wd) /\
    attempt_counted t err (w_metrics wd) (w_metrics (execute w t o wd).2).
Proof.
  intros Hcalm Hidle Hh Hget.
  apply (wp_execute w t o Hcalm handler wd r (fun res w' => res = Ok tt /\
    exists h, let err := outcome_error (handler (t_Payload t) (o h)) in
      (w_next wd < h < w_next w')%nat /\
      w_db w' = apply_writes (attempt_writes w t o (w_next wd) h r err) (w_db wd) /\
      attempt_counted t err (w_metrics wd) (w_metrics w'))); try done.
  intros w' h _ H1 H2 H3. split; [done|]. by exists h.
Qed.

(** The loop's bookkeeping, for every oracle, context and number of rounds:
    each failed claim is counted once, a warning is logged for the first
    failure of each outage only, and the active gauge is up by one exactly while
    the loop has not returned. *)
Theorem start_counts w ctx fuel o wd :
  let '((stopped, rounds), w') := Start w ctx fuel o wd in
  ClaimErrorsTotal (w_metrics w') = ClaimErrorsTotal (w_metrics wd) + failed_claims rounds /\
  warned_once false rounds /\
  WorkersActive (w_metrics w') = WorkersActive (w_metrics wd) + (if stopped then 0 else 1).
Proof.
  unfold Start, bind, add_metric, ret. set (w1 := mkWorld _ _ _ _).
  pose proof (loop_counts w ctx fuel false o w1) as H. cbv zeta in H.
  destruct (loop w ctx fuel false o w1) as [[stopped rounds] w2]. cbn [fst snd] in *.
  destruct H as [Hc Hw]. unfold loop_counters in Hc. injection Hc as Hc1 Hc2.
  destruct stopped; simpl in *; split_and!; try done; lia.
Qed.

Lemma pool_names reg s : NoDup (map workerID (p_workers (pool_Start (NewWorkerPool reg s)))).
Proof.
  unfold pool_Start, NewWorkerPool. cbn [p_started p_settings p_workers p_registry]. rewrite map_map.
  cbn [newWorker workerID]. apply NoDup_fmap_2; [apply worker_name_inj|apply NoDup_seq].
Qed.

(** A started pool has as many workers as its (normalized) concurrency, at
    least one, all with different names, and runs on sane settings; starting it
    again changes nothing. *)
Theorem pool_start_once reg s :
  let p := pool_Start (NewWorkerPool reg s) in
  NoDup (map workerID (p_workers p)) /\
  Z.of_nat (length (p_workers p)) = Concurrency (p_settings p) /\ (1 <= length (p_workers p))%nat /\
  sane (p_settings p) /\ pool_Start p = p.
Proof.
  intros p. split; [apply pool_names|]. pose proof (normalize_sane s) as Hs.
  assert (0 < Concurrency (normalize s)) as Hc by apply Hs.
  unfold p, pool_Start, NewWorkerPool. cbn [p_started p_settings p_workers p_registry].
  rewrite length_map, length_seq. split_and!; [lia|lia|done|done].
Qed.

(** ** Two processes under one name *)

(** The name is all the ownership test looks at. Process A claims a task with a
    budget of two attempts and stalls; the reaper requeues it; process B, whose
    first worker has the same default name, claims it; then A's handler fails. *)
Definition default_settings : Settings := mkSettings EmptyString 0 0 0 0 0 0 0 0.
Definition fails : HandlerFunc := fun _ _ => Returned (Some (NewError "boom")).
Definition demo_registry : MapRegistry := Add "echo" fails (NewRegistry None).
Definition first_worker : Worker :=
  newWorker (NewWorkerPool demo_registry default_settings)
    (worker_name (WorkerPrefix (normalize default_settings)) 0).

Definition shared_name_run : M (list (res TaskRow)) :=
  _ <- @Create demo_hasher (demo_task "echo" None 2);
  a <- claim first_worker;
  _ <- RequeueStaleRunning 1 "r";
  b <- claim first_worker;
  _ <- match a with Ok t => handleFailure first_worker t (NewError "boom") | Err e => ret (Err e) end;
  c <- claim first_worker;
  ret [a; b; c].

(** Two worker processes that share a name (the default prefix numbers
    workers from 1 in every process) defeat the ownership test: a task with
    max_retries 2 is given out a third time, while B still runs it. *)
Theorem shared_name_exceeds_budget :
  exists t1 t2 t3,
    (shared_name_run demo_oracle (world0 empty_db)).1 = [Ok t1; Ok t2; Ok t3] /\
    t_ID t1 = t_ID t3 /\ t_ID t2 = t_ID t3 /\ t_MaxRetries t3 = 2 /\
    t_Attempts t1 = 1 /\ t_Attempts t2 = 2 /\ t_Attempts t3 = 3.
Proof. eexists _, _, _. split; [vm_compute; reflexivity|]. by vm_compute. Qed.

(** ** Concrete runs *)

Lemma demo_oracle_foreign me : env_foreign me demo_oracle.
Proof. by intros n db id r H. Qed.

Lemma demo_oracle_env_strict : @env_ok strict_retry demo_oracle.
Proof. intros n db. apply rtc_refl. Qed.

#[local] Abbreviation waiting_world :=
  (@run_ops demo_hasher [OpCreate (demo_task "echo" None 2)] demo_oracle (world0 empty_db)).2.
Definition waiting_row : Row :=
  mkRow 2 None "echo" "{}" "{}" PENDING 0 0 2 0 None None None None None 0 0.

Lemma waiting_world_idle : idle waiting_world.
Proof. split; [reflexivity|apply run_ops_Inv, demo_oracle_env_ok]. Qed.

Lemma waiting_world_tasks : tasks (w_db waiting_world) = {[2%N := waiting_row]}.
Proof. vm_compute. reflexivity. Qed.

Lemma waiting_world_budget : Budget (w_db waiting_world).
Proof.
  intros id r. rewrite waiting_world_tasks. intros [_ <-]%lookup_singleton_Some.
  unfold within_budget, budget. simpl. lia.
Qed.

Lemma worker_respects_budget_witness :
  Budget (w_db (Start first_worker background 5 demo_oracle waiting_world).2).
Proof.
  exact (proj2 (worker_respects_budget first_worker background 5 demo_oracle waiting_world
    demo_oracle_env_strict (demo_oracle_foreign _) (proj1 waiting_world_idle) (proj2 waiting_world_idle)
    waiting_world_budget)).
Defined.

Lemma other_names_keep_locks_witness :
  held_row (w_db (@run_ops demo_hasher [OpClaim "b-1"; OpRequeueStaleRunning 1 "r"] demo_oracle waiting_world).2)
    2 "a-1" = None.
Proof.
  destruct (held_row (w_db (@run_ops demo_hasher [OpClaim "b-1"; OpRequeueStaleRunning 1 "r"] demo_oracle
    waiting_world).2) 2 "a-1") as [r|] eqn:H; [|reflexivity].
  apply (@other_names_keep_locks demo_hasher "a-1" [OpClaim "b-1"; OpRequeueStaleRunning 1 "r"] demo_oracle
    waiting_world 2%N r demo_oracle_env_ok (demo_oracle_foreign _) (proj1 waiting_world_idle)
    (proj2 waiting_world_idle)) in H; [|by repeat constructor].
  unfold held_row in H. rewrite waiting_world_tasks in H. by simpl in H.
Defined.

Lemma backoff_bounded_witness :
  0 <= computeBackoff first_worker 4503599627370496 3 <= 40 * Second.
Proof.
  exact (backoff_bounded demo_registry default_settings
    (worker_name (WorkerPrefix (normalize default_settings)) 0) 4503599627370496 3
    ltac:(simpl; lia) ltac:(simpl; lia)).
Defined.

#[local] Abbreviation claimed_world :=
  (claim first_worker demo_oracle waiting_world).2.
Definition claimed_row : Row := set_claim (workerID first_worker) (3 * Second) waiting_row.

Lemma claimed_world_held : held_row (w_db claimed_world) 2 (workerID first_worker) = Some claimed_row.
Proof. vm_compute. reflexivity. Qed.

Lemma claimed_world_idle : idle claimed_world.
Proof.
  split; [reflexivity|].
  destruct (claim_triple first_worker demo_oracle waiting_world demo_oracle_env_strict (demo_oracle_foreign _)
    (proj1 waiting_world_idle) (proj2 waiting_world_idle) I) as (H & _).
  eapply (@db_steps_Inv strict_retry); [exact H|apply waiting_world_idle].
Qed.

(** The first of two attempts fails: the task is due again after a back-off. *)
Lemma attempt_outcome_witness :
  (execute first_worker (scan_claim claimed_row) demo_oracle claimed_world).1 = Ok tt /\
  exists h, tasks (w_db (execute first_worker (scan_claim claimed_row) demo_oracle claimed_world).2) !! 2%N =
    Some (left_row PENDING (ev_now (demo_oracle (h + 3)%nat) +
      computeBackoff first_worker (ev_rand (demo_oracle (h + 2)%nat)) 1) None (Some "boom") (ev_now (demo_oracle (h + 4)%nat))
      claimed_row).
Proof.
  destruct (attempt_outcome first_worker (scan_claim claimed_row) demo_oracle fails
    claimed_world claimed_row demo_oracle_calm claimed_world_idle claimed_world_held eq_refl)
    as (H1 & h & _ & H2 & _).
  split; [exact H1|]. exists h. rewrite H2. cbn [apply_writes attempt_writes outcome_error fails].
  change (last_attempt (scan_claim claimed_row)) with false. cbn [apply_writes apply_write tasks].
  apply lookup_insert_eq.
Defined.
