(* ===== verification/Progress.v ===== *)
(** Progress: one polling loop works a whole queue off.

    A worker that is alone with the database, and none of whose calls fails,
    brings every PENDING task to its end, whatever its handlers do. The rounds of
    the loop are counted by a measure: each attempt uses up one of the attempts a
    task has left, and between two attempts the clock passes the next run time. *)

From S2P Require Import Prelude Dharatype GoTime Float64 Metrics Pg PgLogic TaskStore Lifecycle.
From S2P Require Import StoreRefine StoreTheorems StoreSpec StoreContracts Client Worker Calls WorkerRefine WorkerTheorems.
Open Scope dhara_scope.

(** The clock passes every instant. *)
Definition clock_advances (o : Oracle) : Prop := forall T, exists N, forall n, (N <= n)%nat -> T <= ev_now (o n).

(** Event numbers in ascending order, the first at least [n]. *)
Fixpoint increasing_from (n : nat) (hs : list nat) : Prop :=
  match hs with [] => True | h :: hs' => (n <= h)%nat /\ increasing_from (S h) hs' end.

Lemma increasing_snoc n hs m h :
  increasing_from n hs -> Forall (fun x => x < m)%nat hs -> (n <= m)%nat -> (m <= h)%nat -> increasing_from n (hs ++ [h]).
Proof.
  revert n. induction hs as [|x hs IH]; intros n Hs Hb Hn Hh; cbn in *; [split; [lia|done]|].
  apply Forall_cons in Hb as [Hx Hb]. split; [lia|]. apply IH; [apply Hs|done|lia|done].
Qed.

(** The attempts the PENDING tasks of a table have left. *)
Definition left_over (r : Row) : nat :=
  if decide (r_status r = PENDING) then Z.to_nat (budget r - r_attempts r) else 0.
Definition work_left (m : gmap uuid Row) : nat := map_fold (fun _ r n => left_over r + n)%nat 0%nat m.

Lemma work_left_delete m id r : m !! id = Some r -> work_left m = (left_over r + work_left (delete id m))%nat.
Proof. intros H. apply (map_fold_delete_L (fun _ r n => left_over r + n)%nat 0%nat id r m); [lia|done]. Qed.

Lemma work_left_insert m id r r' :
  m !! id = Some r -> (left_over r' < left_over r)%nat -> (work_left (<[id := r']> m) < work_left m)%nat.
Proof.
  intros H Hlt. rewrite (work_left_delete m id r H), (work_left_delete (<[id := r']> m) id r'), delete_insert_eq
    by apply lookup_insert_eq. lia.
Qed.

Section progress.
Context (w : Worker) (o : Oracle).
Hypothesis Hcalm : calm o.
Hypothesis Hclock : clock_advances o.
Hypothesis Hunlocked : forall n, ev_locked (o n) = ∅.
Hypothesis Hname : fits 100 (workerID w) = true.

Local Abbreviation me := (workerID w).

(** What the handler of a task's type answers at event [h]. *)
Definition outcome_of (r : Row) (handler : HandlerFunc) (h : nat) : option error :=
  outcome_error (handler (r_payload r) (o h)).

(** A PENDING task [r] and where it ends: nobody handles its type, and it is DEAD
    at once; or its handler ran at some events, failing at all but the last, and
    the last run either succeeded or used up the attempts. *)
Definition settled (start : nat) (r r' : Row) : Prop :=
  identity r' = identity r /\
  match Get (r_type r) (registry w) with
  | None => r_status r' = DEAD /\ r_attempts r' = r_attempts r + 1
  | Some handler => exists hs h, increasing_from start (hs ++ [h]) /\
      Forall (fun n => outcome_of r handler n <> None) hs /\
      r_attempts r' = r_attempts r + Z.of_nat (length hs) + 1 /\ r_attempts r' <= budget r /\
      match outcome_of r handler h with
      | None => r_status r' = COMPLETED
      | Some _ => r_status r' = DEAD /\ r_attempts r' = budget r
      end
  end.

(** A PENDING task on its way, at a state whose next event is [n]. *)
Definition on_its_way (start n : nat) (r r' : Row) : Prop :=
  identity r' = identity r /\ r_status r' = PENDING /\ r_attempts r' < budget r /\
  exists hs, increasing_from start hs /\ Forall (fun x => x < n)%nat hs /\
    r_attempts r' = r_attempts r + Z.of_nat (length hs) /\
    Forall (fun x => forall handler, Get (r_type r) (registry w) = Some handler -> outcome_of r handler x <> None) hs /\
    (Get (r_type r) (registry w) = None -> hs = []).

Definition followed (start n : nat) (r r' : Row) : Prop :=
  if decide (r_status r = PENDING) then on_its_way start n r r' \/ settled start r r' else r' = r.

Definition tasks_followed (start n : nat) (m m' : gmap uuid Row) : Prop :=
  forall id, match m !! id, m' !! id with
             | Some r, Some r' => followed start n r r'
             | None, None => True
             | _, _ => False
             end.

(** PENDING tasks have attempts left, of an [INT] column. *)
Definition workable (m : gmap uuid Row) : Prop :=
  forall id r, m !! id = Some r -> r_status r = PENDING ->
    0 <= r_attempts r < budget r /\ in_int32 (r_max_retries r) = true.

(** Some number of rounds from [wd] leads to [Q]. *)
Definition reaches (wd : World) (Q : DB -> Prop) : Prop :=
  exists fuel, forall failing, wp (loop w background fuel failing) o (fun _ w' => Q (w_db w')) wd.

(** A round that finds nothing to claim. *)
Lemma reaches_no_task wd Q :
  idle wd -> claim_candidate (ev_now (o (w_next wd))) (o (S (w_next wd))) (w_db wd) = None ->
  (forall w', idle w' -> w_db w' = w_db wd -> (w_next wd < w_next w')%nat -> reaches w' Q) ->
  reaches wd Q.
Proof.
  intros Hidle Hc HQ. set (w1 := (Claim me o wd).2).
  destruct (Claim_none o wd Hcalm Hidle me Hc) as (Ha & Hd & Hm & Htx).
  assert (idle w1) as Hi1.
  { eapply (refines_idle (Claim me)); [apply Claim_refines|done..|by apply Claim_none]. }
  set (w2 := tick o w1).
  assert (w_db w2 = w_db wd) as Hd2.
  { unfold w2, tick, pending. simpl. fold w1 in Htx. rewrite Htx, (proj2 Hcalm). done. }
  assert (idle w2) as Hi2 by (split; [exact Htx|rewrite Hd2; apply Hidle]).
  destruct (HQ w2 Hi2 Hd2) as [fuel Hf].
  { pose proof (advancing_Claim me o wd). unfold w2, tick. simpl. fold w1 in H. lia. }
  exists (S fuel). intros failing. cbn [loop]. apply wp_bind. unfold claim.
  apply wp_bind. apply (wp_result _ _ _ _ _ w1 Ha eq_refl). cbn beta iota. autorewrite with dhara. wp_step.
  cbn beta iota. wp_step. apply (wp_result (ctx_Err background) o w1 _ false w1 eq_refl eq_refl). cbn beta iota.
  wp_step. unfold claim_error. autorewrite with dhara. cbn [negb]. wp_step. cbn beta iota zeta.
  wp_step. apply (wp_result (select_tick background) o w1 _ false w2 eq_refl eq_refl). cbn beta iota.
  apply wp_bind. eapply wp_mono; [apply Hf|]. by intros.
Qed.

(** The row after one attempt. *)
Definition attempted (n n' : nat) (r r' : Row) : Prop :=
  identity r' = identity r /\ r_attempts r' = r_attempts r + 1 /\
  match Get (r_type r) (registry w) with
  | None => r_status r' = DEAD
  | Some handler => exists h, (n <= h < n')%nat /\
      r_status r' = match outcome_of r handler h with
                    | None => COMPLETED
                    | Some _ => if r_max_retries r <=? r_attempts r + 1 then DEAD else PENDING
                    end
  end.

Lemma execute_row wd r c Q :
  idle wd -> c = set_claim me (r_updated_at c) r -> tasks (w_db wd) !! r_id r = Some c ->
  (forall w' r', idle w' -> tasks (w_db w') = <[r_id r := r']> (tasks (w_db wd)) ->
     attempted (w_next wd) (w_next w') r r' -> (w_next wd <= w_next w')%nat -> Q w') ->
  wp (execute w (scan_claim c)) o (fun _ w' => Q w') wd.
Proof.
  intros Hidle Hc Hr HQ. set (t := scan_claim c).
  assert (t_ID t = r_id r) as Eid by (unfold t; by rewrite Hc).
  assert (t_Type t = r_type r) as Ety by (unfold t; by rewrite Hc).
  assert (owned_by me c = true) as Ho.
  { rewrite Hc. unfold owned_by, has_status. by rewrite !bool_decide_true. }
  assert (r_id c = r_id r) as Ecid by (by rewrite Hc).
  destruct (Get (t_Type t) (registry w)) as [handler|] eqn:Hget.
  - apply (wp_execute w t o Hcalm handler wd c); [done|unfold held_row; by rewrite Eid, Hr, Ho|done|].
    intros w' h Hi Hh Hd _.
    assert (exists r', tasks (w_db w') = <[r_id r := r']> (tasks (w_db wd)) /\ identity r' = identity r /\
      r_attempts r' = r_attempts r + 1 /\
      r_status r' = match outcome_of r handler h with
                    | None => COMPLETED
                    | Some _ => if r_max_retries r <=? r_attempts r + 1 then DEAD else PENDING
                    end) as (r' & H1 & H2 & H3 & H4).
    { rewrite Hd. unfold attempt_writes, last_attempt.
      replace (outcome_error (handler (t_Payload t) (o h))) with (outcome_of r handler h) by (unfold t; by rewrite Hc).
      replace (t_MaxRetries t) with (r_max_retries r) by (unfold t; by rewrite Hc).
      replace (t_Attempts t) with (r_attempts r + 1) by (unfold t; by rewrite Hc).
      destruct (outcome_of r handler h) as [e|]; [destruct (r_max_retries r <=? r_attempts r + 1)|];
        (eexists; split; [rewrite tasks_apply_put by (by repeat constructor); cbn [left_row r_id]; rewrite Ecid; reflexivity|
          split_and!; [by rewrite Hc|by rewrite Hc|done]]). }
    apply (HQ w' r'); [done|done| |lia]. split_and!; [done|done|]. rewrite <- Ety, Hget. exists h. split; [lia|done].
  - unfold execute. rewrite Hget. unfold no_handler. wp_step.
    eapply wp_op; [apply MarkDead_refines|apply advancing_MarkDead|done..|
      apply MarkDead_owner; [done..|by rewrite Eid|done]|].
    intros w' Hi Hd _ Hn. cbn beta iota. wp_step.
    eapply HQ; [done|rewrite Hd, tasks_apply_put by (by repeat constructor);
      change (r_id (set_dead ?e ?n c)) with (r_id c); rewrite Ecid; reflexivity| |done].
    split_and!; [by rewrite Hc|by rewrite Hc|by rewrite <- Ety, Hget].
Qed.

Lemma attempted_weaken n n1 n' r r' : (n <= n1)%nat -> attempted n1 n' r r' -> attempted n n' r r'.
Proof.
  intros Hn (H1 & H2 & H3). split_and!; [done..|]. destruct (Get _ _) as [handler|]; [|done]. destruct H3 as (h & Hh & H3).
  exists h. split; [lia|done].
Qed.

(** A round that claims [r]. *)
Lemma reaches_attempt wd r Q :
  idle wd -> workable (tasks (w_db wd)) ->
  claim_candidate (ev_now (o (w_next wd))) (o (S (w_next wd))) (w_db wd) = Some r ->
  (forall w' r', idle w' -> tasks (w_db w') = <[r_id r := r']> (tasks (w_db wd)) ->
     attempted (w_next wd) (w_next w') r r' -> (w_next wd <= w_next w')%nat -> reaches w' Q) ->
  reaches wd Q.
Proof.
  intros Hidle Hw Hc HQ. set (now := ev_now (o (w_next wd))) in *. set (c := set_claim me now r).
  destruct (claim_candidate_spec _ _ _ _ Hc) as (Hcl & [id Hr] & _).
  assert (r_status r = PENDING) as Hs.
  { unfold claimable, has_status in Hcl. rewrite !andb_true_iff, bool_decide_eq_true in Hcl. apply Hcl. }
  destruct (Hw id r Hr Hs) as [Ha Hmax].
  assert (in_int32 (r_attempts r + 1) = true) as Hfit.
  { unfold budget in Ha. unfold in_int32, int32_min, int32_max in *. bool_to_prop. apply andb_true_iff. rewrite !Z.leb_le. lia. }
  pose proof (Claim_some o wd Hcalm Hidle me r Hname Hfit Hc) as Hy.
  pose proof (refines_idle _ o wd _ _ _ (Claim_refines me) Hcalm Hidle Hy) as Hi1.
  destruct Hy as (Hok & Hd1 & _ & _). pose proof (advancing_Claim me o wd) as Hn1. set (w1 := (Claim me o wd).2) in *.
  assert (tasks (w_db w1) = <[r_id r := c]> (tasks (w_db wd))) as Ht1.
  { by rewrite Hd1, tasks_apply_put by by repeat constructor. }
  set (w2 := (execute w (scan_claim c) o w1).2).
  assert (reaches w2 Q) as [fuel Hf].
  { apply (execute_row w1 r c (fun w' => reaches w' Q) Hi1 eq_refl); [rewrite Ht1; apply lookup_insert_eq|].
    intros w' r' Hi' Ht' Hat Hn'. apply (HQ w' r'); [done|by rewrite Ht', Ht1, insert_insert_eq| |lia].
    by eapply attempted_weaken. }
  exists (S fuel). intros failing. cbn [loop]. apply wp_bind. unfold claim. apply wp_bind.
  apply (wp_result _ _ _ _ _ w1 Hok eq_refl). cbn beta iota. wp_step. cbn beta iota.
  apply wp_bind. apply (wp_result (execute w (scan_claim c)) o w1 _ _ w2 eq_refl eq_refl).
  apply wp_bind. eapply wp_mono; [apply Hf|]. by intros.
Qed.

(** An attempt takes a task one step further. *)
Lemma attempt_follows start n n' r0 r r' :
  on_its_way start n r0 r -> 0 <= r_attempts r -> (start <= n)%nat -> attempted n n' r r' ->
  on_its_way start n' r0 r' \/ settled start r0 r'.
Proof.
  intros (Hid & _ & Hb & hs & Hinc & Hlt & Ha & Hf & Hnone) H0 Hn (Hid' & Ha' & Hs).
  pose proof Hid as Hfields. unfold identity in Hfields. injection Hfields as _ Ety _ Epl _ _ Emr _. unfold budget in *.
  rewrite Ety in Hs. rewrite Emr in Hs.
  unfold outcome_of in *. rewrite Epl in Hs.
  destruct (Get (r_type r0) (registry w)) as [handler|] eqn:Hget.
  - destruct Hs as (h & Hh & Hs).
    assert (increasing_from start (hs ++ [h])) as Hinc' by (apply (increasing_snoc start hs n h); [done|done|done|lia]).
    assert (Forall (fun x => outcome_error (handler (r_payload r0) (o x)) <> None) hs) as Hf'.
    { eapply Forall_impl; [exact Hf|]. intros x Hx. by apply Hx. }
    destruct (outcome_error (handler (r_payload r0) (o h))) as [e|] eqn:Hout.
    + destruct (Z.leb_spec (r_max_retries r0) (r_attempts r + 1)) as [Hex|Hleft].
      * right. split; [congruence|]. rewrite Hget. exists hs, h. unfold outcome_of, budget. rewrite Hout.
        split_and!; [done..|lia|lia|done|lia].
      * left. split_and!; [congruence|done|unfold budget; lia|]. exists (hs ++ [h]). split_and!; [done| |rewrite length_app; cbn; lia| |intros ?; congruence].
        -- apply Forall_app. split; [eapply Forall_impl; [exact Hlt|]; intros x Hx; cbn in Hx; lia|]. constructor; [lia|done].
        -- apply Forall_app. split; [rewrite Hget; exact Hf|]. constructor; [|done]. intros handler' Hh'. rewrite Hget in Hh'. injection Hh' as <-. unfold outcome_of. by rewrite Hout.
    + right. split; [congruence|]. rewrite Hget. exists hs, h. unfold outcome_of, budget. rewrite Hout.
      split_and!; [done..|lia|lia|done].
  - right. split; [congruence|]. rewrite Hget. rewrite (Hnone eq_refl) in Ha. cbn in Ha. split; [done|lia].
Qed.

Lemma on_its_way_later start n n' r r' : (n <= n')%nat -> on_its_way start n r r' -> on_its_way start n' r r'.
Proof.
  intros Hn (H1 & H2 & H3 & hs & H4 & H5 & H6). split_and!; [done..|]. exists hs. split_and!; [done| |apply H6..].
  eapply Forall_impl; [exact H5|]. intros x Hx. cbn in Hx. lia.
Qed.

Lemma followed_later start n n' m m' : (n <= n')%nat -> tasks_followed start n m m' -> tasks_followed start n' m m'.
Proof.
  intros Hn H id. specialize (H id). destruct (m !! id), (m' !! id); try done. unfold followed in *.
  destruct (decide _); [|done]. destruct H as [H|H]; [left; by eapply on_its_way_later|by right].
Qed.

Lemma followed_attempt start n n' m m' r r' :
  (start <= n <= n')%nat -> tasks_followed start n m m' -> workable m' ->
  m' !! r_id r = Some r -> r_status r = PENDING -> attempted n n' r r' ->
  tasks_followed start n' m (<[r_id r := r']> m') /\ workable (<[r_id r := r']> m') /\
  (work_left (<[r_id r := r']> m') < work_left m')%nat.
Proof.
  intros Hn Hm Hw Hr Hs Hat. destruct (Hw _ _ Hr Hs) as [Ha Hmax].
  pose proof Hat as (Hid & Ha' & Hs'). pose proof Hid as Hfields. unfold identity in Hfields. injection Hfields as _ _ _ _ _ _ Emr _.
  assert (r_status r' = PENDING -> r_attempts r' < budget r') as Hlast.
  { intros Hp. unfold budget in *. rewrite Emr. destruct (Get _ _) as [handler|]; [|congruence].
    destruct Hs' as (h & _ & Hs'). destruct (outcome_of _ _ _); [|congruence].
    destruct (Z.leb_spec (r_max_retries r) (r_attempts r + 1)); [congruence|lia]. }
  split_and!.
  - intros id. destruct (decide (id = r_id r)) as [->|Hne].
    + rewrite lookup_insert_eq. pose proof (Hm (r_id r)) as H. rewrite Hr in H. destruct (m !! r_id r) as [r0|]; [|done].
      unfold followed in *. destruct (decide (r_status r0 = PENDING)) as [Hp|Hp]; [|congruence].
      destruct H as [H|[_ H]]; [eapply attempt_follows; [done|lia|lia|done]|]. exfalso.
      destruct (Get (r_type r0) (registry w)) as [handler|]; [|destruct H; congruence]. destruct H as (hs & h & _ & _ & _ & _ & H).
      destruct (outcome_of r0 handler h); [destruct H|]; congruence.
    + rewrite lookup_insert_ne by done. by apply (followed_later start n n' m m'); [lia|].
  - intros id x. rewrite lookup_insert_Some. intros [[<- <-]|[_ Hx]] Hp; [|by eapply Hw].
    specialize (Hlast Hp). rewrite Emr. split; [lia|done].
  - apply (work_left_insert _ _ r); [done|]. unfold left_over. rewrite (decide_True _ _ Hs).
    destruct (decide (r_status r' = PENDING)) as [Hp|_]; unfold budget in *; [rewrite Emr|]; lia.
Qed.

(** Every task of [m] is where it should be in the end. *)
Definition all_settled (start : nat) (m m' : gmap uuid Row) : Prop :=
  forall id, match m !! id, m' !! id with
             | Some r, Some r' => if decide (r_status r = PENDING) then settled start r r' else r' = r
             | None, None => True
             | _, _ => False
             end.

Lemma reaches_settled start m wd :
  idle wd -> workable (tasks (w_db wd)) -> (start <= w_next wd)%nat ->
  tasks_followed start (w_next wd) m (tasks (w_db wd)) ->
  reaches wd (fun db => all_settled start m (tasks db)).
Proof.
  remember (work_left (tasks (w_db wd))) as k eqn:Hk. revert wd Hk.
  induction k as [k IH] using lt_wf_ind. intros wd Hk Hidle Hw Hst Hm.
  destruct (decide (map_Forall (fun _ r => r_status r <> PENDING) (tasks (w_db wd)))) as [Hall|Hex].
  { exists 0%nat. intros failing id. cbn. specialize (Hm id). destruct (m !! id), (tasks (w_db wd) !! id) eqn:Hr; try done.
    unfold followed in Hm. destruct (decide _); [|done]. destruct Hm as [Hm|Hm]; [|done]. exfalso.
    by apply (Hall id _ Hr), Hm. }
  apply map_not_Forall in Hex as (id & r & Hr & Hs); [|intros; apply _]. apply dec_stable in Hs.
  destruct (Hclock (r_run_at r)) as [N HN]. remember (N - w_next wd)%nat as d eqn:Hd. revert wd Hk Hidle Hw Hst Hm Hr Hd.
  induction d as [d IHd] using lt_wf_ind. intros wd Hk Hidle Hw Hst Hm Hr Hd.
  destruct (claim_candidate (ev_now (o (w_next wd))) (o (S (w_next wd))) (w_db wd)) as [r1|] eqn:Hc.
  - apply (reaches_attempt wd r1); [done..|]. intros w' r' Hi' Ht' Hat Hn'.
    destruct (claim_candidate_spec _ _ _ _ Hc) as (Hcl & [id1 Hr1] & _).
    pose proof (Inv_id _ _ _ (proj2 Hidle) Hr1) as <-.
    assert (r_status r1 = PENDING) as Hs1.
    { unfold claimable, has_status in Hcl. rewrite !andb_true_iff, bool_decide_eq_true in Hcl. apply Hcl. }
    destruct (followed_attempt start (w_next wd) (w_next w') m (tasks (w_db wd)) r1 r') as (H1 & H2 & H3); [done..|].
    rewrite <- Ht' in *. eapply IH; [by rewrite Hk|done..|lia|done].
  - apply reaches_no_task; [done..|]. intros w' Hi' Hd' Hlt.
    assert (w_next wd < N)%nat as HlN.
    { destruct (Nat.lt_ge_cases (w_next wd) N) as [|Hge]; [done|]. specialize (HN _ Hge). exfalso.
      pose proof (proj1 (claim_candidate_None _ _ _) Hc id r Hr) as Hno. unfold claimable, has_status in Hno.
      rewrite Hunlocked, bool_decide_true, (proj2 (Z.leb_le _ _) HN), bool_decide_false in Hno by set_solver. done. }
    apply (IHd (N - w_next w')%nat); [lia|by rewrite Hd'|done|by rewrite Hd'|lia| |by rewrite Hd'|done].
    rewrite Hd'. by apply (followed_later start (w_next wd)); [lia|].
Qed.
End progress.

(** C20: One worker works a queue off. Alone with the database (no other session
    changes or locks a row, no call fails) and with a clock that keeps advancing,
    the polling loop brings every PENDING task of the table to its end, in whatever
    order and with whatever outcomes its handlers have: a task of a type without a
    handler ends DEAD; any other has its handler run once per attempt, in
    ascending order, and ends COMPLETED with the first run that succeeds, or DEAD
    after exactly max(1, max_retries) attempts that all failed. Tasks that are not
    PENDING stay as they are. *)
Theorem waiting_tasks_settle w o wd :
  calm o -> clock_advances o -> (forall n, ev_locked (o n) = ∅) -> fits 100 (workerID w) = true ->
  idle wd -> workable (tasks (w_db wd)) ->
  exists fuel, all_settled w o (w_next wd) (tasks (w_db wd)) (tasks (w_db (loop w background fuel false o wd).2)).
Proof.
  intros Hcalm Hclock Hun Hname Hidle Hw.
  destruct (reaches_settled w o Hcalm Hclock Hun Hname (w_next wd) (tasks (w_db wd)) wd) as [fuel Hf]; [done..| |].
  - intros id. destruct (tasks (w_db wd) !! id) as [r|] eqn:Hr; [|done]. unfold followed.
    destruct (decide (r_status r = PENDING)) as [Hs|_]; [left|done]. destruct (Hw id r Hr Hs) as [Ha _].
    split_and!; [done|done|lia|]. exists []. split_and!; try done; cbn; lia.
  - exists fuel. apply (Hf false).
Qed.

(** ** A queue of three *)

(** One task fails twice, one succeeds, and nobody handles the third. *)
Definition mixed_registry : MapRegistry := Add "ok" (fun _ _ => Returned None) demo_registry.
Definition mixed_worker : Worker := newWorker (NewWorkerPool mixed_registry default_settings) "w-1".
#[local] Abbreviation queued :=
  (@run_ops demo_hasher [OpCreate (demo_task "echo" None 2); OpCreate (demo_task "ok" None 3);
     OpCreate (demo_task "mystery" None 3)] demo_oracle (world0 empty_db)).2.

Lemma demo_oracle_clock : clock_advances demo_oracle.
Proof.
  intros T. exists (Z.to_nat T). intros n Hn. unfold demo_oracle, quiet_event. cbn [ev_now].
  unfold Second, Millisecond, Microsecond. lia.
Qed.

Lemma queued_idle : idle queued.
Proof. split; [reflexivity|apply run_ops_Inv, demo_oracle_env_ok]. Qed.

Lemma queued_workable : workable (tasks (w_db queued)).
Proof.
  assert (map_Forall (fun _ r => 0 <= r_attempts r < budget r /\ in_int32 (r_max_retries r) = true)
    (tasks (w_db queued))) as H by (apply (bool_decide_unpack _); vm_compute; exact I).
  intros id r Hr _. exact (H id r Hr).
Qed.

Definition queued_as (id : uuid) (typ : string) (max_retries : Z) : Prop :=
  exists r, tasks (w_db queued) !! id = Some r /\ r_status r = PENDING /\ r_type r = typ /\
    r_max_retries r = max_retries.

Lemma queued_tasks : queued_as 2 "echo" 2 /\ queued_as 5 "ok" 3 /\ queued_as 8 "mystery" 3.
Proof. split_and!; (eexists; split; [vm_compute; reflexivity|split_and!; reflexivity]). Qed.

Lemma settled_as start m' id typ max_retries :
  queued_as id typ max_retries -> all_settled mixed_worker demo_oracle start (tasks (w_db queued)) m' ->
  exists r r', m' !! id = Some r' /\ r_type r = typ /\ r_max_retries r = max_retries /\
    settled mixed_worker demo_oracle start r r'.
Proof.
  intros (r & Hr & Hs & Ht & Hm) H. specialize (H id). rewrite Hr in H. destruct (m' !! id) as [r'|]; [|done].
  exists r, r'. rewrite decide_True in H by exact Hs. split_and!; done.
Qed.

Lemma waiting_tasks_settle_witness :
  exists fuel r1 r2 r3, let m := tasks (w_db (loop mixed_worker background fuel false demo_oracle queued).2) in
    m !! 2%N = Some r1 /\ r_status r1 = DEAD /\ r_attempts r1 = 2 /\
    m !! 5%N = Some r2 /\ r_status r2 = COMPLETED /\ m !! 8%N = Some r3 /\ r_status r3 = DEAD.
Proof.
  destruct (waiting_tasks_settle mixed_worker demo_oracle queued demo_oracle_calm demo_oracle_clock
    (fun _ => eq_refl) eq_refl queued_idle queued_workable) as [fuel H].
  exists fuel. cbv zeta. revert H. generalize (tasks (w_db (loop mixed_worker background fuel false demo_oracle queued).2)).
  intros m H. destruct queued_tasks as (Q1 & Q2 & Q3).
  destruct (settled_as _ _ _ _ _ Q1 H) as (r1 & r1' & E1 & T1 & M1 & _ & S1).
  destruct (settled_as _ _ _ _ _ Q2 H) as (r2 & r2' & E2 & T2 & M2 & _ & S2).
  destruct (settled_as _ _ _ _ _ Q3 H) as (r3 & r3' & E3 & T3 & M3 & _ & S3).
  rewrite T1 in S1. rewrite T2 in S2. rewrite T3 in S3. cbn in S1, S2, S3.
  destruct S1 as (hs1 & h1 & _ & _ & _ & _ & S1 & A1). destruct S2 as (hs2 & h2 & _ & _ & _ & _ & S2).
  destruct S3 as [S3 _]. unfold budget in A1. rewrite M1 in A1.
  exists r1', r2', r3'. split; [exact E1|]. split; [exact S1|]. split; [exact A1|]. split; [exact E2|].
  split; [exact S2|]. split; [exact E3|exact S3].
Defined.
