(* ===== verification/Shutdown.v ===== *)
(** Shutdown: the worker's loop comes to an end.

    A cancelled context refuses database calls, and [Start] leaves its loop when a
    claim fails under one. Calls are numbered, every round of the loop makes at
    least one, so the number of rounds is bounded by the number of the call at
    which the context is cancelled. *)

From S2P Require Import Prelude Dharatype GoTime Float64 Metrics Pg PgLogic TaskStore.
From S2P Require Import Lifecycle StoreRefine StoreTheorems StoreSpec StoreContracts Client Worker Calls.
From S2P Require Import WorkerRefine WorkerTheorems.
Open Scope dhara_scope.

(** ** Programs that make a call *)

Definition calling {A} (m : M A) : Prop := forall o w, (w_next w < w_next (m o w).2)%nat.

Lemma calling_bind {A B} (m : M A) (k : A -> M B) : calling m -> (forall a, advancing (k a)) -> calling (bind m k).
Proof.
  intros Hm Hk o w. unfold bind. specialize (Hm o w). destruct (m o w) as [a w']. simpl in *.
  specialize (Hk a o w'). lia.
Qed.

Lemma calling_claim w : calling (claim w).
Proof.
  apply calling_bind; [|intros r; advance]. apply calling_bind.
  - intros o wd. unfold Begin. destruct (ev_fault _); simpl; lia.
  - intros r. unfold try_wrap, try, one_row, insertLog. advance.
Qed.

(** ** The loop returns *)

Section Stop.
Context (w : Worker) (o : Oracle) (ctx : Ctx) (N : nat).

(** The context is cancelled from call [N] on, and a claim under a cancelled
    context fails. *)
Hypothesis Hcancel : forall n, (N <= n)%nat -> ctx n = true.
Hypothesis Hrefuse : forall wd, (N <= w_next wd)%nat -> exists e, (claim w o wd).1 = Err e.

Lemma loop_returns fuel failing wd : (N - w_next wd < fuel)%nat ->
  let r := loop w ctx fuel failing o wd in r.1.1 = true /\ (length r.1.2 <= N - w_next wd)%nat.
Proof.
  revert failing wd. induction fuel as [|fuel IH]; intros failing wd Hf; [lia|]. cbn [loop]. cbv zeta in *.
  pose proof (calling_claim w o wd) as Hc. unfold bind. destruct (claim w o wd) as [[t|e] w1] eqn:Hr; cbn [fst snd] in *.
  - assert (w_next wd < N)%nat as HN.
    { destruct (Nat.lt_ge_cases (w_next wd) N) as [|Hge]; [done|]. destruct (Hrefuse wd Hge) as [e He]. by rewrite Hr in He. }
    pose proof (advancing_execute w t o w1) as He. destruct (execute w t o w1) as [x w2]. cbn [snd] in He.
    specialize (IH false w2 ltac:(lia)). destruct (loop w ctx fuel false o w2) as [[b rs] w3]. cbn [fst snd ret] in *.
    destruct IH as [-> IH]. split; [done|]. simpl. lia.
  - unfold ctx_Err, select_tick. destruct (ctx (w_next w1)) eqn:Hx; cbn [fst snd ret]; [split; [done|simpl; lia]|].
    assert (w_next w1 < N)%nat as HN.
    { destruct (Nat.lt_ge_cases (w_next w1) N) as [|Hge]; [done|]. by rewrite Hcancel in Hx. }
    unfold claim_error, bind. destruct (errors_Is e ErrTaskNotAvailable); cbn [negb fst snd ret add_metric].
    + destruct (ctx (S (w_next w1)) && _); cbn [fst snd ret]; [split; [done|simpl; lia]|].
      specialize (IH false (tick o w1)). cbn [tick w_next] in IH. specialize (IH ltac:(lia)).
      destruct (loop w ctx fuel false o (tick o w1)) as [[b rs] w3]. cbn [fst snd ret] in *.
      destruct IH as [-> IH]. split; [done|]. simpl. lia.
    + set (w2 := mkWorld _ _ _ _). destruct (ctx (S (w_next w2)) && _); cbn [fst snd ret]; [split; [done|simpl; lia]|].
      specialize (IH true (tick o w2)). cbn [tick w_next w2] in IH. specialize (IH ltac:(lia)).
      destruct (loop w ctx fuel true o (tick o w2)) as [[b rs] w3]. cbn [fst snd ret] in *.
      destruct IH as [-> IH]. split; [done|]. simpl. lia.
Qed.
End Stop.

(** A worker whose context is cancelled stops: when the context is done from
    call [N] on, and refuses claims from then on, [Start] returns after at most
    as many rounds as calls were left before [N], whatever its handlers and the
    database do; it leaves the gauge of active workers as it found it. *)
Theorem worker_stops w o ctx N fuel wd :
  (forall n, (N <= n)%nat -> ctx n = true) ->
  (forall wd, (N <= w_next wd)%nat -> exists e, (claim w o wd).1 = Err e) ->
  (N - w_next wd < fuel)%nat ->
  let '((stopped, rounds), w') := Start w ctx fuel o wd in
  stopped = true /\ (length rounds <= N - w_next wd)%nat /\
  WorkersActive (w_metrics w') = WorkersActive (w_metrics wd).
Proof.
  intros Hc Hr Hf. unfold Start, bind, add_metric, ret. set (w1 := mkWorld _ _ _ _).
  pose proof (loop_returns w o ctx N Hc Hr fuel false w1 Hf) as [Hs Hl].
  pose proof (loop_counts w ctx fuel false o w1) as [Hm _].
  destruct (loop w ctx fuel false o w1) as [[stopped rounds] w2]. cbn [fst snd] in *. subst stopped.
  split; [done|]. split; [exact Hl|]. unfold loop_counters in Hm. injection Hm as _ Hm. cbn. rewrite Hm. cbn. lia.
Qed.

(** A worker whose context is done after ten calls. *)
Definition refusing : Oracle := fun n =>
  mkEvent (fun db => db) ∅ 0 7 0 0 (if (10 <=? Z.of_nat n) then FailBefore "context canceled" else NoFault).
Definition ten_calls : Ctx := fun n => (10 <=? n)%nat.

Lemma worker_stops_witness :
  let '((stopped, rounds), w') := Start first_worker ten_calls 20 refusing (world0 empty_db) in
  stopped = true /\ (length rounds <= 10)%nat /\ WorkersActive (w_metrics w') = 0.
Proof.
  apply (worker_stops first_worker refusing ten_calls 10 20 (world0 empty_db)).
  - intros n Hn. by apply Nat.leb_le.
  - intros wd Hwd. unfold claim, Claim, try_wrap, bind, Begin.
    assert (ev_fault (refusing (w_next wd)) = FailBefore "context canceled") as ->.
    { unfold refusing. cbn [ev_fault]. by rewrite (proj2 (Z.leb_le _ _)) by lia. }
    by eexists.
  - cbn. lia.
Defined.
