(* ===== verification/PoolTheorems.v ===== *)
(** PoolTheorems: what holds of a pool under every schedule.

    The invariant is proved once per move ([worker_move]) for the worker that
    moves and for the ones that do not: the first is WorkerRefine's guarantee,
    the second that a move under one name never locks under another. *)

From S2P Require Import Prelude Dharatype GoTime Float64 Metrics Pg PgLogic TaskStore Lifecycle.
From S2P Require Import StoreRefine StoreTheorems StoreSpec StoreContracts Client Worker Pool WorkerRefine.
From S2P Require Import WorkerTheorems.
Open Scope dhara_scope.

(** ** Contexts *)

(** A refusal leaves what other sessions do as it is. *)
Lemma env_ok_refuse {policy : RetryPolicy} (c : bool) o : env_ok o -> env_ok (fun n => if c then refuse (o n) else o n).
Proof. intros H n db. by destruct c; apply H. Qed.

Lemma env_foreign_refuse me (c : bool) o :
  env_foreign me o -> env_foreign me (fun n => if c then refuse (o n) else o n).
Proof. intros H n db id r. destruct c; apply H. Qed.

Lemma triple_under_ctx {policy : RetryPolicy} me c {A} P (m : M A) Q : triple me P m Q -> triple me P (under_ctx c m) Q.
Proof. intros H o wd He Hf. by apply H; [apply env_ok_refuse|apply env_foreign_refuse]. Qed.

Lemma foreign_under_ctx {policy : RetryPolicy} me c {A} (m : M A) : foreign me m -> foreign me (under_ctx c m).
Proof. intros H o wd He Hf. by apply H; [apply env_ok_refuse|apply env_foreign_refuse]. Qed.

Lemma refines_under_ctx {policy : RetryPolicy} c {A} (m : M A) : refines m -> refines (under_ctx c m).
Proof. intros H o wd He. by apply H, env_ok_refuse. Qed.

Lemma keeps_under_ctx {X} (f : Metrics -> X) c {A} (m : M A) : keeps f m -> keeps f (under_ctx c m).
Proof. intros H o wd. apply H. Qed.

(** ** The workers that do not move *)

(** The policy matters for the worker that moves only. *)
Lemma task_step_any {policy : RetryPolicy} id v v' : task_step id v v' -> @task_step any_retry id v v'.
Proof.
  destruct 1; [apply ts_same|by apply ts_enqueue|by apply ts_cancel|by apply ts_claim|by apply ts_heartbeat
    |by eapply ts_complete|by eapply ts_retry|by eapply ts_dead|by apply ts_retry_dead|by eapply ts_reap_dead
    |by eapply ts_reap_pending].
Qed.

Lemma db_steps_any {policy : RetryPolicy} db db' : rtc db_step db db' -> rtc (@db_step any_retry) db db'.
Proof.
  induction 1 as [|db db1 db2 [Hs Hk] _ IH]; [apply rtc_refl|]. eapply rtc_l; [|exact IH].
  split; [|done]. intros id. by apply (@task_step_any policy).
Qed.

Lemma env_ok_any {policy : RetryPolicy} o : env_ok o -> @env_ok any_retry o.
Proof. intros H n db. by apply (@db_steps_any policy). Qed.

Section Others.
Context (w : Worker) (me : string).

Lemma foreign_tick {A} (f : Event -> A) : foreign me (fun o wd => (f (o (w_next wd)), tick o wd)).
Proof.
  intros o wd He Hf Htx HI. unfold wp, tick, pending. simpl. rewrite Htx. intros id r. apply Hf.
Qed.

Lemma foreign_metric f : foreign me (add_metric f).
Proof. intros o wd He Hf Htx HI id r Hr. exact Hr. Qed.

(** A piece of code that is foreign and refines the lifecycle. *)
Definition outsider {A} (m : M A) : Prop := foreign me m /\ refines m.

Lemma outsider_bind {A B} (m : M A) (k : A -> M B) :
  outsider m -> (forall a, outsider (k a)) -> outsider (bind m k).
Proof.
  intros [Hm Hr] Hk. split; [apply foreign_bind; [done..|]|apply refines_bind; [done|]]; intros a; apply Hk.
Qed.

Lemma outsider_ret {A} (a : A) : outsider (ret a).
Proof. split; [apply foreign_ret|apply refines_ret]. Qed.

Lemma outsider_tick {A} (f : Event -> A) : outsider (fun o wd => (f (o (w_next wd)), tick o wd)).
Proof.
  split; [apply foreign_tick|]. intros o wd He Htx _. unfold tick, pending. simpl. rewrite Htx.
  split; [apply He|done].
Qed.

Lemma outsider_metric f : outsider (add_metric f).
Proof. split; [apply foreign_metric|]. intros o wd _ Htx _. split; [apply rtc_refl|done]. Qed.

Lemma outsider_under_ctx c {A} (m : M A) : outsider m -> outsider (under_ctx c m).
Proof. intros [H1 H2]. split; [by apply foreign_under_ctx|by apply refines_under_ctx]. Qed.

(** The writes of an outcome release, whatever name they run under. *)
Lemma outsider_MarkCompleted id x d : outsider (MarkCompleted id x d).
Proof. split; [apply MarkCompleted_foreign|apply MarkCompleted_refines]. Qed.

Lemma outsider_MarkDead id x e reason : outsider (MarkDead id x e reason).
Proof. split; [apply MarkDead_foreign|apply MarkDead_refines]. Qed.

Lemma outsider_MarkPending t x e next : outsider (MarkPending t x e next).
Proof. split; [apply MarkPending_foreign|apply MarkPending_refines_any]. Qed.

Lemma outsider_RequeueStaleRunning th x : outsider (RequeueStaleRunning th x).
Proof. split; [apply RequeueStaleRunning_foreign|apply RequeueStaleRunning_refines]. Qed.

Ltac outside :=
  repeat lazymatch goal with
  | |- outsider (ret _) => apply outsider_ret
  | |- outsider (add_metric _) => apply outsider_metric
  | |- outsider (MarkCompleted _ _ _) => apply outsider_MarkCompleted
  | |- outsider (MarkDead _ _ _ _) => apply outsider_MarkDead
  | |- outsider (MarkPending _ _ _ _) => apply outsider_MarkPending
  | |- outsider (RequeueStaleRunning _ _) => apply outsider_RequeueStaleRunning
  | |- outsider time_Now => apply outsider_tick
  | |- outsider rand_bits => apply outsider_tick
  | |- outsider (runTaskHandler ?t ?h) => exact (outsider_tick (fun e => outcome_error (h (t_Payload t) e)))
  | |- outsider (bind _ _) => apply outsider_bind; [|intros ?]
  | |- outsider (match ?x with _ => _ end) => destruct x
  end.

Lemma outsider_persist t start err : outsider (persist w t start err).
Proof. unfold persist, handleFailure. outside. Qed.

Lemma outsider_no_handler t : outsider (no_handler w t).
Proof. unfold no_handler. outside. Qed.

Lemma outsider_run_timed t h start : outsider (run_timed t h start).
Proof. unfold run_timed. outside. Qed.

Lemma outsider_claim_error err : outsider (claim_error err).
Proof. unfold claim_error. outside. Qed.

Lemma outsider_reaper_tick r : outsider (reaper_tick r).
Proof. unfold reaper_tick. outside. Qed.

(** Claims and heartbeats are the calls that lock. *)
Lemma outsider_claim : workerID w <> me -> outsider (claim w).
Proof.
  intros Hne. unfold claim. apply outsider_bind; [|intros; outside].
  split; [by apply Claim_foreign|apply Claim_refines].
Qed.

Lemma outsider_beat t : workerID w <> me -> outsider (beat w t).
Proof.
  intros Hne. unfold beat. apply outsider_bind; [|intros; outside].
  split; [by apply Heartbeat_foreign|apply Heartbeat_refines].
Qed.

Lemma outsider_advance c st : workerID w <> me -> outsider (advance_worker w c st).
Proof.
  intros Hne. destruct st as [|f|f e|f|t|t h s b|t s e b|t b|]; cbn [advance_worker]; unfold exit_worker.
  1,4,8,9: outside.
  - apply outsider_bind; [by apply outsider_under_ctx, outsider_claim|intros; outside].
  - destruct c; [outside|]. apply outsider_bind; [apply outsider_claim_error|intros; outside].
  - destruct (Get _ _); [outside|]. apply outsider_bind; [apply outsider_no_handler|intros; outside].
  - apply outsider_bind; [apply outsider_run_timed|intros; outside].
  - apply outsider_bind; [apply outsider_persist|intros; outside].
Qed.

Lemma outsider_move c a st : workerID w <> me -> outsider (worker_move w c a st).
Proof.
  intros Hne. destruct a; cbn [worker_move]; [by apply outsider_advance|..].
  - destruct st; cbn [wake_worker]; try apply outsider_ret. exact (outsider_tick (fun _ => Claiming claimFailing)).
  - destruct st as [|f|f e|f|t|t h s [] |t s e [] |t [] |]; cbn [beat_worker]; try apply outsider_ret;
      (apply outsider_bind; [by apply outsider_under_ctx, outsider_beat|intros; apply outsider_ret]).
Qed.
End Others.

(** ** The worker that moves *)

(** The task a worker has in hand. *)
Definition task_of (st : WState) : option TaskRow :=
  match st with
  | Claimed t | Handling t _ _ _ | Persisting t _ _ _ | Unwinding t _ => Some t
  | _ => None
  end.

(** Whatever the worker's name still locks of that task is the attempt it was
    given. *)
Definition in_hand (me : string) (st : WState) (db : DB) : Prop :=
  match task_of st with Some t => lock_agrees me t db | None => True end.

#[local] Existing Instance strict_retry.

Section Own.
Context (w : Worker).
Local Abbreviation me := (workerID w).

(** A guarded piece of code that leads to a state with the same task, or none. *)
Lemma triple_piece {A} t (m : M A) (k : A -> WState) :
  guarded me t m -> (forall a, task_of (k a) = Some t \/ task_of (k a) = None) ->
  triple me (lock_agrees me t) (a <- m; ret (k a)) (in_hand me).
Proof.
  intros Hm Hk. eapply triple_bind; [exact Hm|]. intros a. apply triple_ret. intros db Hdb.
  unfold in_hand. by destruct (Hk a) as [-> | ->].
Qed.

Lemma triple_free {A} (m : M A) (k : A -> WState) P :
  refines m -> (forall a, task_of (k a) = None) -> triple me P (a <- m; ret (k a)) (in_hand me).
Proof.
  intros Hm Hk. eapply triple_consequence; [|done|done].
  eapply (triple_bind _ _ (fun _ _ => True)).
  - intros o wd He Hf Htx HI _. by destruct (Hm o wd He Htx HI).
  - intros a. apply triple_ret. intros db _. unfold in_hand. by rewrite Hk.
Qed.

Lemma refines_claim_error err : refines (claim_error err).
Proof.
  unfold claim_error. destruct (negb _); [|apply refines_ret].
  apply refines_bind; [apply refines_add_metric|intros; apply refines_ret].
Qed.

Lemma exit_triple P : triple me P exit_worker (in_hand me).
Proof. apply triple_free; [apply refines_add_metric|done]. Qed.

Lemma stay_triple st : triple me (in_hand me st) (ret st) (in_hand me).
Proof. by apply triple_ret. Qed.

Lemma advance_triple c st : triple me (in_hand me st) (advance_worker w c st) (in_hand me).
Proof.
  destruct st as [|f|f e|f|t|t h s b|t s e b|t b|]; cbn [advance_worker].
  - apply triple_free; [apply refines_add_metric|done].
  - eapply triple_bind; [apply triple_under_ctx, claim_triple|]. intros r. apply triple_ret.
    unfold in_hand. by destruct r.
  - destruct c; [apply exit_triple|]. apply triple_free; [apply refines_claim_error|done].
  - destruct c; [apply exit_triple|apply stay_triple].
  - destruct (Get _ _) as [h|]; [|apply triple_piece; [apply no_handler_guarded|by right]].
    eapply triple_bind; [apply guarded_add_metric|intros ?]. apply triple_piece; [apply guarded_tick|by left].
  - apply triple_piece; [apply run_timed_guarded|by left].
  - apply triple_piece; [apply persist_guarded|by left].
  - apply triple_piece; [apply guarded_add_metric|by right].
  - apply stay_triple.
Qed.

Lemma beat_worker_triple c st : triple me (in_hand me st) (beat_worker w c st) (in_hand me).
Proof.
  destruct st as [|f|f e|f|t|t h s [] |t s e [] |t [] |]; cbn [beat_worker]; try apply stay_triple;
    (apply triple_piece; [apply triple_under_ctx, beat_guarded|by left]).
Qed.

Lemma wake_triple st : triple me (in_hand me st) (wake_worker st) (in_hand me).
Proof.
  destruct st as [|f|f e|f|t|t h s b|t s e b|t b|]; cbn [wake_worker]; try apply stay_triple.
  intros o wd He Hf Htx HI _. destruct (refines_tick (fun _ _ => Claiming f) o wd He Htx HI). by split_and!.
Qed.

Lemma move_triple c a st : triple me (in_hand me st) (worker_move w c a st) (in_hand me).
Proof. destruct a; [apply advance_triple|apply wake_triple|apply beat_worker_triple]. Qed.

End Own.

(** ** The pool's invariant *)

Definition pool_db (s : Pool) : DB := w_db (q_world s).

(** The names of a pool's workers. *)
Definition names_of (s : Pool) : list string := map (fun x => workerID x.1) (q_workers s).

Record pool_ok (s : Pool) : Prop := mkPoolOk {
  ok_tx : w_tx (q_world s) = None;
  ok_inv : Inv (pool_db s);
  ok_names : NoDup (names_of s);
  ok_hand : forall i w st, q_workers s !! i = Some (w, st) -> in_hand (workerID w) st (pool_db s)
}.

(** No other process works under one of these names. *)
Definition env_foreign_all (names : list string) (o : Oracle) : Prop := forall me, me ∈ names -> env_foreign me o.

Lemma in_hand_outside me st db db' :
  (forall id r, held_row db' id me = Some r -> held_row db id me = Some r) -> in_hand me st db -> in_hand me st db'.
Proof. unfold in_hand. intros H. destruct (task_of st); [|done]. intros Hl r Hr. by apply Hl, H. Qed.

Lemma outsider_held me {A} (m : M A) o wd id r :
  outsider me m -> env_ok o -> env_foreign me o -> w_tx wd = None -> Inv (w_db wd) ->
  held_row (w_db (m o wd).2) id me = Some r -> held_row (w_db wd) id me = Some r.
Proof. intros [Hm _] He Hf Htx HI. by apply (Hm o wd (env_ok_any o He) Hf Htx HI). Qed.

Lemma names_insert i w st st' s :
  q_workers s !! i = Some (w, st) -> map (fun x => workerID x.1) (<[i := (w, st')]> (q_workers s)) = names_of s.
Proof.
  intros H. rewrite (list_fmap_insert (fun x : Worker * WState => workerID x.1)). apply list_insert_id.
  change (names_of s !! i = Some (workerID w)). unfold names_of. by rewrite (list_lookup_fmap (fun x : Worker * WState => workerID x.1)), H.
Qed.

Lemma names_distinct s i j w st w' st' :
  NoDup (names_of s) -> q_workers s !! i = Some (w, st) -> q_workers s !! j = Some (w', st') -> i <> j ->
  workerID w <> workerID w'.
Proof.
  intros Hnd Hi Hj Hne Heq. apply Hne. eapply (NoDup_lookup _ i j (workerID w) Hnd);
    unfold names_of; rewrite (list_lookup_fmap (fun x : Worker * WState => workerID x.1)); rewrite ?Hi, ?Hj; simpl; congruence.
Qed.

Lemma name_in s i w st : q_workers s !! i = Some (w, st) -> workerID w ∈ names_of s.
Proof.
  intros H. apply (list_elem_of_lookup_2 _ i). unfold names_of.
  by rewrite (list_lookup_fmap (fun x : Worker * WState => workerID x.1)), H.
Qed.

Section PoolInvariant.
Context (o : Oracle).
Hypothesis He : env_ok o.

(** One step: a step of the lifecycle that keeps the invariant and the names. *)
Definition good_step (s s' : Pool) : Prop :=
  rtc db_step (pool_db s) (pool_db s') /\ pool_ok s' /\ names_of s' = names_of s.

Lemma good_refl s : pool_ok s -> good_step s s.
Proof. intros H. split_and!; [apply rtc_refl|done..]. Qed.

Lemma move_worker_ok i a s : env_foreign_all (names_of s) o -> pool_ok s -> good_step s (move_worker o i a s).
Proof.
  intros Hf [Htx HI Hnd Hh]. unfold move_worker. destruct (q_workers s !! i) as [[w st]|] eqn:Hi;
    [|by apply good_refl].
  pose proof (name_in _ _ _ _ Hi) as Hin. pose proof (names_insert i w st) as Hnames.
  destruct (move_triple w (q_cancelled s) a st o (q_world s) He (Hf _ Hin) Htx HI (Hh _ _ _ Hi)) as (H1 & H2 & H3).
  assert (forall j w' st', q_workers s !! j = Some (w', st') -> i <> j ->
    in_hand (workerID w') st' (w_db (worker_move w (q_cancelled s) a st o (q_world s)).2)) as Ho.
  { intros j w' st' Hj Hne. eapply in_hand_outside; [|by eapply Hh]. intros id r.
    apply outsider_held; try done; [|by apply Hf; eapply name_in].
    apply outsider_move. by apply (names_distinct s i j _ st _ st'). }
  destruct (worker_move _ _ _ _ _ _) as [st' wd']. simpl in *.
  split_and!; [done| |by apply (Hnames st' s)]. split; [done|by eapply db_steps_Inv|by unfold names_of; simpl; rewrite (Hnames st' s Hi)|].
  simpl. intros j w0 st0 Hj. destruct (decide (i = j)) as [<-|Hne].
  - rewrite list_lookup_insert_eq in Hj by (by eapply lookup_lt_Some). by injection Hj as <- <-.
  - rewrite list_lookup_insert_ne in Hj by done. by apply Ho with j.
Qed.

(** A call that is no worker's. *)
Lemma outside_ok {A} (m : M A) s reaper :
  refines m -> (forall i w st, q_workers s !! i = Some (w, st) -> outsider (workerID w) m) ->
  env_foreign_all (names_of s) o -> pool_ok s ->
  good_step s (mkPoolState (q_workers s) reaper (q_cancelled s) (m o (q_world s)).2).
Proof.
  intros Hr Hout Hf [Htx HI Hnd Hh]. destruct (Hr o (q_world s) He Htx HI) as [H1 H2].
  split_and!; [done| |done]. split; [done|by eapply db_steps_Inv|done|].
  simpl. intros j w st Hj. eapply in_hand_outside; [|by eapply Hh]. intros id r'.
  apply outsider_held; try done; [by eapply Hout|by apply Hf; eapply name_in].
Qed.

Lemma move_reaper_ok s : env_foreign_all (names_of s) o -> pool_ok s -> good_step s (move_reaper o s).
Proof.
  intros Hf Hs. unfold move_reaper. destruct (q_reaper s) as [r|]; [|by apply good_refl].
  apply outside_ok; [|intros; apply outsider_under_ctx, outsider_reaper_tick|done..].
  apply refines_under_ctx, refines_bind; [apply RequeueStaleRunning_refines|].
  intros []; [apply refines_ret|apply refines_add_metric].
Qed.

Lemma pool_step_ok l s : env_foreign_all (names_of s) o -> pool_ok s -> good_step s (pool_step o s l).
Proof.
  intros Hf Hs. destruct l as [i a| | | |]; cbn [pool_step].
  - by apply move_worker_ok.
  - by apply move_reaper_ok.
  - destruct (q_cancelled s); [|by apply good_refl]. split_and!; [apply rtc_refl| |done]. by destruct Hs.
  - split_and!; [apply rtc_refl| |done]. by destruct Hs.
  - by apply (outside_ok (fun o wd => (tt, tick o wd)) s (q_reaper s) (refines_tick _)); [intros; apply (outsider_tick _ (fun _ => tt))|..].
Qed.

Lemma run_pool_ok schedule s :
  env_foreign_all (names_of s) o -> pool_ok s -> good_step s (run_pool o schedule s).
Proof.
  revert s. induction schedule as [|l schedule IH]; intros s Hf Hs; [by apply good_refl|].
  destruct (pool_step_ok l s Hf Hs) as (H1 & H2 & H3).
  destruct (IH (pool_step o s l)) as (H4 & H5 & H6); [by rewrite H3|done|].
  split_and!; [by etrans|done|]. cbn. by rewrite <- H3, <- H6.
Qed.
End PoolInvariant.

(** A pool that was just started. *)
Lemma names_of_launch p wd : names_of (launch p wd) = map workerID (p_workers p).
Proof. unfold names_of, launch. cbn [q_workers]. by rewrite map_map. Qed.

Lemma launch_ok reg cfg wd :
  w_tx wd = None -> Inv (w_db wd) -> pool_ok (launch (pool_Start (NewWorkerPool reg cfg)) wd).
Proof.
  intros Htx HI. split; [done..| |].
  - rewrite names_of_launch. apply pool_names.
  - intros i w st Hi. unfold launch in Hi. cbn [q_workers] in Hi.
    change (map ?f ?l) with (f <$> l) in Hi. rewrite list_lookup_fmap_Some in Hi.
    by destruct Hi as (w' & [= -> ->] & _).
Qed.

(** ** An outcome that comes too late *)

(** [m] leaves the database as it is. *)
Definition leaves_db (o : Oracle) (wd : World) {A} (m : M A) : Prop := w_db (m o wd).2 = w_db wd.

Lemma wp_not_owner {A} (m : M (res A)) o wd e Q :
  (m o wd).1 = Err e /\ w_db (m o wd).2 = w_db wd /\ w_metrics (m o wd).2 = w_metrics wd /\ w_tx (m o wd).2 = None ->
  (forall w', w_db w' = w_db wd -> Q (Err e) w') -> wp m o Q wd.
Proof. intros (H1 & H2 & _) HQ. unfold wp. rewrite H1. by apply HQ. Qed.

Lemma persist_not_owner w t start err o wd :
  calm o -> idle wd -> not_owner (w_db wd) (t_ID t) (workerID w) -> leaves_db o wd (persist w t start err).
Proof.
  intros Hc Hi Hn.
  cut (wp (persist w t start err) o (fun _ w' => w_db w' = w_db wd) wd); [done|].
  destruct err as [e|]; cbn [persist].
  - unfold handleFailure. wp_step. destruct (_ <=? _).
    + eapply wp_not_owner; [by apply MarkDead_not_owner|]. intros w' Hd. cbn beta iota. autorewrite with dhara.
      by wp_step.
    + wp_step. apply (wp_tick ev_rand); [done..|]. intros w1 Hi1 Hd1 _ _.
      wp_step. apply (wp_tick ev_now); [done..|]. intros w2 Hi2 Hd2 _ _.
      eapply wp_not_owner; [apply MarkPending_not_owner; [done..|by rewrite Hd2, Hd1]|].
      intros w' Hd. cbn beta iota. autorewrite with dhara. wp_step. congruence.
  - wp_step. apply (wp_tick ev_now); [done..|]. intros w1 Hi1 Hd1 _ _. wp_step.
    eapply wp_not_owner; [apply MarkCompleted_not_owner; [done..|by rewrite Hd1]|].
    intros w' Hd. cbn beta iota. autorewrite with dhara. wp_step. congruence.
Qed.

(** ** Theorems *)

Section Pool.
Context (reg : MapRegistry) (cfg : Settings) (o : Oracle) (wd : World).
Local Abbreviation p := (pool_Start (NewWorkerPool reg cfg)).

(** C21: Fencing, for every interleaving of a pool's workers, heartbeats, reaper
    and cancellation with the failures and the other processes of any oracle (as
    long as those keep to the lifecycle and to other names): the database moves
    along the lifecycle and no task exceeds its budget; a lock under a worker's
    name on the task it has in hand is the lock of that very attempt; and an
    outcome that arrives when the lock is gone changes nothing. *)
Theorem pool_fencing schedule :
  env_ok o -> env_foreign_all (map workerID (p_workers p)) o -> w_tx wd = None -> Inv (w_db wd) ->
  Budget (w_db wd) ->
  let s := run_pool o schedule (launch p wd) in
  rtc db_step (w_db wd) (pool_db s) /\ Budget (pool_db s) /\
  (forall i w st t r, q_workers s !! i = Some (w, st) -> task_of st = Some t ->
     held_row (pool_db s) (t_ID t) (workerID w) = Some r ->
     r_attempts r = t_Attempts t /\ r_max_retries r = t_MaxRetries t) /\
  (forall i w t start err b o', q_workers s !! i = Some (w, Persisting t start err b) ->
     not_owner (pool_db s) (t_ID t) (workerID w) -> calm o' ->
     pool_db (pool_step o' s (OfWorker i Advance)) = pool_db s).
Proof.
  intros He Hf Htx HI Hb s. rewrite <- (names_of_launch _ wd) in Hf.
  destruct (run_pool_ok o He schedule _ Hf (launch_ok reg cfg wd Htx HI)) as (H1 & [H2 H3 H4 H5] & H6).
  fold s in H1, H2, H3, H4, H5, H6. split_and!; [done|by eapply db_steps_budget|..].
  - intros i w st t r Hi Ht. specialize (H5 i w st Hi). unfold in_hand in H5. rewrite Ht in H5. apply H5.
  - intros i w t start err b o' Hi Hn Hc. cbn [pool_step]. unfold move_worker. rewrite Hi. cbn [worker_move advance_worker].
    pose proof (persist_not_owner w t start err o' (q_world s) Hc (conj H2 H3) Hn) as Hp.
    unfold leaves_db, pool_db, bind in *. by destruct (persist w t start err o' (q_world s)).
Qed.
End Pool.

(** ** A concrete run *)

(** Two workers, a task that always fails, a heartbeat and a reaper run in
    between. *)
Definition two_workers : Settings := mkSettings EmptyString 0 2 0 0 0 0 0 0.
Definition some_schedule : list Label :=
  [OfWorker 0 Advance; OfWorker 0 Advance; OfWorker 1 Advance; OfWorker 0 Advance; OfWorker 0 Beat;
   OfWorker 1 Advance; ReaperTick; OfWorker 0 Advance].

#[local] Abbreviation waiting_world :=
  (@run_ops demo_hasher [OpCreate (demo_task "echo" None 2)] demo_oracle (world0 empty_db)).2.

Lemma demo_oracle_foreign_all names : env_foreign_all names demo_oracle.
Proof. intros me _. apply demo_oracle_foreign. Qed.

Lemma pool_fencing_witness :
  let s := run_pool demo_oracle some_schedule (launch (pool_Start (NewWorkerPool demo_registry two_workers)) waiting_world) in
  map (fun x => task_of x.2) (q_workers s) = [Some (scan_claim (set_claim "dhara-worker-1" (3 * Second) waiting_row)); None] /\
  Budget (pool_db s).
Proof.
  split; [vm_compute; reflexivity|].
  exact (proj1 (proj2 (pool_fencing demo_registry two_workers demo_oracle waiting_world some_schedule
    demo_oracle_env_strict (demo_oracle_foreign_all _) (proj1 waiting_world_idle) (proj2 waiting_world_idle)
    waiting_world_budget))).
Defined.
