(* ===== verification/PoolDrain.v ===== *)
(** PoolDrain: the gauges of a pool, and its graceful shutdown.

    - The two gauges equal the number of workers in the matching states, after
      every schedule.
    - Once the pool's context is cancelled each move of a worker brings it closer
      to its end ([rank]), whatever the other goroutines do in between.
    - When no call fails, the locks under a worker's name are those of the task it
      has in hand ([accounted]): a drained pool leaves no task locked. *)

From S2P Require Import Prelude Dharatype GoTime Float64 Metrics Pg PgLogic TaskStore Lifecycle.
From S2P Require Import StoreRefine StoreTheorems StoreSpec StoreContracts Client Worker Pool WorkerRefine.
From S2P Require Import WorkerTheorems PoolTheorems.
Open Scope dhara_scope.

(** ** Gauges *)

Definition active (st : WState) : Z := match st with Spawned | Exited => 0 | _ => 1 end.
Definition inflight (st : WState) : Z :=
  match st with Handling _ _ _ _ | Persisting _ _ _ _ | Unwinding _ _ => 1 | _ => 0 end.

Definition gauges (m : Metrics) : Z * Z := (WorkersActive m, WorkersInflight m).

Lemma keeps_gauges {A} (m : M A) : keeps inflight_and_loop m -> keeps gauges m.
Proof. intros H o wd. specialize (H o wd). unfold gauges. injection H as H1 H2 H3. congruence. Qed.

(** A piece that counts nothing leads to a state with the same counts. *)
Definition counts_as (m : M WState) (a i : Z) : Prop :=
  forall o wd, gauges (w_metrics (m o wd).2) =
    (WorkersActive (w_metrics wd) + active (m o wd).1 - a, WorkersInflight (w_metrics wd) + inflight (m o wd).1 - i).

Lemma counts_piece {A} (m : M A) (k : A -> WState) a i :
  keeps gauges m -> (forall x, active (k x) = a /\ inflight (k x) = i) -> counts_as (x <- m; ret (k x)) a i.
Proof.
  intros Hm Hk o wd. unfold bind, ret. specialize (Hm o wd). destruct (m o wd) as [x w1]. cbn [fst snd] in *.
  destruct (Hk x) as [-> ->]. rewrite Hm. unfold gauges. f_equal; lia.
Qed.

(** Where a metric is counted. *)
Lemma counts_metric {A} f (m : M A) (k : A -> WState) a i :
  (forall x met, gauges (f met) =
     (WorkersActive met + active (k x) - a, WorkersInflight met + inflight (k x) - i)) ->
  keeps gauges m -> counts_as (_ <- add_metric f; x <- m; ret (k x)) a i.
Proof.
  intros Hf Hm o wd. unfold bind, ret, add_metric. cbn beta iota.
  specialize (Hm o (mkWorld (w_db wd) (w_tx wd) (f (w_metrics wd)) (w_next wd))).
  destruct (m o _) as [x w2]. cbn [fst snd w_metrics] in *. rewrite Hm. apply Hf.
Qed.

Lemma counts_stay st : counts_as (ret st) (active st) (inflight st).
Proof. intros o wd. unfold gauges. simpl. f_equal; lia. Qed.

Lemma counts_exit f : counts_as exit_worker (active (Waiting f)) (inflight (Waiting f)).
Proof. intros o wd. unfold gauges. simpl. f_equal; lia. Qed.

Lemma claim_error_keeps err : keeps gauges (claim_error err).
Proof. unfold claim_error. destruct (negb _); by keep. Qed.

Lemma advance_counts w c st : counts_as (advance_worker w c st) (active st) (inflight st).
Proof.
  destruct st as [|f|f e|f|t|t h s b|t s e b|t b|]; cbn [advance_worker active inflight].
  - intros o wd. unfold gauges. simpl. f_equal; lia.
  - apply counts_piece; [apply keeps_under_ctx, keeps_gauges, claim_keeps_gauges|by intros []].
  - destruct c; [apply (counts_exit f)|]. by apply counts_piece; [apply claim_error_keeps|].
  - destruct c; [apply (counts_exit f)|apply counts_stay].
  - destruct (Get _ _); [|by apply counts_piece; [apply keeps_gauges, no_handler_keeps|]].
    apply counts_metric; [|keep]. intros x met. unfold gauges. simpl. f_equal; lia.
  - by apply counts_piece; [apply keeps_gauges, run_timed_keeps|].
  - by apply counts_piece; [apply keeps_gauges, persist_keeps|].
  - intros o wd. unfold gauges. simpl. f_equal; lia.
  - apply counts_stay.
Qed.

Lemma move_counts w c a st : counts_as (worker_move w c a st) (active st) (inflight st).
Proof.
  destruct a; cbn [worker_move]; [apply advance_counts|..].
  - destruct st; cbn [wake_worker]; try apply counts_stay. intros o wd. unfold gauges. simpl. f_equal; lia.
  - destruct st as [|f|f e|f|t|t h s [] |t s e [] |t [] |]; cbn [beat_worker]; try apply counts_stay;
      by apply counts_piece; [apply keeps_under_ctx, keeps_gauges, beat_keeps|].
Qed.

(** The sum of a count over the workers. *)
Fixpoint total (f : WState -> Z) (l : list (Worker * WState)) : Z :=
  match l with [] => 0 | (_, st) :: l' => f st + total f l' end.

Lemma total_insert f l i w st st' :
  l !! i = Some (w, st) -> total f (<[i := (w, st')]> l) = total f l + f st' - f st.
Proof.
  revert i. induction l as [|[w0 s0] l IH]; intros [|i] H; [done..| |].
  - injection H as -> ->. cbn. lia.
  - change (<[S i := (w, st')]> ((w0, s0) :: l)) with ((w0, s0) :: <[i := (w, st')]> l). cbn [total].
    rewrite (IH i H). lia.
Qed.

Lemma log_reaped_keeps {X} (f : Metrics -> X) name rows n : keeps f (log_reaped name rows n).
Proof. revert n. induction rows as [|r rows IH]; intros n; cbn [log_reaped]; [by keep|]. keep. apply IH. Qed.

Lemma reaper_tick_keeps r : keeps gauges (reaper_tick r).
Proof.
  unfold reaper_tick, RequeueStaleRunning, tx_fetch, fetch. keep. apply log_reaped_keeps.
Qed.

(** The gauges are off by what they were when the pool was started. *)
Definition gauges_match (start : Z * Z) (s : Pool) : Prop :=
  gauges (w_metrics (q_world s)) =
    (start.1 + total active (q_workers s), start.2 + total inflight (q_workers s)).

Lemma pool_step_gauges o l s start : gauges_match start s -> gauges_match start (pool_step o s l).
Proof.
  intros H. unfold gauges_match in *. destruct l as [i a| | | |]; cbn [pool_step]; [..|done|done].
  - unfold move_worker. destruct (q_workers s !! i) as [[w st]|] eqn:Hi; [|done].
    pose proof (move_counts w (q_cancelled s) a st o (q_world s)) as Hm.
    destruct (worker_move _ _ _ _ _ _) as [st' wd']. cbn [q_world q_workers fst snd] in *.
    rewrite Hm, !(total_insert _ _ _ w st st' Hi). unfold gauges in H. injection H as -> ->. f_equal; lia.
  - unfold move_reaper. destruct (q_reaper s) as [r|]; [|done]. cbn [q_world q_workers].
    by rewrite (keeps_under_ctx gauges (q_cancelled s) _ (reaper_tick_keeps r) o (q_world s)).
  - by destruct (q_cancelled s).
Qed.

Lemma run_pool_gauges o schedule s start :
  gauges_match start s -> gauges_match start (run_pool o schedule s).
Proof.
  revert s. induction schedule as [|l schedule IH]; intros s H; [done|]. apply IH. by apply pool_step_gauges.
Qed.

Lemma total_spawned f ws : f Spawned = 0 -> total f (map (fun w => (w, Spawned)) ws) = 0.
Proof. intros H. induction ws as [|w ws IH]; cbn; [done|]. by rewrite H, IH. Qed.

(** ** Shutdown *)

(** How many moves of its own a worker is from its end, once cancelled. *)
Definition rank (st : WState) : nat :=
  match st with
  | Exited => 0
  | Refused _ _ => 1
  | Claiming _ => 2
  | Spawned | Waiting _ | Unwinding _ _ => 3
  | Persisting _ _ _ _ => 4
  | Handling _ _ _ _ => 5
  | Claimed _ => 6
  end.

(** A claim under a cancelled context does not reach the database. *)
Lemma Claim_refused name o wd : (under_ctx true (Claim name) o wd) = (Err (Wrapped "begin tx" (DriverError "context canceled")), tick o wd).
Proof. reflexivity. Qed.

Lemma claim_refused w o wd : exists e, under_ctx true (claim w) o wd = (Err e, tick o wd).
Proof. eexists. reflexivity. Qed.

Lemma bind_ret_1 {A B} (m : M A) (k : A -> B) o wd : ((x <- m; ret (k x)) o wd).1 = k (m o wd).1.
Proof. unfold bind. by destruct (m o wd). Qed.

Lemma advance_rank w st o wd : (rank (advance_worker w true st o wd).1 <= pred (rank st))%nat.
Proof.
  destruct st as [|f|f e|f|t|t h s b|t s e b|t b|]; cbn [advance_worker rank pred].
  - done.
  - destruct (claim_refused w o wd) as [e He]. unfold bind. rewrite He. done.
  - simpl. lia.
  - simpl. lia.
  - destruct (Get _ _); [simpl; lia|]. rewrite bind_ret_1. simpl. lia.
  - by rewrite bind_ret_1.
  - by rewrite bind_ret_1.
  - simpl. lia.
  - done.
Qed.

Lemma move_rank w a st o wd :
  (rank (worker_move w true a st o wd).1 <= rank st - (if a is Advance then 1 else 0))%nat.
Proof.
  destruct a; cbn [worker_move].
  - pose proof (advance_rank w st o wd). lia.
  - destruct st; simpl; lia.
  - destruct st as [|f|f e|f|t|t h s [] |t s e [] |t [] |]; cbn [beat_worker];
      rewrite ?bind_ret_1; simpl; lia.
Qed.

(** How often a schedule gives worker [i] its turn. *)
Definition is_turn (i : nat) (l : Label) : bool :=
  match l with OfWorker j Advance => Nat.eqb i j | _ => false end.
Definition turns (i : nat) (schedule : list Label) : nat := length (List.filter (is_turn i) schedule).

Definition rank_at (s : Pool) (i : nat) : nat :=
  match q_workers s !! i with Some (_, st) => rank st | None => 0 end.

Lemma pool_step_cancelled o l s : q_cancelled s = true -> q_cancelled (pool_step o s l) = true.
Proof.
  intros H. destruct l as [i a| | | |]; cbn [pool_step]; [| | |done..].
  - unfold move_worker. destruct (_ !! _) as [[w st]|]; [|done]. by destruct (worker_move _ _ _ _ _ _).
  - unfold move_reaper. by destruct (q_reaper s).
  - by rewrite H.
Qed.

Lemma pool_step_rank o l s i :
  q_cancelled s = true -> (rank_at (pool_step o s l) i <= rank_at s i - (if is_turn i l then 1 else 0))%nat.
Proof.
  intros Hc. destruct l as [j a| | | |]; cbn [pool_step is_turn]; [| | |unfold rank_at; simpl; lia..].
  - unfold move_worker. rewrite Hc. unfold rank_at. destruct (q_workers s !! j) as [[w st]|] eqn:Hj.
    + pose proof (move_rank w a st o (q_world s)) as Hr. destruct (worker_move _ _ _ _ _ _) as [st' wd'].
      cbn [q_workers fst snd] in *. destruct (decide (i = j)) as [->|Hne].
      * rewrite list_lookup_insert_eq by (by eapply lookup_lt_Some). rewrite Hj, Nat.eqb_refl.
        by destruct a.
      * rewrite list_lookup_insert_ne by done. apply Nat.eqb_neq in Hne. rewrite Hne. destruct a; lia.
    + destruct (Nat.eqb_spec i j) as [->|Hne]; [rewrite Hj; destruct a; lia|destruct a; lia].
  - unfold move_reaper. destruct (q_reaper s); unfold rank_at; simpl; lia.
  - rewrite Hc. unfold rank_at. simpl. lia.
Qed.

Lemma run_pool_rank o schedule s i :
  q_cancelled s = true -> (rank_at (run_pool o schedule s) i <= rank_at s i - turns i schedule)%nat.
Proof.
  revert s. induction schedule as [|l schedule IH]; intros s Hc; [cbn; lia|].
  pose proof (IH _ (pool_step_cancelled o l s Hc)) as H1. pose proof (pool_step_rank o l s i Hc) as H2.
  unfold turns in *. cbn [List.filter run_pool fold_left]. fold (run_pool o schedule (pool_step o s l)).
  destruct (is_turn i l); cbn [length]; lia.
Qed.

Lemma run_pool_cancelled o schedule s : q_cancelled s = true -> q_cancelled (run_pool o schedule s) = true.
Proof.
  revert s. induction schedule as [|l schedule IH]; intros s Hc; [done|]. by apply IH, pool_step_cancelled.
Qed.

Lemma pool_step_reaper o l s : q_reaper s = None -> q_reaper (pool_step o s l) = None.
Proof.
  intros H. destruct l as [i a| | | |]; cbn [pool_step]; [| | |done..].
  - unfold move_worker. destruct (_ !! _) as [[w st]|]; [|done]. by destruct (worker_move _ _ _ _ _ _).
  - unfold move_reaper. by rewrite H.
  - by destruct (q_cancelled s).
Qed.

Lemma run_pool_reaper o schedule s : q_reaper s = None -> q_reaper (run_pool o schedule s) = None.
Proof.
  revert s. induction schedule as [|l schedule IH]; intros s H; [done|]. by apply IH, pool_step_reaper.
Qed.

Lemma reaper_ends o schedule s :
  q_cancelled s = true -> In ReaperDone schedule -> q_reaper (run_pool o schedule s) = None.
Proof.
  revert s. induction schedule as [|l schedule IH]; intros s Hc; [done|]. intros [-> |Hin].
  - change (run_pool o (ReaperDone :: schedule) s) with (run_pool o schedule (pool_step o s ReaperDone)).
    apply run_pool_reaper. cbn. by rewrite Hc.
  - apply (IH (pool_step o s l)); [by apply pool_step_cancelled|done].
Qed.

Lemma rank_le st : (rank st <= 6)%nat.
Proof. destruct st; simpl; lia. Qed.

Lemma rank_exited st : rank st = 0%nat -> exited st = true.
Proof. by destruct st. Qed.

Lemma drained_spec s :
  drained s = true <-> (forall i w st, q_workers s !! i = Some (w, st) -> st = Exited) /\ q_reaper s = None.
Proof.
  unfold drained. rewrite andb_true_iff, forallb_forall, negb_true_iff, bool_decide_eq_false. split.
  - intros [H1 H2]. split; [|by destruct (q_reaper s); [destruct H2|]]. intros i w st Hi.
    specialize (H1 (w, st)). destruct st; try done; exfalso; by discriminate H1; apply list_elem_of_In, (list_elem_of_lookup_2 _ i).
  - intros [H1 ->]. split; [|by intros []%is_Some_None]. intros [w st] Hin%list_elem_of_In.
    apply list_elem_of_lookup_1 in Hin as [i Hi]. by rewrite (H1 i w st Hi).
Qed.

Lemma length_workers o schedule s : length (q_workers (run_pool o schedule s)) = length (q_workers s).
Proof.
  revert s. induction schedule as [|l schedule IH]; intros s; [done|]. cbn. etrans; [apply IH|].
  destruct l as [i a| | | |]; cbn [pool_step]; [| | |done..].
  - unfold move_worker. destruct (_ !! _) as [[w st]|]; [|done]. destruct (worker_move _ _ _ _ _ _).
    cbn [q_workers]. apply length_insert.
  - unfold move_reaper. by destruct (q_reaper s).
  - by destruct (q_cancelled s).
Qed.

(** Six turns each, and the reaper's end. *)
Definition fair (n : nat) (schedule : list Label) : Prop :=
  (forall i, (i < n)%nat -> (6 <= turns i schedule)%nat) /\ In ReaperDone schedule.

Lemma fair_drains o schedule s :
  q_cancelled s = true -> fair (length (q_workers s)) schedule -> drained (run_pool o schedule s) = true.
Proof.
  intros Hc [Ht Hr]. apply drained_spec. split; [|by apply reaper_ends]. intros i w st Hi.
  assert (i < length (q_workers s))%nat as Hl.
  { rewrite <- (length_workers o schedule). by eapply lookup_lt_Some. }
  pose proof (run_pool_rank o schedule s i Hc) as H. specialize (Ht i Hl). unfold rank_at in H. rewrite Hi in H.
  assert (match q_workers s !! i with Some (_, st) => rank st | None => 0 end <= 6)%nat as H6.
  { destruct (q_workers s !! i) as [[? st']|]; [apply rank_le|lia]. }
  assert (rank st = 0%nat) as H0 by lia. by destruct st.
Qed.

(** ** Locks *)

(** The task whose lock the worker still means to use. *)
Definition working (st : WState) : option TaskRow :=
  match st with Claimed t | Handling t _ _ _ | Persisting t _ _ _ => Some t | _ => None end.

(** Every lock under the name [me] belongs to the task in hand. *)
Definition accounted (me : string) (st : WState) (db : DB) : Prop :=
  forall id r, held_row db id me = Some r -> exists t, working st = Some t /\ t_ID t = id.

Lemma no_fault_faulty o n m : no_faults o -> faulty (o n) m -> False.
Proof. intros H [Hf|Hf]; by rewrite H in Hf. Qed.

(** Closes the branches of a run in which a call failed. *)
Ltac faultless :=
  try match goal with
  | Hn : no_faults ?o, H : faulty (?o _) _ |- _ => by destruct (no_fault_faulty _ _ _ Hn H)
  | Hn : no_faults ?o, H : ev_fault (?o _) = FailAfter _ |- _ => by rewrite Hn in H
  | Hn : no_faults ?o, H : ev_fault (?o _) = FailBefore _ |- _ => by rewrite Hn in H
  end.

Ltac run_ok := repeat (wp_step; intros; faultless; cbn beta iota; autorewrite with dhara; cbn beta iota).

Section Locks.
Context (me : string) (o : Oracle).
Hypothesis He : env_ok o.
Hypothesis Hf : env_foreign me o.

Lemma held_put db r ws id :
  Forall no_task_write ws -> owned_by me r = false -> r_id r = id ->
  held_row (apply_writes (PutTask r :: ws) db) id me = None.
Proof. intros Hws Ho <-. unfold held_row. by rewrite tasks_apply_put, lookup_insert_eq, Ho by done. Qed.

(** The cases of an update guarded by ownership. *)
Lemma owned_update_cases id f db :
  (exists r, held_row db id me = Some r /\ tasks db !! id = Some r /\
     sql_update id (owned_by me) f db = (Some (f r), [PutTask (f r)])) \/
  (held_row db id me = None /\ sql_update id (owned_by me) f db = (None, [])).
Proof.
  destruct (held_row db id me) as [r|] eqn:Hh; [left|right].
  - apply held_row_Some in Hh as [Hr Ho]. exists r. split_and!; [done..|]. by apply sql_update_some.
  - split; [done|]. by apply sql_update_not_owner, held_row_None.
Qed.

(** The write of an outcome without failures leaves the task unlocked. *)
Definition unlocks (id : uuid) {A} (m : M A) : Prop :=
  forall wd, w_tx wd = None -> Inv (w_db wd) -> wp m o (fun _ w' => held_row (w_db w') id me = None) wd.

Ltac owned_cases stmt r Hh Hr :=
  unfold stmt;
  match goal with |- context [sql_update ?id ?p ?f ?d] =>
    let HI := fresh "HI" in
    assert (Inv d) as HI by inv_env;
    destruct (owned_update_cases id f d) as [(r & Hh & Hr & ->)|[Hh ->]];
    [let Hid := fresh "Hid" in pose proof (Inv_id _ _ _ HI Hr) as Hid|]; cbn beta iota
  end.

Section NoFaults.
Hypothesis Hnf : no_faults o.

Lemma MarkCompleted_unlocks id d : unlocks id (MarkCompleted id me d).
Proof.
  intros wd Htx HI. wp_world wd. unfold MarkCompleted, insertLog. run_ok.
  owned_cases sql_mark_completed r Hh Hr; run_ok; [|done]. after_put. run_ok. by apply held_put; [repeat constructor|..].
Qed.

Lemma MarkPending_unlocks t e next : unlocks (t_ID t) (MarkPending t me e next).
Proof.
  intros wd Htx HI. wp_world wd. unfold MarkPending, insertLog. run_ok.
  owned_cases sql_mark_pending r Hh Hr; run_ok; [|done]. after_put. run_ok. by apply held_put; [repeat constructor|..].
Qed.

Lemma MarkDead_unlocks id e reason : unlocks id (MarkDead id me e reason).
Proof.
  intros wd Htx HI. wp_world wd. unfold MarkDead, insertLog. run_ok.
  owned_cases sql_mark_dead r Hh Hr; run_ok; [|done]. after_put. run_ok. after_put. run_ok.
  by apply held_put; [repeat constructor|..].
Qed.

Lemma outsider_run {A} (m : M A) wd :
  outsider me m -> w_tx wd = None -> Inv (w_db wd) ->
  w_tx (m o wd).2 = None /\ Inv (w_db (m o wd).2) /\
  forall id r, held_row (w_db (m o wd).2) id me = Some r -> held_row (w_db wd) id me = Some r.
Proof.
  intros [Hm Hr] Htx HI. destruct (Hr o wd He Htx HI) as [H1 H2].
  split_and!; [done|by eapply db_steps_Inv|]. intros id r. by apply (Hm o wd He Hf Htx HI).
Qed.

Lemma unlocks_then id {A B} (m : M A) (k : A -> M B) :
  unlocks id m -> outsider me m -> (forall a, outsider me (k a)) -> unlocks id (bind m k).
Proof.
  intros Hm Ho Hk wd Htx HI. apply wp_bind. specialize (Hm wd Htx HI).
  destruct (outsider_run m wd Ho Htx HI) as (H1 & H2 & _). unfold wp in *. destruct (m o wd) as [a w1].
  cbn [fst snd] in *. destruct (outsider_run (k a) w1 (Hk a) H1 H2) as (_ & _ & H3).
  destruct (held_row (w_db (k a o w1).2) id me) as [r|] eqn:Hh; [|done]. apply H3 in Hh. congruence.
Qed.

Lemma unlocks_after id {A B} (m : M A) (k : A -> M B) :
  outsider me m -> (forall a, unlocks id (k a)) -> unlocks id (bind m k).
Proof.
  intros Ho Hk wd Htx HI. apply wp_bind. destruct (outsider_run m wd Ho Htx HI) as (H1 & H2 & _).
  unfold wp in *. destruct (m o wd) as [a w1]. by apply Hk.
Qed.

Lemma handleFailure_unlocks w t err : workerID w = me -> unlocks (t_ID t) (handleFailure w t err).
Proof.
  intros Hme. unfold handleFailure. rewrite Hme. apply unlocks_then.
  - destruct (_ <=? _); [apply MarkDead_unlocks|]. apply unlocks_after; [apply outsider_tick|intros bits].
    apply unlocks_after; [apply outsider_tick|intros now]. apply MarkPending_unlocks.
  - destruct (_ <=? _); [apply outsider_MarkDead|]. apply outsider_bind; [apply outsider_tick|intros].
    apply outsider_bind; [apply outsider_tick|intros]. apply outsider_MarkPending.
  - intros []; [|case_match]; apply outsider_ret.
Qed.

Lemma persist_unlocks w t start err : workerID w = me -> unlocks (t_ID t) (persist w t start err).
Proof.
  intros Hme. destruct err as [e|]; cbn [persist]; [by apply handleFailure_unlocks|]. rewrite Hme.
  apply unlocks_after; [apply outsider_tick|intros d].
  apply unlocks_then; [apply MarkCompleted_unlocks|apply outsider_MarkCompleted|].
  intros []; [|case_match]; apply outsider_ret.
Qed.

Lemma no_handler_unlocks w t : workerID w = me -> unlocks (t_ID t) (no_handler w t).
Proof.
  intros Hme. unfold no_handler. rewrite Hme.
  apply unlocks_then; [apply MarkDead_unlocks|apply outsider_MarkDead|].
  intros []; [|case_match]; apply outsider_ret.
Qed.

(** A claim that does not fail locks the task it answers, and no other. *)
Lemma Claim_locks wd : w_tx wd = None -> Inv (w_db wd) ->
  wp (Claim me) o (fun res w' => forall id r, held_row (w_db w') id me = Some r ->
    held_row (w_db wd) id me = Some r \/ exists t, res = Ok t /\ t_ID t = id) wd.
Proof.
  intros Htx HI. wp_world wd.
  assert (forall n1 n2 id r, held_row (ev_env (o n1) (ev_env (o n2) db)) id me = Some r ->
    held_row db id me = Some r) as Henv by (intros n1 n2 id r H; by apply (Hf n2), (Hf n1)).
  unfold Claim, insertLog. run_ok. unfold sql_claim.
  destruct (claim_candidate _ _ _) as [r0|]; cbn beta iota;
    [|rewrite bool_decide_true by done; run_ok; left; cbn [w_db set_tx] in *; eapply Henv; eassumption].
  destruct (negb (fits 100 me));
    [cbn [sql_error]; cbn beta iota; rewrite bool_decide_false by done; run_ok; left; cbn [w_db set_tx] in *; eapply Henv; eassumption|].
  destruct (negb (in_int32 (r_attempts r0 + 1)));
    [cbn [sql_error]; cbn beta iota; rewrite bool_decide_false by done; run_ok; left; cbn [w_db set_tx] in *; eapply Henv; eassumption|].
  run_ok. rewrite sql_insert_log_after_put by (done || by repeat constructor). cbn beta iota. cbn [app]. run_ok.
  match goal with H : held_row _ ?id me = Some _ |- _ => rename H into Hh; destruct (decide (r_id r0 = id)) as [<-|Hne] end.
  - right. by eexists.
  - left. apply (Henv (S n) n). revert Hh. unfold held_row. cbn [w_db set_tx].
    rewrite tasks_apply_put, lookup_insert_ne by (done || by repeat constructor). done.
Qed.
End NoFaults.

(** A heartbeat under the worker's own name locks nothing new. *)
Lemma Heartbeat_locks id0 wd id r : w_tx wd = None -> Inv (w_db wd) ->
  held_row (w_db (Heartbeat id0 me o wd).2) id me = Some r -> exists r', held_row (w_db wd) id me = Some r'.
Proof.
  intros Htx HI. wp_world wd. revert id r.
  cut (wp (Heartbeat id0 me) o (fun _ w' => forall id r, held_row (w_db w') id me = Some r ->
    exists r', held_row db id me = Some r') (mkWorld db None met n)); [done|].
  assert (forall m id r, held_row (ev_env (o m) db) id me = Some r -> exists r', held_row db id me = Some r') as Henv.
  { intros m id r H%Hf. eauto. }
  unfold Heartbeat. wp_step. apply wp_db_exec; [done| |intros; eauto]. unfold sql_heartbeat.
  destruct (owned_update_cases id0 (set_heartbeat me (ev_now (o n))) (ev_env (o n) db))
    as [(r0 & Hh & Hr & ->)|[Hh ->]]; cbn beta iota; [|split; intros; cbn [Z.eqb]; run; eauto].
  assert (r_id r0 = id0) as Hid by (eapply (Inv_id (ev_env (o n) db)); [inv_env|done]).
  assert (forall id r, held_row (apply_writes [PutTask (set_heartbeat me (ev_now (o n)) r0)] (ev_env (o n) db)) id me = Some r ->
    exists r', held_row db id me = Some r') as Hput.
  { intros id r H. destruct (decide (id = id0)) as [->|Hne]; [by eapply Henv|].
    revert H. unfold held_row at 1. rewrite tasks_apply_put, lookup_insert_ne by (done || (simpl; congruence)).
    intros H. by apply (Henv n id r). }
  split; intros; cbn [Z.eqb]; run; eauto.
Qed.
End Locks.

(** ** The locks of a pool *)

Section Accounted.
Context (w : Worker) (o : Oracle).
Hypothesis He : env_ok o.
Hypothesis Hf : env_foreign (workerID w) o.
Hypothesis Hnf : no_faults o.
Local Abbreviation me := (workerID w).

(** A move that leads from [st] to a state that accounts for the locks. *)
Definition settles (st : WState) (m : M WState) : Prop :=
  forall wd, w_tx wd = None -> Inv (w_db wd) -> accounted me st (w_db wd) ->
  accounted me (m o wd).1 (w_db (m o wd).2).

Lemma settles_outsider {A} st (m : M A) (k : A -> WState) :
  outsider me m -> (forall a, working (k a) = working st) -> settles st (x <- m; ret (k x)).
Proof.
  intros Hm Hk wd Htx HI Ha. unfold bind, ret. destruct (outsider_run me o He Hf m wd Hm Htx HI) as (_ & _ & H).
  destruct (m o wd) as [a w1]. cbn [fst snd] in *. intros id r Hr. rewrite Hk. by eapply Ha, H.
Qed.

Lemma settles_stay st : settles st (ret st).
Proof. by intros wd Htx HI Ha. Qed.

Lemma settles_unlocks {A} st t (m : M A) (k : A -> WState) :
  outsider me m -> unlocks me o (t_ID t) m -> working st = Some t -> settles st (x <- m; ret (k x)).
Proof.
  intros Hm Hu Hst wd Htx HI Ha. unfold bind, ret. specialize (Hu wd Htx HI). unfold wp in Hu.
  destruct (outsider_run me o He Hf m wd Hm Htx HI) as (_ & _ & H).
  destruct (m o wd) as [a w1]. cbn [fst snd] in *. intros id r Hr.
  destruct (Ha id r (H _ _ Hr)) as (t' & Ht' & <-). rewrite Hst in Ht'. injection Ht' as <-. congruence.
Qed.

Lemma settles_metric {A} st f (m : M A) (k : A -> WState) :
  outsider me m -> (forall a, working (k a) = working st) -> settles st (_ <- add_metric f; x <- m; ret (k x)).
Proof. intros Hm Hk. intros wd Htx HI Ha. by apply (settles_outsider st m k Hm Hk (mkWorld _ _ _ _)). Qed.

Lemma settles_claim c f :
  settles (Claiming f) (r <- under_ctx c (claim w);
    ret (match r with Ok task => Claimed task | Err err => Refused f err end)).
Proof.
  intros wd Htx HI Ha. destruct c.
  - destruct (claim_refused w o wd) as [e Hc]. unfold bind. rewrite Hc. cbn [fst snd ret].
    intros id r. unfold tick, pending. rewrite Htx. cbn [w_db]. intros Hr%Hf. by apply Ha in Hr.
  - change (under_ctx false (claim w)) with (claim w). pose proof (Claim_locks me o Hf Hnf wd Htx HI) as Hc.
    unfold wp in Hc. unfold claim, bind. destruct (Claim me o wd) as [[t|e] w1]; cbn [fst snd ret] in *.
    + intros id r Hr. destruct (Hc _ _ Hr) as [H|(t' & [= ->] & Ht)]; [by apply Ha in H as (? & ? & _)|by exists t'].
    + intros id r Hr. assert (held_row (w_db wd) id me = Some r) as H.
      { destruct (errors_Is e _); cbn [fst snd ret] in Hr; destruct (Hc _ _ Hr) as [H|(t' & ? & _)]; done. }
      by apply Ha in H as (? & ? & _).
Qed.

Lemma settles_advance c st : settles st (advance_worker w c st).
Proof.
  destruct st as [|f|f e|f|t|t h s b|t s e b|t b|]; cbn [advance_worker]; unfold exit_worker.
  - apply settles_outsider; [apply outsider_metric|done].
  - apply settles_claim.
  - destruct c; (apply settles_outsider; [|done]); [apply outsider_metric|apply outsider_claim_error].
  - destruct c; [apply settles_outsider; [apply outsider_metric|done]|apply settles_stay].
  - destruct (Get _ _) as [h|].
    + apply settles_metric; [apply outsider_tick|done].
    + eapply settles_unlocks; [apply outsider_no_handler|by apply no_handler_unlocks|done].
  - apply settles_outsider; [apply outsider_run_timed|done].
  - eapply settles_unlocks; [apply outsider_persist|by apply persist_unlocks|done].
  - apply settles_outsider; [apply outsider_metric|done].
  - apply settles_stay.
Qed.

Lemma settles_beat c st t (k : bool -> WState) :
  (forall b, working (k b) = working st) -> settles st (b <- under_ctx c (beat w t); ret (k b)).
Proof.
  intros Hk wd Htx HI Ha id r. rewrite bind_ret_1, Hk. unfold under_ctx, beat, bind, ret.
  set (o' := fun n => if c then refuse (o n) else o n).
  pose proof (Heartbeat_locks me o' (env_ok_refuse c o He) (env_foreign_refuse me c o Hf) (t_ID t) wd id) as Hb.
  destruct (Heartbeat (t_ID t) me o' wd) as [res w1]. cbn [fst snd] in Hb.
  destruct res; cbn [fst snd ret]; intros Hr;
    destruct (Hb r Htx HI Hr) as [r' Hr']; by eapply Ha.
Qed.

Lemma settles_move c a st : settles st (worker_move w c a st).
Proof.
  destruct a; cbn [worker_move]; [apply settles_advance|..].
  - destruct st as [|f|f e|f|t|t h s b|t s e b|t b|]; cbn [wake_worker]; try apply settles_stay.
    intros wd Htx HI Ha. unfold tick, pending. rewrite Htx. cbn [fst snd w_db]. intros id r Hr%Hf.
    by apply Ha in Hr.
  - destruct st as [|f|f e|f|t|t h s [] |t s e [] |t [] |]; cbn [beat_worker]; try apply settles_stay.
    + by apply (settles_beat c (Handling t h s true) t (Handling t h s)).
    + by apply (settles_beat c (Persisting t s e true) t (Persisting t s e)).
    + by apply (settles_beat c (Unwinding t true) t (Unwinding t)).
Qed.
End Accounted.

Section PoolLocks.
Context (o : Oracle).
Hypothesis He : @env_ok strict_retry o.
Hypothesis Hnf : no_faults o.

Definition all_accounted (s : Pool) : Prop :=
  forall i w st, q_workers s !! i = Some (w, st) -> accounted (workerID w) st (pool_db s).

Lemma accounted_outside me st db db' :
  (forall id r, held_row db' id me = Some r -> held_row db id me = Some r) -> accounted me st db -> accounted me st db'.
Proof. intros H Ha id r Hr. by eapply Ha, H. Qed.

Lemma pool_step_accounted l s :
  env_foreign_all (names_of s) o -> pool_ok s -> all_accounted s -> all_accounted (pool_step o s l).
Proof.
  intros Hf [Htx HI Hnd _] Ha. destruct l as [i a| | | |]; cbn [pool_step]; [| | |done|].
  - unfold move_worker. destruct (q_workers s !! i) as [[w st]|] eqn:Hi; [|done].
    pose proof (settles_move w o (env_ok_any o He) (Hf _ (name_in _ _ _ _ Hi)) Hnf (q_cancelled s) a st
      (q_world s) Htx HI (Ha _ _ _ Hi)) as Hown.
    assert (forall j w' st', q_workers s !! j = Some (w', st') -> i <> j ->
      accounted (workerID w') st' (w_db (worker_move w (q_cancelled s) a st o (q_world s)).2)) as Ho.
    { intros j w' st' Hj Hne. eapply accounted_outside; [|by eapply Ha]. intros id r.
      apply outsider_held; try done; [|by apply Hf; eapply name_in].
      apply outsider_move. by apply (names_distinct s i j _ st _ st'). }
    destruct (worker_move _ _ _ _ _ _) as [st' wd']. cbn [fst snd] in *.
    intros j w0 st0 Hj. cbn [q_workers] in Hj. destruct (decide (i = j)) as [<-|Hne].
    + rewrite list_lookup_insert_eq in Hj by (by eapply lookup_lt_Some). by injection Hj as <- <-.
    + rewrite list_lookup_insert_ne in Hj by done. by apply Ho with j.
  - unfold move_reaper. destruct (q_reaper s) as [r|]; [|done]. intros j w st Hj.
    eapply accounted_outside; [|by eapply Ha]. intros id r'.
    apply outsider_held; try done; [|by apply Hf; eapply name_in]. apply outsider_under_ctx, outsider_reaper_tick.
  - by destruct (q_cancelled s).
  - intros j w st Hj. eapply accounted_outside; [|by eapply Ha]. intros id r'.
    apply (outsider_held _ time_Now); try done; [apply outsider_tick|by apply Hf; eapply name_in].
Qed.

Lemma run_pool_accounted schedule s :
  env_foreign_all (names_of s) o -> pool_ok s -> all_accounted s -> all_accounted (run_pool o schedule s).
Proof.
  revert s. induction schedule as [|l schedule IH]; intros s Hf Hs Ha; [done|].
  destruct (pool_step_ok o He l s Hf Hs) as (_ & H2 & H3).
  apply (IH (pool_step o s l)); [by rewrite H3|done|by apply pool_step_accounted].
Qed.
End PoolLocks.

(** ** Theorems *)

Section Pool.
Context (reg : MapRegistry) (cfg : Settings) (o : Oracle) (wd : World).
Local Abbreviation p := (pool_Start (NewWorkerPool reg cfg)).

Lemma launch_gauges : gauges_match (gauges (w_metrics wd)) (launch p wd).
Proof.
  unfold gauges_match, launch. cbn [q_world q_workers]. rewrite !total_spawned by done.
  unfold gauges. cbn [fst snd]. f_equal; lia.
Qed.

(** C22: The gauges a pool exports are exact in every state of every
    interleaving, whatever fails: [dhara_workers_active] has grown by the number
    of workers that are between their start and their end, and
    [dhara_workers_inflight] by the number that are between a claim of a task
    with a handler and the end of its execution. *)
Theorem pool_gauges_exact schedule :
  let s := run_pool o schedule (launch p wd) in
  WorkersActive (w_metrics (q_world s)) = WorkersActive (w_metrics wd) + total active (q_workers s) /\
  WorkersInflight (w_metrics (q_world s)) = WorkersInflight (w_metrics wd) + total inflight (q_workers s).
Proof.
  intros s. pose proof (run_pool_gauges o schedule _ _ launch_gauges) as H. fold s in H.
  unfold gauges_match, gauges in H. by injection H.
Qed.

Lemma launched_length : length (q_workers (launch p wd)) = length (p_workers p).
Proof. unfold launch. cbn [q_workers]. apply length_map. Qed.

(** C23: A stopped pool drains: after a cancellation at any moment, in any
    interleaving that gives every worker six turns of its own and lets the
    reaper see the cancellation, every goroutine has returned, so [Wait] answers
    nil unless its own context ended first; and both gauges are back where they
    were. The handler of a task counts as one turn. *)
Theorem pool_drains before after :
  fair (length (p_workers p)) after ->
  let s := run_pool o (before ++ Cancelled :: after) (launch p wd) in
  drained s = true /\ (forall first, pool_Wait false first s = Some (Ok tt)) /\
  gauges (w_metrics (q_world s)) = gauges (w_metrics wd).
Proof.
  intros Hfair s. pose proof (run_pool_gauges o (before ++ Cancelled :: after) _ _ launch_gauges) as Hg. fold s in Hg.
  assert (drained s = true) as Hd.
  { unfold s, run_pool. rewrite fold_left_app. cbn [fold_left].
    fold (run_pool o before (launch p wd)). set (s1 := run_pool o before (launch p wd)).
    apply (fair_drains o after); [done|]. cbn. unfold s1. by rewrite length_workers, launched_length. }
  split_and!; [done|intros; unfold pool_Wait; by rewrite Hd|]. unfold gauges_match in Hg. rewrite Hg.
  apply drained_spec in Hd as [Hd _].
  assert (forall f, f Exited = 0 -> total f (q_workers s) = 0) as Ht.
  { intros f Hf. clearbody s. destruct s as [l r c w0]. cbn [q_workers] in *. clear -Hd Hf.
    induction l as [|[w st] l IH]; [done|]. cbn [total]. rewrite IH by (intros i; apply (Hd (S i))).
    by rewrite (Hd 0%nat w st eq_refl), Hf. }
  rewrite !Ht by done. unfold gauges. cbn [fst snd]. f_equal; lia.
Qed.

(** C24: A graceful shutdown leaves nothing behind: when no database call fails
    and nothing was locked under the pool's names before it started, a drained
    pool holds no task, whatever its handlers did and whenever the cancellation
    came: every task it claimed was completed, retried or dead-lettered (or
    taken away by a reaper). While the pool runs, the locks under a worker's
    name are those of the task it has in hand. *)
Theorem drained_pool_holds_nothing schedule :
  @env_ok strict_retry o -> env_foreign_all (map workerID (p_workers p)) o -> no_faults o ->
  w_tx wd = None -> Inv (w_db wd) ->
  (forall me id, me ∈ map workerID (p_workers p) -> held_row (w_db wd) id me = None) ->
  let s := run_pool o schedule (launch p wd) in
  (forall i w st id r, q_workers s !! i = Some (w, st) -> held_row (pool_db s) id (workerID w) = Some r ->
     exists t, working st = Some t /\ t_ID t = id) /\
  (drained s = true -> forall me id, me ∈ map workerID (p_workers p) -> held_row (pool_db s) id me = None).
Proof.
  intros He Hf Hnf Htx HI Hfree s. rewrite <- (names_of_launch _ wd) in Hf, Hfree.
  assert (all_accounted s) as Ha.
  { apply run_pool_accounted; [done..|by apply launch_ok|]. intros i w st Hi id r Hr.
    rewrite Hfree in Hr; [done|by eapply name_in]. }
  split; [intros i w st id r Hi; by apply (Ha i)|].
  intros [Hd _]%drained_spec me id Hin.
  destruct (run_pool_ok o He schedule _ Hf (launch_ok reg cfg wd Htx HI)) as (_ & _ & Hnames). fold s in Hnames.
  rewrite <- (names_of_launch _ wd), <- Hnames in Hin. unfold names_of in Hin.
  apply list_elem_of_fmap in Hin as ([w st] & -> & Hin). apply list_elem_of_lookup_1 in Hin as [i Hi]. cbn [fst].
  destruct (held_row (pool_db s) id (workerID w)) as [r|] eqn:Hr; [|done].
  destruct (Ha i w st Hi id r Hr) as (t & Ht & _). by rewrite (Hd i w st Hi) in Ht.
Qed.
End Pool.

(** ** Concrete runs *)

#[local] Abbreviation waiting_world :=
  (@run_ops demo_hasher [OpCreate (demo_task "echo" None 2)] demo_oracle (world0 empty_db)).2.

(** Six rounds in which both workers have a turn. *)
Definition round_robin : list Label :=
  concat (repeat [OfWorker 0 Advance; OfWorker 1 Advance; OfWorker 0 Beat; ReaperTick] 6) ++ [ReaperDone].

Lemma round_robin_fair : fair 2 round_robin.
Proof.
  split; [|vm_compute; tauto]. intros i Hi. assert (i = 0 \/ i = 1)%nat as [-> | ->] by lia; vm_compute; lia.
Qed.

Lemma pool_drains_witness :
  drained (run_pool demo_oracle (some_schedule ++ Cancelled :: round_robin)
    (launch (pool_Start (NewWorkerPool demo_registry two_workers)) waiting_world)) = true.
Proof.
  exact (proj1 (pool_drains demo_registry two_workers demo_oracle waiting_world some_schedule round_robin
    round_robin_fair)).
Defined.

Lemma nothing_held me id : held_row (w_db waiting_world) id me = None.
Proof.
  unfold held_row. rewrite waiting_world_tasks. destruct (decide (id = 2%N)) as [-> |Hne].
  - by rewrite lookup_singleton_eq.
  - by rewrite lookup_singleton_ne.
Qed.

Lemma drained_pool_holds_nothing_witness :
  let s := run_pool demo_oracle (some_schedule ++ Cancelled :: round_robin)
    (launch (pool_Start (NewWorkerPool demo_registry two_workers)) waiting_world) in
  held_row (pool_db s) 2 "dhara-worker-1" = None /\ r_attempts <$> tasks (pool_db s) !! 2%N = Some 1.
Proof.
  split; [|vm_compute; reflexivity].
  apply (proj2 (drained_pool_holds_nothing demo_registry two_workers demo_oracle waiting_world
    (some_schedule ++ Cancelled :: round_robin) demo_oracle_env_strict (demo_oracle_foreign_all _)
    (proj1 demo_oracle_calm) (proj1 waiting_world_idle) (proj2 waiting_world_idle) (fun me id _ => nothing_held me id))).
  - vm_compute. reflexivity.
  - vm_compute. by left.
Defined.
