(* ===== verification/GoStrconv.v ===== *)
(** GoStrconv: the parts of Go's [strconv] and [strings] packages the program
    uses on its inputs. *)

From Stdlib Require Import Ascii.
From S2P Require Import Prelude Float64.

Definition digit (c : Ascii.ascii) : option Z :=
  let n := Z.of_N (Ascii.N_of_ascii c) in
  if (48 <=? n) && (n <=? 57) then Some (n - 48) else None.

(** The value of a string of decimal digits, most significant first. *)
Fixpoint digits (acc : Z) (s : string) : option Z :=
  match s with
  | EmptyString => Some acc
  | String c s' => match digit c with Some d => digits (10 * acc + d) s' | None => None end
  end.

Definition int64_max : Z := 9223372036854775807.
Definition in_int64 (n : Z) : bool := (- int64_max - 1 <=? n) && (n <=? int64_max).

(** [strconv.Atoi]: an optional sign and at least one digit; [None] is an error,
    also for a number outside the 64 bits of [int]. *)
Definition Atoi (s : string) : option Z :=
  let number neg body :=
    match body with
    | EmptyString => None
    | _ => match digits 0 body with
           | Some n => let v := if (neg : bool) then - n else n in if in_int64 v then Some v else None
           | None => None
           end
    end in
  match s with
  | String "-"%char s' => number true s'
  | String "+"%char s' => number false s'
  | _ => number false s
  end.

(** [strconv.ParseBool]. *)
Definition ParseBool (s : string) : option bool :=
  if bool_decide (s ∈ ["1"; "t"; "T"; "TRUE"; "true"; "True"]) then Some true
  else if bool_decide (s ∈ ["0"; "f"; "F"; "FALSE"; "false"; "False"]) then Some false
  else None.

Example Atoi_neg : Atoi "-042" = Some (-42).
Proof. reflexivity. Qed.
Example Atoi_max : Atoi "9223372036854775807" = Some int64_max /\ Atoi "9223372036854775808" = None.
Proof. split; reflexivity. Qed.
Example Atoi_bad : Atoi "+" = None /\ Atoi "1_000" = None /\ Atoi " 1" = None.
Proof. repeat split; reflexivity. Qed.

(** What [Atoi] accepts is an [int]. *)
Lemma Atoi_int64 s n : Atoi s = Some n -> - int64_max - 1 <= n <= int64_max.
Proof.
  unfold Atoi. intros H.
  assert (in_int64 n = true) as Hn by (repeat case_match; simplify_eq; done).
  unfold in_int64 in Hn. bool_to_prop. lia.
Qed.

(** ** Spaces *)

(** The bytes of the Unicode white space characters ([unicode.IsSpace]). *)
Definition byte_string (l : list N) : string := String.string_of_list_ascii (map Ascii.ascii_of_N l).
Definition spaces : list string :=
  map byte_string ([[9]; [10]; [11]; [12]; [13]; [32]; [194; 133]; [194; 160]; [225; 154; 128];
    [226; 128; 168]; [226; 128; 169]; [226; 128; 175]; [226; 129; 159]; [227; 128; 128]] ++
    map (fun i => [226; 128; 128 + N.of_nat i]) (seq 0 11))%N.

Fixpoint strip_prefix (p s : string) : option string :=
  match p, s with
  | EmptyString, _ => Some s
  | String a p', String b s' => if bool_decide (a = b) then strip_prefix p' s' else None
  | _, _ => None
  end.

(** Removes members of [ps] from the front; each removal shortens the string. *)
Fixpoint trim_left (fuel : nat) (ps : list string) (s : string) : string :=
  match fuel with
  | O => s
  | S fuel' =>
      match head (omap (fun p => strip_prefix p s) ps) with
      | Some s' => trim_left fuel' ps s'
      | None => s
      end
  end.

Definition reverse (s : string) : string := String.string_of_list_ascii (rev (String.list_ascii_of_string s)).

(** [strings.TrimSpace]. *)
Definition TrimSpace (s : string) : string :=
  let s1 := trim_left (String.length s) spaces s in
  reverse (trim_left (String.length s1) (map reverse spaces) (reverse s1)).

(** [strings.ToLower], up to letters that do not lower to ASCII: besides A-Z,
    U+0130 and U+212A do. *)
Definition lower (c : Ascii.ascii) : Ascii.ascii :=
  let n := Ascii.N_of_ascii c in
  if ((65 <=? n) && (n <=? 90))%N then Ascii.ascii_of_N (n + 32) else c.
Fixpoint ToLower_fuel (fuel : nat) (s : string) : string :=
  match fuel with
  | O => s
  | S fuel' =>
      match strip_prefix (byte_string [196; 176]%N) s, strip_prefix (byte_string [226; 132; 170]%N) s, s with
      | Some s', _, _ => String "i"%char (ToLower_fuel fuel' s')
      | None, Some s', _ => String "k"%char (ToLower_fuel fuel' s')
      | None, None, String c s' => String (lower c) (ToLower_fuel fuel' s')
      | None, None, EmptyString => EmptyString
      end
  end.
Definition ToLower (s : string) : string := ToLower_fuel (String.length s) s.

(** [strings.ToUpper], up to letters whose upper case is not ASCII: besides a-z,
    U+0131 and U+017F have one. *)
Definition upper_letter (c : Ascii.ascii) : Ascii.ascii :=
  let n := Ascii.N_of_ascii c in
  if ((97 <=? n) && (n <=? 122))%N then Ascii.ascii_of_N (n - 32) else c.
Fixpoint ToUpper_fuel (fuel : nat) (s : string) : string :=
  match fuel with
  | O => s
  | S fuel' =>
      match strip_prefix (byte_string [196; 177]%N) s, strip_prefix (byte_string [197; 191]%N) s, s with
      | Some s', _, _ => String "I"%char (ToUpper_fuel fuel' s')
      | None, Some s', _ => String "S"%char (ToUpper_fuel fuel' s')
      | None, None, String c s' => String (upper_letter c) (ToUpper_fuel fuel' s')
      | None, None, EmptyString => EmptyString
      end
  end.
Definition ToUpper (s : string) : string := ToUpper_fuel (String.length s) s.

Example TrimSpace_ex : TrimSpace (byte_string [194; 160; 32; 51; 48; 10]%N) = "30".
Proof. vm_compute. reflexivity. Qed.
Example ToLower_ex : ToLower "WaRNing" = "warning".
Proof. vm_compute. reflexivity. Qed.

(** ** Durations *)

(** The longest prefix of bytes that satisfy [p], and the rest. *)
Fixpoint span (p : Ascii.ascii -> bool) (s : string) : string * string :=
  match s with
  | EmptyString => (EmptyString, EmptyString)
  | String c s' => if p c then let (a, b) := span p s' in (String c a, b) else (EmptyString, s)
  end.

Definition is_digit (c : Ascii.ascii) : bool := match digit c with Some _ => true | None => false end.

(** [leadingInt]: [None] is overflow. *)
Fixpoint leadingInt (x : Z) (ds : string) : option Z :=
  match ds with
  | EmptyString => Some x
  | String c ds' =>
      let x' := x * 10 + default 0 (digit c) in
      if (2 ^ 63 / 10 <? x) || (2 ^ 63 <? x') then None else leadingInt x' ds'
  end.

(** [leadingFraction]: digits beyond the precision are dropped; the scale is the
    power of ten of the digits that were kept. *)
Fixpoint leadingFraction (x scale : Z) (overflow : bool) (ds : string) : Z * Z :=
  match ds with
  | EmptyString => (x, scale)
  | String c ds' =>
      let y := x * 10 + default 0 (digit c) in
      if overflow || (int64_max / 10 <? x) || (2 ^ 63 <? y) then leadingFraction x scale true ds'
      else leadingFraction y (scale * 10) false ds'
  end.

Definition unit_of (u : string) : option Z :=
  if bool_decide (u = "ns") then Some 1
  else if bool_decide (u ∈ ["us"; byte_string [194; 181; 115]%N; byte_string [206; 188; 115]%N])
       then Some Microsecond
  else if bool_decide (u = "ms") then Some Millisecond
  else if bool_decide (u = "s") then Some Second
  else if bool_decide (u = "m") then Some Minute
  else if bool_decide (u = "h") then Some Hour
  else None.

Definition is_dot (c : Ascii.ascii) : bool := bool_decide (c = "."%char).

(** One number with its unit, in nanoseconds, and the rest of the string. *)
Definition duration_term (s : string) : option (Z * string) :=
  let (ints, s1) := span is_digit s in
  match leadingInt 0 ints with
  | None => None
  | Some v =>
      let '(fracs, s2) :=
        match s1 with
        | String c s' => if is_dot c then span is_digit s' else (EmptyString, s1)
        | EmptyString => (EmptyString, s1)
        end in
      let (f, scale) := leadingFraction 0 1 false fracs in
      if bool_decide (ints = EmptyString) && bool_decide (fracs = EmptyString) then None
      else
        let (u, s3) := span (fun c => negb (is_dot c || is_digit c)) s2 in
        match unit_of u with
        | None => None
        | Some unit =>
            if 2 ^ 63 / unit <? v then None
            else
              let v' := v * unit +
                (if 0 <? f then to_int (fmul (of_int f) (fdiv (of_int unit) (of_int scale))) else 0) in
              if 2 ^ 63 <? v' then None else Some (v', s3)
        end
  end.

(** The sum of the terms; every term consumes at least one byte. *)
Fixpoint duration_terms (fuel : nat) (d : Z) (s : string) : option Z :=
  match s with
  | EmptyString => Some d
  | _ =>
      match fuel with
      | O => None
      | S fuel' =>
          match duration_term s with
          | None => None
          | Some (v, s') => if 2 ^ 63 <? d + v then None else duration_terms fuel' (d + v) s'
          end
      end
  end.

(** [time.ParseDuration]. *)
Definition ParseDuration (s : string) : option Z :=
  let '(neg, body) :=
    match s with
    | String "-"%char s' => (true, s')
    | String "+"%char s' => (false, s')
    | _ => (false, s)
    end in
  if bool_decide (body = "0") then Some 0
  else if bool_decide (body = EmptyString) then None
  else
    match duration_terms (String.length body) 0 body with
    | None => None
    | Some d => if (neg : bool) then Some (- d) else if int64_max <? d then None else Some d
    end.

Example ParseDuration_ex :
  ParseDuration "1h15m30.918s" = Some (Hour + 15 * Minute + 30 * Second + 918 * Millisecond) /\
  ParseDuration "-.5s" = Some (- (500 * Millisecond)) /\ ParseDuration "30" = None /\
  ParseDuration "0" = Some 0 /\ ParseDuration ".s" = None /\ ParseDuration "3000000h" = None.
Proof. vm_compute. repeat split; reflexivity. Qed.
