(* ===== verification/GoJson.v ===== *)
(** GoJson: the parts of Go's [encoding/json] the program uses on payloads.

    [parse] is [json.Valid] together with the decoder's view of a valid text: a
    tree with decoded strings and the literals of numbers. Invalid UTF-8 and
    lone surrogates in a string become U+FFFD, nesting is limited to 10000
    levels, and the members of an object keep their order and duplicates, so
    that decoding into a struct and into a map can both be read off the tree. *)

From Stdlib Require Import Ascii.
From S2P Require Import Prelude Float64 GoStrconv.

Inductive json : Type :=
  | JNull
  | JBool (b : bool)
  | JNum (lit : string)
  | JStr (s : string)
  | JArr (items : list json)
  | JObj (members : list (string * json)).

(** ** Bytes and runes *)

Definition byte (c : ascii) : N := N_of_ascii c.
Definition within (lo hi : N) (c : ascii) : bool := ((lo <=? byte c) && (byte c <=? hi))%N.

(** [utf8.DecodeRune] at the start of a text whose first byte is not ASCII: the
    bytes of a well-formed sequence and the rest, or [None]. *)
Definition take_rune (s : string) : option (string * string) :=
  let cont := within 128 191 in
  match s with
  | String a (String b rest) =>
      if within 194 223 a && cont b then Some (String a (String b EmptyString), rest)
      else
        match rest with
        | String c rest' =>
            let second :=
              if (byte a =? 224)%N then within 160 191 b
              else if (byte a =? 237)%N then within 128 159 b
              else within 225 239 a && cont b in
            if second && cont c then Some (String a (String b (String c EmptyString)), rest')
            else
              match rest' with
              | String d rest'' =>
                  let second :=
                    if (byte a =? 240)%N then within 144 191 b
                    else if (byte a =? 244)%N then within 128 143 b
                    else within 241 243 a && cont b in
                  if second && cont c && cont d
                  then Some (String a (String b (String c (String d EmptyString))), rest'')
                  else None
              | EmptyString => None
              end
        | EmptyString => None
        end
  | _ => None
  end.

(** U+FFFD. *)
Definition replacement : string := byte_string [239; 191; 189]%N.

(** [utf8.AppendRune] for a code point that is no surrogate. *)
Definition encode_rune (r : N) : string :=
  byte_string
    (if r <? 128 then [r]
     else if r <? 2048 then [192 + r / 64; 128 + r mod 64]
     else if r <? 65536 then [224 + r / 4096; 128 + r / 64 mod 64; 128 + r mod 64]
     else [240 + r / 262144; 128 + r / 4096 mod 64; 128 + r / 64 mod 64; 128 + r mod 64])%N.

Definition hex_digit (c : ascii) : option N :=
  if within 48 57 c then Some (byte c - 48)%N
  else if within 97 102 c then Some (byte c - 87)%N
  else if within 65 70 c then Some (byte c - 55)%N
  else None.

(** Four hexadecimal digits. *)
Definition getu4 (s : string) : option (N * string) :=
  match s with
  | String a (String b (String c (String d rest))) =>
      match hex_digit a, hex_digit b, hex_digit c, hex_digit d with
      | Some a, Some b, Some c, Some d => Some ((((a * 16 + b) * 16 + c) * 16 + d)%N, rest)
      | _, _, _, _ => None
      end
  | _ => None
  end.

Definition is_surrogate (r : N) : bool := ((55296 <=? r) && (r <? 57344))%N.

(** What follows [\u]: a code point, a surrogate pair, or a lone surrogate. *)
Definition unicode_escape (s : string) : option (string * string) :=
  match getu4 s with
  | None => None
  | Some (r, rest) =>
      if is_surrogate r then
        match strip_prefix "\u" rest with
        | Some rest1 =>
            match getu4 rest1 with
            | Some (r2, rest2) =>
                if ((r <? 56320) && (56320 <=? r2) && (r2 <? 57344))%N
                then Some (encode_rune ((r - 55296) * 1024 + (r2 - 56320) + 65536)%N, rest2)
                else Some (replacement, rest)
            | None => Some (replacement, rest)
            end
        | None => Some (replacement, rest)
        end
      else Some (encode_rune r, rest)
  end.

Definition dquote : ascii := ascii_of_N 34.
Definition backslash : ascii := ascii_of_N 92.

(** A text in quotes. *)
Definition quoted (s : string) : string := String dquote (s +:+ String dquote EmptyString).

Definition simple_escape (c : ascii) : option ascii :=
  if bool_decide (c = dquote) || bool_decide (c = backslash) || bool_decide (c = "/"%char) then Some c
  else match c with
  | "b"%char => Some (ascii_of_N 8)
  | "f"%char => Some (ascii_of_N 12)
  | "n"%char => Some (ascii_of_N 10)
  | "r"%char => Some (ascii_of_N 13)
  | "t"%char => Some (ascii_of_N 9)
  | _ => None
  end.

(** ** The scanner *)

(** The rest of a string after its opening quote: its decoded bytes and what
    follows the closing quote. Every step consumes a byte. *)
Fixpoint unquote (fuel : nat) (s : string) : option (string * string) :=
  match fuel, s with
  | S fuel', String c rest =>
      let continue chunk rest' :=
        match unquote fuel' rest' with
        | Some (t, rest'') => Some (chunk +:+ t, rest'')
        | None => None
        end in
      if bool_decide (c = dquote) then Some (EmptyString, rest)
      else if bool_decide (c = backslash) then
        match rest with
        | String e rest1 =>
            if bool_decide (e = "u"%char) then
              match unicode_escape rest1 with Some (t, rest2) => continue t rest2 | None => None end
            else
              match simple_escape e with
              | Some x => continue (String x EmptyString) rest1
              | None => None
              end
        | EmptyString => None
        end
      else if (byte c <? 32)%N then None
      else if (byte c <? 128)%N then continue (String c EmptyString) rest
      else
        match take_rune s with
        | Some (t, rest1) => continue t rest1
        | None => continue replacement rest
        end
  | _, _ => None
  end.

Definition is_ws (c : ascii) : bool :=
  ((byte c =? 32) || (byte c =? 9) || (byte c =? 13) || (byte c =? 10))%N.
Definition skip_ws (s : string) : string := (span is_ws s).2.

(** The literal of a number: an optional minus, [0] or digits that do not start
    with [0], an optional fraction, an optional exponent. *)
Definition scan_digits1 (s : string) : option (string * string) :=
  match span is_digit s with
  | (EmptyString, _) => None
  | p => Some p
  end.

Definition scan_int (s : string) : option (string * string) :=
  match s with
  | String "0"%char rest => Some ("0", rest)
  | _ => scan_digits1 s
  end.

Definition scan_frac (s : string) : option (string * string) :=
  match s with
  | String "."%char rest =>
      match scan_digits1 rest with Some (ds, rest') => Some ("." +:+ ds, rest') | None => None end
  | _ => Some (EmptyString, s)
  end.

Definition scan_exp (s : string) : option (string * string) :=
  match s with
  | String c rest =>
      if bool_decide (c = "e"%char) || bool_decide (c = "E"%char) then
        let '(sign, rest1) :=
          match rest with
          | String "+"%char r => ("+", r)
          | String "-"%char r => ("-", r)
          | _ => (EmptyString, rest)
          end in
        match scan_digits1 rest1 with
        | Some (ds, rest') => Some (String c EmptyString +:+ sign +:+ ds, rest')
        | None => None
        end
      else Some (EmptyString, s)
  | EmptyString => Some (EmptyString, s)
  end.

Definition scan_number (s : string) : option (string * string) :=
  let '(sign, s1) := match s with String "-"%char r => ("-", r) | _ => (EmptyString, s) end in
  match scan_int s1 with
  | None => None
  | Some (i, s2) =>
      match scan_frac s2 with
      | None => None
      | Some (f, s3) =>
          match scan_exp s3 with
          | None => None
          | Some (e, s4) => Some (sign +:+ i +:+ f +:+ e, s4)
          end
      end
  end.

Definition maxNestingDepth : Z := 10000.

(** A value at nesting [depth]; the members of an object up to its closing
    brace; the items of an array up to its closing bracket. [first] allows the
    closing character in place of a first item. *)
Fixpoint parse_value (fuel : nat) (depth : Z) (s : string) {struct fuel} : option (json * string) :=
  match fuel with
  | O => None
  | S fuel' =>
      match skip_ws s with
      | String c rest =>
          if bool_decide (c = dquote) then
            match unquote (S (String.length rest)) rest with
            | Some (t, rest') => Some (JStr t, rest')
            | None => None
            end
          else if bool_decide (c = "{"%char) then
            if maxNestingDepth <? depth + 1 then None
            else match parse_members fuel' (depth + 1) true rest with
                 | Some (ms, rest') => Some (JObj ms, rest')
                 | None => None
                 end
          else if bool_decide (c = "["%char) then
            if maxNestingDepth <? depth + 1 then None
            else match parse_items fuel' (depth + 1) true rest with
                 | Some (js, rest') => Some (JArr js, rest')
                 | None => None
                 end
          else
            match strip_prefix "null" (String c rest), strip_prefix "true" (String c rest),
                  strip_prefix "false" (String c rest) with
            | Some rest', _, _ => Some (JNull, rest')
            | None, Some rest', _ => Some (JBool true, rest')
            | None, None, Some rest' => Some (JBool false, rest')
            | None, None, None =>
                match scan_number (String c rest) with
                | Some (lit, rest') => Some (JNum lit, rest')
                | None => None
                end
            end
      | EmptyString => None
      end
  end
with parse_members (fuel : nat) (depth : Z) (first : bool) (s : string) {struct fuel} :
    option (list (string * json) * string) :=
  match fuel with
  | O => None
  | S fuel' =>
      match skip_ws s with
      | String c rest =>
          if bool_decide (c = "}"%char) && first then Some ([], rest)
          else if bool_decide (c = dquote) then
            match unquote (S (String.length rest)) rest with
            | None => None
            | Some (key, rest1) =>
                match skip_ws rest1 with
                | String ":"%char rest2 =>
                    match parse_value fuel' depth rest2 with
                    | None => None
                    | Some (v, rest3) =>
                        match skip_ws rest3 with
                        | String "}"%char rest4 => Some ([(key, v)], rest4)
                        | String ","%char rest4 =>
                            match parse_members fuel' depth false rest4 with
                            | Some (ms, rest5) => Some ((key, v) :: ms, rest5)
                            | None => None
                            end
                        | _ => None
                        end
                    end
                | _ => None
                end
            end
          else None
      | EmptyString => None
      end
  end
with parse_items (fuel : nat) (depth : Z) (first : bool) (s : string) {struct fuel} :
    option (list json * string) :=
  match fuel with
  | O => None
  | S fuel' =>
      match skip_ws s with
      | String c rest =>
          if bool_decide (c = "]"%char) && first then Some ([], rest)
          else
            match parse_value fuel' depth s with
            | None => None
            | Some (v, rest1) =>
                match skip_ws rest1 with
                | String "]"%char rest2 => Some ([v], rest2)
                | String ","%char rest2 =>
                    match parse_items fuel' depth false rest2 with
                    | Some (js, rest3) => Some (v :: js, rest3)
                    | None => None
                    end
                | _ => None
                end
            end
      | EmptyString => None
      end
  end.

(** A whole text. Each call of the three functions is nested in one that has
    consumed a byte, or is the value of an item whose array has not: two calls
    per byte suffice. *)
Definition parse (s : string) : option json :=
  match parse_value (2 * String.length s + 2) 0 s with
  | Some (v, rest) => if bool_decide (skip_ws rest = EmptyString) then Some v else None
  | None => None
  end.

Definition Valid (s : string) : bool := match parse s with Some _ => true | None => false end.

(** ** Decoding into a struct *)

(** The folded form under which a member matches a field: upper case, with the
    two non-ASCII letters that fold to ASCII (U+017F and U+212A). *)
Definition upper (c : ascii) : ascii :=
  if within 97 122 c then ascii_of_N (byte c - 32) else c.
Fixpoint foldName_fuel (fuel : nat) (s : string) : string :=
  match fuel with
  | O => s
  | S fuel' =>
      match strip_prefix (byte_string [197; 191]%N) s, strip_prefix (byte_string [226; 132; 170]%N) s, s with
      | Some s', _, _ => String "S"%char (foldName_fuel fuel' s')
      | None, Some s', _ => String "K"%char (foldName_fuel fuel' s')
      | None, None, String c s' => String (upper c) (foldName_fuel fuel' s')
      | None, None, EmptyString => EmptyString
      end
  end.
Definition foldName (s : string) : string := foldName_fuel (String.length s) s.
Definition field_matches (name key : string) : bool :=
  bool_decide (key = name) || bool_decide (foldName key = foldName name).

(** A field of a struct: the members that match it, in order; a [null] leaves
    the field as it is, a value of another type is an error of the whole decoding. *)
Definition decode_field {A} (store : json -> option A) (name : string) (zero : A)
    (members : list (string * json)) : option A :=
  foldl (fun acc m =>
    match acc with
    | None => None
    | Some x =>
        if field_matches name m.1 then
          match m.2 with JNull => Some x | v => store v end
        else Some x
    end) (Some zero) members.

Definition store_string (v : json) : option string :=
  match v with JStr s => Some s | _ => None end.
(** [strconv.ParseInt] of the literal: a fraction or an exponent is an error. *)
Definition store_int64 (v : json) : option Z :=
  match v with JNum lit => Atoi lit | _ => None end.

(** ** [%q] *)

Definition hex_char (n : N) : ascii := if (n <? 10)%N then ascii_of_N (48 + n) else ascii_of_N (87 + n).
Definition hex_escape (c : ascii) : string :=
  "\x" +:+ String (hex_char (byte c / 16)) (String (hex_char (byte c mod 16)) EmptyString).

(** [strconv.Quote]; every well-formed non-ASCII character counts as printable. *)
Fixpoint quote_body (fuel : nat) (s : string) : string :=
  match fuel, s with
  | S fuel', String c rest =>
      if bool_decide (c = dquote) || bool_decide (c = backslash)
      then String backslash (String c (quote_body fuel' rest))
      else if (byte c =? 7)%N then "\a" +:+ quote_body fuel' rest
      else if (byte c =? 8)%N then "\b" +:+ quote_body fuel' rest
      else if (byte c =? 12)%N then "\f" +:+ quote_body fuel' rest
      else if (byte c =? 10)%N then "\n" +:+ quote_body fuel' rest
      else if (byte c =? 13)%N then "\r" +:+ quote_body fuel' rest
      else if (byte c =? 9)%N then "\t" +:+ quote_body fuel' rest
      else if (byte c =? 11)%N then "\v" +:+ quote_body fuel' rest
      else if (byte c <? 32)%N || (byte c =? 127)%N then hex_escape c +:+ quote_body fuel' rest
      else if (byte c <? 128)%N then String c (quote_body fuel' rest)
      else
        match take_rune s with
        | Some (t, rest') => t +:+ quote_body fuel' rest'
        | None => hex_escape c +:+ quote_body fuel' rest
        end
  | _, _ => EmptyString
  end.
Definition Quote (s : string) : string :=
  String dquote (quote_body (String.length s) s +:+ String dquote EmptyString).

Example parse_ex1 :
  parse " {  } " = Some (JObj []) /\ Valid "01" = false /\ Valid "[1,]" = false /\ Valid "[1 , -2.5e+3]" = true /\
  Valid "nul" = false /\ Valid "[true,false,null]" = true /\ Valid "{,}" = false /\ Valid "[] []" = false.
Proof. vm_compute. repeat split; reflexivity. Qed.
