(* ===== verification/PlaySession.v ===== *)
(** PlaySession: sessions, keys and request checks of the public playground:
    [internal/playground/session.go] and [validation.go].

    A session is a UUID the browser made up; it is no authentication, but the
    prefix of a task's idempotency key, and so decides which tasks a visitor may
    read, cancel and retry. The [google/uuid] package is the class [UUIDText]:
    the canonical text of a UUID has 36 characters, hexadecimal digits and
    dashes, and is read back by [Parse]. *)

From Stdlib Require Import Ascii.
From S2P Require Import Prelude Dharatype GoTime Float64 GoStrconv GoJson Metrics Pg.
Open Scope dhara_scope.

(** ** Strings *)

Definition HasPrefix (s prefix : string) : bool :=
  match strip_prefix prefix s with Some _ => true | None => false end.

Fixpoint contains (c : ascii) (s : string) : bool :=
  match s with EmptyString => false | String a s' => bool_decide (a = c) || contains c s' end.

(** The parts of [s] before and after the last [c]. *)
Fixpoint cut_last (c : ascii) (s : string) : option (string * string) :=
  match s with
  | EmptyString => None
  | String a s' =>
      match cut_last c s' with
      | Some (l, r) => Some (String a l, r)
      | None => if bool_decide (a = c) then Some (EmptyString, s') else None
      end
  end.

(** The parts of [s] before and after the first [c]. *)
Fixpoint cut_first (c : ascii) (s : string) : option (string * string) :=
  match s with
  | EmptyString => None
  | String a s' =>
      if bool_decide (a = c) then Some (EmptyString, s')
      else match cut_first c s' with Some (l, r) => Some (String a l, r) | None => None end
  end.

(** The host of [net.SplitHostPort]; [None] is an error. *)
Definition SplitHostPort (hostport : string) : option string :=
  match cut_last ":"%char hostport with
  | None => None
  | Some (before, port) =>
      match hostport with
      | String "["%char inner =>
          match cut_first "]"%char inner with
          | None => None
          | Some (host, after) =>
              (* the last colon directly follows the closing bracket *)
              if negb (bool_decide (after = String ":"%char port)) then None
              else if contains "["%char inner || contains "]"%char after then None
              else Some host
          end
      | _ =>
          if contains ":"%char before || contains "["%char hostport || contains "]"%char hostport
          then None else Some before
      end
  end.

(** ** UUIDs *)

Definition uuid_char (c : ascii) : bool :=
  within 48 57 c || within 97 102 c || bool_decide (c = "-"%char).

Fixpoint all_chars (p : ascii -> bool) (s : string) : bool :=
  match s with EmptyString => true | String c s' => p c && all_chars p s' end.

(** [google/uuid], as documented. *)
Class UUIDText := mkUUIDText {
  uuid_String : uuid -> string;
  uuid_Parse : string -> option uuid;
  uuid_String_len u : String.length (uuid_String u) = 36%nat;
  uuid_String_chars u : all_chars uuid_char (uuid_String u) = true;
  uuid_Parse_range s u : uuid_Parse s = Some u -> (u < 2 ^ 128)%N;
  uuid_Parse_String u : (u < 2 ^ 128)%N -> uuid_Parse (uuid_String u) = Some u
}.

(** ** Requests *)

(** What the handlers read of a request besides its body: the session header,
    the [X-Forwarded-For] header and the remote address. *)
Record Request := mkRequest {
  rq_session : string;
  rq_forwarded : string;
  rq_remote : string
}.

Definition ErrSessionRequired : error := NewError "a valid X-Playground-Session header is required".
Definition ErrNotOwned : error := NewError "task does not belong to this playground session".

Section Session.
Context {uuid_text : UUIDText}.

Definition SessionFromRequest (r : Request) : res string :=
  let raw := TrimSpace (rq_session r) in
  if bool_decide (raw = EmptyString) then Err ErrSessionRequired
  else match uuid_Parse raw with
       | None => Err ErrSessionRequired
       | Some id => Ok (uuid_String id)
       end.

Definition keyPrefix : string := "demo:".
Definition sessionKey (session suffix : string) : string :=
  keyPrefix +:+ session +:+ ":" +:+ suffix.

Definition keyBelongsToSession (key : option string) (session : string) : bool :=
  match key with
  | None => false
  | Some k =>
      if bool_decide (session = EmptyString) then false
      else HasPrefix k (keyPrefix +:+ session +:+ ":")
  end.

(** [uuid.NewString()]: a random UUID, the event's [ev_uuid]. *)
Definition uuid_NewString : M string := fun o w => (uuid_String (ev_uuid (o (w_next w))), tick o w).

Definition ownedKey (session : string) : M string :=
  s <- uuid_NewString;
  ret (sessionKey session s).

Definition customKey (session key : string) : res string :=
  let key := TrimSpace key in
  if bool_decide (key = EmptyString) then Err (NewError "idempotency_key must not be empty")
  else
    let full := sessionKey session ("custom:" +:+ key) in
    if 255 <? len full then
      Err (NewError "idempotency_key must be 255 characters or fewer after playground namespacing")
    else Ok full.

Definition requestIP (r : Request) (trustProxy : bool) : string :=
  let first :=
    match cut_first ","%char (rq_forwarded r) with
    | Some (l, _) => TrimSpace l
    | None => TrimSpace (rq_forwarded r)
    end in
  if trustProxy && negb (bool_decide (rq_forwarded r = EmptyString)) && negb (bool_decide (first = EmptyString))
  then first
  else
    let host := match SplitHostPort (rq_remote r) with Some h => h | None => rq_remote r end in
    let host := TrimSpace host in
    if bool_decide (host = EmptyString) then "unknown" else host.

Definition requireOwned (taskKey : option string) (session : string) : res unit :=
  if negb (keyBelongsToSession taskKey session)
  then Err (Annotated ErrNotOwned (Error ErrNotOwned)) else Ok tt.
End Session.

(** ** Validation *)

Definition TypeEcho : string := "echo".
Definition TypeSendEmail : string := "send_email".
Definition TypeAlwaysFail : string := "always_fail".
Definition TypeSlowTask : string := "slow_task".
Definition TypeRealisticWork : string := "realistic_work".
Definition TypeFlaky : string := "playground_flaky".
Definition TypeCrash : string := "playground_crash".

Definition allowedTaskTypes : list string :=
  [TypeEcho; TypeSendEmail; TypeAlwaysFail; TypeSlowTask; TypeRealisticWork; TypeFlaky].
Definition isAllowedType (taskType : string) : bool := bool_decide (taskType ∈ allowedTaskTypes).

(** The members of a valid text that is an object. *)
Definition object_members (raw : string) : list (string * json) :=
  match parse raw with Some (JObj ms) => ms | _ => [] end.

(** The text of a decoding error is the [encoding/json] package's. *)
Definition unmarshal_error (taskType : string) : error :=
  Wrapped ("invalid " +:+ taskType +:+ " payload") (NewError "json: cannot unmarshal").

Definition normalizePayload (taskType raw : string) (now maxBytes : Z) : res string :=
  let raw := if bool_decide (raw = EmptyString) then "{}" else raw in
  if maxBytes <? len raw then
    Err (NewError ("payload must not exceed " +:+ itoa maxBytes +:+ " bytes"))
  else if negb (Valid raw) then Err (NewError "payload must be valid JSON")
  else if negb (HasPrefix (TrimSpace raw) "{") then Err (NewError "payload must be a JSON object")
  else
    let members := object_members raw in
    if bool_decide (taskType = TypeEcho) then
      match decode_field store_string "message" EmptyString members with
      | None => Err (unmarshal_error TypeEcho)
      | Some message =>
          if 1000 <? len message then Err (NewError "echo message must be 1000 characters or fewer")
          else Ok raw
      end
    else if bool_decide (taskType = TypeSendEmail) then
      match decode_field store_string "to" EmptyString members,
            decode_field store_string "subject" EmptyString members with
      | Some to, Some subject =>
          if (320 <? len to) || (200 <? len subject)
          then Err (NewError "send_email to/subject are too long") else Ok raw
      | _, _ => Err (unmarshal_error TypeSendEmail)
      end
    else if bool_decide (taskType = TypeFlaky) then
      match decode_field store_int64 "succeed_at" 0 members with
      | None => Err (unmarshal_error TypeFlaky)
      | Some succeedAt =>
          if succeedAt <=? 0 then
            Err (NewError "playground_flaky payload requires a positive succeed_at")
          else if (succeedAt * Millisecond <? now - Hour) || (now + Hour <? succeedAt * Millisecond) then
            Err (NewError "playground_flaky succeed_at must be within one hour of now")
          else Ok raw
      end
    else if bool_decide (taskType ∈ [TypeAlwaysFail; TypeSlowTask; TypeRealisticWork]) then Ok raw
    else Err (NewError ("task type " +:+ Quote taskType +:+ " is not allowed")).

Definition validateCount (n def max : Z) : res Z :=
  if n =? 0 then Ok def
  else if (n <? 1) || (max <? n) then Err (NewError ("count must be between 1 and " +:+ itoa max))
  else Ok n.

(** ** Lemmas *)

Lemma strip_prefix_app p s : strip_prefix p (p +:+ s) = Some s.
Proof. induction p as [|c p IH]; simpl; [done|]. by rewrite bool_decide_true. Qed.

Lemma strip_prefix_Some p s t : strip_prefix p s = Some t -> s = p +:+ t.
Proof.
  revert s. induction p as [|c p IH]; intros s; simpl.
  - by intros [= ->].
  - destruct s as [|a s]; [done|]. case_bool_decide; [|done]. subst. intros H. by rewrite (IH s H).
Qed.

Lemma HasPrefix_spec s p : HasPrefix s p = true <-> exists t, s = p +:+ t.
Proof.
  unfold HasPrefix. split.
  - destruct (strip_prefix p s) as [t|] eqn:H; [|done]. intros _. exists t. by apply strip_prefix_Some.
  - intros [t ->]. by rewrite strip_prefix_app.
Qed.

Lemma app_string_inj p s t : p +:+ s = p +:+ t -> s = t.
Proof. induction p as [|c p IH]; simpl; [done|]. intros [=]. auto. Qed.

Lemma app_string_length_inj a b s t :
  String.length a = String.length b -> a +:+ s = b +:+ t -> a = b /\ s = t.
Proof.
  revert b. induction a as [|c a IH]; intros [|d b]; simpl; intros Hl H; [done..|].
  injection H as -> H. apply IH in H as [-> ->]; [done|lia].
Qed.

Lemma app_string_assoc (a b c : string) : (a +:+ b) +:+ c = a +:+ (b +:+ c).
Proof. induction a as [|x a IH]; [done|]. exact (f_equal (String x) IH). Qed.

Lemma app_string_nil_r (a : string) : a +:+ EmptyString = a.
Proof. induction a as [|x a IH]; [done|]. exact (f_equal (String x) IH). Qed.

Lemma app_string_length (a b : string) : String.length (a +:+ b) = (String.length a + String.length b)%nat.
Proof. induction a as [|x a IH]; [done|]. exact (f_equal S IH). Qed.

Lemma all_chars_impl (p q : ascii -> bool) s : (forall c, p c = true -> q c = true) ->
  all_chars p s = true -> all_chars q s = true.
Proof.
  intros H. induction s as [|c s IH]; [done|]. cbn. rewrite !andb_true_iff. intros [H1 H2]. split; [by apply H|by apply IH].
Qed.

Lemma all_chars_app p s t : all_chars p (s +:+ t) = all_chars p s && all_chars p t.
Proof.
  induction s as [|c s IH]; [done|]. change (String c s +:+ t) with (String c (s +:+ t)).
  cbn [all_chars]. by rewrite IH, andb_assoc.
Qed.

(** ** Keys of different sessions do not meet *)

Section Keys.
Context {uuid_text : UUIDText}.

(** A session as [SessionFromRequest] gives it. *)
Definition canonical (s : string) : Prop := exists u, (u < 2 ^ 128)%N /\ s = uuid_String u.

Lemma SessionFromRequest_canonical r s : SessionFromRequest r = Ok s -> canonical s.
Proof.
  unfold SessionFromRequest. repeat case_match; intros; simplify_eq.
  eexists. split; [by eapply uuid_Parse_range|done].
Qed.

Lemma canonical_len s : canonical s -> String.length s = 36%nat.
Proof. intros [u [_ ->]]. apply uuid_String_len. Qed.

Lemma canonical_nonempty s : canonical s -> s <> EmptyString.
Proof. intros Hc ->. by apply canonical_len in Hc. Qed.

(** A key of one session belongs to no other. *)
Lemma sessionKey_belongs s s' suffix : canonical s -> canonical s' ->
  keyBelongsToSession (Some (sessionKey s suffix)) s' = true <-> s' = s.
Proof.
  intros Hs Hs'. unfold keyBelongsToSession, sessionKey.
  rewrite bool_decide_false by by apply canonical_nonempty.
  rewrite HasPrefix_spec. split.
  - intros [t H]. rewrite !app_string_assoc in H. apply app_string_inj in H.
    apply app_string_length_inj in H as [? _]; [done|]. by rewrite !canonical_len.
  - intros ->. exists suffix. by rewrite !app_string_assoc.
Qed.

Lemma belongs_unique k s s' : canonical s -> canonical s' ->
  keyBelongsToSession (Some k) s = true -> keyBelongsToSession (Some k) s' = true -> s = s'.
Proof.
  intros Hs Hs' H1 H2. unfold keyBelongsToSession in H1.
  rewrite bool_decide_false in H1 by by apply canonical_nonempty.
  apply HasPrefix_spec in H1 as [t ->]. rewrite !app_string_assoc in H2.
  symmetry. by eapply (sessionKey_belongs s s' t).
Qed.

Lemma customKey_Ok s k full : customKey s k = Ok full ->
  len full <= 255 /\ exists t, full = sessionKey s ("custom:" +:+ t).
Proof.
  unfold customKey. repeat case_match; intros; simplify_eq; bool_to_prop. eauto.
Qed.

(** A key a visitor chose is never one the playground generates: the text of a
    UUID does not start with "custom:". *)
Lemma customKey_not_owned s s' k u : canonical s -> canonical s' ->
  customKey s k <> Ok (sessionKey s' (uuid_String u)).
Proof.
  intros Hs Hs' H. apply customKey_Ok in H as [_ [t H]].
  unfold sessionKey in H. apply app_string_inj in H.
  apply app_string_length_inj in H as [_ H]; [|by rewrite !canonical_len].
  apply app_string_inj in H. pose proof (uuid_String_chars u) as Hc. by rewrite H in Hc.
Qed.
End Keys.

(** ** What validation lets through *)

Lemma normalizePayload_Ok taskType raw now maxBytes p :
  normalizePayload taskType raw now maxBytes = Ok p ->
  isAllowedType taskType = true /\ len p <= maxBytes /\ Valid p = true /\
  HasPrefix (TrimSpace p) "{" = true /\ (p = raw \/ raw = EmptyString /\ p = "{}").
Proof.
  unfold normalizePayload. intros H.
  assert ((if bool_decide (raw = EmptyString) then "{}" else raw) = raw \/
          raw = EmptyString /\ (if bool_decide (raw = EmptyString) then "{}" else raw) = "{}") as Hraw
    by (case_bool_decide; auto).
  revert H Hraw. generalize (if bool_decide (raw = EmptyString) then "{}" else raw). intros raw' H Hraw.
  destruct (_ <? _) eqn:Hlen; [done|]. destruct (Valid raw') eqn:Hvalid; [|done].
  destruct (HasPrefix _ _) eqn:Hobj; [|done]. cbn [negb] in H. bool_to_prop.
  cut (p = raw' /\ taskType ∈ allowedTaskTypes).
  { unfold isAllowedType. intros [-> Ht]. by rewrite bool_decide_true. }
  unfold allowedTaskTypes. revert H. generalize (object_members raw'). intros members H.
  destruct (bool_decide (taskType = TypeEcho)) eqn:H1; bool_to_prop.
  { subst. repeat case_match; simplify_eq. split; [done|by left]. }
  destruct (bool_decide (taskType = TypeSendEmail)) eqn:H2; bool_to_prop.
  { subst. repeat case_match; simplify_eq. split; [done|by right; left]. }
  destruct (bool_decide (taskType = TypeFlaky)) eqn:H3; bool_to_prop.
  { subst. repeat case_match; simplify_eq. split; [done|by repeat constructor]. }
  destruct (bool_decide _) eqn:H4; [|done]. bool_to_prop. simplify_eq. split; [done|].
  clear -H4. set_solver.
Qed.

Lemma validateCount_Ok n def max k : 1 <= def <= max -> validateCount n def max = Ok k -> 1 <= k <= max.
Proof. unfold validateCount. intros Hd. repeat case_match; intros; simplify_eq; bool_to_prop; lia. Qed.
