(* ===== verification/GoText.v ===== *)
(** GoText: facts about [strings.TrimSpace] and the white space of JSON. *)

From Stdlib Require Import Ascii.
From S2P Require Import Prelude Dharatype GoTime Float64 GoStrconv GoJson PlaySession.

(** A byte that no white space of Unicode contains. *)
Definition solid (c : ascii) : bool :=
  forallb (fun p => negb (contains c p)) spaces.

Lemma strip_prefix_contains p x c t : contains c p = false -> strip_prefix p (x +:+ String c t) <> None ->
  exists x', x = p +:+ x' /\ strip_prefix p (x +:+ String c t) = Some (x' +:+ String c t).
Proof.
  revert x. induction p as [|a p IH]; intros x Hc Hs; [by exists x|].
  simpl in Hc. apply orb_false_iff in Hc as [Ha Hc]. destruct x as [|b x].
  - change (EmptyString +:+ String c t) with (String c t) in Hs. simpl in Hs. rewrite Ha in Hs. done.
  - change (String b x +:+ String c t) with (String b (x +:+ String c t)) in *. simpl in *.
    case_bool_decide; [|done]. subst b. destruct (IH x Hc Hs) as (x' & -> & He). exists x'. by split.
Qed.

Lemma head_omap_Some {A B} (f : A -> option B) l b : head (omap f l) = Some b -> exists a, a ∈ l /\ f a = Some b.
Proof.
  induction l as [|a l IH]; simpl; [done|]. destruct (f a) as [b'|] eqn:Hf; simpl.
  - intros [= ->]. exists a. split; [by left|done].
  - intros H. destruct (IH H) as (a' & ? & ?). exists a'. split; [by right|done].
Qed.

(** Trimming stops at a byte that is in no pattern. *)
Lemma trim_left_stops fuel ps x c t : Forall (fun p => contains c p = false) ps ->
  exists x', trim_left fuel ps (x +:+ String c t) = x' +:+ String c t.
Proof.
  intros Hps. revert x. induction fuel as [|fuel IH]; intros x; simpl; [by exists x|].
  destruct (head _) as [s'|] eqn:Hh; [|by exists x].
  apply head_omap_Some in Hh as (p & Hp & Hs). rewrite Forall_forall in Hps.
  destruct (strip_prefix_contains p x c t (Hps p Hp)) as (x' & _ & He); [by rewrite Hs|].
  rewrite He in Hs. injection Hs as <-. apply IH.
Qed.

(** Nothing of [ps] stands at the front. *)
Definition unpadded (ps : list string) (s : string) : Prop := forall p, p ∈ ps -> strip_prefix p s = None.

Lemma unpadded_head ps s : unpadded ps s <-> head (omap (fun p => strip_prefix p s) ps) = None.
Proof.
  unfold unpadded. split; intros H.
  - destruct (head _) as [r|] eqn:Hh; [|done]. apply head_omap_Some in Hh as (p & Hp & Hs). by rewrite H in Hs.
  - intros p Hp. destruct (strip_prefix p s) as [r|] eqn:Hs; [|done].
    apply head_None in H. assert (r ∈ omap (fun p => strip_prefix p s) ps) as Hr by (apply list_elem_of_omap; by exists p).
    rewrite H in Hr. by apply elem_of_nil in Hr.
Qed.

Lemma trim_left_id fuel ps s : unpadded ps s -> trim_left fuel ps s = s.
Proof. intros H%unpadded_head. destruct fuel as [|fuel]; [done|]. simpl. by rewrite H. Qed.

Lemma unpadded_solid ps c t : Forall (fun p => p <> EmptyString /\ contains c p = false) ps -> unpadded ps (String c t).
Proof.
  intros Hps p Hp. rewrite Forall_forall in Hps. destruct (Hps p Hp) as [Hne Hc]. destruct p as [|a p]; [done|]. simpl in *.
  apply orb_false_iff in Hc as [Ha _]. by rewrite Ha.
Qed.

(** Nothing is trimmed before such a byte. *)
Lemma trim_left_solid fuel ps c t : Forall (fun p => p <> EmptyString /\ contains c p = false) ps ->
  trim_left fuel ps (String c t) = String c t.
Proof. intros Hps. by apply trim_left_id, unpadded_solid. Qed.

Lemma string_list_app (x y : string) :
  String.list_ascii_of_string (x +:+ y) = String.list_ascii_of_string x ++ String.list_ascii_of_string y.
Proof. induction x as [|a x IH]; [done|]. exact (f_equal (cons a) IH). Qed.

Lemma list_string_app (x y : list ascii) :
  String.string_of_list_ascii (x ++ y) = String.string_of_list_ascii x +:+ String.string_of_list_ascii y.
Proof. induction x as [|a x IH]; [done|]. exact (f_equal (String a) IH). Qed.

Lemma reverse_app x y : reverse (x +:+ y) = reverse y +:+ reverse x.
Proof. unfold reverse. by rewrite string_list_app, List.rev_app_distr, list_string_app. Qed.

Lemma reverse_reverse x : reverse (reverse x) = x.
Proof.
  unfold reverse. rewrite String.list_ascii_of_string_of_list_ascii, rev_involutive.
  apply String.string_of_list_ascii_of_string.
Qed.

Lemma contains_app c x y : contains c (x +:+ y) = contains c x || contains c y.
Proof.
  induction x as [|a x IH]; [done|]. change (String a x +:+ y) with (String a (x +:+ y)). simpl.
  by rewrite IH, orb_assoc.
Qed.

Lemma contains_reverse c x : contains c (reverse x) = contains c x.
Proof.
  induction x as [|a x IH]; [done|]. change (String a x) with (String a EmptyString +:+ x) at 1.
  rewrite reverse_app, contains_app, IH. cbn. by rewrite orb_false_r, orb_comm.
Qed.

(** ** White space of JSON *)

Lemma span_spec p s : (span p s).1 +:+ (span p s).2 = s /\ all_chars p (span p s).1 = true /\
  match (span p s).2 with String c _ => p c = false | EmptyString => True end.
Proof.
  induction s as [|c s IH]; [done|]. cbn [span]. destruct (p c) eqn:Hp; [|by cbn].
  destruct (span p s) as [a b]. cbn in *. destruct IH as (Heq & Ha & Hb).
  change (String c a +:+ b) with (String c (a +:+ b)). by rewrite Heq, Hp, Ha.
Qed.

Lemma skip_ws_spec s : exists ws, s = ws +:+ skip_ws s /\ all_chars is_ws ws = true /\
  match skip_ws s with String c _ => is_ws c = false | EmptyString => True end.
Proof. destruct (span_spec is_ws s) as (Heq & Ha & Hb). exists (span is_ws s).1. unfold skip_ws. by rewrite Heq. Qed.

Lemma is_ws_cases c : is_ws c = true -> c ∈ map ascii_of_N [32; 9; 13; 10]%N.
Proof.
  unfold is_ws. rewrite !orb_true_iff, !N.eqb_eq. unfold byte. intros H.
  rewrite <- (ascii_N_embedding c). destruct H as [[[->| ->]| ->]| ->]; set_solver.
Qed.

Lemma trim_left_ws ws fuel s : all_chars is_ws ws = true -> (String.length ws <= fuel)%nat ->
  trim_left fuel spaces (ws +:+ s) = trim_left (fuel - String.length ws) spaces s.
Proof.
  revert fuel. induction ws as [|w ws IH]; intros fuel Hws Hf; [by rewrite Nat.sub_0_r|].
  cbn in Hws, Hf. apply andb_true_iff in Hws as [Hw Hws]. destruct fuel as [|fuel]; [lia|].
  change (String w ws +:+ s) with (String w (ws +:+ s)). cbn [String.length Nat.sub].
  rewrite <- IH by (done || lia). cbn [trim_left].
  assert (head (omap (fun p => strip_prefix p (String w (ws +:+ s))) spaces) = Some (ws +:+ s)) as ->; [|done].
  apply is_ws_cases in Hw. generalize (ws +:+ s). clear -Hw. intros t.
  repeat (apply elem_of_cons in Hw as [->|Hw]; [reflexivity|]). by apply elem_of_nil in Hw.
Qed.

Lemma reverse_length s : String.length (reverse s) = String.length s.
Proof.
  induction s as [|c s IH]; [done|]. change (String c s) with (String c EmptyString +:+ s) at 1.
  rewrite reverse_app, app_string_length, IH. simpl. lia.
Qed.

Lemma no_empty_space : EmptyString ∉ spaces.
Proof. apply (bool_decide_unpack _). vm_compute. exact I. Qed.

Lemma solid_spaces c : solid c = true -> Forall (fun p => p <> EmptyString /\ contains c p = false) spaces.
Proof.
  intros Hs. apply Forall_forall. intros p Hp. split.
  - intros ->. by apply no_empty_space.
  - unfold solid in Hs. rewrite forallb_forall in Hs. apply negb_true_iff, Hs. by apply list_elem_of_In.
Qed.

(** What is trimmed stands before the first and after the last byte that is no
    part of a space; in particular the first one stays. *)
Lemma TrimSpace_solid ws c rest : all_chars is_ws ws = true -> solid c = true ->
  exists t, TrimSpace (ws +:+ String c rest) = String c t.
Proof.
  intros Hws Hc. unfold TrimSpace. apply solid_spaces in Hc as Hps.
  rewrite trim_left_ws by (done || (rewrite app_string_length; lia)).
  rewrite trim_left_solid by done. cbv zeta.
  change (String c rest) with (String c EmptyString +:+ rest). rewrite reverse_app.
  change (reverse (String c EmptyString)) with (String c EmptyString).
  destruct (trim_left_stops (String.length (String c EmptyString +:+ rest)) (map reverse spaces) (reverse rest) c EmptyString)
    as [x Hx].
  { apply Forall_map. eapply Forall_impl; [exact Hps|]. intros p [_ Hp]. simpl. by rewrite contains_reverse. }
  rewrite Hx, reverse_app. by eexists.
Qed.

Lemma trim_left_unpadded fuel ps s : EmptyString ∉ ps -> (String.length s <= fuel)%nat -> unpadded ps (trim_left fuel ps s).
Proof.
  intros Hne. revert s. induction fuel as [|fuel IH]; intros s Hf; simpl.
  - destruct s; [|simpl in Hf; lia]. intros [|a p] Hp; [by destruct Hne|done].
  - destruct (head _) as [s'|] eqn:Hh; [|by apply unpadded_head]. apply IH.
    apply head_omap_Some in Hh as (p & Hp & ->%strip_prefix_Some). rewrite app_string_length in Hf.
    destruct p; [by destruct Hne|]. simpl in Hf. lia.
Qed.

Lemma trim_left_suffix fuel ps s : exists x, s = x +:+ trim_left fuel ps s.
Proof.
  revert s. induction fuel as [|fuel IH]; intros s; simpl; [by exists EmptyString|].
  destruct (head _) as [s'|] eqn:Hh; [|by exists EmptyString].
  apply head_omap_Some in Hh as (p & _ & ->%strip_prefix_Some). destruct (IH s') as [x Hx]. exists (p +:+ x).
  by rewrite app_string_assoc, <- Hx.
Qed.

Lemma unpadded_prefix ps a b : unpadded ps (a +:+ b) -> unpadded ps a.
Proof.
  intros H p Hp. destruct (strip_prefix p a) as [r|] eqn:Hs; [|done]. apply strip_prefix_Some in Hs as ->.
  specialize (H p Hp). by rewrite app_string_assoc, strip_prefix_app in H.
Qed.

Lemma no_empty_reversed : EmptyString ∉ map reverse spaces.
Proof. apply (bool_decide_unpack _). vm_compute. exact I. Qed.

Lemma TrimSpace_id s : unpadded spaces s -> unpadded (map reverse spaces) (reverse s) -> TrimSpace s = s.
Proof. intros H1 H2. unfold TrimSpace. cbv zeta. rewrite !(trim_left_id _ spaces s H1), (trim_left_id _ _ _ H2). apply reverse_reverse. Qed.

(** What was trimmed needs no trimming. *)
Lemma TrimSpace_idem s : TrimSpace (TrimSpace s) = TrimSpace s.
Proof.
  apply TrimSpace_id; unfold TrimSpace; cbv zeta; set (s1 := trim_left (String.length s) spaces s).
  - assert (unpadded spaces s1) as H1 by (apply trim_left_unpadded; [apply no_empty_space|done]).
    destruct (trim_left_suffix (String.length s1) (map reverse spaces) (reverse s1)) as [x Hx].
    apply (f_equal reverse) in Hx. rewrite reverse_reverse, reverse_app in Hx. rewrite Hx in H1 at 1.
    exact (unpadded_prefix _ _ _ H1).
  - rewrite reverse_reverse. apply trim_left_unpadded; [apply no_empty_reversed|by rewrite reverse_length].
Qed.

(** A text between two solid bytes is kept. *)
Lemma TrimSpace_between c s x d : solid c = true -> solid d = true -> String c s = x +:+ String d EmptyString ->
  TrimSpace (String c s) = String c s.
Proof.
  intros Hc Hd Heq. apply TrimSpace_id; [by apply unpadded_solid, solid_spaces|].
  rewrite Heq, reverse_app. change (reverse (String d EmptyString)) with (String d EmptyString).
  change (String d EmptyString +:+ reverse x) with (String d (reverse x)). apply unpadded_solid, Forall_map.
  apply Forall_forall. intros p Hp. pose proof (solid_spaces d Hd) as Hs. rewrite Forall_forall in Hs.
  destruct (Hs p Hp) as [Hne Hx]. simpl. split; [|by rewrite contains_reverse].
  intros He. apply (f_equal reverse) in He. rewrite reverse_reverse in He. by apply Hne.
Qed.

(** ** The first byte of a JSON text *)

Lemma scan_number_head c s : is_Some (scan_number (String c s)) -> c = "-"%char \/ is_digit c = true.
Proof.
  unfold scan_number. destruct (decide (c = "-"%char)) as [->|Hne]; [by left|]. right.
  destruct (is_digit c) eqn:Hd; [done|]. exfalso.
  assert (scan_int (String c s) = None) as Hn.
  { unfold scan_int, scan_digits1. simpl. rewrite Hd.
    destruct c as [[] [] [] [] [] [] [] []]; done. }
  revert H. destruct c as [[] [] [] [] [] [] [] []]; try done; rewrite Hn; by intros [? ?].
Qed.

(** The first byte of a value is solid, and only an object starts with a brace. *)
Lemma parse_value_head fuel depth s v rest : parse_value fuel depth s = Some (v, rest) ->
  exists c t, skip_ws s = String c t /\ solid c = true /\ (c = "{"%char -> exists ms, v = JObj ms).
Proof.
  destruct fuel as [|fuel]; [done|]. cbn [parse_value]. destruct (skip_ws s) as [|c t]; [done|].
  intros H. exists c, t. split; [done|].
  case_bool_decide as Hq; [subst; split; [reflexivity|by intros]|].
  destruct (bool_decide (c = "{"%char)) eqn:Hb; [apply bool_decide_eq_true in Hb; subst|apply bool_decide_eq_false in Hb].
  { split; [reflexivity|]. intros _. repeat case_match; simplify_eq. eauto. }
  split; [|done]. destruct (bool_decide (c = "["%char)) eqn:Hl; [apply bool_decide_eq_true in Hl; by subst|].
  destruct (strip_prefix "null" _) eqn:H1;
    [apply strip_prefix_Some in H1; injection H1 as -> _; reflexivity|].
  destruct (strip_prefix "true" _) eqn:H2;
    [apply strip_prefix_Some in H2; injection H2 as -> _; reflexivity|].
  destruct (strip_prefix "false" _) eqn:H3;
    [apply strip_prefix_Some in H3; injection H3 as -> _; reflexivity|].
  destruct (scan_number _) eqn:H4; [|done].
  destruct (scan_number_head c t) as [->|Hd]; [by rewrite H4|reflexivity|].
  revert Hd. clear. destruct c as [[] [] [] [] [] [] [] []]; (done || (intros _; vm_compute; reflexivity)).
Qed.

(** A valid text that starts with a brace once trimmed is an object. *)
Lemma parse_object raw : Valid raw = true -> HasPrefix (TrimSpace raw) "{" = true ->
  exists ms, parse raw = Some (JObj ms).
Proof.
  unfold Valid. destruct (parse raw) as [v|] eqn:Hp; [|done]. intros _ Hpre. unfold parse in Hp.
  destruct (parse_value _ _ raw) as [[v' rest]|] eqn:Hv; [|done].
  assert (v' = v) as -> by (by case_bool_decide; simplify_eq). clear Hp.
  apply parse_value_head in Hv as (c & t & Hs & Hc & Hobj).
  destruct (skip_ws_spec raw) as (ws & Hraw & Hws & _). rewrite Hs in Hraw.
  destruct (TrimSpace_solid ws c t Hws Hc) as [t' Ht]. rewrite Hraw, Ht in Hpre.
  apply HasPrefix_spec in Hpre as [u Hu]. injection Hu as -> _. destruct Hobj as [ms ->]; [done|]. eauto.
Qed.
