(* ===== verification/GoDecimal.v ===== *)
(** GoDecimal: the decimal text of an integer and its reading.

    [itoa] writes what [digits], [Atoi] and the scanner of numbers read. *)

From Stdlib Require Import Ascii.
From stdpp Require Import pretty.
From S2P Require Import Prelude Dharatype GoTime Float64 GoStrconv GoJson PlaySession GoText.

(** [ds] writes [n], from an accumulator on. *)
Definition writes (n : Z) (ds : string) : Prop :=
  all_chars is_digit ds = true /\ forall acc t, digits acc (ds +:+ t) = digits (acc * 10 ^ len ds + n) t.

Lemma pretty_N_char_digit x : (x < 10)%N -> digit (pretty_N_char x) = Some (Z.of_N x).
Proof.
  intros Hx. assert (x ∈ map N.of_nat (seq 0 10)) as Hin.
  { apply list_elem_of_fmap. exists (N.to_nat x). rewrite N2Nat.id. split; [done|]. apply elem_of_seq. lia. }
  cbn in Hin. repeat (apply elem_of_cons in Hin as [->|Hin]; [reflexivity|]). by apply elem_of_nil in Hin.
Qed.

Lemma is_digit_pretty x : (x < 10)%N -> is_digit (pretty_N_char x) = true.
Proof. intros Hx. unfold is_digit. by rewrite pretty_N_char_digit. Qed.

Lemma writes_nil : writes 0 EmptyString.
Proof. split; [done|]. intros acc t. change (EmptyString +:+ t) with t. f_equal. unfold len. simpl. lia. Qed.

Lemma writes_snoc n x ds : writes n ds -> (x < 10)%N ->
  writes (10 * n + Z.of_N x) (ds +:+ String (pretty_N_char x) EmptyString).
Proof.
  intros [Hd Hw] Hx. split.
  - rewrite all_chars_app, Hd. cbn. by rewrite is_digit_pretty.
  - intros acc t. rewrite app_string_assoc, Hw. change (String (pretty_N_char x) EmptyString +:+ t)
      with (String (pretty_N_char x) t). cbn [digits]. rewrite pretty_N_char_digit by done. f_equal.
    unfold len. rewrite app_string_length. simpl. rewrite Nat2Z.inj_add, Z.pow_add_r by lia. lia.
Qed.

(** The digits of a positive number do not start with a zero. *)
Lemma pretty_N_go_writes x : (0 < x)%N -> exists c ds,
  (forall s, pretty_N_go x s = String c ds +:+ s) /\ writes (Z.of_N x) (String c ds) /\ c <> "0"%char.
Proof.
  induction (N.lt_wf_0 x) as [x _ IH]. intros Hx.
  destruct (decide (x < 10)%N) as [Hs|Hs].
  - exists (pretty_N_char x), EmptyString. split_and!.
    + intros s. rewrite pretty_N_go_step, N.div_small, N.mod_small by done. done.
    + pose proof (writes_snoc 0 x EmptyString writes_nil Hs) as Hw. exact Hw.
    + destruct x as [|x]; [lia|]. do 4 (destruct x; try done); lia.
  - destruct (IH (x `div` 10)%N) as (c & ds & Hgo & Hw & Hc); [by apply N.div_lt|by apply N.div_str_pos; lia|].
    exists c, (ds +:+ String (pretty_N_char (x `mod` 10)) EmptyString). split_and!; [| |done].
    + intros s. rewrite pretty_N_go_step, Hgo by done.
      change (String c (ds +:+ String (pretty_N_char (x `mod` 10)) EmptyString))
        with (String c ds +:+ String (pretty_N_char (x `mod` 10)) EmptyString). by rewrite app_string_assoc.
    + pose proof (writes_snoc _ (x `mod` 10)%N _ Hw (N.mod_lt x 10 ltac:(done))) as Hw'.
      rewrite N2Z.inj_div, N2Z.inj_mod in Hw'. change (Z.of_N 10) with 10 in Hw'.
      rewrite <- Z_div_mod_eq_full in Hw'. exact Hw'.
Qed.

(** A number in decimal: digits, the first of them no zero unless it is all. *)
Lemma itoa_writes n : 0 <= n -> exists c ds,
  itoa n = String c ds /\ writes n (String c ds) /\ is_digit c = true /\ (c = "0"%char -> n = 0 /\ ds = EmptyString).
Proof.
  intros Hn. destruct n as [|p|p]; [| |lia].
  - exists "0"%char, EmptyString. split_and!; [done| |done..]. exact (writes_snoc 0 0 EmptyString writes_nil eq_refl).
  - change (itoa (Z.pos p)) with (pretty_N (N.pos p)). unfold pretty_N. rewrite decide_False by done.
    destruct (pretty_N_go_writes (N.pos p)) as (c & ds & Hgo & Hw & Hc); [done|]. exists c, ds.
    rewrite Hgo, app_string_nil_r. split_and!; [done..| |done]. destruct Hw as [Hd _]. cbn in Hd. bool_to_prop. done.
Qed.

Lemma digits_itoa n acc t : 0 <= n -> digits acc (itoa n +:+ t) = digits (acc * 10 ^ len (itoa n) + n) t.
Proof. intros Hn. destruct (itoa_writes n Hn) as (c & ds & -> & [_ Hw] & _). apply Hw. Qed.

Lemma all_digits_itoa n : 0 <= n -> all_chars is_digit (itoa n) = true.
Proof. intros Hn. by destruct (itoa_writes n Hn) as (c & ds & -> & [Hd _] & _). Qed.

Lemma itoa_neg n : 0 < n -> itoa (- n) = String "-" (itoa n).
Proof. by destruct n. Qed.

Lemma Atoi_itoa n : in_int64 n = true -> Atoi (itoa n) = Some n.
Proof.
  intros Hi. destruct (Z.le_gt_cases 0 n) as [Hn|Hn].
  - destruct (itoa_writes n Hn) as (c & ds & Heq & _ & Hd & _).
    assert (digits 0 (itoa n) = Some n) as Hds.
    { rewrite <- (app_string_nil_r (itoa n)), digits_itoa by done. done. }
    rewrite Heq in *. unfold Atoi. cbn [Z.mul] in Hds.
    destruct c as [[] [] [] [] [] [] [] []]; try done; rewrite Hds; by rewrite Hi.
  - rewrite <- (Z.opp_involutive n), itoa_neg by lia. cbn [Atoi].
    destruct (itoa_writes (- n)) as (c & ds & Heq & _); [lia|].
    assert (digits 0 (itoa (- n)) = Some (- n)) as Hds.
    { rewrite <- (app_string_nil_r (itoa (- n))), digits_itoa by lia. done. }
    rewrite Heq in *. rewrite Hds. rewrite Z.opp_involutive. by rewrite Hi.
Qed.

(** The scanners stop after the digits of a number. *)
Lemma span_app p a b : all_chars p a = true ->
  match b with String c _ => p c = false | EmptyString => True end -> span p (a +:+ b) = (a, b).
Proof.
  intros Ha Hb. induction a as [|c a IH].
  - change (EmptyString +:+ b) with b. destruct b as [|c b]; [done|]. simpl. by rewrite Hb.
  - cbn in Ha. apply andb_true_iff in Ha as [Hc Ha]. change (String c a +:+ b) with (String c (a +:+ b)).
    cbn [span]. by rewrite Hc, IH.
Qed.

Lemma scan_int_itoa n t : 0 <= n -> match t with String c _ => is_digit c = false | EmptyString => True end ->
  scan_int (itoa n +:+ t) = Some (itoa n, t).
Proof.
  intros Hn Ht. destruct (itoa_writes n Hn) as (c & ds & Heq & [Hall _] & Hd & H0). rewrite Heq in *.
  change (String c ds +:+ t) with (String c (ds +:+ t)). unfold scan_int.
  destruct (decide (c = "0"%char)) as [->|Hc]; [by destruct (H0 eq_refl) as [_ ->]|].
  assert (scan_digits1 (String c (ds +:+ t)) = Some (String c ds, t)) as Hs.
  { unfold scan_digits1. change (String c (ds +:+ t)) with (String c ds +:+ t). by rewrite span_app. }
  rewrite Hs. by destruct c as [[] [] [] [] [] [] [] []].
Qed.

Lemma skip_ws_solid c s : is_ws c = false -> skip_ws (String c s) = String c s.
Proof. intros Hc. unfold skip_ws. cbn [span]. by rewrite Hc. Qed.

(** The end of a number: no digit, point or exponent follows. *)
Definition ends_number (t : string) : Prop :=
  match t with
  | String c _ => is_digit c || bool_decide (c ∈ ["."; "e"; "E"]%char) = false
  | EmptyString => True
  end.

(** A number in decimal is read as a value of JSON. *)
Lemma parse_value_itoa fuel depth n t : 0 <= n -> ends_number t ->
  parse_value (S fuel) depth (itoa n +:+ t) = Some (JNum (itoa n), t).
Proof.
  intros Hn Ht. assert (scan_number (itoa n +:+ t) = Some (itoa n, t)) as Hs.
  { assert (scan_int (itoa n +:+ t) = Some (itoa n, t)) as Hi.
    { apply scan_int_itoa; [done|]. destruct t as [|c t]; [done|]. simpl in Ht. by apply orb_false_iff in Ht as [? _]. }
    destruct (itoa_writes n Hn) as (c & ds & Heq & _ & Hd & _). rewrite Heq in *.
    change (String c ds +:+ t) with (String c (ds +:+ t)) in *.
    unfold scan_number. destruct (decide (c = "-"%char)) as [->|Hm]; [done|].
    assert (scan_frac t = Some (EmptyString, t) /\ scan_exp t = Some (EmptyString, t)) as [Hf He].
    { destruct t as [|a t]; [done|]. simpl in Ht. apply orb_false_iff in Ht as [_ Ha].
      apply bool_decide_eq_false in Ha. unfold scan_frac, scan_exp.
      rewrite (bool_decide_false (a = "e"%char)), (bool_decide_false (a = "E"%char)) by set_solver.
      split; [|done]. destruct (decide (a = "."%char)) as [->|]; [set_solver|].
      by destruct a as [[] [] [] [] [] [] [] []]. }
    destruct c as [[] [] [] [] [] [] [] []]; try done; rewrite Hi, Hf, He; by rewrite !app_string_nil_r. }
  destruct (itoa_writes n Hn) as (c & ds & Heq & _ & Hd & _). rewrite Heq in *.
  change (String c ds +:+ t) with (String c (ds +:+ t)) in *.
  assert (is_ws c = false /\ Forall (fun a => c <> a) [dquote; "{"; "["; "n"; "t"; "f"]%char) as [Hw Hne].
  { revert Hd. clear. destruct c as [[] [] [] [] [] [] [] []]; (done || (intros _; split; [done|by repeat constructor])). }
  repeat (apply Forall_cons in Hne as [? Hne]). cbn [parse_value]. rewrite skip_ws_solid by done.
  cbn [strip_prefix]. rewrite !bool_decide_false by congruence. by rewrite Hs.
Qed.

(** A string of printable ASCII characters needs no escapes. *)
Definition printable (c : ascii) : bool := within 32 126 c && negb (bool_decide (c ∈ [dquote; backslash])).

Lemma unquote_printable s r fuel : all_chars printable s = true -> (String.length s < fuel)%nat ->
  unquote fuel (s +:+ String dquote r) = Some (s, r).
Proof.
  revert fuel. induction s as [|c s IH]; intros [|fuel] Hs Hf; cbn in Hs, Hf; [lia|done|lia|].
  apply andb_true_iff in Hs as [Hc Hs]. change (String c s +:+ String dquote r) with (String c (s +:+ String dquote r)).
  unfold printable, within in Hc. bool_to_prop. rewrite N.leb_le in *. cbn [unquote].
  rewrite !bool_decide_false by set_solver.
  rewrite (proj2 (N.ltb_ge _ _)) by lia. rewrite (proj2 (N.ltb_lt _ _)) by lia. by rewrite IH by (done || lia).
Qed.

(** An object with one integer member. *)
Lemma parse_int_member key n : all_chars printable key = true -> 0 <= n ->
  parse ("{" +:+ String dquote (key +:+ String dquote (":" +:+ itoa n +:+ "}"))) = Some (JObj [(key, JNum (itoa n))]).
Proof.
  intros Hk Hn. set (tail := itoa n +:+ "}"). unfold parse.
  change ("{" +:+ String dquote (key +:+ String dquote (":" +:+ tail)))
    with (String "{" (String dquote (key +:+ String dquote (String ":" tail)))).
  set (txt := String "{" _). assert (exists k, (2 * String.length txt + 2)%nat = S (S (S k))) as [k ->].
  { exists (2 * String.length txt - 1)%nat. subst txt. cbn [String.length]. lia. }
  subst txt. cbn [parse_value]. rewrite skip_ws_solid by done. rewrite bool_decide_false by done.
  rewrite bool_decide_true by done. change (maxNestingDepth <? 0 + 1) with false. cbn [parse_members].
  rewrite skip_ws_solid by done. rewrite bool_decide_false by done. rewrite bool_decide_true by done. cbn [andb].
  rewrite unquote_printable by (done || (rewrite app_string_length; lia)).
  rewrite skip_ws_solid by done. subst tail. by rewrite parse_value_itoa.
Qed.

(** ** The size of a number of so many digits *)

Lemma len_cons c s : len (String c s) = 1 + len s.
Proof. unfold len. simpl. lia. Qed.

Lemma len_app a b : len (a +:+ b) = len a + len b.
Proof. unfold len. rewrite app_string_length. lia. Qed.

Lemma len_nonneg s : 0 <= len s.
Proof. unfold len. lia. Qed.

Lemma digit_range c d : digit c = Some d -> 0 <= d <= 9.
Proof. unfold digit. destruct (_ && _) eqn:H; [|done]. intros [= <-]. bool_to_prop. lia. Qed.

Lemma digits_bounds s acc v : 0 <= acc -> digits acc s = Some v -> acc * 10 ^ len s <= v < (acc + 1) * 10 ^ len s.
Proof.
  revert acc. induction s as [|c s IH]; intros acc Hacc; cbn [digits].
  - intros [= ->]. change (10 ^ len EmptyString) with 1. lia.
  - destruct (digit c) as [d|] eqn:Hd; [|done]. apply digit_range in Hd. intros H. apply IH in H; [|lia].
    rewrite len_cons, Z.pow_add_r by (apply len_nonneg || lia). pose proof (len_nonneg s).
    assert (0 < 10 ^ len s) by (apply Z.pow_pos_nonneg; lia). nia.
Qed.

Lemma itoa_bounds n : 0 < n -> 10 ^ (len (itoa n) - 1) <= n < 10 ^ len (itoa n).
Proof.
  intros Hn. destruct (itoa_writes n) as (c & ds & Heq & _ & Hd & H0); [lia|].
  assert (digits 0 (itoa n) = Some n) as Hds.
  { rewrite <- (app_string_nil_r (itoa n)), digits_itoa by lia. done. }
  split; [|pose proof (digits_bounds (itoa n) 0 n ltac:(lia) Hds); lia].
  rewrite Heq in *. cbn [digits] in Hds. unfold is_digit in Hd. destruct (digit c) as [d|] eqn:Hc; [|done].
  pose proof (digit_range _ _ Hc). assert (d <> 0) as Hd0.
  { intros ->. assert (c = "0"%char) as ->; [|destruct (H0 eq_refl); lia].
    unfold digit in Hc. destruct (_ && _) eqn:Hb; [|done]. injection Hc as Hc.
    assert (N_of_ascii c = 48%N) as Hn48 by lia. rewrite <- (ascii_N_embedding c), Hn48. reflexivity. }
  apply digits_bounds in Hds; [|lia]. rewrite len_cons. replace (1 + len ds - 1) with (len ds) by lia.
  assert (0 < 10 ^ len ds) by (apply Z.pow_pos_nonneg; [lia|apply len_nonneg]). nia.
Qed.

Lemma all_digits_zeros j : all_chars is_digit (zeros j) = true.
Proof. induction j as [|j IH]; [done|]. exact IH. Qed.

Lemma len_zeros j : len (zeros j) = Z.of_nat j.
Proof.
  induction j as [|j IH]; [done|]. change (zeros (S j)) with (String "0" (zeros j)). rewrite len_cons, IH. lia.
Qed.

Lemma digits_zeros j acc t : digits acc (zeros j +:+ t) = digits (acc * 10 ^ Z.of_nat j) t.
Proof.
  revert acc. induction j as [|j IH]; intros acc.
  - change (zeros 0 +:+ t) with t. f_equal. cbn. lia.
  - change (zeros (S j) +:+ t) with (String "0" (zeros j +:+ t)). cbn [digits]. change (digit "0") with (Some 0). cbv beta iota.
    rewrite IH. f_equal. rewrite Nat2Z.inj_succ, Z.pow_succ_r by lia. lia.
Qed.
