(* ===== verification/GoDuration.v ===== *)
(** GoDuration: [time.ParseDuration] reads what [Duration.String] writes.

    The fraction of a number of seconds, milliseconds or microseconds is read
    with a [float64] multiplication; for the fractions that are written it is
    exact. *)

From Stdlib Require Import Ascii.
From S2P Require Import Prelude Dharatype GoTime Float64 GoStrconv GoJson PlaySession GoText GoDecimal.

(** ** The float64 multiplication *)

Lemma to_int_round53 v t : 0 <= v < 2 ^ 53 -> 0 <= t -> to_int (round53 (v * 2 ^ t) (- t)) = v.
Proof.
  intros Hv Ht. assert (0 < 2 ^ t) as Hp by (apply Z.pow_pos_nonneg; lia).
  assert (forall k, 0 <= k <= t -> to_int (mkFloat (v * 2 ^ (t - k)) (- t + k)) = v) as Hto.
  { intros k Hk. unfold to_int. cbn [f_man f_exp]. destruct (Z.leb_spec 0 (- t + k)).
    - replace k with t by lia. rewrite Z.sub_diag, Z.add_opp_diag_l. cbn. lia.
    - replace (- (- t + k)) with (t - k) by lia. apply Z.div_mul. assert (0 < 2 ^ (t - k)) by (apply Z.pow_pos_nonneg; lia). lia. }
  unfold round53. destruct (Z.leb_spec (Z.log2 (v * 2 ^ t) - 52) 0) as [Hk|Hk].
  { specialize (Hto 0). rewrite Z.sub_0_r, Z.add_0_r in Hto. apply Hto. lia. }
  destruct (Z.eq_dec v 0) as [->|Hv0]; [simpl in Hk; lia|]. set (k := Z.log2 (v * 2 ^ t) - 52) in *.
  assert (k <= t) as Hkt.
  { assert (Z.log2 (v * 2 ^ t) < 53 + t); [|lia]. apply Z.log2_lt_pow2; [lia|]. rewrite Z.pow_add_r by lia. nia. }
  assert (v * 2 ^ t = v * 2 ^ (t - k) * 2 ^ k) as Hs by (rewrite <- Z.mul_assoc, <- Z.pow_add_r by lia; do 2 f_equal; lia).
  assert (Z.shiftr (v * 2 ^ t) k = v * 2 ^ (t - k)) as Hq.
  { rewrite Z.shiftr_div_pow2 by lia. rewrite Hs. apply Z.div_mul. assert (0 < 2 ^ k) by (apply Z.pow_pos_nonneg; lia). lia. }
  rewrite Hq, (Z.shiftl_mul_pow2 _ k), Hs, Z.sub_diag by lia.
  assert (0 < Z.shiftl 1 (k - 1)) by (rewrite Z.shiftl_mul_pow2 by lia; pose proof (Z.pow_pos_nonneg 2 (k - 1)); lia).
  rewrite (proj2 (Z.ltb_ge _ 0)), (proj2 (Z.eqb_neq _ 0)) by lia. cbn [orb andb]. apply Hto. lia.
Qed.

(** A unit of 10^3, 10^6 or 10^9 ns divided by a power of ten. *)
Lemma unit_fraction P j f : P ∈ [3; 6; 9] -> 0 <= j <= P -> 0 <= f < 10 ^ j ->
  to_int (fmul (of_int f) (fdiv (of_int (10 ^ P)) (of_int (10 ^ j)))) = f * 10 ^ (P - j).
Proof.
  intros HP Hj Hf.
  assert (exists t, 0 <= t /\ fdiv (of_int (10 ^ P)) (of_int (10 ^ j)) = mkFloat (10 ^ (P - j) * 2 ^ t) (- t)) as (t & Ht & ->).
  { assert (j ∈ [0; 1; 2; 3; 4; 5; 6; 7; 8; 9]) as Hin.
    { assert (P <= 9) by (repeat (apply elem_of_cons in HP as [->|HP]; [lia|]); by apply elem_of_nil in HP).
      rewrite !elem_of_cons. lia. }
    exists (- f_exp (fdiv (of_int (10 ^ P)) (of_int (10 ^ j)))).
    repeat (apply elem_of_cons in HP as [->|HP]); [..|by apply elem_of_nil in HP];
    repeat (apply elem_of_cons in Hin as [->|Hin]; [first [lia | vm_compute; split; [discriminate|reflexivity]]|]);
      by apply elem_of_nil in Hin. }
  assert (10 ^ j * 10 ^ (P - j) <= 10 ^ 9) as Hle.
  { rewrite <- Z.pow_add_r by lia. apply Z.pow_le_mono_r; [lia|].
    repeat (apply elem_of_cons in HP as [->|HP]; [lia|]). by apply elem_of_nil in HP. }
  assert (0 < 10 ^ (P - j)) by (apply Z.pow_pos_nonneg; lia).
  assert (0 <= f * 10 ^ (P - j) < 2 ^ 53) as Hr by (change (2 ^ 53) with 9007199254740992; change (10 ^ 9) with 1000000000 in Hle; nia).
  assert (of_int f = mkFloat f 0) as ->.
  { unfold of_int, round53. rewrite (proj2 (Z.leb_le _ 0)); [done|].
    destruct (Z.eq_dec f 0) as [->|]; [simpl; lia|]. assert (Z.log2 f < 53); [|lia]. apply Z.log2_lt_pow2; nia. }
  unfold fmul. cbn [f_man f_exp]. rewrite Z.mul_assoc. by apply to_int_round53.
Qed.

(** ** Digits *)

Lemma digits_acc s x acc : digits 0 s = Some x -> digits acc s = Some (acc * 10 ^ len s + x).
Proof.
  assert (forall s a b y, digits a s = Some y -> digits (a + b) s = Some (y + b * 10 ^ len s)) as Hgen.
  { clear. induction s as [|c s IH]; intros a b y; cbn [digits].
    - intros [= ->]. f_equal. change (10 ^ len EmptyString) with 1. lia.
    - destruct (digit c) as [d|]; [|done]. intros H. replace (10 * (a + b) + d) with (10 * a + d + 10 * b) by lia.
      rewrite (IH _ _ _ H). f_equal. rewrite len_cons, Z.pow_add_r by (apply len_nonneg || lia). lia. }
  intros H. specialize (Hgen s 0 acc x H). rewrite Z.add_0_l in Hgen. rewrite Hgen. f_equal. lia.
Qed.

(** A text of digits with its value. *)
Definition writes_value (s : string) (x : Z) : Prop := all_chars is_digit s = true /\ digits 0 s = Some x.

Lemma frac_digits_spec prec v suffix x d :
  writes_value suffix x -> len suffix <= d ->
  exists f, writes_value (frac_digits prec v suffix) f /\ len (frac_digits prec v suffix) <= d + Z.of_nat prec /\
    f * 10 ^ (d + Z.of_nat prec - len (frac_digits prec v suffix)) =
    (v mod 10 ^ Z.of_nat prec) * 10 ^ d + x * 10 ^ (d - len suffix).
Proof.
  revert v suffix x d. induction prec as [|prec IH]; intros v suffix x d Hw Hl; cbn [frac_digits].
  { exists x. split; [done|]. split; [lia|]. change (10 ^ Z.of_nat 0) with 1. rewrite Z.mod_1_r, Z.add_0_r. lia. }
  pose proof (len_nonneg suffix) as Hlen.
  assert (v mod 10 ^ Z.of_nat (S prec) = (v / 10) mod 10 ^ Z.of_nat prec * 10 + v mod 10) as Hmod.
  { rewrite Nat2Z.inj_succ, Z.pow_succ_r by lia. rewrite Z.rem_mul_r; [lia|lia|].
    apply Z.pow_pos_nonneg; lia. }
  pose proof (Z.mod_pos_bound v 10 ltac:(lia)) as Hd.
  destruct ((v mod 10 =? 0) && bool_decide (suffix = EmptyString)) eqn:Hz.
  - apply andb_true_iff in Hz as [Hz ->%bool_decide_eq_true]. apply Z.eqb_eq in Hz.
    destruct (IH (v / 10) EmptyString 0 (d + 1)) as (f & Hf & Hfl & Heq); [by split|change (len EmptyString) with 0; lia|].
    exists f. split; [done|]. split; [lia|]. replace (d + Z.of_nat (S prec)) with (d + 1 + Z.of_nat prec) by lia.
    rewrite Heq, Hmod, Hz. destruct Hw as [_ [= <-]]. rewrite (Z.pow_add_r 10 d 1) by (change (len EmptyString) with 0 in *; lia). lia.
  - assert (0 <= v mod 10) as Hd0 by lia. pose proof (all_digits_itoa (v mod 10) Hd0) as Ha.
    assert (len (itoa (v mod 10)) = 1) as Hl1.
    { assert (v mod 10 ∈ [0; 1; 2; 3; 4; 5; 6; 7; 8; 9]) as Hin by (rewrite !elem_of_cons; lia).
      generalize dependent (v mod 10). intros y _ _ _ _ _ Hin.
      repeat (apply elem_of_cons in Hin as [->|Hin]; [reflexivity|]). by apply elem_of_nil in Hin. }
    destruct Hw as [Hw1 Hw2].
    destruct (IH (v / 10) (itoa (v mod 10) +:+ suffix) (v mod 10 * 10 ^ len suffix + x) (d + 1)) as (f & Hf & Hfl & Heq).
    { split; [by rewrite all_chars_app, Ha, Hw1|]. rewrite digits_itoa by done. rewrite Z.add_0_l. by apply digits_acc. }
    { rewrite len_app. lia. }
    exists f. split; [done|]. split; [lia|]. replace (d + Z.of_nat (S prec)) with (d + 1 + Z.of_nat prec) by lia.
    rewrite Heq, Hmod, len_app, Hl1. replace (d + 1 - (1 + len suffix)) with (d - len suffix) by lia.
    assert (10 ^ d = 10 ^ len suffix * 10 ^ (d - len suffix)) as Hpd by (rewrite <- Z.pow_add_r by lia; f_equal; lia).
    rewrite (Z.pow_add_r 10 d 1) by lia. rewrite Hpd. ring.
Qed.

Lemma leadingInt_value s x v : all_chars is_digit s = true -> 0 <= x -> digits x s = Some v -> v <= 2 ^ 63 ->
  leadingInt x s = Some v.
Proof.
  revert x. induction s as [|c s IH]; intros x Hs Hx Hv Hle; cbn [leadingInt digits] in *; [done|].
  cbn in Hs. apply andb_true_iff in Hs as [Hc Hs]. destruct (digit c) as [d|] eqn:Hd; [|done]. apply digit_range in Hd.
  cbn [default]. change (id d) with d. pose proof (digits_bounds s (10 * x + d) v ltac:(lia) Hv) as [Hb _].
  assert (1 <= 10 ^ len s) by (pose proof (len_nonneg s); pose proof (Z.pow_pos_nonneg 10 (len s)); lia).
  assert (10 * x + d <= v) by (set (T := 10 ^ len s) in *; nia).
  change (2 ^ 63 / 10) with 922337203685477580. change (2 ^ 63) with 9223372036854775808 in *.
  rewrite (proj2 (Z.ltb_ge _ x)), (proj2 (Z.ltb_ge _ (x * 10 + d))) by lia. cbn [orb].
  apply IH; [done|lia|by replace (x * 10 + d) with (10 * x + d) by lia|done].
Qed.

Lemma leadingFraction_value s x scale v : all_chars is_digit s = true -> 0 <= x -> digits x s = Some v -> v <= 10 ^ 10 ->
  leadingFraction x scale false s = (v, scale * 10 ^ len s).
Proof.
  revert x scale. induction s as [|c s IH]; intros x scale Hs Hx Hv Hle; cbn [leadingFraction digits] in *.
  { injection Hv as ->. change (10 ^ len EmptyString) with 1. by rewrite Z.mul_1_r. }
  cbn in Hs. apply andb_true_iff in Hs as [Hc Hs]. destruct (digit c) as [d|] eqn:Hd; [|done]. apply digit_range in Hd.
  cbn [default]. change (id d) with d. pose proof (digits_bounds s (10 * x + d) v ltac:(lia) Hv) as [Hb _].
  assert (1 <= 10 ^ len s) by (pose proof (len_nonneg s); pose proof (Z.pow_pos_nonneg 10 (len s)); lia).
  assert (10 * x + d <= v) by (set (T := 10 ^ len s) in *; nia).
  change (int64_max / 10) with 922337203685477580. change (2 ^ 63) with 9223372036854775808 in *. change (10 ^ 10) with 10000000000 in *.
  rewrite (proj2 (Z.ltb_ge _ x)), (proj2 (Z.ltb_ge _ (x * 10 + d))) by lia. cbn [orb].
  rewrite IH; [|done|lia|by replace (x * 10 + d) with (10 * x + d) by lia|done].
  rewrite len_cons, Z.pow_add_r by (apply len_nonneg || lia). f_equal. ring.
Qed.

(** ** One number with its unit *)

(** What may follow a term: nothing, or the next number. *)
Definition next_term (s : string) : Prop := match s with String c _ => is_digit c = true | EmptyString => True end.

(** The letters of a unit: no digit, no point. *)
Definition unit_char (c : ascii) : bool := negb (is_dot c || is_digit c).

Lemma duration_term_int a u unit rest : 0 <= a -> a * unit <= 2 ^ 63 -> 0 < unit ->
  unit_of u = Some unit -> all_chars unit_char u = true -> u <> EmptyString -> next_term rest ->
  duration_term (itoa a +:+ u +:+ rest) = Some (a * unit, rest).
Proof.
  intros Ha Hle Hunit Hu Huc Hne Hrest. pose proof (all_digits_itoa a Ha) as Hda.
  destruct u as [|c u]; [done|]. cbn in Huc. apply andb_true_iff in Huc as [Hc Huc].
  pose proof Hc as Hc'. unfold unit_char in Hc'. apply negb_true_iff, orb_false_iff in Hc' as [Hdot Hdig].
  unfold duration_term. rewrite span_app by done.
  rewrite (leadingInt_value _ 0 a) by (done || lia || (by rewrite <- (app_string_nil_r (itoa a)), digits_itoa by done) || nia).
  change (String c u +:+ rest) with (String c (u +:+ rest)). cbv iota. rewrite Hdot. cbn [leadingFraction].
  rewrite (bool_decide_false (itoa a = EmptyString)) by (destruct (itoa_writes a Ha) as (? & ? & -> & _); done). cbn [andb].
  change (fun c0 => negb (is_dot c0 || is_digit c0)) with unit_char.
  change (String c (u +:+ rest)) with (String c u +:+ rest).
  rewrite span_app; [|cbn; by rewrite Hc|destruct rest as [|a0 rest]; [done|]; simpl in Hrest; unfold unit_char; rewrite Hrest; by rewrite orb_true_r].
  rewrite Hu. rewrite (proj2 (Z.ltb_ge _ a)) by (apply Z.div_le_lower_bound; lia).
  change (0 <? 0) with false. rewrite Z.add_0_r. by rewrite (proj2 (Z.ltb_ge _ (a * unit))) by lia.
Qed.

Lemma duration_term_frac a P ds f u rest : P ∈ [3; 6; 9] -> 0 <= a ->
  writes_value ds f -> ds <> EmptyString -> len ds <= P ->
  unit_of u = Some (10 ^ P) -> all_chars unit_char u = true -> next_term rest ->
  a * 10 ^ P + f * 10 ^ (P - len ds) <= 2 ^ 63 ->
  duration_term (itoa a +:+ "." +:+ ds +:+ u +:+ rest) = Some (a * 10 ^ P + f * 10 ^ (P - len ds), rest).
Proof.
  intros HP Ha [Hds Hf] Hne Hlen Hu Huc Hrest Hle. pose proof (all_digits_itoa a Ha) as Hda.
  pose proof (digits_bounds ds 0 f ltac:(lia) Hf) as [Hf0 Hf1]. rewrite Z.mul_0_l in Hf0. rewrite Z.add_0_l, Z.mul_1_l in Hf1.
  pose proof (len_nonneg ds) as Hl0.
  assert (P <= 9) as HP9 by (repeat (apply elem_of_cons in HP as [->|HP]; [lia|]); by apply elem_of_nil in HP).
  assert (10 ^ len ds <= 10 ^ 9) as Hp9 by (apply Z.pow_le_mono_r; lia).
  assert (0 < 10 ^ P) as HpP by (apply Z.pow_pos_nonneg; lia). assert (0 <= f * 10 ^ (P - len ds)) by (apply Z.mul_nonneg_nonneg; [lia|apply Z.pow_nonneg; lia]).
  destruct u as [|c u]; [done|]. cbn in Huc. apply andb_true_iff in Huc as [Hc Huc].
  pose proof Hc as Hc'. unfold unit_char in Hc'. apply negb_true_iff, orb_false_iff in Hc' as [Hdot Hdig].
  unfold duration_term. rewrite span_app by done.
  rewrite (leadingInt_value _ 0 a) by (done || lia || (by rewrite <- (app_string_nil_r (itoa a)), digits_itoa by done) || nia).
  change ("." +:+ ds +:+ String c u +:+ rest) with (String "." (ds +:+ String c u +:+ rest)).
  cbv iota. change (is_dot ".") with true. cbv iota. rewrite span_app; [|done|exact Hdig].
  rewrite (leadingFraction_value ds 0 1 f); [|done|lia|done|change (10 ^ 10) with 10000000000; change (10 ^ 9) with 1000000000 in Hp9; lia].
  rewrite Z.mul_1_l. rewrite (bool_decide_false (ds = EmptyString)) by done. rewrite andb_false_r.
  change (fun c0 => negb (is_dot c0 || is_digit c0)) with unit_char.
  rewrite span_app; [|cbn; by rewrite Hc|destruct rest as [|a0 rest]; [done|]; simpl in Hrest; unfold unit_char; rewrite Hrest; by rewrite orb_true_r].
  rewrite Hu. rewrite (proj2 (Z.ltb_ge _ a)) by (apply Z.div_le_lower_bound; nia).
  assert ((if 0 <? f then to_int (fmul (of_int f) (fdiv (of_int (10 ^ P)) (of_int (10 ^ len ds)))) else 0) = f * 10 ^ (P - len ds)) as ->.
  { destruct (Z.ltb_spec 0 f); [by apply unit_fraction|]. replace f with 0 by lia. lia. }
  by rewrite (proj2 (Z.ltb_ge _ _)) by lia.
Qed.

(** ** The round trip *)

(** A number of units as [Duration.String] writes it, the fraction included. *)
Lemma duration_term_string v P u rest : P ∈ [3; 6; 9] -> 0 <= v <= 2 ^ 63 ->
  unit_of u = Some (10 ^ P) -> all_chars unit_char u = true -> u <> EmptyString -> next_term rest ->
  forall a, 0 <= a -> a * 10 ^ P + v mod 10 ^ P <= 2 ^ 63 ->
  duration_term (itoa a +:+ frac_string (Z.to_nat P) v +:+ u +:+ rest) = Some (a * 10 ^ P + v mod 10 ^ P, rest).
Proof.
  intros HP Hv Hu Huc Hne Hrest a Ha Hle.
  assert (3 <= P) as HP3 by (repeat (apply elem_of_cons in HP as [->|HP]; [lia|]); by apply elem_of_nil in HP).
  assert (0 < 10 ^ P) as Hpos by (apply Z.pow_pos_nonneg; lia).
  destruct (frac_digits_spec (Z.to_nat P) v EmptyString 0 0) as (f & Hf & Hlen & Heq); [by split|by vm_compute|].
  rewrite !Z2Nat.id in * by lia. rewrite Z.add_0_l in *. rewrite Z.mul_0_l, Z.add_0_r, Z.mul_1_r in Heq. unfold frac_string.
  destruct (bool_decide_reflect (frac_digits (Z.to_nat P) v EmptyString = EmptyString)) as [He|Hnz].
  - rewrite He in *. destruct Hf as [_ [= <-]]. rewrite Z.mul_0_l in Heq. rewrite <- Heq, Z.add_0_r in *.
    change (EmptyString +:+ u +:+ rest) with (u +:+ rest). by apply duration_term_int.
  - rewrite <- Heq in *. rewrite (app_string_assoc "."). by apply duration_term_frac.
Qed.

(** A text is a sequence of terms of the sum [v]. *)
Inductive sums : Z -> string -> Prop :=
  | sums_nil : sums 0 EmptyString
  | sums_cons v t s s' :
      duration_term s = Some (v, s') -> (String.length s' < String.length s)%nat -> 0 <= v -> sums t s' -> sums (v + t) s.

Lemma sums_nonneg v s : sums v s -> 0 <= v.
Proof. induction 1; lia. Qed.

Lemma duration_terms_sums v s fuel d : sums v s -> (String.length s <= fuel)%nat -> 0 <= d -> d + v <= 2 ^ 63 ->
  duration_terms fuel d s = Some (d + v).
Proof.
  intros Hs. revert fuel d. induction Hs as [|v t s s' Ht Hl Hv Hs IH]; intros fuel d Hf Hd Hle.
  { rewrite Z.add_0_r. by destruct fuel. }
  apply sums_nonneg in Hs. destruct s as [|c s]; [by destruct (Nat.nlt_0_r _ Hl)|].
  destruct fuel as [|fuel]; [simpl in Hf; lia|]. cbn [duration_terms]. rewrite Ht.
  rewrite (proj2 (Z.ltb_ge _ _)), IH by (simpl in *; lia). f_equal. lia.
Qed.

(** The text of a positive duration begins with a digit and is longer than that. *)
Definition positive_body (s : string) : Prop := match s with String c t => is_digit c = true /\ t <> EmptyString | EmptyString => False end.

Lemma positive_body_itoa a c s : 0 <= a -> positive_body (itoa a +:+ String c s).
Proof.
  intros Ha. destruct (itoa_writes a Ha) as (x & ds & -> & _ & Hx & _).
  change (String x ds +:+ String c s) with (String x (ds +:+ String c s)). split; [done|]. by destruct ds.
Qed.

Lemma ParseDuration_body s v (neg : bool) : positive_body s -> sums v s -> v <= (if neg then 2 ^ 63 else int64_max) ->
  ParseDuration ((if neg then "-" else EmptyString) +:+ s) = Some (if neg then - v else v).
Proof.
  intros Hb Hs Hv. destruct s as [|c t]; [done|]. destruct Hb as [Hc Ht].
  assert (int64_max < 2 ^ 63) as Hm by (vm_compute; done).
  assert (duration_terms (String.length (String c t)) 0 (String c t) = Some v) as Hd.
  { rewrite (duration_terms_sums v) by (done || destruct neg; lia). f_equal. }
  assert (bool_decide (String c t = "0") = false) as H0 by (apply bool_decide_false; intros [= -> ->]; done).
  destruct neg.
  - change ("-" +:+ String c t) with (String "-" (String c t)). unfold ParseDuration. cbv iota. rewrite H0, Hd. done.
  - change (EmptyString +:+ String c t) with (String c t). unfold ParseDuration.
    replace (match String c t with String "-" s' => (true, s') | String "+" s' => (false, s') | _ => (false, String c t) end)
      with (false, String c t) by (by destruct c as [[] [] [] [] [] [] [] []]).
    rewrite H0, Hd. by rewrite (proj2 (Z.ltb_ge _ _)) by lia.
Qed.

(** What [Duration.String] writes after the sign. *)
Definition magnitude_string (u : Z) : string :=
  if u <? Microsecond then itoa u +:+ "ns"
  else if u <? Millisecond then itoa (u / Microsecond) +:+ frac_string 3 u +:+ micro
  else if u <? Second then itoa (u / Millisecond) +:+ frac_string 6 u +:+ "ms"
  else
    let secs := u / Second in
    let tail := itoa (secs mod 60) +:+ frac_string 9 u +:+ "s" in
    let mins := secs / 60 in
    if mins =? 0 then tail
    else if mins / 60 =? 0 then itoa mins +:+ "m" +:+ tail
    else itoa (mins / 60) +:+ "h" +:+ itoa (mins mod 60) +:+ "m" +:+ tail.

Lemma duration_string_magnitude d : d <> 0 ->
  duration_string d = (if d <? 0 then "-" else EmptyString) +:+ magnitude_string (Z.abs d).
Proof.
  intros Hd. unfold duration_string, magnitude_string. rewrite (proj2 (Z.eqb_neq _ 0)) by lia. cbv zeta. by repeat case_match.
Qed.

Lemma frac_cons prec v c s : exists c' s', frac_string prec v +:+ String c s = String c' s'.
Proof. destruct (frac_string prec v) as [|c' s']; [by exists c, s|by exists c', (s' +:+ String c s)]. Qed.

Lemma positive_body_frac a prec v c s : 0 <= a -> positive_body (itoa a +:+ frac_string prec v +:+ String c s).
Proof. intros Ha. destruct (frac_cons prec v c s) as (c' & s' & ->). by apply positive_body_itoa. Qed.

Lemma sums_frac v P u a : P ∈ [3; 6; 9] -> 0 <= v <= 2 ^ 63 -> unit_of u = Some (10 ^ P) -> all_chars unit_char u = true ->
  u <> EmptyString -> 0 <= a -> a * 10 ^ P + v mod 10 ^ P <= 2 ^ 63 ->
  sums (a * 10 ^ P + v mod 10 ^ P) (itoa a +:+ frac_string (Z.to_nat P) v +:+ u).
Proof.
  intros HP Hv Hu Huc Hne Ha Hle. rewrite <- (Z.add_0_r (_ + _)). assert (0 < 10 ^ P) as HpP.
  { repeat (apply elem_of_cons in HP as [->|HP]; [done|]). by apply elem_of_nil in HP. }
  pose proof (Z.mod_pos_bound v (10 ^ P) HpP).
  apply (sums_cons _ _ _ EmptyString); [|destruct (itoa_writes a Ha) as (? & ? & -> & _); simpl; lia|nia|constructor].
  pose proof (duration_term_string v P u EmptyString HP Hv Hu Huc Hne I a Ha Hle) as H1. by rewrite app_string_nil_r in H1.
Qed.

Lemma sums_int a u unit t rest : 0 <= a -> a * unit <= 2 ^ 63 -> 0 < unit ->
  unit_of u = Some unit -> all_chars unit_char u = true -> u <> EmptyString -> next_term rest -> sums t rest ->
  sums (a * unit + t) (itoa a +:+ u +:+ rest).
Proof.
  intros Ha Hle Hunit Hu Huc Hne Hn Hs. apply (sums_cons _ _ _ rest); [by apply duration_term_int| |nia|done].
  rewrite !app_string_length. destruct u; [done|]. simpl. lia.
Qed.

Lemma next_term_itoa a s : 0 <= a -> next_term (itoa a +:+ s).
Proof. intros Ha. by destruct (itoa_writes a Ha) as (x & ds & -> & _ & Hx & _). Qed.

Ltac units := unfold Hour, Minute, Second, Millisecond, Microsecond in *.

Lemma magnitude_sums u : 0 < u <= 2 ^ 63 -> sums u (magnitude_string u) /\ positive_body (magnitude_string u).
Proof.
  intros Hu. pose proof (Z.div_mod u Microsecond ltac:(done)). pose proof (Z.div_mod u Millisecond ltac:(done)).
  pose proof (Z.div_mod u Second ltac:(done)) as Hs.
  assert (0 <= u / Microsecond /\ 0 <= u / Millisecond /\ 0 <= u / Second) as (? & ? & Hq) by (split_and!; apply Z.div_pos; done || lia).
  pose proof (Z.mod_pos_bound u Second ltac:(done)) as Hm.
  unfold magnitude_string. case_match; [|case_match; [|case_match]].
  - split; [|by apply positive_body_itoa; lia]. rewrite <- (app_string_nil_r (_ +:+ _)), app_string_assoc.
    replace u with (u * 1 + 0) at 1 by lia. apply sums_int; done || lia || constructor.
  - split; [|apply positive_body_frac; lia].
    replace u with (u / Microsecond * 10 ^ 3 + u mod 10 ^ 3) at 1 by (change (10 ^ 3) with Microsecond; lia).
    apply sums_frac; [set_solver|lia|done|done|done|done|change (10 ^ 3) with Microsecond; lia].
  - split; [|apply positive_body_frac; lia].
    replace u with (u / Millisecond * 10 ^ 6 + u mod 10 ^ 6) at 1 by (change (10 ^ 6) with Millisecond; lia).
    apply sums_frac; [set_solver|lia|done|done|done|done|change (10 ^ 6) with Millisecond; lia].
  - set (secs := u / Second) in *. pose proof (Z.div_mod secs 60 ltac:(done)) as Hd. pose proof (Z.mod_pos_bound secs 60 ltac:(done)).
    pose proof (Z.div_mod (secs / 60) 60 ltac:(done)) as Hd'. pose proof (Z.mod_pos_bound (secs / 60) 60 ltac:(done)).
    assert (0 <= secs / 60) by (apply Z.div_pos; lia). assert (0 <= secs / 60 / 60) by (apply Z.div_pos; lia).
    assert (sums (secs mod 60 * Second + u mod Second) (itoa (secs mod 60) +:+ frac_string 9 u +:+ "s")) as Ht.
    { apply (sums_frac u 9 "s" (secs mod 60)); [set_solver|lia|done|done|done|lia|change (10 ^ 9) with Second; units; lia]. }
    cbv zeta. case_match; [|case_match]; (split; [|by (apply positive_body_frac || apply positive_body_itoa); lia]).
    + replace u with (secs mod 60 * Second + u mod Second) at 1 by lia. done.
    + replace u with (secs / 60 * Minute + (secs mod 60 * Second + u mod Second)) at 1 by (units; lia).
      apply sums_int; try done; [units; lia|apply next_term_itoa; lia].
    + replace u with (secs / 60 / 60 * Hour + (secs / 60 mod 60 * Minute + (secs mod 60 * Second + u mod Second))) at 1
        by (units; lia).
      apply sums_int; try done; [units; lia|apply next_term_itoa; lia|].
      apply sums_int; try done; [lia|units; lia|apply next_term_itoa; lia].
Qed.

(** A printed duration is read back, to the nanosecond, over the whole range of
    [time.Duration]. *)
Theorem ParseDuration_string d : in_int64 d = true -> ParseDuration (duration_string d) = Some d.
Proof.
  intros Hd. assert (- 2 ^ 63 <= d <= int64_max) as Hr by (unfold in_int64 in Hd; bool_to_prop; unfold int64_max in *; lia).
  destruct (Z.eq_dec d 0) as [->|Hnz]; [reflexivity|]. rewrite duration_string_magnitude by done.
  assert (int64_max < 2 ^ 63) as Hm by (vm_compute; done).
  destruct (magnitude_sums (Z.abs d)) as [Hs Hb]; [lia|].
  rewrite (ParseDuration_body _ (Z.abs d) (d <? 0) Hb Hs) by (destruct (Z.ltb_spec d 0); lia).
  f_equal. destruct (Z.ltb_spec d 0); lia.
Qed.

(** ** Every duration that is read is one *)

Lemma round53_nonneg m e : 0 <= m -> 0 <= f_man (round53 m e).
Proof.
  intros Hm. unfold round53. case_match; [done|]. cbn [f_man].
  assert (0 <= Z.shiftr m (Z.log2 m - 52)) by (by apply Z.shiftr_nonneg). case_match; lia.
Qed.

Lemma fdiv_nonneg a b : 0 <= f_man a -> 0 <= f_man b -> 0 <= f_man (fdiv a b).
Proof.
  intros Ha Hb. unfold fdiv. apply round53_nonneg. set (n := f_man a * _).
  assert (0 <= n) by (apply Z.mul_nonneg_nonneg; [done|apply Z.pow_nonneg; lia]).
  assert (0 <= n / f_man b) by (destruct (Z.eq_dec (f_man b) 0) as [->|]; [by rewrite Z.div_0_r|apply Z.div_pos; lia]).
  case_match; lia.
Qed.

Lemma digit_default c : 0 <= default 0 (digit c).
Proof. destruct (digit c) as [d|] eqn:Hd; [|done]. apply digit_range in Hd. cbn. lia. Qed.

Lemma leadingInt_nonneg x ds v : 0 <= x -> leadingInt x ds = Some v -> 0 <= v.
Proof.
  revert x. induction ds as [|c ds IH]; intros x Hx; cbn [leadingInt]; [by intros [= <-]|].
  pose proof (digit_default c). case_match; [done|]. apply IH. lia.
Qed.

Lemma leadingFraction_nonneg x scale o ds : 0 <= x -> 0 <= scale ->
  0 <= (leadingFraction x scale o ds).1 /\ 0 <= (leadingFraction x scale o ds).2.
Proof.
  revert x scale o. induction ds as [|c ds IH]; intros x scale o Hx Hs; cbn [leadingFraction]; [done|].
  pose proof (digit_default c). case_match; apply IH; lia.
Qed.

Lemma unit_of_pos u unit : unit_of u = Some unit -> 0 < unit.
Proof. unfold unit_of. intros H. repeat case_bool_decide; by simplify_eq. Qed.

Lemma duration_term_range s v s' : duration_term s = Some (v, s') -> 0 <= v <= 2 ^ 63.
Proof.
  unfold duration_term. destruct (span is_digit s) as [ints s1]. destruct (leadingInt 0 ints) as [n|] eqn:Hn; [|done].
  apply leadingInt_nonneg in Hn; [|done].
  destruct (match s1 with String c s' => if is_dot c then span is_digit s' else (EmptyString, s1) | EmptyString => (EmptyString, s1) end) as [fracs s2].
  destruct (leadingFraction 0 1 false fracs) as [f scale] eqn:Hf.
  destruct (leadingFraction_nonneg 0 1 false fracs) as [Hf0 Hs0]; [done..|]. rewrite Hf in Hf0, Hs0. cbn in Hf0, Hs0.
  case_match; [done|]. destruct (span _ s2) as [u s3]. destruct (unit_of u) as [unit|] eqn:Hu; [|done]. apply unit_of_pos in Hu.
  case_match; [done|]. case_match; [done|]. intros [= <- _]. bool_to_prop. split; [|lia].
  apply Z.add_nonneg_nonneg; [nia|]. case_match; [|done]. apply to_int_nonneg, round53_nonneg, Z.mul_nonneg_nonneg.
  - by apply round53_nonneg.
  - apply fdiv_nonneg; apply round53_nonneg; lia.
Qed.

Lemma duration_terms_range fuel d s v : 0 <= d <= 2 ^ 63 -> duration_terms fuel d s = Some v -> 0 <= v <= 2 ^ 63.
Proof.
  revert d s. induction fuel as [|fuel IH]; intros d [|c s] Hd; cbn [duration_terms]; try (by intros [= <-]).
  destruct (duration_term (String c s)) as [[w s']|] eqn:Ht; [|done]. apply duration_term_range in Ht.
  destruct (Z.ltb_spec (2 ^ 63) (d + w)); [done|]. apply IH. lia.
Qed.

Lemma ParseDuration_range s d : ParseDuration s = Some d -> in_int64 d = true.
Proof.
  unfold ParseDuration.
  destruct (match s with String "-" s' => (true, s') | String "+" s' => (false, s') | _ => (false, s) end) as [neg body].
  case_bool_decide; [by intros [= <-]|]. case_bool_decide; [done|].
  destruct (duration_terms _ 0 body) as [v|] eqn:Hv; [|done]. apply duration_terms_range in Hv; [|lia].
  change (2 ^ 63) with 9223372036854775808 in Hv. unfold in_int64.
  destruct neg; [|destruct (Z.ltb_spec int64_max v); [done|]]; intros [= <-]; unfold int64_max in *;
    apply andb_true_iff; rewrite !Z.leb_le; lia.
Qed.

(** ** The ends of a printed duration *)

Lemma ends_app a b : (exists x, b = x +:+ "s") -> exists x, a +:+ b = x +:+ "s".
Proof. intros [x ->]. exists (a +:+ x). by rewrite app_string_assoc. Qed.

Lemma magnitude_ends u : exists x, magnitude_string u = x +:+ "s".
Proof.
  unfold magnitude_string. cbv zeta. repeat case_match; repeat apply ends_app;
    (by exists "n") || (by exists (byte_string [194; 181]%N)) || (by exists "m") || by exists EmptyString.
Qed.

Lemma is_digit_solid c : is_digit c = true -> solid c = true.
Proof. destruct c as [[] [] [] [] [] [] [] []]; vm_compute; done. Qed.

Lemma duration_string_ends d : in_int64 d = true ->
  exists c s x, duration_string d = String c s /\ solid c = true /\ String c s = x +:+ "s".
Proof.
  intros Hd. destruct (Z.eq_dec d 0) as [->|Hnz]; [by exists "0"%char, "s", "0"|].
  assert (0 < Z.abs d <= 2 ^ 63) as Hr by (unfold in_int64, int64_max in Hd; bool_to_prop; lia).
  destruct (magnitude_sums (Z.abs d) Hr) as [_ Hb]. rewrite duration_string_magnitude by done.
  destruct (magnitude_ends (Z.abs d)) as [x Hx]. destruct (magnitude_string (Z.abs d)) as [|c t]; [done|].
  destruct Hb as [Hc _]. destruct (d <? 0).
  - exists "-"%char, (String c t), ("-" +:+ x). rewrite Hx. by rewrite app_string_assoc.
  - exists c, t, x. by rewrite is_digit_solid.
Qed.
