(* ===== verification/GoFloat.v ===== *)
(** GoFloat: Go's [strconv.ParseFloat] and the text [encoding/json] writes for
    a [float64].

    A finite [float64] is a sign, a mantissa below 2^53 and an exponent of at
    least -1074, the mantissa at least 2^52 unless the exponent is the least one:
    each has one representation, -0 and subnormal numbers included. Reading
    rounds the exact decimal value to nearest, ties to even; writing takes the
    shortest decimal that is read back as the same number. *)

From Stdlib Require Import Ascii Floats.SpecFloat.
From S2P Require Import Prelude Float64 Dharatype GoTime GoStrconv GoJson PlaySession GoText GoDecimal.

Record double := mkDouble { d_neg : bool; d_man : Z; d_exp : Z }.

#[export] Instance double_eq_dec : EqDecision double.
Proof. solve_decision. Defined.

Definition min_exp : Z := -1074.
Definition max_exp : Z := 971.

(** [2 ^ e] on the side of the fraction where its exponent is not negative. *)
Definition over (e : Z) : Z := 2 ^ Z.max 0 (- e).
Definition under (e : Z) : Z := 2 ^ Z.max 0 e.

(** The binary logarithm of [n / d], rounded down. *)
Definition floor_log2 (n d : Z) : Z :=
  let k := Z.log2 n - Z.log2 d in
  if n * over k <? d * under k then k - 1 else k.

(** The [float64] nearest to [n / d], as mantissa and exponent; [None] is an
    overflow. *)
Definition round_ratio (n d : Z) : option (Z * Z) :=
  if n =? 0 then Some (0, min_exp)
  else
    let e := Z.max min_exp (floor_log2 n d - 52) in
    let den := d * under e in
    let q := n * over e / den in
    let r := n * over e mod den in
    let m := if (den <? 2 * r) || ((den =? 2 * r) && Z.odd q) then q + 1 else q in
    let '(m, e) := if m =? 2 ^ 53 then (2 ^ 52, e + 1) else (m, e) in
    if max_exp <? e then None else Some (m, e).

(** [D * 10 ^ k]. *)
Definition round_dec (D k : Z) : option (Z * Z) :=
  if 0 <=? k then round_ratio (D * 10 ^ k) 1 else round_ratio D (10 ^ (- k)).

(** ** Reading *)

(** The digits of an exponent; those after the fifth of a large one are not
    read. *)
Fixpoint exp_digits (acc : Z) (s : string) : Z :=
  match s with
  | EmptyString => acc
  | String c s' => exp_digits (if acc <? 10000 then acc * 10 + default 0 (digit c) else acc) s'
  end.

Definition read_exp (s : string) : Z :=
  match s with
  | String c rest =>
      if bool_decide (c = "e"%char) || bool_decide (c = "E"%char) then
        match rest with
        | String "+"%char r => exp_digits 0 r
        | String "-"%char r => - exp_digits 0 r
        | _ => exp_digits 0 rest
        end
      else 0
  | EmptyString => 0
  end.

(** The sign, digits and decimal exponent of a literal of JSON. *)
Definition number_parts (lit : string) : bool * Z * Z :=
  let '(neg, s1) := match lit with String "-"%char r => (true, r) | _ => (false, lit) end in
  let (ints, s2) := span is_digit s1 in
  let '(fracs, s3) :=
    match s2 with
    | String c r => if is_dot c then span is_digit r else (EmptyString, s2)
    | EmptyString => (EmptyString, s2)
    end in
  (neg, default 0 (digits 0 (ints +:+ fracs)), read_exp s3 - len fracs).

(** [strconv.ParseFloat(lit, 64)]; [None] is the range error. *)
Definition ParseFloat (lit : string) : option double :=
  let '(neg, D, k) := number_parts lit in
  match round_dec D k with
  | Some (m, e) => Some (mkDouble neg m e)
  | None => None
  end.

(** ** Writing *)

(** A mantissa and exponent as a fraction, and its decimal logarithm rounded
    down. *)
Definition floor_log10 (n d : Z) : Z :=
  if d <=? n then len (itoa (n / d)) - 1
  else let g := len (itoa (d / n)) - 1 in if n * 10 ^ g =? d then - g else - g - 1.

(** Without trailing zeros. *)
Fixpoint trim_zeros (fuel : nat) (D k : Z) : Z * Z :=
  match fuel with
  | O => (D, k)
  | S fuel' => if (0 <? D) && (D mod 10 =? 0) then trim_zeros fuel' (D / 10) (k + 1) else (D, k)
  end.

(** The decimals of [digs] digits next to the number, below and above; the one
    that is read back as the number, the nearer one if both are. *)
Definition candidate (m e : Z) (digs : nat) : option (Z * Z) :=
  let n := m * under e in
  let d := over e in
  let s := Z.of_nat digs - 1 - floor_log10 n d in
  let num := n * 10 ^ Z.max 0 s in
  let den := d * 10 ^ Z.max 0 (- s) in
  let lo := num / den in
  let r := num mod den in
  let down := trim_zeros 20 lo (- s) in
  let up := trim_zeros 20 (lo + 1) (- s) in
  let reads c := bool_decide (round_dec c.1 c.2 = Some (m, e)) in
  match reads down, reads up with
  | true, true => if (2 * r <? den) || ((2 * r =? den) && Z.even lo) then Some down else Some up
  | true, false => Some down
  | false, true => Some up
  | false, false => None
  end.

Fixpoint first_candidate (m e : Z) (digs todo : nat) : option (Z * Z) :=
  match todo with
  | O => None
  | S todo' =>
      match candidate m e digs with
      | Some c => Some c
      | None => first_candidate m e (S digs) todo'
      end
  end.

(** All digits of the number. *)
Definition exact (m e : Z) : Z * Z := if 0 <=? e then (m * 2 ^ e, 0) else (m * 5 ^ (- e), e).

(** The shortest decimal; 17 digits always do. *)
Definition shortest (m e : Z) : Z * Z := default (exact m e) (first_candidate m e 1 17).

Fixpoint take_chars (n : nat) (s : string) : string :=
  match n, s with
  | S n', String c s' => String c (take_chars n' s')
  | _, _ => EmptyString
  end.
Fixpoint drop_chars (n : nat) (s : string) : string :=
  match n, s with
  | S n', String c s' => drop_chars n' s'
  | _, _ => s
  end.

(** Format [f]: [point] digits before the decimal point. *)
Definition layout_f (ds : string) (point : Z) : string :=
  if point <=? 0 then "0." +:+ zeros (Z.to_nat (- point)) +:+ ds
  else if point <? len ds then take_chars (Z.to_nat point) ds +:+ "." +:+ drop_chars (Z.to_nat point) ds
  else ds +:+ zeros (Z.to_nat (point - len ds)).

(** Format [e], with the exponent as [encoding/json] leaves it: no zero before
    a single digit. *)
Definition layout_e (ds : string) (point : Z) : string :=
  let x := point - 1 in
  take_chars 1 ds +:+ (if 1 <? len ds then "." +:+ drop_chars 1 ds else EmptyString) +:+
  "e" +:+ (if x <? 0 then "-" else "+") +:+ itoa (Z.abs x).

(** Order of positive numbers. *)
Definition below (a b : option (Z * Z)) : bool :=
  match a, b with
  | Some (m, e), Some (m', e') => (e <? e') || ((e =? e') && (m <? m'))
  | _, _ => false
  end.

(** [json.Marshal] of a [float64]: exponents below 1e-6 and from 1e21 on. *)
Definition marshal_float (f : double) : string :=
  (if d_neg f then "-" else EmptyString) +:+
  (if d_man f =? 0 then "0"
   else
     let '(D, k) := shortest (d_man f) (d_exp f) in
     let ds := itoa D in
     let self := Some (d_man f, d_exp f) in
     if below self (round_dec 1 (-6)) || negb (below self (round_dec 1 21))
     then layout_e ds (len ds + k) else layout_f ds (len ds + k)).

Example marshal_float_ex :
  map (fun s => marshal_float <$> ParseFloat s)
    ["1"; "-0"; "0.1"; "100"; "1e21"; "1e20"; "1.5e-7"; "123456789012345678901"; "0.000001"; "1e23"; "5e-324"; "2.50"; "1e400"; "-12.25e1"] =
  [Some "1"; Some "-0"; Some "0.1"; Some "100"; Some "1e+21"; Some "100000000000000000000"; Some "1.5e-7";
   Some "123456789012345680000"; Some "0.000001"; Some "1e+23"; Some "5e-324"; Some "2.5"; None; Some "-122.5"].
Proof. vm_compute. reflexivity. Qed.

(** Reading agrees with the IEEE 754 division of the Standard Library. *)
Definition as_spec_float (f : option double) : spec_float :=
  match f with
  | Some (mkDouble s (Z.pos m) e) => S754_finite s m e
  | Some (mkDouble s _ _) => S754_zero s
  | None => S754_infinity false
  end.
Definition spec_ratio (n d : positive) : spec_float :=
  let '(q, e, l) := SFdiv_core_binary 53 1024 (Zpos n) 0 (Zpos d) 0 in binary_round_aux 53 1024 false q e l.

Example ParseFloat_ieee :
  map (fun s => as_spec_float (ParseFloat s)) ["0.1"; "2.2250738585072011e-308"; "1.7976931348623157e308"; "9007199254740993"; "1e-323"] =
  [spec_ratio 1 10; spec_ratio 22250738585072011 (10 ^ 324); spec_ratio (17976931348623157 * 10 ^ 292) 1;
   spec_ratio 9007199254740993 1; spec_ratio 1 (10 ^ 323)].
Proof. vm_compute. reflexivity. Qed.

(** ** Rounding *)

Lemma pow2_pos a : 0 <= a -> 0 < 2 ^ a.
Proof. intros. apply Z.pow_pos_nonneg; lia. Qed.

(** Both sides of a fraction, scaled to a common power. *)
Lemma over_under a K : 0 <= K -> - a <= K ->
  over a * 2 ^ (K - Z.max 0 (- a)) = 2 ^ K /\ under a * 2 ^ (K - Z.max 0 (- a)) = 2 ^ (a + K).
Proof. intros. unfold over, under. rewrite <- !Z.pow_add_r by lia. split; f_equal; lia. Qed.

Lemma scale_le n d a K : 0 <= K -> - a <= K -> d * under a <= n * over a <-> d * 2 ^ (a + K) <= n * 2 ^ K.
Proof.
  intros H1 H2. destruct (over_under a K H1 H2) as [<- <-].
  assert (0 < 2 ^ (K - Z.max 0 (- a))) by (apply pow2_pos; lia). rewrite !Z.mul_assoc.
  symmetry. by rewrite <- Z.mul_le_mono_pos_r.
Qed.

Lemma pow2_le_inv a b d : 0 < d -> 0 <= b -> d * 2 ^ a < d * 2 ^ b -> a < b.
Proof.
  intros Hd Hb H. destruct (Z.lt_ge_cases a b) as [|Hge]; [done|]. exfalso.
  pose proof (Z.pow_le_mono_r 2 b a). nia.
Qed.

Lemma floor_log2_spec n d K : 0 < n -> 0 < d -> Z.abs (Z.log2 n - Z.log2 d) + 1 <= K ->
  d * 2 ^ (floor_log2 n d + K) <= n * 2 ^ K < d * 2 ^ (floor_log2 n d + 1 + K).
Proof.
  intros Hn Hd HK. unfold floor_log2. set (k := Z.log2 n - Z.log2 d) in *.
  pose proof (Z.log2_spec n Hn) as [Hn1 Hn2]. pose proof (Z.log2_spec d Hd) as [Hd1 Hd2].
  pose proof (Z.log2_nonneg n). pose proof (Z.log2_nonneg d).
  assert (0 < 2 ^ K) by (apply pow2_pos; lia).
  destruct (Z.ltb_spec (n * over k) (d * under k)) as [Hlt|Hge].
  - split.
    + assert (d * 2 ^ (k - 1 + K) <= 2 ^ Z.succ (Z.log2 d) * 2 ^ (k - 1 + K)) as HH1
        by (apply Z.mul_le_mono_nonneg_r; [apply Z.pow_nonneg; lia|lia]).
      rewrite <- Z.pow_add_r in HH1 by lia.
      replace (Z.succ (Z.log2 d) + (k - 1 + K)) with (Z.log2 n + K) in HH1 by lia.
      rewrite (Z.pow_add_r 2 (Z.log2 n)) in HH1 by lia. nia.
    + replace (k - 1 + 1 + K) with (k + K) by lia. apply Z.nle_gt. rewrite <- (scale_le n d k K) by lia. lia.
  - split; [by apply (scale_le n d k K); lia|].
    assert (n * 2 ^ K < 2 ^ (Z.succ (Z.log2 n) + K)) as HH1 by (rewrite (Z.pow_add_r 2 (Z.succ _)) by lia; nia).
    replace (Z.succ (Z.log2 n) + K) with (Z.log2 d + (k + 1 + K)) in HH1 by lia. rewrite (Z.pow_add_r 2 (Z.log2 d)) in HH1 by lia.
    assert (0 < 2 ^ (k + 1 + K)) by (apply pow2_pos; lia). nia.
Qed.

(** The mantissas and exponents of positive [float64]s. *)
Definition canonical_double (m e : Z) : Prop :=
  0 < m < 2 ^ 53 /\ min_exp <= e <= max_exp /\ (2 ^ 52 <= m \/ e = min_exp).

(** Rounding leaves a [float64] as it is. *)
Lemma round_ratio_exact n d m e : 0 < d -> canonical_double m e -> n * over e = m * (d * under e) ->
  round_ratio n d = Some (m, e).
Proof.
  intros Hd (Hm & He & Hc) Heq. unfold min_exp, max_exp in *.
  assert (0 < over e /\ 0 < under e) as [Ho Hu] by (unfold over, under; split; apply pow2_pos; lia).
  assert (0 < n) as Hn by nia. set (K := Z.abs (Z.log2 n - Z.log2 d) + 3000).
  destruct (floor_log2_spec n d K Hn Hd) as [Hlo Hhi]; [lia|].
  assert (n * 2 ^ K = m * (d * 2 ^ (e + K))) as Hex.
  { destruct (over_under e K) as [<- <-]; [lia..|]. rewrite Z.mul_assoc, Heq. ring. }
  rewrite Hex in Hlo, Hhi. set (fl := floor_log2 n d) in *.
  assert (fl < e + 53) as H1.
  { apply (Z.add_lt_mono_r _ _ K), (pow2_le_inv _ _ d); [lia..|]. eapply Z.le_lt_trans; [exact Hlo|].
    replace (e + 53 + K) with (53 + (e + K)) by lia. rewrite (Z.pow_add_r 2 53) by lia.
    assert (0 < 2 ^ (e + K)) by (apply pow2_pos; lia). nia. }
  assert (Z.max (-1074) (fl - 52) = e) as Hexp.
  { destruct Hc as [Hc| ->]; [|].
    - assert (e + 52 < fl + 1); [|lia]. apply (Z.add_lt_mono_r _ _ K), (pow2_le_inv _ _ d); [lia| |].
      { destruct (Z.le_gt_cases 0 (fl + 1 + K)); [done|]. rewrite (Z.pow_neg_r 2 (fl + 1 + K)) in Hhi by done.
        assert (0 < 2 ^ (e + K)) by (apply pow2_pos; lia). nia. }
      eapply Z.le_lt_trans; [|exact Hhi]. replace (e + 52 + K) with (52 + (e + K)) by lia.
      rewrite (Z.pow_add_r 2 52) by lia. assert (0 < 2 ^ (e + K)) by (apply pow2_pos; lia). nia.
    - destruct (Z.le_gt_cases (2 ^ 52) m) as [Hm2|Hm2]; [lia|]. lia. }
  unfold round_ratio. rewrite (proj2 (Z.eqb_neq n 0)) by lia. fold fl. unfold min_exp, max_exp. rewrite Hexp.
  rewrite Heq, Z.div_mul, Z.mod_mul by nia. cbv zeta.
  rewrite (proj2 (Z.ltb_ge _ (2 * 0))), (proj2 (Z.eqb_neq _ (2 * 0))) by nia. cbn [orb andb].
  rewrite (proj2 (Z.eqb_neq m (2 ^ 53))) by lia. by rewrite (proj2 (Z.ltb_ge 971 e)) by lia.
Qed.

(** What is rounded to a positive number lies between 2^-1200 and 2^1200. *)
Lemma round_ratio_range n d m e : 0 < n -> 0 < d -> round_ratio n d = Some (m, e) -> 0 < m ->
  n < d * 2 ^ 1200 /\ d <= n * 2 ^ 1200.
Proof.
  intros Hn Hd Hr Hm. set (K := Z.abs (Z.log2 n - Z.log2 d) + 3000).
  destruct (floor_log2_spec n d K Hn Hd) as [Hlo Hhi]; [lia|].
  unfold round_ratio, min_exp, max_exp in Hr. rewrite (proj2 (Z.eqb_neq n 0)) in Hr by lia.
  set (fl := floor_log2 n d) in *. assert (0 < 2 ^ K) by (apply pow2_pos; lia). split.
  - apply Z.nle_gt. intros Hbig. assert (1200 < fl + 1) as Hfl.
    { apply (Z.add_lt_mono_r _ _ K), (pow2_le_inv _ _ d); [lia| |].
      - destruct (Z.le_gt_cases 0 (fl + 1 + K)); [done|]. rewrite (Z.pow_neg_r 2 (fl + 1 + K)) in Hhi by done. nia.
      - eapply Z.le_lt_trans; [|exact Hhi]. rewrite (Z.pow_add_r 2 1200) by lia. nia. }
    rewrite Z.max_r in Hr by lia. cbv zeta in Hr. repeat case_match; simplify_eq; bool_to_prop; lia.
  - apply Z.nlt_ge. intros Hsmall. assert (fl < -1200) as Hfl.
    { apply (Z.add_lt_mono_r _ _ K), (pow2_le_inv _ _ d); [lia..|].
      assert (2 ^ K = 2 ^ 1200 * 2 ^ (-1200 + K)) as HK by (rewrite <- Z.pow_add_r by lia; f_equal; lia).
      eapply Z.le_lt_trans; [exact Hlo|]. rewrite HK.
      assert (0 < 2 ^ (-1200 + K)) by (apply pow2_pos; lia). nia. }
    rewrite Z.max_l in Hr by lia. change (under (-1074)) with 1 in Hr. change (over (-1074)) with (2 ^ 1074) in Hr.
    assert (n * 2 ^ 1074 * 4 < d) as Hs.
    { eapply Z.le_lt_trans; [|exact Hsmall]. rewrite <- Z.mul_assoc. apply Z.mul_le_mono_nonneg_l; [lia|].
      change 4 with (2 ^ 2). rewrite <- Z.pow_add_r by lia. apply Z.pow_le_mono_r; lia. }
    rewrite Z.mul_1_r, Z.div_small, Z.mod_small in Hr by lia. cbv zeta in Hr.
    rewrite (proj2 (Z.ltb_ge d _)), (proj2 (Z.eqb_neq d _)) in Hr by lia. cbn in Hr. injection Hr as <- _. lia.
Qed.

(** ** The shortest decimal *)

Lemma trim_zeros_nonneg fuel D k : 0 <= D -> 0 <= (trim_zeros fuel D k).1.
Proof.
  revert D k. induction fuel as [|fuel IH]; intros D k HD; simpl; [done|].
  destruct (_ && _); [|done]. apply IH. by apply Z.div_pos.
Qed.

Definition reads_as (m e : Z) (c : Z * Z) : Prop := 0 <= c.1 /\ round_dec c.1 c.2 = Some (m, e).

Lemma candidate_reads m e digs c : canonical_double m e -> candidate m e digs = Some c -> reads_as m e c.
Proof.
  intros (Hm & _) Hc. unfold candidate in Hc.
  set (lo := _ / _) in Hc. assert (0 <= lo) as Hlo.
  { apply Z.div_pos; [apply Z.mul_nonneg_nonneg; [|apply Z.pow_nonneg; lia]|].
    - apply Z.mul_nonneg_nonneg; [lia|]. apply Z.pow_nonneg. lia.
    - apply Z.mul_pos_pos; [apply pow2_pos; lia|]. apply Z.pow_pos_nonneg; lia. }
  set (down := trim_zeros 20 lo _) in Hc. set (up := trim_zeros 20 (lo + 1) _) in Hc.
  assert (0 <= down.1 /\ 0 <= up.1) as [Hd Hu] by (split; apply trim_zeros_nonneg; lia).
  cbv zeta in Hc. clearbody down up.
  repeat case_match; simplify_eq; repeat match goal with H : bool_decide _ = true |- _ => apply bool_decide_eq_true in H end;
    by split.
Qed.

Lemma exact_reads m e : canonical_double m e -> reads_as m e (exact m e).
Proof.
  intros Hc. pose proof Hc as (Hm & He & _). unfold reads_as, exact, round_dec.
  destruct (Z.leb_spec 0 e) as [H0|H0]; cbn [fst snd].
  - split; [apply Z.mul_nonneg_nonneg; [lia|apply Z.pow_nonneg; lia]|]. cbn.
    apply round_ratio_exact; [lia|done|]. unfold over, under. rewrite Z.max_l, Z.max_r by lia. lia.
  - split; [apply Z.mul_nonneg_nonneg; [lia|apply Z.pow_nonneg; lia]|].
    rewrite (proj2 (Z.leb_gt 0 e)) by done. apply round_ratio_exact; [apply Z.pow_pos_nonneg; lia|done|].
    unfold over, under. rewrite Z.max_r, Z.max_l by lia. change 10 with (5 * 2). rewrite Z.pow_mul_l. lia.
Qed.

Lemma shortest_reads m e : canonical_double m e -> reads_as m e (shortest m e).
Proof.
  intros Hc. unfold shortest. destruct (first_candidate m e 1 17) as [c|] eqn:Hf; [|by apply exact_reads]. cbn [default].
  revert Hf. generalize 17%nat. intros todo. generalize 1%nat. induction todo as [|todo IH]; intros digs; simpl; [done|].
  destruct (candidate m e digs) as [c'|] eqn:Hd; [|apply IH]. intros [= <-]. by eapply candidate_reads.
Qed.

(** ** Reading what was written *)

Lemma take_drop_chars n s : take_chars n s +:+ drop_chars n s = s.
Proof. revert n. induction s as [|c s IH]; intros [|n]; try done. exact (f_equal (String c) (IH n)). Qed.

Lemma len_take_chars n s : Z.of_nat n <= len s -> len (take_chars n s) = Z.of_nat n.
Proof.
  revert n. induction s as [|c s IH]; intros [|n] H; try done.
  rewrite len_cons in H. cbn [take_chars]. rewrite len_cons, IH by lia. lia.
Qed.

(** The head of the rest of a number. *)
Definition after_digits (s : string) : Prop := match s with String c _ => is_digit c = false | EmptyString => True end.

Lemma number_parts_int c ints tail : all_chars is_digit (String c ints) = true -> after_digits tail ->
  match tail with String a _ => is_dot a = false | EmptyString => True end ->
  number_parts (String c ints +:+ tail) = (false, default 0 (digits 0 (String c ints)), read_exp tail).
Proof.
  intros Hi Ht Hd. unfold number_parts. set (lit := String c ints +:+ tail).
  assert ((match lit with String "-"%char r => (true, r) | _ => (false, lit) end) = (false, lit)) as ->.
  { subst lit. cbn in Hi. apply andb_true_iff in Hi as [Hc _].
    change (String c ints +:+ tail) with (String c (ints +:+ tail)). by destruct c as [[] [] [] [] [] [] [] []]. }
  subst lit. rewrite span_app by done. destruct tail as [|a tail].
  - rewrite app_string_nil_r. f_equal.
  - rewrite Hd, app_string_nil_r. f_equal. change (len EmptyString) with 0. lia.
Qed.

Lemma number_parts_frac c ints fracs tail : all_chars is_digit (String c ints) = true ->
  all_chars is_digit fracs = true -> after_digits tail ->
  number_parts (String c ints +:+ "." +:+ fracs +:+ tail) =
  (false, default 0 (digits 0 (String c ints +:+ fracs)), read_exp tail - len fracs).
Proof.
  intros Hi Hf Ht. unfold number_parts. set (lit := String c ints +:+ _).
  assert ((match lit with String "-"%char r => (true, r) | _ => (false, lit) end) = (false, lit)) as ->.
  { subst lit. cbn in Hi. apply andb_true_iff in Hi as [Hc _].
    change (String c ints +:+ ?t) with (String c (ints +:+ t)). by destruct c as [[] [] [] [] [] [] [] []]. }
  subst lit. rewrite span_app by done. change ("." +:+ fracs +:+ tail) with (String "." (fracs +:+ tail)).
  change (is_dot ".") with true. cbv iota. by rewrite span_app.
Qed.

Lemma exp_digits_small s v : all_chars is_digit s = true -> forall acc, 0 <= acc ->
  digits acc s = Some v -> v < 100000 -> exp_digits acc s = v.
Proof.
  induction s as [|c s IH]; intros Hs acc Hacc; cbn in Hs |- *; [by intros [= ->]|].
  apply andb_true_iff in Hs as [Hc Hs]. destruct (digit c) as [d|] eqn:Hd; [|done]. apply digit_range in Hd.
  intros H Hv. cbn [default]. pose proof (digits_bounds s (10 * acc + d) v ltac:(lia) H).
  assert (1 <= 10 ^ len s) by (pose proof (len_nonneg s); pose proof (Z.pow_pos_nonneg 10 (len s)); lia).
  assert (10 * acc + d <= (10 * acc + d) * 10 ^ len s) by (set (P := 10 ^ len s) in *; nia).
  change (id d) with d. rewrite (proj2 (Z.ltb_lt acc 10000)) by lia. replace (acc * 10 + d) with (10 * acc + d) by lia. apply IH; done || lia.
Qed.

Lemma read_exp_itoa x : Z.abs x < 100000 -> read_exp ("e" +:+ (if x <? 0 then "-" else "+") +:+ itoa (Z.abs x)) = x.
Proof.
  intros Hx. assert (exp_digits 0 (itoa (Z.abs x)) = Z.abs x) as He.
  { apply exp_digits_small; [by apply all_digits_itoa; lia|lia| |done].
    rewrite <- (app_string_nil_r (itoa _)), digits_itoa by lia. done. }
  destruct (Z.ltb_spec x 0);
    [change (read_exp (String "e" (String "-" (itoa (Z.abs x)))) = x)|change (read_exp (String "e" (String "+" (itoa (Z.abs x)))) = x)];
    cbn [read_exp]; rewrite bool_decide_true by done; cbn [orb]; rewrite He; lia.
Qed.

Lemma digits_itoa_0 D : 0 <= D -> digits 0 (itoa D) = Some D.
Proof. intros HD. by rewrite <- (app_string_nil_r (itoa D)), digits_itoa by done. Qed.

Lemma all_chars_split p n s : all_chars p s = true -> all_chars p (take_chars n s) = true /\ all_chars p (drop_chars n s) = true.
Proof. rewrite <- (take_drop_chars n s) at 1. rewrite all_chars_app. apply andb_true_iff. Qed.

(** The same decimal value is rounded alike. *)
Lemma round_dec_shift D k : 0 <= k -> round_dec (D * 10 ^ k) 0 = round_dec D k.
Proof. intros Hk. unfold round_dec. rewrite (proj2 (Z.leb_le 0 k)) by done. cbn. by rewrite Z.mul_1_r. Qed.

(** What [layout_f] and [layout_e] write is read as the decimal they were given. *)
Definition reads_back (text : string) (D k : Z) : Prop :=
  exists D' k', number_parts text = (false, D', k') /\ round_dec D' k' = round_dec D k.

Lemma layout_f_reads D k : 0 <= D -> reads_back (layout_f (itoa D) (len (itoa D) + k)) D k.
Proof.
  intros HD. unfold layout_f, reads_back. pose proof (all_digits_itoa D HD) as Hall.
  destruct (itoa_writes D HD) as (c & ds & Heq & _).
  destruct (Z.leb_spec (len (itoa D) + k) 0) as [H1|H1]; [|destruct (Z.ltb_spec (len (itoa D) + k) (len (itoa D))) as [H2|H2]].
  - set (j := Z.to_nat (- (len (itoa D) + k))). exists D, k. split; [|done].
    change ("0." +:+ zeros j +:+ itoa D) with (String "0" EmptyString +:+ "." +:+ (zeros j +:+ itoa D)).
    rewrite <- (app_string_nil_r (zeros j +:+ itoa D)), number_parts_frac;
      [|done|by rewrite all_chars_app, all_digits_zeros|done].
    change (String "0" EmptyString +:+ zeros j +:+ itoa D) with (zeros 1 +:+ zeros j +:+ itoa D).
    rewrite !digits_zeros, digits_itoa_0 by done. rewrite len_app, len_zeros. cbn [read_exp default].
    f_equal. subst j. lia.
  - set (j := Z.to_nat (len (itoa D) + k)). exists D, k. split; [|done].
    pose proof (all_chars_split _ j _ Hall) as [Ht Hd]. pose proof (take_drop_chars j (itoa D)) as Htd.
    pose proof (len_take_chars j (itoa D) ltac:(lia)) as Hlen.
    assert (len (drop_chars j (itoa D)) = - k) as Hlend.
    { pose proof (len_app (take_chars j (itoa D)) (drop_chars j (itoa D))) as Hl. rewrite Htd in Hl. lia. }
    destruct (take_chars j (itoa D)) as [|a ints] eqn:Htk; [change (len EmptyString) with 0 in Hlen; lia|].
    rewrite <- (app_string_nil_r (drop_chars j (itoa D))) at 1. rewrite number_parts_frac by done.
    rewrite Htd, digits_itoa_0, Hlend by done. cbn [read_exp default]. f_equal. lia.
  - set (j := Z.to_nat (len (itoa D) + k - len (itoa D))). exists (D * 10 ^ k), 0. split; [|apply round_dec_shift; lia].
    assert (itoa D +:+ zeros j = String c (ds +:+ zeros j)) as Htxt by by rewrite Heq.
    assert (all_chars is_digit (String c (ds +:+ zeros j)) = true) as Ha
      by by rewrite <- Htxt, all_chars_app, Hall, all_digits_zeros.
    rewrite Htxt, <- (app_string_nil_r (String c (ds +:+ zeros j))), number_parts_int by done.
    rewrite <- Htxt, digits_itoa, <- (app_string_nil_r (zeros j)), digits_zeros by done. cbn [digits default read_exp].
    replace (Z.of_nat j) with k by lia. done.
Qed.

Lemma layout_e_reads D k : 0 <= D -> Z.abs (len (itoa D) + k) < 90000 ->
  reads_back (layout_e (itoa D) (len (itoa D) + k)) D k.
Proof.
  intros HD Hk. unfold layout_e, reads_back. pose proof (all_digits_itoa D HD) as Hall.
  destruct (itoa_writes D HD) as (c & ds & Heq & _). exists D, k. split; [|done].
  set (x := len (itoa D) + k - 1). pose proof (read_exp_itoa x ltac:(lia)) as He.
  set (tail := "e" +:+ (if x <? 0 then "-" else "+") +:+ itoa (Z.abs x)) in *.
  assert (after_digits tail /\ match tail with String a _ => is_dot a = false | EmptyString => True end) as [Ht1 Ht2] by done.
  rewrite Heq in Hall |- *. cbn [take_chars drop_chars]. cbn in Hall. apply andb_true_iff in Hall as [Hc Hds].
  assert (digits 0 (String c EmptyString +:+ ds) = Some D) as Hdig
    by (change (String c EmptyString +:+ ds) with (String c ds); rewrite <- Heq; by apply digits_itoa_0).
  assert (all_chars is_digit (String c EmptyString) = true) as Hc1 by (cbn; by rewrite Hc).
  rewrite len_cons. destruct (Z.ltb_spec 1 (1 + len ds)) as [Hl|Hl].
  - rewrite app_string_assoc, number_parts_frac by done. rewrite Hdig, He. cbn [default]. f_equal.
    subst x. rewrite Heq, len_cons. lia.
  - assert (ds = EmptyString) as ->.
    { destruct ds as [|a ds]; [done|]. rewrite len_cons in Hl. pose proof (len_nonneg ds). lia. }
    change (EmptyString +:+ tail) with tail. rewrite number_parts_int by done.
    change (String c EmptyString +:+ EmptyString) with (String c EmptyString) in Hdig. rewrite Hdig, He.
    cbn [default]. f_equal. subst x. rewrite Heq. change (len (String c EmptyString)) with 1. lia.
Qed.

Lemma pow10_lt_inv a b : 0 <= b -> 10 ^ a < 10 ^ b -> a < b.
Proof. intros Hb H. destruct (Z.lt_ge_cases a b); [done|]. pose proof (Z.pow_le_mono_r 10 b a). lia. Qed.

(** The decimals that are read as a number have moderate exponents. *)
Lemma reads_as_range m e D k : 0 < m -> reads_as m e (D, k) -> 0 < D /\ Z.abs (len (itoa D) + k) < 90000.
Proof.
  intros Hm [HD Hr]. cbn [fst snd] in *. assert (0 < D) as Hpos.
  { destruct (Z.eq_dec D 0) as [->|]; [|lia]. exfalso. unfold round_dec, round_ratio in Hr. cbn in Hr.
    destruct (0 <=? k); injection Hr as <- _; lia. }
  split; [done|]. pose proof (itoa_bounds D Hpos) as [Hb1 Hb2]. set (L := len (itoa D)) in *.
  assert (1 <= L) as HL by (destruct (itoa_writes D HD) as (c & ds & Heq & _); subst L; rewrite Heq, len_cons;
    pose proof (len_nonneg ds); lia).
  assert (2 ^ 1200 <= 10 ^ 1200) as Hp by (apply Z.pow_le_mono_l; lia).
  unfold round_dec in Hr. destruct (Z.leb_spec 0 k) as [Hk|Hk].
  - apply round_ratio_range in Hr as [H1 _]; [|apply Z.mul_pos_pos; [done|apply Z.pow_pos_nonneg; lia]|lia|done].
    assert (L - 1 + k < 1200); [|lia]. apply pow10_lt_inv; [lia|]. rewrite Z.pow_add_r by lia.
    assert (0 < 10 ^ k) by (apply Z.pow_pos_nonneg; lia). eapply Z.lt_le_trans; [|exact Hp].
    rewrite Z.mul_1_l in H1. eapply Z.le_lt_trans; [|exact H1]. by apply Z.mul_le_mono_nonneg_r; [lia|].
  - assert (0 < 10 ^ (- k)) as Hpk by (apply Z.pow_pos_nonneg; lia).
    apply round_ratio_range in Hr as [H1 H2]; [|done..].
    assert (0 < 10 ^ 1200) by (apply Z.pow_pos_nonneg; lia). set (B := 2 ^ 1200) in *. set (T := 10 ^ 1200) in *.
    assert (L - 1 < - k + 1200) by (apply pow10_lt_inv; [lia|]; rewrite (Z.pow_add_r 10 (- k)) by lia; fold T; clearbody B T; nia).
    assert (- k < L + 1200) by (apply pow10_lt_inv; [lia|]; rewrite (Z.pow_add_r 10 L) by lia; fold T; clearbody B T; nia). lia.
Qed.

(** ** The numbers *)

Definition valid_double (f : double) : Prop :=
  (d_man f = 0 /\ d_exp f = min_exp) \/ canonical_double (d_man f) (d_exp f).

Lemma round_ratio_valid n d m e neg : 0 <= n -> 0 < d -> round_ratio n d = Some (m, e) -> valid_double (mkDouble neg m e).
Proof.
  intros Hn0 Hd Hr. unfold round_ratio in Hr. destruct (Z.eqb_spec n 0) as [->|Hn]; [injection Hr as <- <-; by left|].
  assert (0 < n) as Hpos by lia. set (K := Z.abs (Z.log2 n - Z.log2 d) + 3000).
  destruct (floor_log2_spec n d K Hpos Hd) as [Hlo Hhi]; [lia|]. set (fl := floor_log2 n d) in *.
  set (E := Z.max min_exp (fl - 52)) in *. cbv zeta in Hr. unfold min_exp, max_exp in *.
  assert (0 < over E /\ 0 < under E) as [Ho Hu] by (unfold over, under; split; apply pow2_pos; lia).
  destruct (over_under E K) as [Hok Huk]; [lia..|]. set (P := 2 ^ (K - Z.max 0 (- E))) in *.
  assert (0 < P) as HP by (apply pow2_pos; lia).
  set (N := n * over E) in *. set (D := d * under E) in *. assert (0 < D) as HD by (apply Z.mul_pos_pos; done).
  assert (n * 2 ^ K = N * P) as HN by (subst N; rewrite <- Hok; ring).
  assert (d * 2 ^ (E + K) = D * P) as HDP by (subst D; rewrite <- Huk; ring).
  assert (fl + K <= E + 52 + K) as Hle by lia.
  assert (N < D * 2 ^ 53) as Hup.
  { apply (Z.mul_lt_mono_pos_r P); [done|]. rewrite <- HN. eapply Z.lt_le_trans; [exact Hhi|].
    replace (D * 2 ^ 53 * P) with (2 ^ 53 * (D * P)) by ring. rewrite <- HDP.
    replace (2 ^ 53 * (d * 2 ^ (E + K))) with (d * (2 ^ 53 * 2 ^ (E + K))) by ring.
    rewrite <- Z.pow_add_r by lia. apply Z.mul_le_mono_nonneg_l; [lia|]. apply Z.pow_le_mono_r; lia. }
  assert (E = -1074 \/ D * 2 ^ 52 <= N) as Hdown.
  { destruct (Z.le_gt_cases (fl - 52) (-1074)) as [|Hbig]; [left; lia|right].
    apply (Z.mul_le_mono_pos_r _ _ P); [done|]. rewrite <- HN. etrans; [|exact Hlo].
    replace (D * 2 ^ 52 * P) with (2 ^ 52 * (D * P)) by ring. rewrite <- HDP.
    replace (2 ^ 52 * (d * 2 ^ (E + K))) with (d * (2 ^ 52 * 2 ^ (E + K))) by ring.
    rewrite <- Z.pow_add_r by lia. apply Z.mul_le_mono_nonneg_l; [lia|]. apply Z.pow_le_mono_r; lia. }
  assert (0 <= N / D < 2 ^ 53) as Hq.
  { split; [apply Z.div_pos; [subst N; nia|done]|]. apply Z.div_lt_upper_bound; lia. }
  assert (E = -1074 \/ 2 ^ 52 <= N / D) as Hq2.
  { destruct Hdown as [|Hdown]; [by left|right]. apply Z.div_le_lower_bound; lia. }
  clearbody N D. clear Hlo Hhi Hup Hdown HN HDP Hok Huk.
  set (M := if _ || _ then N / D + 1 else N / D) in *.
  assert (N / D <= M <= N / D + 1) as HM by (subst M; destruct (_ || _); lia). clearbody M.
  destruct (Z.eqb_spec M (2 ^ 53)) as [HM53|HM53]; cbv beta iota in Hr.
  - destruct (Z.ltb_spec 971 (E + 1)); [done|]. injection Hr as <- <-. right. unfold canonical_double. cbn [d_man d_exp].
    unfold min_exp, max_exp. lia.
  - destruct (Z.ltb_spec 971 E); [done|]. injection Hr as <- <-. unfold valid_double, canonical_double, min_exp, max_exp.
    cbn [d_man d_exp]. destruct (Z.eq_dec M 0); [left|right]; lia.
Qed.

Lemma digits_nonneg s acc v : 0 <= acc -> digits acc s = Some v -> 0 <= v.
Proof.
  intros Ha H. pose proof (digits_bounds s acc v Ha H) as [Hb _].
  pose proof (Z.pow_nonneg 10 (len s)). nia.
Qed.

Lemma ParseFloat_valid lit f : ParseFloat lit = Some f -> valid_double f.
Proof.
  unfold ParseFloat. destruct (number_parts lit) as [[neg D] k] eqn:Hp. unfold round_dec.
  assert (0 <= D) as HD.
  { unfold number_parts in Hp. repeat case_match; simplify_eq;
      match goal with |- 0 <= default 0 ?o => destruct o eqn:Hd; [|done]; by eapply digits_nonneg; [|exact Hd] end. }
  destruct (Z.leb_spec 0 k) as [Hk|Hk].
  - destruct (round_ratio _ _) as [[m e]|] eqn:Hr; [|done]. intros [= <-].
    apply (round_ratio_valid (D * 10 ^ k) 1); [|lia|exact Hr]. apply Z.mul_nonneg_nonneg; [done|]. apply Z.pow_nonneg. lia.
  - destruct (round_ratio _ _) as [[m e]|] eqn:Hr; [|done]. intros [= <-].
    apply (round_ratio_valid D (10 ^ (- k))); [done| |exact Hr]. apply Z.pow_pos_nonneg; lia.
Qed.

Lemma number_parts_neg body D k : number_parts body = (false, D, k) -> number_parts (String "-" body) = (true, D, k).
Proof.
  unfold number_parts. destruct body as [|c r]; [by intros [= <- <-]|].
  destruct (decide (c = "-"%char)) as [->|Hc].
  - destruct (span is_digit r) as [ints s2]. repeat case_match; by intros [=].
  - assert ((match String c r with String "-"%char r => (true, r) | _ => (false, String c r) end) = (false, String c r)) as ->
      by (by destruct c as [[] [] [] [] [] [] [] []]).
    destruct (span is_digit (String c r)) as [ints s2]. repeat case_match; by intros [= <- <-].
Qed.

(** The text of a number is read as the number. *)
Lemma ParseFloat_marshal f : valid_double f -> ParseFloat (marshal_float f) = Some f.
Proof.
  intros Hf. unfold marshal_float.
  set (body := if d_man f =? 0 then _ else _).
  assert (exists D k, number_parts body = (false, D, k) /\ round_dec D k = Some (d_man f, d_exp f)) as (D & k & Hp & Hr).
  { subst body. destruct Hf as [[Hm He]|Hc].
    - rewrite Hm, He. exists 0, 0. by split.
    - pose proof (shortest_reads _ _ Hc) as Hs. destruct Hc as (Hm & _).
      rewrite (proj2 (Z.eqb_neq (d_man f) 0)) by lia. destruct (shortest (d_man f) (d_exp f)) as [D k].
      destruct (reads_as_range _ _ _ _ (proj1 Hm) Hs) as [HD Hrange]. destruct Hs as [_ Hs]. cbn [fst snd] in Hs. cbv zeta.
      destruct (_ || _); [destruct (layout_e_reads D k) as (D' & k' & H1 & H2)|destruct (layout_f_reads D k) as (D' & k' & H1 & H2)];
        try lia; exists D', k'; (split; [done|congruence]). }
  clearbody body. unfold ParseFloat. destruct (d_neg f) eqn:Hneg.
  - change ("-" +:+ body) with (String "-" body).
    rewrite (number_parts_neg _ _ _ Hp), Hr. by destruct f; simpl in *; subst.
  - change (EmptyString +:+ body) with body. rewrite Hp, Hr. by destruct f; simpl in *; subst.
Qed.

(** ** The characters of a number *)

Definition number_char (c : ascii) : bool := is_digit c || bool_decide (c ∈ ["."; "e"; "+"; "-"]%char).

Lemma digits_number_chars s : all_chars is_digit s = true -> all_chars number_char s = true.
Proof. apply all_chars_impl. intros c Hc. unfold number_char. by rewrite Hc. Qed.

Lemma marshal_float_chars f : valid_double f ->
  all_chars number_char (marshal_float f) = true /\ marshal_float f <> EmptyString.
Proof.
  intros Hf. unfold marshal_float. set (body := if d_man f =? 0 then _ else _).
  assert (all_chars number_char body = true /\ body <> EmptyString) as [Hb Hne].
  { subst body. destruct Hf as [[Hm He]|Hc]; [by rewrite Hm|].
    pose proof (shortest_reads _ _ Hc) as [HD _]. destruct Hc as (Hm & _).
    rewrite (proj2 (Z.eqb_neq (d_man f) 0)) by lia. destruct (shortest _ _) as [D k]. cbn [fst] in HD. cbv zeta.
    pose proof (all_digits_itoa D HD) as Hall. destruct (itoa_writes D HD) as (c & ds & Heq & _).
    destruct (_ || _).
    - unfold layout_e. rewrite Heq in *. split; [|done]. rewrite !all_chars_app.
      destruct (all_chars_split _ 1 _ Hall) as [H1 H2]. rewrite (digits_number_chars _ H1). cbn [andb].
      rewrite (digits_number_chars (itoa (Z.abs _))) by (apply all_digits_itoa; lia).
      rewrite !andb_true_r. apply andb_true_iff. split; [|by destruct (_ <? 0)].
      destruct (1 <? _); [|done]. rewrite all_chars_app. by rewrite (digits_number_chars _ H2).
    - unfold layout_f. destruct (_ <=? 0); [|destruct (_ <? len _)].
      + split; [|done]. rewrite !all_chars_app. rewrite (digits_number_chars _ Hall).
        by rewrite (digits_number_chars (zeros _)) by apply all_digits_zeros.
      + split; [|by destruct (take_chars _ _)]. rewrite !all_chars_app.
        destruct (all_chars_split _ (Z.to_nat (len (itoa D) + k)) _ Hall) as [H1 H2].
        by rewrite (digits_number_chars _ H1), (digits_number_chars _ H2).
      + rewrite Heq in *. split; [|done]. rewrite all_chars_app, (digits_number_chars _ Hall).
        by rewrite (digits_number_chars (zeros _)) by apply all_digits_zeros. }
  destruct (d_neg f); [|done]. by rewrite all_chars_app, Hb.
Qed.
