(* ===== verification/Sha256.v ===== *)
(** Sha256: [sha256.Sum256] of Go's [crypto/sha256] (FIPS 180-4), on texts as
    strings of bytes. Words are 32-bit numbers kept in range by [mod 2 ^ 32]. *)

From Stdlib Require Import Ascii.
From S2P Require Import Prelude GoStrconv.

Definition add32 (a b : Z) : Z := (a + b) mod 2 ^ 32.
Definition rotr (n x : Z) : Z := Z.lor (Z.shiftr x n) (Z.shiftl x (32 - n) mod 2 ^ 32).

Definition Sigma0 (x : Z) : Z := Z.lxor (Z.lxor (rotr 2 x) (rotr 13 x)) (rotr 22 x).
Definition Sigma1 (x : Z) : Z := Z.lxor (Z.lxor (rotr 6 x) (rotr 11 x)) (rotr 25 x).
Definition sigma0 (x : Z) : Z := Z.lxor (Z.lxor (rotr 7 x) (rotr 18 x)) (Z.shiftr x 3).
Definition sigma1 (x : Z) : Z := Z.lxor (Z.lxor (rotr 17 x) (rotr 19 x)) (Z.shiftr x 10).
Definition Ch (x y z : Z) : Z := Z.lxor (Z.land x y) (Z.land (2 ^ 32 - 1 - x) z).
Definition Maj (x y z : Z) : Z := Z.lxor (Z.lxor (Z.land x y) (Z.land x z)) (Z.land y z).

(** The first 32 bits of the fractional parts of the cube roots of the first 64
    primes, and of the square roots of the first 8. *)
Definition K256 : list Z :=
  [1116352408; 1899447441; 3049323471; 3921009573; 961987163; 1508970993; 2453635748; 2870763221; 3624381080;
   310598401; 607225278; 1426881987; 1925078388; 2162078206; 2614888103; 3248222580; 3835390401; 4022224774;
   264347078; 604807628; 770255983; 1249150122; 1555081692; 1996064986; 2554220882; 2821834349; 2952996808;
   3210313671; 3336571891; 3584528711; 113926993; 338241895; 666307205; 773529912; 1294757372; 1396182291;
   1695183700; 1986661051; 2177026350; 2456956037; 2730485921; 2820302411; 3259730800; 3345764771; 3516065817;
   3600352804; 4094571909; 275423344; 430227734; 506948616; 659060556; 883997877; 958139571; 1322822218;
   1537002063; 1747873779; 1955562222; 2024104815; 2227730452; 2361852424; 2428436474; 2756734187; 3204031479;
   3329325298].
Definition H0 : list Z :=
  [1779033703; 3144134277; 1013904242; 2773480762; 1359893119; 2600822924; 528734635; 1541459225].

(** [w] most significant bytes first. *)
Fixpoint bytes_of (w : nat) (n : Z) : list Z :=
  match w with
  | O => []
  | S w' => n / 256 ^ Z.of_nat w' mod 256 :: bytes_of w' n
  end.

(** The message with a one bit, zeros up to a multiple of 64 bytes, and its
    length in bits. *)
Definition pad_message (msg : list Z) : list Z :=
  let n := length msg in
  msg ++ [128] ++ repeat 0 (Z.to_nat ((55 - Z.of_nat n) mod 64)) ++ bytes_of 8 (8 * Z.of_nat n mod 2 ^ 64).

Fixpoint words (bs : list Z) : list Z :=
  match bs with
  | a :: b :: c :: d :: rest => ((a * 256 + b) * 256 + c) * 256 + d :: words rest
  | _ => []
  end.

(** The message schedule, last word first. *)
Fixpoint extend (todo : nat) (ws : list Z) : list Z :=
  match todo with
  | O => ws
  | S todo' =>
      let at_ i := nth i ws 0 in
      extend todo' (add32 (add32 (sigma1 (at_ 1%nat)) (at_ 6%nat)) (add32 (sigma0 (at_ 14%nat)) (at_ 15%nat)) :: ws)
  end.

Definition round (st : list Z) (kw : Z * Z) : list Z :=
  match st with
  | [a; b; c; d; e; f; g; h] =>
      let t1 := add32 (add32 h (Sigma1 e)) (add32 (Ch e f g) (add32 kw.1 kw.2)) in
      let t2 := add32 (Sigma0 a) (Maj a b c) in
      [add32 t1 t2; a; b; c; add32 d t1; e; f; g]
  | _ => st
  end.

Definition compress (st block : list Z) : list Z :=
  zip_with add32 st (foldl round st (zip K256 (rev (extend 48 (rev block))))).

Fixpoint blocks (n : nat) (st ws : list Z) : list Z :=
  match n with
  | O => st
  | S n' => blocks n' (compress st (take 16 ws)) (drop 16 ws)
  end.

Definition string_bytes (s : string) : list Z := map (fun c => Z.of_N (N_of_ascii c)) (String.list_ascii_of_string s).
Definition bytes_string (bs : list Z) : string := String.string_of_list_ascii (map (fun b => ascii_of_N (Z.to_N b)) bs).

Definition Sum256 (s : string) : string :=
  let ws := words (pad_message (string_bytes s)) in
  bytes_string (flat_map (bytes_of 4) (blocks (length ws / 16) H0 ws)).

(** The values of the standard. *)
Definition hex (s : string) : string :=
  String.string_of_list_ascii (flat_map (fun b =>
    map (fun n => ascii_of_N (Z.to_N (if n <? 10 then 48 + n else 87 + n))) [b / 16; b mod 16]) (string_bytes s)).

Example Sum256_abc : hex (Sum256 "abc") = "ba7816bf8f01cfea414140de5dae2223b00361a396177a9cb410ff61f20015ad".
Proof. vm_compute. reflexivity. Qed.

Example Sum256_empty : hex (Sum256 EmptyString) = "e3b0c44298fc1c149afbf4c8996fb92427ae41e4649b934ca495991b7852b855".
Proof. vm_compute. reflexivity. Qed.

(** ** The length of a hash *)

Lemma compress_length st block : length st = 8%nat -> length (compress st block) = 8%nat.
Proof.
  intros Hs. unfold compress. rewrite length_zip_with.
  assert (forall l s, length s = 8%nat -> length (foldl round s l) = 8%nat) as Hf.
  { induction l as [|kw l IH]; intros s Hl; [done|]. simpl. apply IH.
    destruct s as [|? [|? [|? [|? [|? [|? [|? [|? [|]]]]]]]]]; done. }
  rewrite Hf by done. lia.
Qed.

Lemma blocks_length n st ws : length st = 8%nat -> length (blocks n st ws) = 8%nat.
Proof. revert st ws. induction n as [|n IH]; intros st ws Hs; [done|]. simpl. apply IH. by apply compress_length. Qed.

Lemma Sum256_length s : String.length (Sum256 s) = 32%nat.
Proof.
  unfold Sum256, bytes_string.
  assert (forall l, String.length (String.string_of_list_ascii l) = length l) as ->
    by (induction l as [|c l IH]; [done|]; simpl; by rewrite IH).
  rewrite length_map. set (ws := words _). pose proof (blocks_length (length ws / 16) H0 ws eq_refl) as Hl.
  destruct (blocks _ _ _) as [|? [|? [|? [|? [|? [|? [|? [|? [|]]]]]]]]]; done.
Qed.
