(* ===== verification/HashPayload.v ===== *)
(** HashPayload: the payload hash of [internal/store/hash_utils.go].

    A payload is decoded into Go's [any], whose values are [value]: numbers are
    [float64]s and objects are maps. [canonicalize] prints such a value with
    sorted keys and no white space, and the hash is the SHA-256 of that text.
    The theorem is that the canonical text decides equality of the values: two
    payloads have the same text exactly when they denote the same value. The
    class [PayloadHasher] of the store is discharged by [canonical_hasher]. *)

From Stdlib Require Import Ascii.
From S2P Require Import Prelude Dharatype GoTime Float64 GoStrconv GoJson PlaySession GoText GoDecimal GoFloat Sha256.
From S2P Require Import Metrics Pg TaskStore.

(** ** Values *)

Inductive value : Type :=
  | VNull
  | VBool (b : bool)
  | VNum (f : double)
  | VStr (s : string)
  | VArr (items : list value)
  | VObj (members : gmap string value).

(** [json.Unmarshal] into [any]: a number out of range is an error, of
    duplicate members the last one stays. *)
Fixpoint decode_any (v : json) : option value :=
  match v with
  | JNull => Some VNull
  | JBool b => Some (VBool b)
  | JNum lit => VNum <$> ParseFloat lit
  | JStr s => Some (VStr s)
  | JArr items =>
      VArr <$> (fix go l :=
        match l with
        | [] => Some []
        | x :: l' => match decode_any x, go l' with Some y, Some ys => Some (y :: ys) | _, _ => None end
        end) items
  | JObj members =>
      VObj <$> (fix go (acc : gmap string value) l :=
        match l with
        | [] => Some acc
        | (k, x) :: l' => match decode_any x with Some y => go (<[k := y]> acc) l' | None => None end
        end) ∅ members
  end.

(** ** Printing *)

(** [json.Marshal] of a string: quotes, backslashes, control characters and the
    characters that matter in HTML are escaped, so are U+2028 and U+2029. *)
Definition unicode_hex (c : ascii) : string :=
  "\u00" +:+ String (hex_char (byte c / 16)) (String (hex_char (byte c mod 16)) EmptyString).

Definition escape_ascii (c : ascii) : string :=
  if bool_decide (c = dquote) || bool_decide (c = backslash) then String backslash (String c EmptyString)
  else if (byte c =? 8)%N then "\b"
  else if (byte c =? 12)%N then "\f"
  else if (byte c =? 10)%N then "\n"
  else if (byte c =? 13)%N then "\r"
  else if (byte c =? 9)%N then "\t"
  else if (byte c <? 32)%N || bool_decide (c ∈ ["<"; ">"; "&"]%char) then unicode_hex c
  else String c EmptyString.

Definition line_separator : string := byte_string [226; 128; 168]%N.
Definition paragraph_separator : string := byte_string [226; 128; 169]%N.

Definition escape_rune (t : string) : string :=
  if bool_decide (t = line_separator) then "\u2028"
  else if bool_decide (t = paragraph_separator) then "\u2029"
  else t.

Fixpoint escape (fuel : nat) (s : string) : string :=
  match fuel, s with
  | S fuel', String c rest =>
      if (byte c <? 128)%N then escape_ascii c +:+ escape fuel' rest
      else
        match take_rune s with
        | Some (t, rest') => escape_rune t +:+ escape fuel' rest'
        | None => "\ufffd" +:+ escape fuel' rest
        end
  | _, _ => EmptyString
  end.

Definition marshal_string (s : string) : string :=
  String dquote (escape (String.length s) s +:+ String dquote EmptyString).

Fixpoint join (l : list string) : string :=
  match l with
  | [] => EmptyString
  | [x] => x
  | x :: l' => x +:+ "," +:+ join l'
  end.

(** [range] enumerates the keys of a map, in any order; [sort.Strings] orders
    them byte by byte. *)
Section Canonicalize.
Context (range : gmap string string -> list string).

Fixpoint canonicalize (v : value) : string :=
  match v with
  | VNull => "null"
  | VBool b => if b then "true" else "false"
  | VNum f => marshal_float f
  | VStr s => marshal_string s
  | VArr items => "[" +:+ join (map canonicalize items) +:+ "]"
  | VObj members =>
      let children := canonicalize <$> members in
      let keys := merge_sort String.le (range children) in
      "{" +:+ join (map (fun k => marshal_string k +:+ ":" +:+ default EmptyString (children !! k)) keys) +:+ "}"
  end.

Definition canonicalizeJSON (input : string) : res string :=
  match parse input ≫= decode_any with
  | None => Err (NewError "json: cannot decode payload")
  | Some obj => Ok (canonicalize obj)
  end.

Definition hash_payload (payload : string) : res string :=
  match canonicalizeJSON payload with
  | Err e => Err e
  | Ok canonical => Ok (Sum256 canonical)
  end.

Definition canonical_hasher : PayloadHasher := {| hashPayload := hash_payload |}.
End Canonicalize.

(** What Go promises of [range]: every key once. *)
Definition ranges (range : gmap string string -> list string) : Prop :=
  forall m, range m ≡ₚ (map_to_list m).*1.

Definition some_range (m : gmap string string) : list string := (map_to_list m).*1.

Example canonicalizeJSON_ex :
  canonicalizeJSON some_range (" { " +:+ quoted "b" +:+ " : [1.50, -0, 1e21], " +:+ quoted "a" +:+ ":" +:+ quoted "<\u00e9>" +:+ ", " +:+ quoted "b" +:+ ":null}") =
  Ok ("{" +:+ quoted "a" +:+ ":" +:+ quoted "\u003cé\u003e" +:+ "," +:+ quoted "b" +:+ ":null}").
Proof. vm_compute. reflexivity. Qed.

(** ** UTF-8 *)

(** The bytes of one character that is not ASCII. *)
Definition rune (t : string) : Prop := forall s, take_rune (t +:+ s) = Some (t, s).

Lemma take_rune_Some s t rest : take_rune s = Some (t, rest) -> s = t +:+ rest /\ rune t.
Proof.
  destruct s as [|a [|b s]]; [done..|]. intros H. unfold take_rune in H.
  destruct (within 194 223 a && within 128 191 b) eqn:H2.
  { injection H as <- <-. split; [done|]. intros s'. change (String a (String b EmptyString) +:+ s') with (String a (String b s')).
    unfold take_rune. by rewrite H2. }
  destruct s as [|c s]; [done|]. destruct (_ && within 128 191 c) eqn:H3.
  { injection H as <- <-. split; [done|]. intros s'.
    change (String a (String b (String c EmptyString)) +:+ s') with (String a (String b (String c s'))).
    unfold take_rune. by rewrite H2, H3. }
  destruct s as [|d s]; [done|]. destruct (_ && within 128 191 d) eqn:H4; [|done].
  injection H as <- <-. split; [done|]. intros s'.
  change (String a (String b (String c (String d EmptyString))) +:+ s') with (String a (String b (String c (String d s')))).
  unfold take_rune. by rewrite H2, H3, H4.
Qed.

(** Well-formed texts. *)
Inductive utf8 : string -> Prop :=
  | utf8_nil : utf8 EmptyString
  | utf8_ascii c s : (byte c < 128)%N -> utf8 s -> utf8 (String c s)
  | utf8_rune t s : rune t -> utf8 s -> utf8 (t +:+ s).

(** A character starts with a byte that is not ASCII. *)
Lemma rune_head t : rune t -> exists c t', t = String c t' /\ (128 <= byte c)%N.
Proof.
  intros Hr. specialize (Hr EmptyString). rewrite app_string_nil_r in Hr. destruct t as [|a [|b s]]; [done..|].
  exists a, (String b s). split; [done|]. apply N.nlt_ge. intros Ha. unfold take_rune in Hr.
  assert (forall lo hi, (128 <= lo)%N -> within lo hi a = false) as Hw.
  { intros lo hi Hlo. unfold within. rewrite (proj2 (N.leb_gt lo (byte a))) by lia. done. }
  rewrite !Hw in Hr by done. cbn [andb] in Hr.
  rewrite (proj2 (N.eqb_neq (byte a) 224)), (proj2 (N.eqb_neq (byte a) 237)), (proj2 (N.eqb_neq (byte a) 240)),
    (proj2 (N.eqb_neq (byte a) 244)) in Hr by lia. cbn [andb] in Hr. repeat case_match; done.
Qed.

Lemma byte_ascii n : (n < 256)%N -> byte (ascii_of_N n) = n.
Proof. apply N_ascii_embedding. Qed.

Lemma within_ascii lo hi n : (n < 256)%N -> (lo <= n <= hi)%N -> within lo hi (ascii_of_N n) = true.
Proof. intros Hn H. unfold within. rewrite byte_ascii by done. apply andb_true_iff. rewrite !N.leb_le. lia. Qed.

Lemma within_ascii_out lo hi n : (n < 256)%N -> (n < lo \/ hi < n)%N -> within lo hi (ascii_of_N n) = false.
Proof. intros Hn H. unfold within. rewrite byte_ascii by done. apply andb_false_iff. rewrite !N.leb_gt. lia. Qed.

#[local] Ltac Zify.zify_post_hook ::= Z.to_euclidean_division_equations.

Lemma rune_2 a b : (194 <= a <= 223)%N -> (128 <= b <= 191)%N -> rune (byte_string [a; b]).
Proof.
  intros Ha Hb s. change (byte_string [a; b] +:+ s) with (String (ascii_of_N a) (String (ascii_of_N b) s)).
  unfold take_rune. by rewrite !within_ascii by lia.
Qed.

Lemma rune_3 a b c : (224 <= a <= 239)%N -> (128 <= b <= 191)%N -> (128 <= c <= 191)%N ->
  (a = 224 -> 160 <= b)%N -> (a = 237 -> b <= 159)%N -> rune (byte_string [a; b; c]).
Proof.
  intros Ha Hb Hc H224 H237 s.
  change (byte_string [a; b; c] +:+ s) with (String (ascii_of_N a) (String (ascii_of_N b) (String (ascii_of_N c) s))).
  unfold take_rune. rewrite (within_ascii_out 194 223) by lia. cbn [andb]. rewrite byte_ascii by lia.
  rewrite (within_ascii _ _ c) by lia.
  destruct (N.eqb_spec a 224) as [->|]; [by rewrite within_ascii by lia|].
  destruct (N.eqb_spec a 237) as [->|]; [by rewrite within_ascii by lia|]. by rewrite !within_ascii by lia.
Qed.

Lemma rune_4 a b c d : (240 <= a <= 244)%N -> (128 <= b <= 191)%N -> (128 <= c <= 191)%N -> (128 <= d <= 191)%N ->
  (a = 240 -> 144 <= b)%N -> (a = 244 -> b <= 143)%N -> rune (byte_string [a; b; c; d]).
Proof.
  intros Ha Hb Hc Hd H240 H244 s.
  change (byte_string [a; b; c; d] +:+ s)
    with (String (ascii_of_N a) (String (ascii_of_N b) (String (ascii_of_N c) (String (ascii_of_N d) s)))).
  unfold take_rune. rewrite (within_ascii_out 194 223 a), (within_ascii_out 225 239 a) by lia. cbn [andb].
  rewrite byte_ascii by lia. rewrite (within_ascii _ _ c), (within_ascii _ _ d) by lia.
  rewrite (proj2 (N.eqb_neq a 224)), (proj2 (N.eqb_neq a 237)) by lia. cbn [andb].
  destruct (N.eqb_spec a 240) as [->|]; [by rewrite within_ascii by lia|].
  destruct (N.eqb_spec a 244) as [->|]; [by rewrite within_ascii by lia|]. by rewrite !within_ascii by lia.
Qed.

Lemma encode_rune_utf8 r s : (r < 1114112)%N -> is_surrogate r = false -> utf8 s -> utf8 (encode_rune r +:+ s).
Proof.
  intros Hr Hs Hu. unfold encode_rune. destruct (N.ltb_spec r 128) as [H1|H1].
  { apply utf8_ascii; [|done]. by rewrite byte_ascii by lia. }
  destruct (N.ltb_spec r 2048) as [H2|H2].
  { apply utf8_rune; [|done]. apply rune_2; lia. }
  destruct (N.ltb_spec r 65536) as [H3|H3].
  - apply utf8_rune; [|done]. unfold is_surrogate in Hs. apply andb_false_iff in Hs. rewrite N.leb_gt, N.ltb_ge in Hs.
    apply rune_3; lia.
  - apply utf8_rune; [|done]. apply rune_4; lia.
Qed.

Lemma replacement_utf8 s : utf8 s -> utf8 (replacement +:+ s).
Proof. intros H. apply utf8_rune; [|done]. apply rune_3; lia. Qed.

Lemma hex_digit_range c n : hex_digit c = Some n -> (n < 16)%N.
Proof.
  unfold hex_digit, within. intros H. repeat case_match; simplify_eq; bool_to_prop; rewrite N.leb_le in *; lia.
Qed.

Lemma getu4_range s r rest : getu4 s = Some (r, rest) -> (r < 65536)%N.
Proof.
  unfold getu4. intros H. repeat case_match; simplify_eq.
  repeat match goal with H : hex_digit _ = Some _ |- _ => apply hex_digit_range in H end. lia.
Qed.

Lemma unicode_escape_utf8 s t rest u : unicode_escape s = Some (t, rest) -> utf8 u -> utf8 (t +:+ u).
Proof.
  unfold unicode_escape. intros H Hu. destruct (getu4 s) as [[r rest1]|] eqn:Hr; [|done]. apply getu4_range in Hr.
  destruct (is_surrogate r) eqn:Hs; [|simplify_eq; apply encode_rune_utf8; [lia|done..]].
  repeat case_match; simplify_eq; try by apply replacement_utf8.
  bool_to_prop. unfold is_surrogate in Hs. bool_to_prop. rewrite N.ltb_lt in *. rewrite N.leb_le in *.
  apply encode_rune_utf8; [lia| |done]. unfold is_surrogate. rewrite (proj2 (N.ltb_ge _ 57344)) by lia. by rewrite andb_false_r.
Qed.

Lemma simple_escape_ascii c x : simple_escape c = Some x -> (byte x < 128)%N.
Proof. destruct c as [[] [] [] [] [] [] [] []]; try done; by intros [= <-]. Qed.

(** The strings of a decoded text are well formed. *)
Lemma unquote_utf8 fuel s t rest : unquote fuel s = Some (t, rest) -> utf8 t.
Proof.
  revert s t rest. induction fuel as [|fuel IH]; intros [|c s] t rest; try done. cbn [unquote].
  assert (forall chunk s' t' rest', (forall u, utf8 u -> utf8 (chunk +:+ u)) ->
    match unquote fuel s' with Some (t, rest'') => Some (chunk +:+ t, rest'') | None => None end = Some (t', rest') ->
    utf8 t') as Hgo.
  { intros chunk s' t' rest' Hc. destruct (unquote fuel s') as [[u r]|] eqn:Hu; [|done]. intros [= <- <-]. eauto. }
  case_bool_decide; [intros [= <- <-]; constructor|].
  case_bool_decide; [destruct s as [|e s]; [done|]; case_bool_decide|].
  - destruct (unicode_escape s) as [[u r]|] eqn:Hu; [|done]. apply Hgo. intros v. by eapply unicode_escape_utf8.
  - destruct (simple_escape e) as [x|] eqn:Hx; [|done]. apply Hgo. intros v. apply utf8_ascii. by eapply simple_escape_ascii.
  - destruct (N.ltb_spec (byte c) 32); [done|]. destruct (N.ltb_spec (byte c) 128).
    + apply Hgo. intros v. by apply utf8_ascii.
    + destruct (take_rune _) as [[u r]|] eqn:Hu; [|apply Hgo, replacement_utf8].
      apply Hgo. intros v. apply utf8_rune. by eapply take_rune_Some.
Qed.

(** ** Strings *)

Lemma unquote_ascii fuel c s : (byte c < 128)%N ->
  unquote (S fuel) (escape_ascii c +:+ s) =
  match unquote fuel s with Some (t, rest) => Some (String c t, rest) | None => None end.
Proof. destruct c as [[] [] [] [] [] [] [] []]; try (by intros); intros _; reflexivity. Qed.

Lemma unquote_rune fuel t s : rune t ->
  unquote (S fuel) (escape_rune t +:+ s) =
  match unquote fuel s with Some (u, rest) => Some (t +:+ u, rest) | None => None end.
Proof.
  intros Hr. unfold escape_rune. case_bool_decide as H1; [subst; reflexivity|].
  case_bool_decide as H2; [subst; reflexivity|]. destruct (rune_head t Hr) as (c & t' & -> & Hc).
  specialize (Hr s). change (String c t' +:+ s) with (String c (t' +:+ s)) in *. cbn [unquote].
  rewrite (bool_decide_false (c = dquote)) by (intros ->; by apply Hc).
  rewrite (bool_decide_false (c = backslash)) by (intros ->; by apply Hc).
  rewrite (proj2 (N.ltb_ge (byte c) 32)), (proj2 (N.ltb_ge (byte c) 128)) by lia. by rewrite Hr.
Qed.

(** An escaped string is decoded to itself. *)
Lemma unquote_escape s : utf8 s -> forall n fuel r, (String.length s <= n)%nat -> (String.length s < fuel)%nat ->
  unquote fuel (escape n s +:+ String dquote r) = Some (s, r).
Proof.
  induction 1 as [|c s Hc Hs IH|t s Ht Hs IH]; intros n fuel r Hn Hf.
  - destruct n, fuel; try lia; reflexivity.
  - destruct n as [|n]; simpl in Hn, Hf; [lia|]. destruct fuel as [|fuel]; [lia|]. cbn [escape].
    rewrite (proj2 (N.ltb_lt (byte c) 128)) by done. rewrite app_string_assoc, unquote_ascii by done.
    by rewrite IH by lia.
  - destruct (rune_head t Ht) as (c & t' & Heq & Hc). rewrite app_string_length in Hn, Hf. rewrite Heq in Hn, Hf.
    simpl in Hn, Hf. destruct n as [|n]; [lia|]. destruct fuel as [|fuel]; [lia|].
    assert (escape (S n) (t +:+ s) = escape_rune t +:+ escape n s) as ->.
    { specialize (Ht s). rewrite Heq in *. change (String c t' +:+ s) with (String c (t' +:+ s)) in *. cbn [escape].
      rewrite (proj2 (N.ltb_ge (byte c) 128)) by done. by rewrite Ht. }
    rewrite app_string_assoc, unquote_rune by done. by rewrite IH by lia.
Qed.

Lemma marshal_string_inj s s' r r' : utf8 s -> utf8 s' -> marshal_string s +:+ r = marshal_string s' +:+ r' -> s = s' /\ r = r'.
Proof.
  intros Hs Hs' H. unfold marshal_string in H.
  assert (forall x y, String dquote (x +:+ String dquote EmptyString) +:+ y = String dquote (x +:+ String dquote y)) as Happ
    by (intros x y; exact (f_equal (String dquote) (app_string_assoc x (String dquote EmptyString) y))).
  rewrite !Happ in H. injection H as H.
  set (fuel := S (String.length s + String.length s')).
  pose proof (unquote_escape s Hs (String.length s) fuel r ltac:(lia) ltac:(lia)) as H1.
  pose proof (unquote_escape s' Hs' (String.length s') fuel r' ltac:(lia) ltac:(lia)) as H2.
  rewrite H in H1. rewrite H1 in H2. by injection H2 as -> ->.
Qed.

(** ** Well-formed values *)

Inductive wf : value -> Prop :=
  | wf_null : wf VNull
  | wf_bool b : wf (VBool b)
  | wf_num f : valid_double f -> wf (VNum f)
  | wf_str s : utf8 s -> wf (VStr s)
  | wf_arr items : (forall x, x ∈ items -> wf x) -> wf (VArr items)
  | wf_obj members : (forall k x, members !! k = Some x -> utf8 k) -> (forall k x, members !! k = Some x -> wf x) ->
      wf (VObj members).

(** What may follow a value inside an array or object. *)
Definition delim (r : string) : Prop :=
  match r with EmptyString => True | String c _ => c ∈ [","; "]"; "}"]%char end.

(** ** Lists of texts *)

Section Join.
Context {A : Type} (text : A -> string) (ok : A -> Prop) (close : ascii).
Hypothesis Hclose : close ∈ ["]"; "}"]%char.
Hypothesis Hhead : forall a, ok a -> exists c t, text a = String c t /\ c ∉ [","; "]"; "}"]%char.

Lemma join_cons x l r : join (map text (x :: l)) +:+ String close r =
  text x +:+ (match l with [] => String close r | _ => String "," (join (map text l) +:+ String close r) end).
Proof.
  destruct l as [|y l]; [done|]. cbn [map join]. rewrite !app_string_assoc. reflexivity.
Qed.

Lemma join_inj l : forall l' r r', (forall a, a ∈ l -> ok a) -> (forall a, a ∈ l' -> ok a) ->
  (forall a, a ∈ l -> forall b s s', ok b -> delim s -> delim s' -> text a +:+ s = text b +:+ s' -> a = b /\ s = s') ->
  join (map text l) +:+ String close r = join (map text l') +:+ String close r' -> l = l' /\ r = r'.
Proof.
  assert (forall a l s s', ok a -> join (map text (a :: l)) +:+ s <> String close s') as Hne.
  { intros a l1 s s' Ha He. destruct (Hhead a Ha) as (c & t & Hc & Hn). destruct l1; cbn [map join] in He;
      rewrite Hc in He; injection He as -> _; set_solver. }
  induction l as [|x l IH]; intros l' r r' Hl Hl' Hinj He.
  - destruct l' as [|y l']; [by injection He|]. symmetry in He. by apply Hne in He; [|apply Hl'; left].
  - destruct l' as [|y l']; [by apply Hne in He; [|apply Hl; left]|].
    rewrite !join_cons in He.
    assert (forall l0 r0, delim (match l0 with [] => String close r0 | _ => String "," (join (map text l0) +:+ String close r0) end))
      as Hdel by (intros [|? ?] ?; simpl; set_solver).
    destruct (Hinj x ltac:(by left) y _ _ (Hl' y ltac:(by left)) (Hdel l r) (Hdel l' r') He) as [-> Hrest].
    destruct l as [|x' l], l' as [|y' l'].
    + by injection Hrest as ->.
    + injection Hrest as -> _. set_solver.
    + injection Hrest as <- _. set_solver.
    + injection Hrest as Hrest. destruct (IH (y' :: l') r r') as [Hll ->]; [..|by rewrite Hll].
      * intros a Ha. apply Hl. by right.
      * intros a Ha. apply Hl'. by right.
      * intros a Ha. apply Hinj. by right.
      * exact Hrest.
Qed.
End Join.

(** ** The canonical text decides the value *)

Lemma range_keys rng {A} (f : A -> string) (m : gmap string A) : ranges rng -> rng (f <$> m) ≡ₚ (map_to_list m).*1.
Proof.
  intros Hr. rewrite (Hr _), map_to_list_fmap, <- list_fmap_compose. apply reflexive_eq.
  apply list_fmap_ext. by intros ? [].
Qed.

(** The order in which a map is enumerated does not matter. *)
Lemma canonicalize_range rng rng' v : ranges rng -> ranges rng' -> wf v -> canonicalize rng v = canonicalize rng' v.
Proof.
  intros Hr Hr'. induction 1 as [| | | |items _ IH|m _ _ IH]; [done..| |]; cbn [canonicalize].
  - do 3 f_equal. apply map_ext_in. intros x Hx%list_elem_of_In. by apply IH.
  - assert (canonicalize rng <$> m = canonicalize rng' <$> m) as -> by (apply map_fmap_ext; eauto).
    assert (merge_sort String.le (rng (canonicalize rng' <$> m)) = merge_sort String.le (rng' (canonicalize rng' <$> m))) as ->; [|done].
    apply (Sorted_unique String.le); [apply Sorted_merge_sort, _..|].
    rewrite !merge_sort_Permutation. by rewrite !range_keys.
Qed.

Section Injective.
Context (range : gmap string string -> list string) (Hrange : ranges range).

Definition member_text (kv : string * value) : string := marshal_string kv.1 +:+ ":" +:+ canonicalize range kv.2.

(** The members in the order of the text. *)
Lemma members_text (m : gmap string value) : exists l, l ≡ₚ map_to_list m /\
  canonicalize range (VObj m) = "{" +:+ join (map member_text l) +:+ "}".
Proof.
  cbn [canonicalize]. set (children := canonicalize range <$> m).
  assert (merge_sort String.le (range children) ≡ₚ map fst (map_to_list m)) as Hp
    by (rewrite merge_sort_Permutation; by apply range_keys).
  apply Permutation_map_inv in Hp as (l & Hk & Hl). exists l. split; [done|].
  do 3 f_equal. rewrite Hk, map_map. apply map_ext_in. intros [k v] Hin%list_elem_of_In. cbn [fst].
  unfold member_text. cbn [fst snd]. do 2 f_equal. rewrite <- Hl in Hin. apply elem_of_map_to_list in Hin.
  subst children. by rewrite lookup_fmap, Hin.
Qed.

(** The first byte tells the kind of a value. *)
Definition leads (v : value) (c : ascii) : Prop :=
  match v with
  | VNull => c = "n"%char
  | VBool b => c = if b then "t"%char else "f"%char
  | VNum _ => number_char c = true
  | VStr _ => c = dquote
  | VArr _ => c = "["%char
  | VObj _ => c = "{"%char
  end.

Lemma canonicalize_head v : wf v -> exists c t, canonicalize range v = String c t /\ leads v c.
Proof.
  destruct 1 as [|[]|f Hf| | |]; try by eexists _, _.
  destruct (marshal_float_chars f Hf) as [Hc Hne]. cbn [canonicalize]. destruct (marshal_float f) as [|c t]; [done|].
  exists c, t. split; [done|]. cbn in Hc. by apply andb_true_iff in Hc as [? _].
Qed.

Lemma leads_no_delim v c : leads v c -> c ∉ [","; "]"; "}"]%char.
Proof.
  intros Hl Hin. repeat (apply elem_of_cons in Hin as [->|Hin]); [..|by apply elem_of_nil in Hin];
    destruct v as [|[]| | | |]; done.
Qed.

Lemma marshal_float_inj f f' r r' : valid_double f -> valid_double f' -> delim r -> delim r' ->
  marshal_float f +:+ r = marshal_float f' +:+ r' -> f = f' /\ r = r'.
Proof.
  intros Hf Hf' Hr Hr' He.
  assert (forall s, delim s -> match s with String c _ => number_char c = false | EmptyString => True end) as Hd.
  { intros [|c s] Hin; [done|]. simpl in Hin.
    repeat (apply elem_of_cons in Hin as [->|Hin]; [reflexivity|]). by apply elem_of_nil in Hin. }
  pose proof (span_app number_char _ r (proj1 (marshal_float_chars f Hf)) (Hd r Hr)) as H1.
  pose proof (span_app number_char _ r' (proj1 (marshal_float_chars f' Hf')) (Hd r' Hr')) as H2.
  rewrite He, H2 in H1. injection H1 as H1 ->. split; [|done].
  pose proof (ParseFloat_marshal f Hf) as H3. rewrite <- H1, ParseFloat_marshal in H3 by done. by injection H3.
Qed.

Lemma member_text_inj kv : utf8 kv.1 ->
  (forall v' r r', wf v' -> delim r -> delim r' -> canonicalize range kv.2 +:+ r = canonicalize range v' +:+ r' -> kv.2 = v' /\ r = r') ->
  forall kv' r r', utf8 kv'.1 /\ wf kv'.2 -> delim r -> delim r' -> member_text kv +:+ r = member_text kv' +:+ r' -> kv = kv' /\ r = r'.
Proof.
  intros Hk IH [k' v'] r r' [Hk' Hv'] Hr Hr' He. unfold member_text in He. rewrite !app_string_assoc in He.
  apply marshal_string_inj in He as [Hkey He]; [|done..]. injection He as He.
  destruct (IH v' r r' Hv' Hr Hr' He) as [Hv ->]. destruct kv as [k v]. cbn [fst snd] in *. by subst.
Qed.

Lemma canonicalize_inj v : wf v -> forall v' r r', wf v' -> delim r -> delim r' ->
  canonicalize range v +:+ r = canonicalize range v' +:+ r' -> v = v' /\ r = r'.
Proof.
  intros Hv. induction Hv as [|[]|f Hf|s Hs|items Hitems IH|m Hk Hm IH]; intros v' r r' Hv' Hr Hr' He;
    match type of He with canonicalize range ?w +:+ _ = _ =>
      destruct (canonicalize_head w) as (c & t & Hc & Hl); [by constructor|] end;
    destruct (canonicalize_head v' Hv') as (c' & t' & Hc' & Hl');
    assert (c = c') as <- by (rewrite Hc, Hc' in He; by injection He);
    destruct Hv' as [|[]|f' Hf'|s' Hs'|items' Hitems'|m' Hk' Hm']; cbn [leads] in Hl, Hl'; subst; try done; clear Hc Hc' Hl'.
  - by apply app_string_inj in He.
  - by apply app_string_inj in He.
  - by apply app_string_inj in He.
  - by destruct (marshal_float_inj f f' r r') as [-> ->].
  - by destruct (marshal_string_inj s s' r r') as [-> ->].
  - cbn [canonicalize] in He. rewrite !app_string_assoc in He. injection He as He.
    destruct (join_inj (canonicalize range) wf "]" ltac:(set_solver)) with (l := items) (l' := items') (r := r) (r' := r')
      as [-> ->]; try done.
    intros a Ha. destruct (canonicalize_head a Ha) as (c & t1 & H1 & H2). eauto using leads_no_delim.
  - destruct (members_text m) as (l & Hp & Ht), (members_text m') as (l' & Hp' & Ht'). rewrite Ht, Ht' in He.
    rewrite !app_string_assoc in He. injection He as He.
    destruct (join_inj member_text (fun kv => utf8 kv.1 /\ wf kv.2) "}" ltac:(set_solver)) with (l := l) (l' := l') (r := r) (r' := r')
      as [-> ->]; [| | | |done|].
    + intros [k x] [Hu Hx]. unfold member_text, marshal_string. eexists _, _. split; [reflexivity|]. apply (bool_decide_unpack _). exact I.
    + intros [k x] Hin. rewrite Hp in Hin. apply elem_of_map_to_list in Hin. cbn. eauto.
    + intros [k x] Hin. rewrite Hp' in Hin. apply elem_of_map_to_list in Hin. cbn. eauto.
    + intros [k x] Hin. rewrite Hp in Hin. apply elem_of_map_to_list in Hin. apply member_text_inj; cbn; eauto.
    + split; [|done]. f_equal. apply map_to_list_inj. by rewrite <- Hp.
Qed.
End Injective.

(** ** Decoded payloads are well formed *)

Inductive text_ok : json -> Prop :=
  | text_null : text_ok JNull
  | text_bool b : text_ok (JBool b)
  | text_num lit : text_ok (JNum lit)
  | text_str s : utf8 s -> text_ok (JStr s)
  | text_arr items : (forall x, x ∈ items -> text_ok x) -> text_ok (JArr items)
  | text_obj members : (forall k x, (k, x) ∈ members -> utf8 k) -> (forall k x, (k, x) ∈ members -> text_ok x) ->
      text_ok (JObj members).

Lemma parse_text_ok fuel :
  (forall depth s v rest, parse_value fuel depth s = Some (v, rest) -> text_ok v) /\
  (forall depth first s ms rest, parse_members fuel depth first s = Some (ms, rest) ->
    forall k x, (k, x) ∈ ms -> utf8 k /\ text_ok x) /\
  (forall depth first s items rest, parse_items fuel depth first s = Some (items, rest) ->
    forall x, x ∈ items -> text_ok x).
Proof.
  induction fuel as [|fuel (IHv & IHm & IHi)]; [by split_and!|]. split_and!.
  - intros depth s v rest H. cbn [parse_value] in H. repeat case_match; simplify_eq; try constructor.
    + by eapply unquote_utf8.
    + intros k x Hin. by eapply IHm.
    + intros k x Hin. by eapply IHm.
    + intros x Hin. by eapply IHi.
  - intros depth first s ms rest H k x Hin. cbn [parse_members] in H. repeat case_match; simplify_eq;
      rewrite ?list_elem_of_singleton, ?elem_of_cons in Hin; (try by apply elem_of_nil in Hin);
      (destruct Hin as [[= -> ->]|Hin] || injection Hin as -> ->); eauto using unquote_utf8.
  - intros depth first s items rest H x Hin. cbn [parse_items] in H. repeat case_match; simplify_eq;
      rewrite ?list_elem_of_singleton, ?elem_of_cons in Hin; (try by apply elem_of_nil in Hin);
      try (destruct Hin as [->|Hin]); subst; eauto.
Qed.

Lemma decode_any_wf v : text_ok v -> forall val, decode_any v = Some val -> wf val.
Proof.
  induction 1 as [| | | |items _ IH|ms Hk _ IH]; intros val Hdec; cbn [decode_any] in Hdec.
  - simplify_eq. constructor.
  - simplify_eq. constructor.
  - apply fmap_Some in Hdec as (f & Hf & ->). constructor. by eapply ParseFloat_valid.
  - simplify_eq. by constructor.
  - apply fmap_Some in Hdec as (l & Hl & ->). constructor. revert l Hl. induction items as [|x items IHl]; intros l Hl y Hy.
    { simplify_eq. by apply elem_of_nil in Hy. }
    destruct (decode_any x) as [z|] eqn:Hx; [|done].
    match type of Hl with match ?t with _ => _ end = _ => destruct t as [zs|] eqn:Hzs; [|done] end. injection Hl as <-.
    apply elem_of_cons in Hy as [->|Hy]; [apply (IH x); [by left|done]|]. eapply IHl; [|done|done]. intros x' Hx'. apply IH. by right.
  - apply fmap_Some in Hdec as (m & Hm & ->).
    assert (forall acc : gmap string value, (forall k x, acc !! k = Some x -> utf8 k /\ wf x) ->
      (fix go (acc : gmap string value) l := match l with [] => Some acc | (k, x) :: l' =>
        match decode_any x with Some y => go (<[k := y]> acc) l' | None => None end end) acc ms = Some m ->
      forall k x, m !! k = Some x -> utf8 k /\ wf x) as Hgo.
    { clear Hm. induction ms as [|[k x] ms IHl]; intros acc Hacc Hm; [by simplify_eq|].
      destruct (decode_any x) as [y|] eqn:Hx; [|done]. eapply IHl; [..|exact Hm].
      - intros k' x' Hin. eapply Hk. by right.
      - intros k' x' Hin. eapply IH. by right.
      - intros k' x' [[<- <-]|[Hne Hl]]%lookup_insert_Some; [|by eauto].
        split; [eapply Hk; by left|eapply IH; [by left|done]]. }
    assert (forall k x, m !! k = Some x -> utf8 k /\ wf x) as Hall by (apply (Hgo ∅); [by intros ? ? ?%lookup_empty_Some|done]).
    constructor; intros; by eapply Hall.
Qed.

Lemma decoded_wf payload val : parse payload ≫= decode_any = Some val -> wf val.
Proof.
  intros H. apply bind_Some in H as (v & Hp & Hd). eapply decode_any_wf; [|exact Hd]. unfold parse in Hp.
  destruct (parse_value _ _ payload) as [[v' rest]|] eqn:Hv; [|done]. case_bool_decide; simplify_eq.
  by eapply (proj1 (parse_text_ok _)).
Qed.

(** ** Theorems *)

(** C13: The canonical text of a payload decides the value it denotes: whatever
    the order in which Go enumerates maps, two payloads have the same canonical
    text exactly when [json.Unmarshal] gives the same value for both, that is, when
    they differ in white space, in the order of members, in escapes of strings
    and in spellings of the same [float64] only. *)
Theorem canonical_text_decides range range' a b s s' :
  ranges range -> ranges range' ->
  canonicalizeJSON range a = Ok s -> canonicalizeJSON range' b = Ok s' ->
  s = s' <-> parse a ≫= decode_any = parse b ≫= decode_any.
Proof.
  intros Hr Hr' Ha Hb. unfold canonicalizeJSON in *.
  destruct (parse a ≫= decode_any) as [va|] eqn:Hva; [|done]. destruct (parse b ≫= decode_any) as [vb|] eqn:Hvb; [|done].
  injection Ha as <-. injection Hb as <-. pose proof (decoded_wf _ _ Hva) as Hwa. pose proof (decoded_wf _ _ Hvb) as Hwb.
  rewrite (canonicalize_range range' range vb) by done. split.
  - intros He. destruct (canonicalize_inj range Hr va Hwa vb EmptyString EmptyString Hwb) as [-> _]; [done..| |done].
    by rewrite !app_string_nil_r.
  - by intros [= ->].
Qed.

(** A consequence of decoding numbers to [float64]: integers beyond 2^53 that
    differ are the same payload, so that a key reused with another one of them
    is answered as a duplicate. *)
Theorem large_integers_collide :
  hash_payload some_range "9007199254740993" = hash_payload some_range "9007199254740992" /\
  is_Some (parse "9007199254740993") /\ parse "9007199254740993" <> parse "9007199254740992".
Proof. vm_compute. split; [reflexivity|]. split; [by eexists|done]. Qed.

(** ** Concrete payloads *)

Lemma some_range_ranges : ranges some_range.
Proof. by intros m. Qed.

Definition spelled_one : string := "{ " +:+ quoted "n" +:+ ": 1.0e1, " +:+ quoted "\u006d" +:+ ": [true] }".
Definition spelled_two : string := "{" +:+ quoted "m" +:+ ":[true]," +:+ quoted "n" +:+ ":10}".

Lemma canonical_text_decides_witness :
  canonicalizeJSON some_range spelled_one = Ok spelled_two /\
  (parse spelled_one ≫= decode_any) = (parse spelled_two ≫= decode_any).
Proof.
  split; [vm_compute; reflexivity|].
  apply (canonical_text_decides some_range some_range spelled_one spelled_two spelled_two spelled_two);
    [apply some_range_ranges..|vm_compute; reflexivity|vm_compute; reflexivity|reflexivity].
Defined.
