(* ===== verification/Resubmission.v ===== *)
(** Resubmission: the store with its own payload hash.

    The contracts of the store hold for every hash function. Here the hash is
    that of [HashPayload], and a resubmission under a used idempotency key is
    decided by the values the two payloads denote. *)

From S2P Require Import Prelude Dharatype GoTime Float64 GoStrconv GoJson Metrics Pg PgLogic TaskStore.
From S2P Require Import Lifecycle StoreRefine StoreTheorems StoreSpec StoreContracts.
From S2P Require Import PlaySession GoText GoDecimal GoFloat Sha256 HashPayload.

Lemma hash_payload_range range range' p : ranges range -> ranges range' -> hash_payload range p = hash_payload range' p.
Proof.
  intros Hr Hr'. unfold hash_payload, canonicalizeJSON. destruct (parse p ≫= decode_any) as [v|] eqn:Hv; [|done].
  by rewrite (canonicalize_range range range' v Hr Hr' (decoded_wf p v Hv)).
Qed.

(** Two texts with the same hash. *)
Definition collision (s s' : string) : Prop := s <> s' /\ Sum256 s = Sum256 s'.

(** C14: Submitting twice under one idempotency key compares payloads by the
    values they denote, however they are spelled and whatever order the two
    processes enumerate maps in: a payload with the same value answers "not
    created" with the id of the first task, one with another value is a conflict,
    unless the two canonical texts are a collision of SHA-256. Neither changes the
    database or the counters. *)
Theorem resubmission_by_value range range' o w task task' v v' k :
  ranges range -> ranges range' -> calm o -> idle w ->
  parse (t_Payload task) ≫= decode_any = Some v -> row_acceptable task = true ->
  parse (t_Payload task') ≫= decode_any = Some v' -> row_acceptable task' = true ->
  t_IdempotencyKey task = Some k -> t_IdempotencyKey task' = Some k -> t_Type task' = t_Type task ->
  tasks (w_db w) !! ev_uuid (o (S (w_next w))) = None -> no_row_with_key (w_db w) task ->
  exists t1 w1, @Create (canonical_hasher range) task o w = (Ok (true, t1), w1) /\
    (v = v' -> exists t2, t_ID t2 = t_ID t1 /\
       yields (@Create (canonical_hasher range') task') o w1 (Ok (false, t2)) (w_db w1) (w_metrics w1)) /\
    (v <> v' -> yields (@Create (canonical_hasher range') task') o w1 (Err ErrTaskConflict) (w_db w1) (w_metrics w1) \/
       collision (canonicalize range v) (canonicalize range v')).
Proof.
  intros Hr Hr' Hcalm Hidle Hv Hok Hv' Hok' Hk Hk' Ht Hid Hno.
  assert (@hashPayload (canonical_hasher range) (t_Payload task) = Ok (Sum256 (canonicalize range v))) as Hh
    by (simpl; unfold hash_payload, canonicalizeJSON; by rewrite Hv).
  assert (@hashPayload (canonical_hasher range') (t_Payload task') = Ok (Sum256 (canonicalize range v'))) as Hh'
    by (simpl; rewrite (hash_payload_range range' range) by done; unfold hash_payload, canonicalizeJSON; by rewrite Hv').
  destruct (@create_first (canonical_hasher range) o w task _ k Hcalm Hidle Hh Hok Hk Hid Hno)
    as (t1 & w1 & r & Hrun & Hidle1 & Hrow & Hsame & Hhash & Hid1).
  exists t1, w1. split; [done|]. rewrite <- Hk', <- Ht in Hsame.
  pose proof (@Create_existing (canonical_hasher range') o w1 task' _ Hcalm Hidle1 Hh' (r_id r) r Hok' Hrow Hsame) as Hex.
  rewrite Hhash in Hex. split.
  - intros <-. rewrite bool_decide_true in Hex by done. eexists. split; [|exact Hex]. by rewrite Hid1.
  - intros Hne. destruct (decide (Sum256 (canonicalize range v) = Sum256 (canonicalize range v'))) as [Heq|Hdiff].
    + right. split; [|done]. intros Htext. apply Hne.
      destruct (canonicalize_inj range Hr v (decoded_wf _ _ Hv) v' EmptyString EmptyString (decoded_wf _ _ Hv')) as [-> _];
        [done..| |done]. by rewrite !app_string_nil_r.
    + left. by rewrite bool_decide_false in Hex.
Qed.

Definition submission (payload : string) : TaskRow :=
  mkTaskRow uuid_nil "echo" payload EmptyString (Some "k") EmptyString 0 0 3 0
    None None None None None time_zero time_zero.

Definition decoded (payload : string) : value := default VNull (parse payload ≫= decode_any).

Lemma resubmission_by_value_witness :
  exists t1 w1, @Create (canonical_hasher some_range) (submission spelled_one) demo_oracle (world0 empty_db) = (Ok (true, t1), w1) /\
    exists t2, t_ID t2 = t_ID t1 /\
      yields (@Create (canonical_hasher some_range) (submission spelled_two)) demo_oracle w1 (Ok (false, t2)) (w_db w1) (w_metrics w1).
Proof.
  destruct (resubmission_by_value some_range some_range demo_oracle (world0 empty_db) (submission spelled_one)
    (submission spelled_two) (decoded spelled_one) (decoded spelled_two) "k") as (t1 & w1 & Hrun & Hsame & _);
    [apply some_range_ranges|apply some_range_ranges|apply demo_oracle_calm|apply world0_idle|vm_compute; reflexivity..|
     apply no_row_in_empty|].
  exists t1, w1. split; [done|]. apply Hsame. vm_compute. reflexivity.
Defined.
