(* ===== verification/PlayUuid.v ===== *)
(** PlayUuid: an instance of [UUIDText], the text format of RFC 9562, used for
    concrete runs of the playground; [Parse] reads the canonical form only. *)

From Stdlib Require Import Ascii.
From S2P Require Import Prelude Dharatype GoTime Float64 GoStrconv GoJson Metrics Pg PlaySession.
#[local] Open Scope N_scope.

(** The low [n] hexadecimal digits of [u]. *)
Fixpoint hexs (n : nat) (u : N) : string :=
  match n with
  | O => EmptyString
  | S n' => String (hex_char ((u / 16 ^ N.of_nat n') mod 16)) (hexs n' u)
  end.

Definition canonical_text (u : N) : string :=
  hexs 8 (u / 2 ^ 96) +:+ "-" +:+ hexs 4 (u / 2 ^ 80) +:+ "-" +:+ hexs 4 (u / 2 ^ 64) +:+ "-" +:+
  hexs 4 (u / 2 ^ 48) +:+ "-" +:+ hexs 12 u.

(** Reads [n] digits after [acc]. *)
Fixpoint take_hex (n : nat) (acc : N) (s : string) : option (N * string) :=
  match n, s with
  | O, _ => Some (acc, s)
  | S n', String c s' => match hex_digit c with Some d => take_hex n' (acc * 16 + d) s' | None => None end
  | S _, EmptyString => None
  end.

(** [n] digits and a dash. *)
Definition take_group (n : nat) (acc : N) (s : string) : option (N * string) :=
  match take_hex n acc s with
  | Some (a, s') => match strip_prefix "-" s' with Some s'' => Some (a, s'') | None => None end
  | None => None
  end.

Definition parse_text (s : string) : option N :=
  match take_group 8 0 s with
  | None => None
  | Some (a1, s1) =>
      match take_group 4 a1 s1 with
      | None => None
      | Some (a2, s2) =>
          match take_group 4 a2 s2 with
          | None => None
          | Some (a3, s3) =>
              match take_group 4 a3 s3 with
              | None => None
              | Some (a4, s4) =>
                  match take_hex 12 a4 s4 with
                  | Some (a, EmptyString) => if a <? 2 ^ 128 then Some a else None
                  | _ => None
                  end
              end
          end
      end
  end.

Lemma nibble_cases d : d < 16 -> d ∈ [0; 1; 2; 3; 4; 5; 6; 7; 8; 9; 10; 11; 12; 13; 14; 15].
Proof. intros H. rewrite !elem_of_cons. lia. Qed.

Lemma hex_digit_char d : d < 16 -> hex_digit (hex_char d) = Some d /\ uuid_char (hex_char d) = true.
Proof. intros H%nibble_cases. repeat (apply elem_of_cons in H as [->|H]; [by vm_compute|]). by apply elem_of_nil in H. Qed.

Lemma length_hexs n u : String.length (hexs n u) = n.
Proof. induction n as [|n IH]; simpl; [done|]. by rewrite IH. Qed.

Lemma chars_hexs n u : all_chars uuid_char (hexs n u) = true.
Proof.
  induction n as [|n IH]; cbn [hexs all_chars]; [done|]. rewrite IH.
  rewrite (proj2 (hex_digit_char _ (N.mod_lt _ 16 ltac:(lia)))). done.
Qed.

Lemma take_hexs n u acc rest :
  take_hex n acc (hexs n u +:+ rest) = Some (acc * 16 ^ N.of_nat n + u mod 16 ^ N.of_nat n, rest).
Proof.
  revert acc. induction n as [|n IH]; intros acc.
  - change (hexs 0 u +:+ rest) with rest. simpl. rewrite N.mod_1_r. f_equal. f_equal. lia.
  - change (hexs (S n) u +:+ rest) with (String (hex_char ((u / 16 ^ N.of_nat n) mod 16)) (hexs n u +:+ rest)).
    cbn [take_hex]. rewrite (proj1 (hex_digit_char _ (N.mod_lt _ 16 ltac:(lia)))), IH. f_equal. f_equal.
    rewrite Nat2N.inj_succ, N.pow_succ_r', (N.mul_comm 16), N.Div0.mod_mul_r. lia.
Qed.

(** A group extends the number read so far. *)
Lemma take_group_hexs n k u rest : 16 ^ N.of_nat n = 2 ^ k ->
  take_group n (u / 2 ^ k) (hexs n u +:+ "-" +:+ rest) = Some (u, rest).
Proof.
  intros Hk. unfold take_group. rewrite take_hexs, Hk. change ("-" +:+ rest) with (String "-"%char rest).
  simpl. f_equal. f_equal. pose proof (N.div_mod u (2 ^ k)). lia.
Qed.

Lemma div_div u a b : u / 2 ^ (a + b) = u / 2 ^ a / 2 ^ b.
Proof. by rewrite N.Div0.div_div, N.pow_add_r. Qed.

Lemma parse_canonical u : u < 2 ^ 128 -> parse_text (canonical_text u) = Some u.
Proof.
  intros Hu. unfold parse_text, canonical_text.
  assert (0 = u / 2 ^ 96 / 2 ^ 32) as Hz by (rewrite <- div_div, N.div_small; [done|exact Hu]).
  rewrite Hz, (take_group_hexs 8 32) by done.
  replace (u / 2 ^ 96) with (u / 2 ^ 80 / 2 ^ 16) by (by rewrite <- div_div). rewrite (take_group_hexs 4 16) by done.
  replace (u / 2 ^ 80) with (u / 2 ^ 64 / 2 ^ 16) by (by rewrite <- div_div). rewrite (take_group_hexs 4 16) by done.
  replace (u / 2 ^ 64) with (u / 2 ^ 48 / 2 ^ 16) by (by rewrite <- div_div). rewrite (take_group_hexs 4 16) by done.
  pose proof (take_hexs 12 u (u / 2 ^ 48) EmptyString) as H.
  replace (hexs 12 u +:+ EmptyString) with (hexs 12 u) in H by (by rewrite app_string_nil_r).
  rewrite H. change (16 ^ N.of_nat 12) with (2 ^ 48).
  replace (u / 2 ^ 48 * 2 ^ 48 + u mod 2 ^ 48) with u by (pose proof (N.div_mod u (2 ^ 48)); lia).
  by rewrite (proj2 (N.ltb_lt _ _) Hu).
Qed.

Lemma canonical_text_len u : String.length (canonical_text u) = 36%nat.
Proof. unfold canonical_text. rewrite !app_string_length, !length_hexs. done. Qed.

Lemma canonical_text_chars u : all_chars uuid_char (canonical_text u) = true.
Proof. unfold canonical_text. by rewrite !all_chars_app, !chars_hexs. Qed.

Lemma parse_text_range s u : parse_text s = Some u -> u < 2 ^ 128.
Proof. unfold parse_text. intros H. repeat case_match; simplify_eq. by apply N.ltb_lt. Qed.

Definition rfc_uuid : UUIDText :=
  mkUUIDText canonical_text parse_text canonical_text_len canonical_text_chars parse_text_range
    parse_canonical.
