(* ===== verification/RateLimiter.v ===== *)
(** RateLimiter: [internal/playground/ratelimit.go], the token bucket of the
    playground, in [float64] arithmetic.

    The map of buckets is a [gmap]; the zero [lastGC] is [None]; the clock
    reading of a call is an argument. [run] is a history of calls. Shown: no
    key gets more than its burst plus its rate times the time that passed, up to
    the rounding of [float64], if the rate refills the burst within the ten
    minutes after which an idle bucket is dropped; without that condition the
    bound fails. *)

From Stdlib Require Import QArith Lqa.
From S2P Require Import Prelude Float64 FloatQ Metrics.
Open Scope Z_scope.

Record bucket := mkBucket { b_tokens : float64; b_last : Z; b_lastSeen : Z }.

Record RateLimiter := mkRateLimiter {
  buckets : gmap string bucket;
  rate : float64;
  burst : float64;
  lastGC : option Z;
  gcWindow : Z
}.

Definition NewRateLimiter (perMinute burst : Z) : RateLimiter :=
  let perMinute := if perMinute <? 1 then 1 else perMinute in
  let burst := if burst <? 1 then 1 else burst in
  mkRateLimiter ∅ (fdiv (of_int perMinute) (of_int 60)) (of_int burst) None (10 * Minute).

Definition gcLocked (now : Z) (l : RateLimiter) : RateLimiter :=
  match lastGC l with
  | None => mkRateLimiter (buckets l) (rate l) (burst l) (Some now) (gcWindow l)
  | Some t =>
      if now - t <? gcWindow l then l
      else mkRateLimiter (filter (fun kb => now - b_lastSeen kb.2 <= gcWindow l) (buckets l))
             (rate l) (burst l) (Some now) (gcWindow l)
  end.

Definition fone : float64 := of_int 1.

(** The refill of a bucket at [now]; a clock that has not advanced refills nothing. *)
Definition refill (l : RateLimiter) (now : Z) (b : bucket) : bucket :=
  if 0 <? now - b_last b then
    let tokens := fadd (b_tokens b) (fmul (Seconds (now - b_last b)) (rate l)) in
    mkBucket (if fltb (burst l) tokens then burst l else tokens) now now
  else mkBucket (b_tokens b) (b_last b) now.

(** [Allow]: the decision, the wait, and the limiter it leaves behind. *)
Definition Allow (now : Z) (key : string) (l0 : RateLimiter) : (bool * Z) * RateLimiter :=
  let l := gcLocked now l0 in
  let b := match buckets l !! key with Some b => b | None => mkBucket (burst l) now 0 end in
  let b := refill l now b in
  let store b := mkRateLimiter (<[key := b]> (buckets l)) (rate l) (burst l) (lastGC l) (gcWindow l) in
  if fltb (b_tokens b) fone then
    let missing := fsub fone (b_tokens b) in
    let wait := to_int (fmul (fdiv missing (rate l)) (of_int Second)) in
    let wait := if wait <? Second then Second else wait in
    ((false, wait), store b)
  else ((true, 0), store (mkBucket (fsub (b_tokens b) fone) (b_last b) (b_lastSeen b))).

(** ** Histories *)

(** Calls [(key, now)] in order. *)
Fixpoint run (calls : list (string * Z)) (l : RateLimiter) : list (string * bool) * RateLimiter :=
  match calls with
  | [] => ([], l)
  | (key, now) :: calls' =>
      let '((ok, _), l1) := Allow now key l in
      let (rest, l2) := run calls' l1 in ((key, ok) :: rest, l2)
  end.

(** How many calls of [key] a history let through. *)
Definition granted (key : string) (log : list (string * bool)) : Z :=
  Z.of_nat (length (List.filter (fun d => bool_decide (d.1 = key) && d.2) log)).

(** The clock does not go back: every reading is at least [t] and its predecessor. *)
Fixpoint monotone (t : Z) (calls : list (string * Z)) : Prop :=
  match calls with [] => True | (_, now) :: calls' => t <= now /\ monotone now calls' end.
Definition end_time (t : Z) (calls : list (string * Z)) : Z := foldl (fun _ c => c.2) t calls.

(** ** The state of one key *)

Definition wf_float (f : float64) : Prop := 0 <= f_man f <= 2 ^ 53.

Definition wf (l : RateLimiter) : Prop :=
  0 <= f_man (rate l) /\ wf_float (burst l) /\
  map_Forall (fun _ b => wf_float (b_tokens b) /\ (value (b_tokens b) <= value (burst l))%Q) (buckets l).

Lemma wf_round m e : 0 <= m -> wf_float (round53 m e).
Proof. apply round53_man. Qed.

Lemma wf_of_int n : 0 <= n -> wf_float (of_int n).
Proof. apply round53_man. Qed.

Lemma wf_fadd a b : 0 <= f_man a -> 0 <= f_man b -> wf_float (fadd a b).
Proof.
  intros Ha Hb. apply wf_round.
  pose proof (scaled_nonneg (f_man a) (f_exp a - Z.min (f_exp a) (f_exp b)) Ha).
  pose proof (scaled_nonneg (f_man b) (f_exp b - Z.min (f_exp a) (f_exp b)) Hb). lia.
Qed.

Lemma wf_fmul a b : 0 <= f_man a -> 0 <= f_man b -> wf_float (fmul a b).
Proof. intros Ha Hb. apply wf_round. nia. Qed.

Lemma wf_fdiv a b : 0 <= f_man a -> 0 < f_man b -> wf_float (fdiv a b).
Proof.
  intros Ha Hb. apply wf_round.
  pose proof (Z.div_pos (f_man a * 2 ^ Z.max 0 (55 + Z.log2 (f_man b) - Z.log2 (f_man a))) (f_man b)
    (scaled_nonneg _ _ Ha) Hb). destruct (_ =? _); lia.
Qed.

Lemma wf_fsub a b : fleb b a = true -> wf_float (fsub a b).
Proof. intros H. apply wf_round. by apply fsub_man. Qed.

Lemma fltb_false a b : fltb a b = false -> fleb b a = true.
Proof. unfold fltb. by destruct (fleb b a). Qed.

Lemma wf_Seconds d : 0 <= d -> wf_float (Seconds d).
Proof.
  intros Hd. apply wf_fadd.
  - apply wf_of_int, Z.div_pos; [done|]. by vm_compute.
  - apply wf_fdiv; [|by vm_compute]. apply wf_of_int, Z.mod_pos_bound. by vm_compute.
Qed.

(** ** How much a bucket gains *)

Lemma ulp_pos : (0 < ulp)%Q.
Proof. reflexivity. Qed.

Lemma Seconds_le d : 0 <= d ->
  (value (Seconds d) * inject_Z Second <= inject_Z d * (1 + 6 * ulp))%Q.
Proof.
  intros Hd. unfold Seconds.
  assert (0 <= d / Second) as Hq by (apply Z.div_pos; [done|by vm_compute]).
  pose proof (Z.mod_pos_bound d Second ltac:(by vm_compute)) as Hm.
  set (q := d / Second) in *. set (m := d mod Second) in *.
  assert (inject_Z d == inject_Z Second * inject_Z q + inject_Z m)%Q as Hd'.
  { rewrite <- inject_Z_mult, <- inject_Z_plus. unfold q, m. rewrite <- Z.div_mod; [done|by vm_compute]. }
  pose proof (of_int_le q Hq) as H1. pose proof (of_int_le m (proj1 Hm)) as H2.
  pose proof (fdiv_le (of_int m) (of_int 1000000000) (proj1 (wf_of_int m (proj1 Hm))) ltac:(by vm_compute)) as H3.
  rewrite (of_int_exact 1000000000) in H3 by lia. fold Second in H3.
  assert (wf_float (fdiv (of_int m) (of_int 1000000000))) as Hwf
    by (apply wf_fdiv; [apply wf_of_int; lia|by vm_compute]).
  pose proof (fadd_le (of_int q) (fdiv (of_int m) (of_int 1000000000))
    (proj1 (wf_of_int q Hq)) (proj1 Hwf)) as H4.
  set (v := value (fadd _ _)) in *. set (dv := value (fdiv _ _)) in *.
  change (inject_Z 1000000000) with (inject_Z Second) in H3.
  assert (0 <= inject_Z q)%Q as Hq' by (change 0%Q with (inject_Z 0); by rewrite <- Zle_Qle).
  assert (0 <= inject_Z m)%Q as Hm' by (change 0%Q with (inject_Z 0); rewrite <- Zle_Qle; lia).
  set (S := inject_Z Second) in *. assert (0 < S)%Q as HS by reflexivity.
  apply (Qle_trans _ ((S * inject_Z q * (1 + ulp) + inject_Z m * (1 + ulp) * (1 + 3 * ulp)) * (1 + ulp))).
  - apply (Qle_trans _ ((value (of_int q) + dv) * (1 + ulp) * S)); [apply Qmult_le_compat_r; [done|by apply Qlt_le_weak]|].
    assert (0 <= 1 + ulp)%Q by done. assert (0 <= 1 + 3 * ulp)%Q by done.
    apply (Qle_trans _ ((value (of_int q) * S + dv * S) * (1 + ulp))); [apply Qle_lteq; right; ring|].
    apply Qmult_le_compat_r; [|done]. apply Qplus_le_compat.
    + apply (Qle_trans _ (inject_Z q * (1 + ulp) * S)); [apply Qmult_le_compat_r; [done|by apply Qlt_le_weak]|].
      apply Qle_lteq; right; ring.
    + eapply Qle_trans; [exact H3|]. by apply Qmult_le_compat_r.
  - rewrite Hd'. set (a := (S * inject_Z q)%Q).
    assert (0 <= a)%Q by (unfold a; apply Qmult_le_0_compat; [by apply Qlt_le_weak|done]).
    apply (Qle_trans _ ((a + inject_Z m) * ((1 + ulp) * (1 + 3 * ulp) * (1 + ulp)))).
    + assert (a * (1 + ulp) <= a * ((1 + ulp) * (1 + 3 * ulp)))%Q.
      { rewrite !(Qmult_comm a). by apply Qmult_le_compat_r. }
      apply (Qle_trans _ ((a * ((1 + ulp) * (1 + 3 * ulp)) + inject_Z m * (1 + ulp) * (1 + 3 * ulp)) * (1 + ulp))).
      * apply Qmult_le_compat_r; [|done]. apply Qplus_le_compat; [done|apply Qle_refl].
      * apply Qle_lteq; right; ring.
    + rewrite !(Qmult_comm (a + inject_Z m)). apply Qmult_le_compat_r; [done|].
      by apply (Qplus_le_compat 0 a 0).
Qed.

Section Bound.
Context (p b : Z) (Hp : 1 <= p) (Hb : 1 <= b < 2 ^ 53).

Local Abbreviation B := (inject_Z b).
(** Tokens per nanosecond. *)
Definition per_ns : Q := (inject_Z p / inject_Z Minute)%Q.

(** A limiter made by [NewRateLimiter p b]. *)
Definition made_by (l : RateLimiter) : Prop :=
  rate l = fdiv (of_int p) (of_int 60) /\ burst l = of_int b /\ gcWindow l = 10 * Minute.

Lemma NewRateLimiter_made_by : made_by (NewRateLimiter p b).
Proof. unfold NewRateLimiter, made_by. rewrite !(proj2 (Z.ltb_ge _ _)) by lia. done. Qed.

Lemma burst_value l : made_by l -> (value (burst l) == B)%Q.
Proof. intros (_ & -> & _). apply of_int_exact. lia. Qed.

Lemma made_by_rate l : made_by l -> wf_float (rate l) /\
  (value (rate l) * inject_Z 60 <= inject_Z p * (1 + 5 * ulp))%Q.
Proof.
  intros (-> & _ & _). assert (wf_float (of_int p)) as Hwf by (apply wf_of_int; lia). split.
  { apply wf_fdiv; [apply Hwf|by vm_compute]. }
  pose proof (fdiv_le (of_int p) (of_int 60) (proj1 Hwf) ltac:(by vm_compute)) as H.
  rewrite (of_int_exact 60) in H by lia. eapply Qle_trans; [exact H|].
  apply (Qle_trans _ (inject_Z p * (1 + ulp) * (1 + 3 * ulp))).
  - apply Qmult_le_compat_r; [apply of_int_le; lia|done].
  - rewrite <- Qmult_assoc, !(Qmult_comm (inject_Z p)). apply Qmult_le_compat_r; [done|].
    change 0%Q with (inject_Z 0). rewrite <- Zle_Qle. lia.
Qed.

(** What [d] nanoseconds add, before the sum is rounded. *)
Lemma gain_le l d : made_by l -> 0 <= d ->
  (value (fmul (Seconds d) (rate l)) <= per_ns * inject_Z d * (1 + 16 * ulp))%Q.
Proof.
  intros Hl Hd. destruct (made_by_rate l Hl) as [Hr Hrv]. pose proof (wf_Seconds d Hd) as Hs.
  eapply Qle_trans; [apply fmul_le; [apply Hs|apply Hr]|].
  pose proof (Seconds_le d Hd) as Hsv.
  assert (0 <= value (Seconds d))%Q by (apply value_nonneg, Hs).
  assert (0 <= value (rate l))%Q by (apply value_nonneg, Hr).
  assert (0 <= inject_Z d)%Q by (change 0%Q with (inject_Z 0); by rewrite <- Zle_Qle).
  assert (0 <= inject_Z p)%Q by (change 0%Q with (inject_Z 0); rewrite <- Zle_Qle; lia).
  assert (0 < inject_Z Second * inject_Z 60)%Q as HM by done.
  apply (Qmult_le_r _ _ _ HM).
  apply (Qle_trans _ ((inject_Z d * (1 + 6 * ulp)) * (inject_Z p * (1 + 5 * ulp)) * (1 + ulp))).
  - apply (Qle_trans _ ((value (Seconds d) * inject_Z Second) * (value (rate l) * inject_Z 60) * (1 + ulp))).
    { apply Qle_lteq; right; ring. }
    apply Qmult_le_compat_r; [|done]. apply Qmult_le_compat_nonneg; split; try done.
    + apply Qmult_le_0_compat; done.
    + apply Qmult_le_0_compat; done.
  - assert (per_ns * inject_Z d * (1 + 16 * ulp) * (inject_Z Second * inject_Z 60) ==
      inject_Z d * inject_Z p * (1 + 16 * ulp))%Q as ->.
    { unfold per_ns. rewrite <- inject_Z_mult. change (Second * 60) with Minute. field. done. }
    apply (Qle_trans _ (inject_Z d * inject_Z p * ((1 + 6 * ulp) * (1 + 5 * ulp) * (1 + ulp)))).
    { apply Qle_lteq; right; ring. }
    rewrite !(Qmult_comm (inject_Z d * inject_Z p)). apply Qmult_le_compat_r; [done|].
    by apply Qmult_le_0_compat.
Qed.

(** A refill adds at most the rate times the elapsed time, and one rounding. *)
Lemma refill_le l now bk : made_by l -> wf_float (b_tokens bk) -> (value (b_tokens bk) <= B)%Q ->
  b_last bk <= now ->
  wf_float (b_tokens (refill l now bk)) /\ (value (b_tokens (refill l now bk)) <= B)%Q /\
  b_last (refill l now bk) = now /\ b_lastSeen (refill l now bk) = now /\
  (value (b_tokens (refill l now bk)) <=
    value (b_tokens bk) + per_ns * inject_Z (now - b_last bk) * (1 + 16 * ulp) + ulp * B)%Q.
Proof.
  intros Hl Hwf HB Hle. pose proof (burst_value l Hl) as Hbv.
  assert (0 <= B)%Q as HB0 by (change 0%Q with (inject_Z 0); rewrite <- Zle_Qle; lia).
  unfold refill. destruct (Z.ltb_spec 0 (now - b_last bk)) as [Hd|Hd]; simpl.
  - destruct (made_by_rate l Hl) as [Hr _]. set (d := now - b_last bk) in *.
    pose proof (gain_le l d Hl ltac:(lia)) as Hg. pose proof (wf_Seconds d ltac:(lia)) as Hs.
    pose proof (wf_fmul _ _ (proj1 Hs) (proj1 Hr)) as Hm. set (g := fmul (Seconds d) (rate l)) in *.
    pose proof (fadd_le _ _ (proj1 Hwf) (proj1 Hm)) as Ha.
    pose proof (value_nonneg _ (proj1 Hwf)) as Ht0. pose proof (value_nonneg _ (proj1 Hm)) as Hg0.
    set (sum := fadd (b_tokens bk) g) in *. set (G := (per_ns * inject_Z d * (1 + 16 * ulp))%Q) in *.
    assert (0 <= ulp * B)%Q as HuB by (apply Qmult_le_0_compat; done).
    destruct (fltb (burst l) sum) eqn:Hcap.
    + destruct (Hl) as (_ & Hbl & _). split_and!; try done.
      * rewrite Hbl. apply wf_of_int. lia.
      * rewrite Hbv. apply Qle_refl.
      * apply fltb_value in Hcap. rewrite Hbv in *. destruct (Qlt_le_dec (value (b_tokens bk) + value g) B) as [Hx|Hx].
        -- pose proof ulp_pos. apply (Qle_trans _ (value sum)); [by apply Qlt_le_weak|]. nra.
        -- lra.
    + apply fltb_false, fleb_value in Hcap. rewrite Hbv in Hcap. split_and!; try done.
      * apply wf_fadd; [apply Hwf|apply Hm].
      * destruct (Qlt_le_dec (value (b_tokens bk) + value g) B) as [Hx|Hx].
        -- pose proof ulp_pos. nra.
        -- lra.
  - assert (now = b_last bk) as -> by lia. rewrite Z.sub_diag. split_and!; try done.
    change (inject_Z 0) with 0%Q. rewrite Qmult_0_r, Qmult_0_l, Qplus_0_r.
    assert (0 <= ulp * B)%Q as HuB by (apply Qmult_le_0_compat; done). lra.
Qed.

(** ** The invariant of a key *)

(** The most a key has earned by [t], [n] calls into a history that began at [t0]. *)
Definition earned (t0 t : Z) (n : nat) : Q :=
  (per_ns * inject_Z (t - t0) * (1 + 16 * ulp) + inject_Z (2 * Z.of_nat n) * ulp * B)%Q.

(** [g] calls of [key] were let through by time [t]: what was let through and
    what is left is at most the burst and what was earned. A key without a
    bucket has earned what it used. *)
Definition key_ok (key : string) (t0 t : Z) (n : nat) (g : Z) (l : RateLimiter) : Prop :=
  match buckets l !! key with
  | Some bk =>
      wf_float (b_tokens bk) /\ (value (b_tokens bk) <= B)%Q /\
      b_lastSeen bk = b_last bk /\ t0 <= b_last bk <= t /\
      (inject_Z g + value (b_tokens bk) <= B + earned t0 (b_last bk) n)%Q
  | None => (inject_Z g <= earned t0 t n)%Q
  end.

Lemma per_ns_nonneg : (0 <= per_ns)%Q.
Proof.
  unfold per_ns. apply Qle_shift_div_l; [done|]. rewrite Qmult_0_l. change 0%Q with (inject_Z 0).
  rewrite <- Zle_Qle. lia.
Qed.

Lemma earned_mono t0 t t' n : t <= t' -> (earned t0 t n <= earned t0 t' n)%Q.
Proof.
  intros H. unfold earned. pose proof per_ns_nonneg. apply Qplus_le_compat; [|apply Qle_refl].
  apply Qmult_le_compat_r; [|done]. rewrite !(Qmult_comm per_ns). apply Qmult_le_compat_r; [|done].
  rewrite <- Zle_Qle. lia.
Qed.

(** Ten minutes of idling earn the burst. *)
Lemma idle_earns t0 t t' n : b <= 10 * p -> t + 10 * Minute <= t' -> (B + earned t0 t n <= earned t0 t' n)%Q.
Proof.
  intros Hbp H. unfold earned. pose proof per_ns_nonneg as Hr.
  assert (B <= per_ns * inject_Z (10 * Minute))%Q as HB.
  { assert (per_ns * inject_Z (10 * Minute) == inject_Z (10 * p))%Q as ->.
    { unfold per_ns. rewrite !inject_Z_mult. change (inject_Z 10) with (10#1)%Q. field. done. }
    by rewrite <- Zle_Qle. }
  assert (per_ns * inject_Z (10 * Minute) + per_ns * inject_Z (t - t0) <= per_ns * inject_Z (t' - t0))%Q as Hsum.
  { rewrite <- Qmult_plus_distr_r, <- inject_Z_plus, !(Qmult_comm per_ns).
    apply Qmult_le_compat_r; [|done]. rewrite <- Zle_Qle. lia. }
  assert (0 <= per_ns * inject_Z (10 * Minute))%Q by (apply Qmult_le_0_compat; done).
  pose proof ulp_pos. set (E := (inject_Z (2 * Z.of_nat n) * ulp * B)%Q).
  set (x := (per_ns * inject_Z (10 * Minute))%Q) in *. set (y := (per_ns * inject_Z (t - t0))%Q) in *.
  set (z := (per_ns * inject_Z (t' - t0))%Q) in *.
  assert (x <= x * (1 + 16 * ulp))%Q by nra.
  assert ((x + y) * (1 + 16 * ulp) <= z * (1 + 16 * ulp))%Q by (apply Qmult_le_compat_r; done). lra.
Qed.

Lemma gcLocked_made_by now l : made_by l -> made_by (gcLocked now l).
Proof. unfold gcLocked, made_by. repeat case_match; done. Qed.

Lemma gcLocked_key_ok key t0 t n g l now : b <= 10 * p -> made_by l -> t <= now -> t0 <= t ->
  key_ok key t0 t n g l -> key_ok key t0 now n g (gcLocked now l).
Proof.
  intros Hbp Hl Ht H0 Hk. assert (key_ok key t0 now n g l) as Hk'.
  { unfold key_ok in *. destruct (buckets l !! key); [naive_solver lia|].
    eapply Qle_trans; [exact Hk|]. by apply earned_mono. }
  unfold gcLocked. destruct (lastGC l) as [tg|]; [|done]. destruct (_ <? _); [done|].
  unfold key_ok in *. simpl. rewrite map_lookup_filter. destruct (buckets l !! key) as [bk|]; [|done].
  simpl. destruct (decide (now - b_lastSeen bk <= gcWindow l)) as [Hkeep|Hdrop].
  - by rewrite option_guard_True.
  - rewrite option_guard_False by done. destruct Hk' as (Hwf & HB & Hseen & Hlast & Hle).
    destruct Hl as (_ & _ & Hw). rewrite Hw, Hseen in Hdrop.
    apply (Qle_trans _ (inject_Z g + value (b_tokens bk))).
    { pose proof (value_nonneg _ (proj1 Hwf)). lra. }
    eapply Qle_trans; [exact Hle|]. apply idle_earns; [done|lia].
Qed.

Lemma Allow_made_by now key l : made_by l -> made_by (Allow now key l).2.
Proof.
  intros Hl%(gcLocked_made_by now). unfold Allow. by destruct (fltb _ _).
Qed.

(** The bucket the call works on. *)
Lemma fresh_bucket_ok l : made_by l -> wf_float (burst l) /\ (value (burst l) <= B)%Q.
Proof.
  intros Hl. split; [|rewrite burst_value by done; apply Qle_refl].
  destruct Hl as (_ & -> & _). apply wf_of_int. lia.
Qed.

Lemma earned_call t0 t n : (earned t0 t (S n) == earned t0 t n + 2 * ulp * B)%Q.
Proof.
  unfold earned. replace (2 * Z.of_nat (S n)) with (2 * Z.of_nat n + 2) by lia.
  rewrite inject_Z_plus. change (inject_Z 2) with 2%Q. ring.
Qed.

Lemma earned_later t0 t t' n :
  (earned t0 t' n == earned t0 t n + per_ns * inject_Z (t' - t) * (1 + 16 * ulp))%Q.
Proof.
  unfold earned. replace (t' - t0) with (t - t0 + (t' - t)) by lia. rewrite inject_Z_plus. ring.
Qed.

(** A call for another key leaves the state of [key] alone. *)
Lemma Allow_other key key' t0 t n g l now : b <= 10 * p -> made_by l -> t0 <= t -> t <= now -> key' <> key ->
  key_ok key t0 t n g l -> key_ok key t0 now (S n) g (Allow now key' l).2.
Proof.
  intros Hbp Hl H0 Ht Hne Hk. apply (gcLocked_key_ok _ _ _ _ _ _ now) in Hk; [|done..].
  assert (buckets (Allow now key' l).2 !! key = buckets (gcLocked now l) !! key) as Hsame.
  { unfold Allow. destruct (fltb _ _); simpl; by rewrite lookup_insert_ne. }
  assert (0 <= 2 * ulp * B)%Q.
  { apply Qmult_le_0_compat; [done|]. change 0%Q with (inject_Z 0). rewrite <- Zle_Qle. lia. }
  unfold key_ok in *. rewrite Hsame. destruct (_ !! _) as [bk|].
  - destruct Hk as (? & ? & ? & ? & Hle). rewrite earned_call. split_and!; try done; try lia; lra.
  - rewrite earned_call. lra.
Qed.

(** A call for [key] is let through only against a token. *)
Lemma Allow_same key t0 t n g l now : b <= 10 * p -> made_by l -> t0 <= t -> t <= now ->
  key_ok key t0 t n g l ->
  key_ok key t0 now (S n) (g + (if (Allow now key l).1.1 then 1 else 0)) (Allow now key l).2.
Proof.
  intros Hbp Hl H0 Ht Hk. apply (gcLocked_key_ok _ _ _ _ _ _ now) in Hk; [|done..].
  apply (gcLocked_made_by now) in Hl. unfold Allow. set (l1 := gcLocked now l) in *.
  set (bk := match buckets l1 !! key with Some b => b | None => mkBucket (burst l1) now 0 end).
  assert (wf_float (b_tokens bk) /\ (value (b_tokens bk) <= B)%Q /\ t0 <= b_last bk <= now /\
    (inject_Z g + value (b_tokens bk) <= B + earned t0 (b_last bk) n)%Q) as (Hwf & HB & Hlast & Hle).
  { unfold key_ok, bk in *. destruct (buckets l1 !! key) as [bk'|]; simpl; [naive_solver|].
    destruct (fresh_bucket_ok l1 Hl) as [??]. split_and!; try done; try lia; lra. }
  destruct (refill_le l1 now bk Hl Hwf HB (proj2 Hlast)) as (Hwf' & HB' & Hl' & Hs' & Hgain).
  assert (0 <= ulp * B)%Q as HuB.
  { apply Qmult_le_0_compat; [done|]. change 0%Q with (inject_Z 0). rewrite <- Zle_Qle. lia. }
  assert (inject_Z g + value (b_tokens (refill l1 now bk)) <= B + earned t0 now n + ulp * B)%Q as Hpot
    by (rewrite (earned_later t0 (b_last bk) now); lra).
  destruct (fltb _ fone) eqn:Hdeny; unfold key_ok; simpl; rewrite lookup_insert_eq; cbn [b_tokens b_last b_lastSeen].
  - rewrite Hl', Hs', Z.add_0_r, earned_call. split_and!; try done; try lia; lra.
  - apply fltb_false in Hdeny. pose proof (fsub_le _ _ Hdeny) as Hsub. pose proof (wf_fsub _ _ Hdeny) as Hws.
    assert (value fone == 1)%Q as Hone by reflexivity. rewrite Hone in Hsub.
    apply fleb_value in Hdeny. rewrite Hone in Hdeny.
    assert (value (fsub (b_tokens (refill l1 now bk)) fone) <= value (b_tokens (refill l1 now bk)) - 1 + ulp * B)%Q as Hs.
    { pose proof ulp_pos. nra. }
    rewrite Hl', Hs', inject_Z_plus, earned_call. change (inject_Z 1) with 1%Q. split_and!; try done; try lia; [|lra].
    apply (Qle_trans _ (value (b_tokens (refill l1 now bk)) - 1 + ulp * B)); [done|].
    assert (ulp * B <= 1)%Q; [|lra]. unfold ulp.
    apply (Qle_trans _ (two_to (-53) * inject_Z (2 ^ 53))); [|discriminate].
    rewrite !(Qmult_comm (two_to (-53))). apply Qmult_le_compat_r; [rewrite <- Zle_Qle; lia|done].
Qed.

Lemma run_key_ok key t0 calls : b <= 10 * p -> forall t n g l, made_by l -> t0 <= t -> monotone t calls ->
  key_ok key t0 t n g l ->
  key_ok key t0 (end_time t calls) (n + length calls) (g + granted key (run calls l).1) (run calls l).2.
Proof.
  intros Hbp. induction calls as [|[k now] calls IH]; intros t n g l Hl H0 Hm Hk.
  { simpl. unfold granted. simpl. by rewrite Nat.add_0_r, Z.add_0_r. }
  destruct Hm as [Ht Hm]. simpl. unfold end_time. simpl. fold (end_time now calls).
  pose proof (Allow_made_by now k l Hl) as Hl1.
  destruct (Allow now k l) as [[ok wait] l1] eqn:HA. simpl in Hl1.
  destruct (run calls l1) as [rest l2] eqn:Hr. simpl.
  assert (key_ok key t0 now (S n) (g + (if decide (k = key) then if ok then 1 else 0 else 0)) l1) as Hk1.
  { destruct (decide (k = key)) as [->|Hne].
    - pose proof (Allow_same key t0 t n g l now Hbp Hl H0 Ht Hk) as H. by rewrite HA in H.
    - rewrite Z.add_0_r. pose proof (Allow_other key k t0 t n g l now Hbp Hl H0 Ht Hne Hk) as H. by rewrite HA in H. }
  apply (IH now (S n)) in Hk1; [|done|lia|done]. rewrite Hr in Hk1. simpl in Hk1.
  replace (n + S (length calls))%nat with (S n + length calls)%nat by lia.
  replace (granted key ((k, ok) :: rest))
    with ((if decide (k = key) then if ok then 1 else 0 else 0) + granted key rest); [by rewrite Z.add_assoc|].
  unfold granted. simpl. destruct (decide (k = key)) as [->|Hne]; [rewrite bool_decide_true by done|rewrite bool_decide_false by done];
    simpl; destruct ok; simpl; lia.
Qed.

Lemma earned_start t0 : (earned t0 t0 0 == 0)%Q.
Proof.
  unfold earned. rewrite Z.sub_diag. change (2 * Z.of_nat 0) with 0. change (inject_Z 0) with 0%Q. ring.
Qed.

(** The bound in Q: what was let through is what was earned and the burst. *)
Lemma run_granted key t0 calls : b <= 10 * p -> monotone t0 calls ->
  (inject_Z (granted key (run calls (NewRateLimiter p b)).1) <=
   B + earned t0 (end_time t0 calls) (length calls))%Q.
Proof.
  intros Hbp Hm. pose proof (run_key_ok key t0 calls Hbp t0 0 0 (NewRateLimiter p b)
    NewRateLimiter_made_by ltac:(lia) Hm) as H. rewrite Z.add_0_l in H.
  assert (0 <= B)%Q by (change 0%Q with (inject_Z 0); rewrite <- Zle_Qle; lia).
  unfold key_ok in H. rewrite Nat.add_0_l in H. set (l := (run calls _).2) in *. set (g := granted _ _) in *.
  assert (match buckets l !! key with
    | Some bk => wf_float (b_tokens bk) /\ (value (b_tokens bk) <= B)%Q /\ b_lastSeen bk = b_last bk /\
        t0 <= b_last bk <= end_time t0 calls /\
        (inject_Z g + value (b_tokens bk) <= B + earned t0 (b_last bk) (length calls))%Q
    | None => (inject_Z g <= earned t0 (end_time t0 calls) (length calls))%Q
    end) as Hk.
  { apply H. cbn [NewRateLimiter buckets]. rewrite lookup_empty, earned_start. apply Qle_refl. }
  destruct (buckets l !! key) as [bk|].
  - destruct Hk as (Hwf & _ & _ & Hlast & Hle). pose proof (value_nonneg _ (proj1 Hwf)).
    pose proof (earned_mono t0 (b_last bk) (end_time t0 calls) (length calls) ltac:(lia)). lra.
  - lra.
Qed.

Lemma end_time_ge calls : forall t, monotone t calls -> t <= end_time t calls.
Proof.
  induction calls as [|[k now] calls IH]; intros t Hm; [done|]. destruct Hm as [Ht Hm].
  apply IH in Hm. unfold end_time in *. simpl. lia.
Qed.

Lemma run_granted_Z key t0 calls : b <= 10 * p -> monotone t0 calls ->
  granted key (run calls (NewRateLimiter p b)).1 * (2 ^ 53 * Minute) <=
  (b * Minute + p * (end_time t0 calls - t0)) * (2 ^ 53 + 2 * Z.of_nat (length calls) + 16).
Proof.
  intros Hbp Hm. pose proof (run_granted key t0 calls Hbp Hm) as H.
  pose proof (end_time_ge calls t0 Hm) as Ht. set (g := granted _ _) in *.
  set (T := end_time t0 calls) in *. set (n := length calls) in *.
  rewrite Zle_Qle. rewrite !inject_Z_mult, !inject_Z_plus, !inject_Z_mult.
  set (K := inject_Z (2 ^ 53)). set (Mn := inject_Z Minute).
  apply (Qle_trans _ ((B + earned t0 T n) * (K * Mn))).
  { apply Qmult_le_compat_r; [done|]. discriminate. }
  unfold earned, per_ns. fold Mn.
  assert (ulp == 1 / K)%Q as -> by reflexivity.
  assert (0 <= B)%Q by (change 0%Q with (inject_Z 0); rewrite <- Zle_Qle; lia).
  assert (0 <= inject_Z p)%Q by (change 0%Q with (inject_Z 0); rewrite <- Zle_Qle; lia).
  assert (0 <= inject_Z (T - t0))%Q by (change 0%Q with (inject_Z 0); rewrite <- Zle_Qle; lia).
  assert (0 <= inject_Z (Z.of_nat n))%Q by (change 0%Q with (inject_Z 0); rewrite <- Zle_Qle; lia).
  rewrite inject_Z_mult. set (N := inject_Z (Z.of_nat n)) in *. set (D := inject_Z (T - t0)) in *.
  set (P := inject_Z p) in *. change (inject_Z 2) with 2%Q. change (inject_Z 16) with (16 # 1)%Q.
  assert (~ Mn == 0)%Q by discriminate. assert (~ K == 0)%Q by discriminate.
  assert ((B + (P / Mn * D * (1 + 16 * (1 / K)) + 2 * N * (1 / K) * B)) * (K * Mn) ==
    B * Mn * (K + 2 * N) + P * D * (K + (16 # 1)))%Q as -> by (field; done).
  assert (0 <= P * D)%Q by (apply Qmult_le_0_compat; done).
  assert (0 <= B * Mn)%Q by (apply Qmult_le_0_compat; [done|discriminate]).
  assert (0 <= P * D * N)%Q by (apply Qmult_le_0_compat; done). nra.
Qed.
End Bound.

(** ** Theorems *)

(** C32: In every history of calls with a clock that does not go back, a key
    gets at most its burst plus its rate times the time that passed. The factor
    1 + (2n + 16) / 2^53 for [n] calls covers the rounding of [float64]. The
    burst must refill within the ten minutes after which an idle bucket is
    dropped. *)
Theorem limiter_bound perMinute burst key t0 calls :
  1 <= perMinute -> 1 <= burst < 2 ^ 53 -> burst <= 10 * perMinute -> monotone t0 calls ->
  granted key (run calls (NewRateLimiter perMinute burst)).1 * (2 ^ 53 * Minute) <=
  (burst * Minute + perMinute * (end_time t0 calls - t0)) * (2 ^ 53 + 2 * Z.of_nat (length calls) + 16).
Proof. intros Hp Hb Hbp Hm. by apply run_granted_Z. Qed.

(** Otherwise an idle key is given its whole burst back early: with one request
    a minute and a burst of 100, a key gets 200 requests in ten minutes, not 110. *)
Theorem dropped_bucket_refills_early :
  let calls := repeat ("a", 0) 100 ++ repeat ("a", 10 * Minute + 1) 100 in
  monotone 0 calls /\ granted "a" (run calls (NewRateLimiter 1 100)).1 = 200.
Proof. split; [|vm_compute; reflexivity]. repeat split; done. Qed.

(** Fifteen requests in a second under the default limits: ten get through. *)
Lemma limiter_bound_witness :
  let calls := repeat ("a", 0) 15 in
  granted "a" (run calls (NewRateLimiter 30 10)).1 = 10 /\
  granted "a" (run calls (NewRateLimiter 30 10)).1 * (2 ^ 53 * Minute) <=
    (10 * Minute + 30 * (end_time 0 calls - 0)) * (2 ^ 53 + 2 * Z.of_nat (length calls) + 16).
Proof.
  split; [vm_compute; reflexivity|]. apply limiter_bound; [lia..|]. repeat split; done.
Defined.
