(* ===== verification/PlayStore.v ===== *)
(** PlayStore: the playground's own queries, [internal/playground/store.go]:
    read-only projections and the retention delete.

    The tables are those of [Pg]; the playground runs on a schema of its own.
    [DeleteOlderThan] is a transaction whose statements look at rows it has not
    locked, so other sessions commit between them: [tx_exec_rc] and [Commit_rc]
    are [tx_exec] and [Commit] with interference at every call. *)

From Stdlib Require Import Ascii.
From S2P Require Import Prelude Dharatype GoTime GoStrconv Float64 GoJson Metrics Pg PgLogic TaskStore.
From S2P Require Import Lifecycle StoreRefine StoreTheorems StoreSpec StoreContracts PlaySession.
Open Scope dhara_scope.

(** ** Records *)

Record StoredTask := mkStoredTask {
  st_ID : uuid;
  st_Type : string;
  st_Payload : string;
  st_IdempotencyKey : option string;
  st_Status : string;
  st_Priority : Z;
  st_Attempts : Z;
  st_MaxRetries : Z;
  st_RunAt : Z;
  st_StartedAt : option Z;
  st_CompletedAt : option Z;
  st_LockedAt : option Z;
  st_LockedBy : option string;
  st_LastError : option string;
  st_CreatedAt : Z;
  st_UpdatedAt : Z
}.

Record TaskView := mkTaskView {
  tv_ID : uuid;
  tv_Type : string;
  tv_Status : string;
  tv_Priority : Z;
  tv_Attempts : Z;
  tv_MaxRetries : Z;
  tv_RunAt : Z;
  tv_StartedAt : option Z;
  tv_CompletedAt : option Z;
  tv_LockedBy : option string;
  tv_LockedAt : option Z;
  tv_LastError : option string;
  tv_CreatedAt : Z;
  tv_UpdatedAt : Z;
  tv_DurationMS : option Z;
  tv_IdempotencyKey : option string
}.

Record TaskLog := mkTaskLog { tl_Status : string; tl_Message : string; tl_CreatedAt : Z }.

Record WorkerLease := mkWorkerLease {
  wl_WorkerID : string;
  wl_TaskID : uuid;
  wl_TaskType : string;
  wl_Attempts : Z;
  wl_LockedAt : option Z
}.

Record Throughput := mkThroughput {
  EnqueuedLastMinute : Z;
  CompletedLastMinute : Z;
  DeadLastMinute : Z
}.

(** [Duration.Milliseconds] truncates toward zero. *)
Definition Milliseconds (d : Z) : Z := Z.quot d Millisecond.

Definition toTaskView (t : StoredTask) (now : Z) : TaskView :=
  let duration :=
    match st_StartedAt t with
    | None => None
    | Some started =>
        if bool_decide (st_Status t ∈ ["COMPLETED"; "DEAD"; "CANCELED"]) then
          match st_CompletedAt t with
          | Some completed => Some (Milliseconds (completed - started))
          | None => None
          end
        else if bool_decide (st_Status t = "RUNNING") then Some (Milliseconds (now - started))
        else None
    end in
  mkTaskView (st_ID t) (st_Type t) (st_Status t) (st_Priority t) (st_Attempts t) (st_MaxRetries t)
    (st_RunAt t) (st_StartedAt t) (st_CompletedAt t) (st_LockedBy t) (st_LockedAt t) (st_LastError t)
    (st_CreatedAt t) (st_UpdatedAt t) duration (st_IdempotencyKey t).

(** ** Statements *)

(** The column list with [payload]; [ListRecent] leaves it out. *)
Definition scan_stored (payload : string) (r : Row) : StoredTask :=
  mkStoredTask (r_id r) (r_type r) payload (r_idempotency_key r) (status_text (r_status r))
    (r_priority r) (r_attempts r) (r_max_retries r) (r_run_at r) (r_started_at r) (r_completed_at r)
    (r_locked_at r) (r_locked_by r) (r_last_error r) (r_created_at r) (r_updated_at r).

(** The rest of a text after its first character. *)
Fixpoint skip_continuation (s : string) : string :=
  match s with
  | String c s' => if utf8_continuation c then skip_continuation s' else s
  | EmptyString => EmptyString
  end.

(** SQL's [text LIKE pattern], with [%], [_] and the backslash. *)
Fixpoint like (pattern : string) : string -> bool :=
  match pattern with
  | EmptyString => fun s => bool_decide (s = EmptyString)
  | String c p =>
      if bool_decide (c = "%"%char) then
        fix any (s : string) : bool :=
          like p s || match s with String _ s' => any s' | EmptyString => false end
      else if bool_decide (c = "_"%char) then
        fun s => match s with String _ s' => like p (skip_continuation s') | EmptyString => false end
      else if bool_decide (c = backslash) then
        match p with
        | String e p' => fun s => match s with String a s' => bool_decide (a = e) && like p' s' | EmptyString => false end
        | EmptyString => fun _ => false
        end
      else fun s => match s with String a s' => bool_decide (a = c) && like p s' | EmptyString => false end
  end.

(** [$1 = '' OR idempotency_key LIKE 'demo:' || $1 || ':%'] (NULL is no match)
    [AND ($2 = '' OR status = $2)]. *)
Definition recent (session status : string) (r : Row) : bool :=
  (bool_decide (session = EmptyString) ||
   match r_idempotency_key r with
   | Some k => like ("demo:" +:+ session +:+ ":%") k
   | None => false
   end) &&
  (bool_decide (status = EmptyString) || bool_decide (status_text (r_status r) = status)).

Definition sql_list_recent (session status : string) (limit : Z) : Stmt (list Row) := fun _ _ db =>
  Ok (take (Z.to_nat limit) (merge_sort newer (rows_where (recent session status) (tasks db))), []).

(** [ORDER BY locked_at DESC NULLS LAST]. *)
Definition lease_before (r1 r2 : Row) : Prop :=
  match r_locked_at r1, r_locked_at r2 with
  | Some t1, Some t2 => t2 <= t1
  | None, Some _ => False
  | _, None => True
  end.
#[global] Instance lease_before_dec : RelDecision lease_before.
Proof. intros r1 r2. unfold lease_before. repeat case_match; apply _. Defined.

Definition sql_list_running (limit : Z) : Stmt (list Row) := fun _ _ db =>
  Ok (take (Z.to_nat limit) (merge_sort lease_before
        (rows_where (fun r => has_status RUNNING r && bool_decide (is_Some (r_locked_by r))) (tasks db))), []).

(** [ORDER BY created_at ASC, id ASC]: the index is the [BIGSERIAL] id. *)
Definition log_before (l1 l2 : nat * LogRow) : Prop :=
  l_created_at l1.2 < l_created_at l2.2 \/
  (l_created_at l1.2 = l_created_at l2.2 /\ (l1.1 <= l2.1)%nat).
#[global] Instance log_before_dec : RelDecision log_before.
Proof. intros l1 l2. unfold log_before. apply _. Defined.

Definition sql_task_logs (id : uuid) (limit : Z) : Stmt (list LogRow) := fun _ _ db =>
  Ok (map snd (take (Z.to_nat limit) (merge_sort log_before
        (List.filter (fun l => bool_decide (l_task_id l.2 = id)) (imap pair (task_logs db))))), []).

Definition since (now : Z) (t : option Z) : bool :=
  match t with Some t => now - 60 * Second <? t | None => false end.

Definition sql_throughput : Stmt (option Throughput) := fun now _ db =>
  Ok (Some (mkThroughput
        (count_rows (fun r => since now (Some (r_created_at r))) db)
        (count_rows (fun r => since now (r_completed_at r)) db)
        (count_rows (fun r => has_status DEAD r && since now (Some (r_updated_at r))) db)), []).

(** ** Read operations *)

(** [toTaskView(t, time.Now())] for each row. *)
Fixpoint views (rows : list Row) : M (list TaskView) :=
  match rows with
  | [] => ret []
  | r :: rest =>
      now <- time_Now;
      vs <- views rest;
      ret (toTaskView (scan_stored EmptyString r) now :: vs)
  end.

Definition ListRecent (session status : string) (limit : Z) : M (res (list TaskView)) :=
  let limit := if limit <? 1 then 100 else limit in
  let limit := if 200 <? limit then 200 else limit in
  rows <-? db_exec (sql_list_recent session status limit) or "list recent tasks";
  out <- views rows;
  _ <-? db_fetch rows or "iterate recent tasks";
  ret (Ok out).

Definition lease (r : Row) : WorkerLease :=
  mkWorkerLease (default EmptyString (r_locked_by r)) (r_id r) (r_type r) (r_attempts r) (r_locked_at r).

Definition ListRunning (limit : Z) : M (res (list WorkerLease)) :=
  let limit := if limit <? 1 then 20 else limit in
  rows <-? db_exec (sql_list_running limit) or "list running tasks";
  rows <-? db_fetch rows or "iterate running tasks";
  ret (Ok (map lease rows)).

(** [Ok None] is Go's [(nil, nil)]. *)
Definition GetStoredTask (id : uuid) : M (res (option StoredTask)) :=
  r <- one_row (db_exec (sql_get_by_id id));
  match r with
  | Ok r => ret (Ok (Some (scan_stored (r_payload r) r)))
  | Err e =>
      if errors_Is e ErrNoRows then ret (Ok None) else ret (Err (Wrapped "get stored task" e))
  end.

Definition TaskLogs (id : uuid) (limit : Z) : M (res (list TaskLog)) :=
  let limit := if (limit <? 1) || (200 <? limit) then 100 else limit in
  rows <-? db_exec (sql_task_logs id limit) or "list task logs";
  rows <-? db_fetch rows or "iterate task logs";
  ret (Ok (map (fun l => mkTaskLog (status_text (l_status l)) (l_message l) (l_created_at l)) rows)).

Definition get_Throughput : M (res Throughput) :=
  t <-? one_row (db_exec sql_throughput) or "throughput query";
  ret (Ok t).

(** ** Retention *)

Definition tick_rc (o : Oracle) (w : World) : World :=
  mkWorld (ev_env (o (w_next w)) (w_db w)) (w_tx w) (w_metrics w) (S (w_next w)).

Definition tx_exec_rc {A} (s : Stmt A) : M (res A) := fun o w =>
  let e := o (w_next w) in
  let w1 := tick_rc o w in
  match w_tx w1 with
  | None => (Err (DriverError "tx is closed"), w1)
  | Some tx =>
      if tx_aborted tx then
        (Err (DriverError "current transaction is aborted, commands ignored until end of transaction block"), w1)
      else
        let abort := set_tx (Some (mkTx (tx_now tx) (tx_writes tx) true)) w1 in
        match ev_fault e with
        | FailBefore m | FailAfter m => (Err (DriverError m), abort)
        | NoFault =>
            match s (tx_now tx) e (apply_writes (tx_writes tx) (w_db w1)) with
            | Err er => (Err er, abort)
            | Ok (a, ws) => (Ok a, set_tx (Some (mkTx (tx_now tx) (tx_writes tx ++ ws) false)) w1)
            end
        end
  end.

Definition Commit_rc : M (res unit) := fun o w =>
  let e := o (w_next w) in
  let w1 := tick_rc o w in
  match w_tx w1 with
  | None => (Err (DriverError "tx is closed"), w1)
  | Some tx =>
      if tx_aborted tx then
        (Err (DriverError "commit unexpectedly resulted in rollback"), set_tx None w1)
      else
        match ev_fault e with
        | NoFault => (Ok tt, set_tx None (set_db (apply_writes (tx_writes tx) (w_db w1)) w1))
        | FailBefore m => (Err (DriverError m), set_tx None w1)
        | FailAfter m =>
            (Err (DriverError m), set_tx None (set_db (apply_writes (tx_writes tx) (w_db w1)) w1))
        end
  end.

(** [created_at < $1 AND status <> 'RUNNING']. *)
Definition expired (cutoff : Z) (r : Row) : bool :=
  (r_created_at r <? cutoff) && negb (has_status RUNNING r).
Definition oldTasks (cutoff : Z) (db : DB) : list Row := rows_where (expired cutoff) (tasks db).

Definition sql_delete_letters (cutoff : Z) : Stmt unit := fun _ _ db =>
  Ok (tt, map (fun r => DelOldLetters (r_id r) (dead_count (r_id r) db)) (oldTasks cutoff db)).

Definition sql_delete_logs (cutoff : Z) : Stmt unit := fun _ _ db =>
  Ok (tt, map (fun r => DelLogs (r_id r) (length (history (r_id r) db))) (oldTasks cutoff db)).

(** A task that is still referenced cannot be deleted. *)
Definition referenced (db : DB) (r : Row) : bool :=
  negb (bool_decide (history (r_id r) db = []) && (dead_count (r_id r) db =? 0)%nat).

Definition sql_delete_tasks (cutoff : Z) : Stmt Z := fun _ _ db =>
  let old := oldTasks cutoff db in
  if existsb (referenced db) old then
    sql_error "update or delete on table tasks violates foreign key constraint"
  else Ok (Z.of_nat (length old), map (fun r => DelTask (r_id r)) old).

Definition DeleteOlderThan (cutoff : Z) : M (res Z) :=
  _ <-? Begin or "begin cleanup tx";
  defer_rollback (
    _ <-? tx_exec_rc (sql_delete_letters cutoff) or "delete old dead letters";
    _ <-? tx_exec_rc (sql_delete_logs cutoff) or "delete old task logs";
    n <-? tx_exec_rc (sql_delete_tasks cutoff) or "delete old tasks";
    _ <-? Commit_rc or "commit cleanup";
    ret (Ok n)).

(** ** What retention removes *)

(** The view of a task after a cleanup. *)
Definition cleaned_view (cutoff : Z) (v : Lifecycle.TaskView) : Lifecycle.TaskView :=
  match v_row v with
  | Some r => if expired cutoff r then mkView None [] 0 else v
  | None => v
  end.

(** A write that leaves the rows of [tasks] alone. *)
Definition spares_tasks (w : Write) : Prop :=
  match w with PutTask _ | DelTask _ => False | _ => True end.

Lemma tasks_no_task_write ws db :
  Forall spares_tasks ws ->
  tasks (apply_writes ws db) = tasks db.
Proof.
  intros H. revert db. induction H as [|w ws Hw _ IH]; intros db; [done|]. simpl. rewrite IH.
  by destruct w.
Qed.

Lemma oldTasks_same ws cutoff db :
  Forall spares_tasks ws ->
  oldTasks cutoff (apply_writes ws db) = oldTasks cutoff db.
Proof. intros H. unfold oldTasks. by rewrite tasks_no_task_write. Qed.

(** One write per expired row, seen from any task. *)
Lemma view_old_writes (g : Row -> Write) cutoff db db' id :
  Inv db -> (forall r, about (g r) = r_id r) ->
  view id (apply_writes (map g (oldTasks cutoff db)) db') =
  match tasks db !! id with
  | Some r => if expired cutoff r then view_write id (view id db') (g r) else view id db'
  | None => view id db'
  end.
Proof.
  intros HI Hg. rewrite view_apply_writes.
  assert (forall r, r ∈ oldTasks cutoff db -> expired cutoff r = true /\ tasks db !! r_id r = Some r) as Hold.
  { intros r (He & k & Hk)%elem_of_rows_where. split; [done|]. by rewrite (Inv_id _ _ _ HI Hk). }
  destruct (tasks db !! id) as [r|] eqn:Hr; [destruct (expired cutoff r) eqn:He|].
  - rewrite <- (Inv_id _ _ _ HI Hr). apply foldl_view_one; [done|by apply rows_where_NoDup|].
    apply elem_of_rows_where. eauto.
  - apply foldl_view_none; [done|]. intros r' [He' Hr']%Hold <-. congruence.
  - apply foldl_view_none; [done|]. intros r' [He' Hr']%Hold <-. congruence.
Qed.

Lemma tx_exec_rc_calm {A} (s : Stmt A) o db now ws met n : calm o ->
  tx_exec_rc s o (mkWorld db (Some (mkTx now ws false)) met n) =
  match s now (o n) (apply_writes ws db) with
  | Ok (a, ws') => (Ok a, mkWorld db (Some (mkTx now (ws ++ ws') false)) met (S n))
  | Err e => (Err e, mkWorld db (Some (mkTx now ws true)) met (S n))
  end.
Proof.
  intros [Hf Hn]. unfold tx_exec_rc, tick_rc. simpl. rewrite Hn, Hf.
  by destruct (s _ _ _) as [[a ws']|e].
Qed.

Lemma Commit_rc_calm o db now ws met n : calm o ->
  Commit_rc o (mkWorld db (Some (mkTx now ws false)) met n) =
  (Ok tt, mkWorld (apply_writes ws db) None met (S n)).
Proof. intros [Hf Hn]. unfold Commit_rc, tick_rc. simpl. by rewrite Hn, Hf. Qed.

Section Cleanup.
Context (cutoff : Z) (db : DB) (HI : Inv db).

Let W1 : list Write := map (fun r => DelOldLetters (r_id r) (dead_count (r_id r) db)) (oldTasks cutoff db).
Let db1 : DB := apply_writes W1 db.
Let W2 : list Write := map (fun r => DelLogs (r_id r) (length (history (r_id r) db1))) (oldTasks cutoff db).
Let db2 : DB := apply_writes W2 db1.
Let W3 : list Write := map (fun r => DelTask (r_id r)) (oldTasks cutoff db).

Lemma no_task_W1 : Forall spares_tasks W1.
Proof. apply Forall_forall. by intros w (r & -> & _)%list_elem_of_fmap. Qed.
Lemma no_task_W2 : Forall spares_tasks W2.
Proof. apply Forall_forall. by intros w (r & -> & _)%list_elem_of_fmap. Qed.

(** After the first two statements the expired tasks have no dependents. *)
Lemma view_db2 id : view id db2 =
  match tasks db !! id with
  | Some r => if expired cutoff r then mkView (Some r) [] 0 else view id db
  | None => view id db
  end.
Proof.
  assert (view id db1 = match tasks db !! id with
    | Some r => if expired cutoff r then mkView (Some r) (history id db) 0 else view id db
    | None => view id db end) as Hv1.
  { unfold db1, W1. rewrite (view_old_writes _ cutoff db db id HI) by done.
    destruct (tasks db !! id) as [r|] eqn:Hr; [|done]. destruct (expired cutoff r); [|done].
    simpl. rewrite decide_True by by apply (Inv_id db). rewrite (Inv_id _ _ _ HI Hr), Nat.sub_diag.
    unfold view. by rewrite Hr. }
  unfold db2, W2. rewrite (view_old_writes _ cutoff db db1 id HI) by done. rewrite Hv1.
  destruct (tasks db !! id) as [r|] eqn:Hr; [|done]. destruct (expired cutoff r) eqn:He; [|done].
  simpl. rewrite decide_True by by apply (Inv_id db). rewrite (Inv_id _ _ _ HI Hr).
  assert (history id db1 = history id db) as -> by by apply (f_equal v_hist) in Hv1.
  by rewrite drop_all.
Qed.

Lemma old_not_referenced : existsb (referenced db2) (oldTasks cutoff db) = false.
Proof.
  apply not_true_is_false. intros (r & Hin & Href)%List.existsb_exists.
  apply list_elem_of_In, elem_of_rows_where in Hin as (He & k & Hk).
  pose proof (Inv_id _ _ _ HI Hk) as <-. pose proof (view_db2 (r_id r)) as Hv. rewrite Hk, He in Hv.
  unfold referenced in Href. apply (f_equal v_hist) in Hv as Hh. apply (f_equal v_dead) in Hv as Hd.
  simpl in Hh, Hd. by rewrite Hh, Hd in Href.
Qed.

Lemma view_cleaned id :
  view id (apply_writes (W1 ++ W2 ++ W3) db) = cleaned_view cutoff (view id db).
Proof.
  rewrite !apply_writes_app. fold db1. fold db2. unfold W3.
  rewrite (view_old_writes _ cutoff db db2 id HI) by done. rewrite view_db2.
  unfold cleaned_view, view. simpl. destruct (tasks db !! id) as [r|] eqn:Hr; [|done].
  destruct (expired cutoff r); [|done]. simpl. by rewrite decide_True by by apply (Inv_id db).
Qed.

(** Removing tasks with all that refers to them keeps the invariant. *)
Lemma cleaned_Inv db' : (forall id, view id db' = cleaned_view cutoff (view id db)) -> Inv db'.
Proof.
  intros Hv. destruct HI as [Hok Huniq].
  assert (forall id r, tasks db' !! id = Some r -> tasks db !! id = Some r) as Hsub.
  { intros id r Hr. specialize (Hv id). apply (f_equal v_row) in Hv. unfold cleaned_view, view in Hv. simpl in Hv.
    rewrite Hr in Hv. destruct (tasks db !! id) as [r'|]; simpl in Hv; [|done].
    destruct (expired cutoff r'); simpl in Hv; congruence. }
  split.
  - intros id. rewrite Hv. specialize (Hok id). unfold cleaned_view.
    destruct (v_row (view id db)) as [r|] eqn:Hr; [|done]. destruct (expired cutoff r); [|done]. done.
  - intros id1 r1 id2 r2 H1%Hsub H2%Hsub. by apply Huniq.
Qed.

Lemma DeleteOlderThan_calm o met n : calm o ->
  DeleteOlderThan cutoff o (mkWorld db None met n) =
  (Ok (Z.of_nat (length (oldTasks cutoff db))),
   mkWorld (apply_writes (W1 ++ W2 ++ W3) db) None met (5 + n)).
Proof.
  intros Hc. pose proof Hc as [Hf Hn]. unfold DeleteOlderThan, try_wrap, bind.
  unfold Begin, tick, pending. simpl. rewrite Hf, Hn. unfold set_tx. simpl. unfold defer_rollback.
  rewrite tx_exec_rc_calm by done. cbn [apply_writes app sql_delete_letters]. fold W1.
  rewrite tx_exec_rc_calm by done. fold db1.
  assert (forall t e, sql_delete_logs cutoff t e db1 = Ok (tt, W2)) as -> by
    (intros; unfold sql_delete_logs, W2; unfold db1 at 2; by rewrite oldTasks_same by apply no_task_W1).
  rewrite tx_exec_rc_calm, apply_writes_app by done. fold db1. fold db2. unfold sql_delete_tasks.
  assert (oldTasks cutoff db2 = oldTasks cutoff db) as ->.
  { unfold db2, db1. by rewrite !oldTasks_same by apply no_task_W1 || apply no_task_W2. }
  rewrite old_not_referenced. fold W3. rewrite Commit_rc_calm by done. unfold ret, set_tx.
  cbn [w_db w_metrics w_next]. by rewrite <- app_assoc.
Qed.
End Cleanup.

Lemma expired_spec cutoff r : expired cutoff r = true <-> r_created_at r < cutoff /\ r_status r <> RUNNING.
Proof.
  unfold expired, has_status. rewrite andb_true_iff, negb_true_iff, bool_decide_eq_false, Z.ltb_lt. done.
Qed.

Lemma size_gone cutoff db :
  size (filter (fun kr => r_created_at kr.2 < cutoff /\ r_status kr.2 <> RUNNING) (tasks db)) =
  length (oldTasks cutoff db).
Proof.
  unfold oldTasks. rewrite <- size_filter_rows. f_equal. apply map_filter_ext.
  intros id r _. simpl. by rewrite expired_spec.
Qed.

Lemma cleaned_view_gone cutoff db id :
  cleaned_view cutoff (view id db) =
  if decide (is_Some (filter (fun kr => r_created_at kr.2 < cutoff /\ r_status kr.2 <> RUNNING) (tasks db) !! id))
  then mkView None [] 0 else view id db.
Proof.
  unfold cleaned_view. simpl. destruct (tasks db !! id) as [r|] eqn:Hr.
  - destruct (expired cutoff r) eqn:He; case_decide as Hd; try done; exfalso.
    + apply Hd. exists r. apply map_lookup_filter_Some. by rewrite expired_spec in He.
    + destruct Hd as [r' (Hr' & Hp)%map_lookup_filter_Some]. rewrite Hr in Hr'. injection Hr' as <-.
      assert (expired cutoff r = true) by (by apply expired_spec). congruence.
  - case_decide as Hd; [|done]. destruct Hd as [r' (Hr' & _)%map_lookup_filter_Some]. congruence.
Qed.

(** C33: A cleanup that nothing disturbs removes exactly the tasks created before
    the cutoff that are not RUNNING, each with its log and dead letters, and
    answers how many; every other task keeps its row, log and dead letters, and
    the invariant of the queue holds afterwards. *)
Theorem cleanup_exact cutoff o w :
  calm o -> idle w ->
  let gone := filter (fun kr => r_created_at kr.2 < cutoff /\ r_status kr.2 <> RUNNING) (tasks (w_db w)) in
  exists db', yields (DeleteOlderThan cutoff) o w (Ok (Z.of_nat (size gone))) db' (w_metrics w) /\
    (forall id, view id db' = if decide (is_Some (gone !! id)) then mkView None [] 0 else view id (w_db w)) /\
    Inv db'.
Proof.
  intros Hc [Htx HI] gone. destruct w as [db tx met k]. simpl in *. subst tx.
  pose proof (DeleteOlderThan_calm cutoff db HI o met k Hc) as Hrun.
  eexists. split; [unfold yields, gone; rewrite Hrun, size_gone; done|]. split.
  - intros id. rewrite (view_cleaned cutoff db HI). apply cleaned_view_gone.
  - apply (cleaned_Inv cutoff db HI). intros id. by apply view_cleaned.
Qed.

(** ** Retention under interference *)

Section Young.
Context (o : Oracle) (cutoff : Z) (id : uuid).
Hypothesis Henv : env_ok o.

(** The task [id] exists and is younger than the cutoff; its life so far is a
    run of the state machine from [v0]. *)
Definition young (v0 : Lifecycle.TaskView) (db : DB) : Prop :=
  Inv db /\ rtc (task_step id) v0 (view id db) /\
  exists r, tasks db !! id = Some r /\ cutoff <= r_created_at r.

Lemma young_env v0 n db : young v0 db -> young v0 (ev_env (o n) db).
Proof.
  intros (HI & Hv & r & Hr & Hc). pose proof (Henv n db) as Hsteps. split_and!.
  - by eapply db_steps_Inv.
  - etrans; [exact Hv|]. clear -Hsteps. induction Hsteps as [|x y z [Hs _] _ IH]; [done|].
    eapply rtc_l; [apply Hs|done].
  - destruct (db_steps_row _ _ id r Hsteps Hr) as (r' & Hr' & Hid). exists r'. split; [done|].
    unfold identity in Hid. simplify_eq. lia.
Qed.

Lemma young_not_old v0 ws db :
  Forall spares_tasks ws -> young v0 db ->
  forall r, r ∈ oldTasks cutoff (apply_writes ws db) -> r_id r <> id.
Proof.
  intros Hws (HI & _ & r & Hr & Hc) r' Hin <-. rewrite oldTasks_same in Hin by done.
  apply elem_of_rows_where in Hin as (He & k & Hk). unfold expired in He. bool_to_prop.
  rewrite <- (Inv_id _ _ _ HI Hk) in Hk. simplify_eq. lia.
Qed.

Lemma old_writes_other (g : Row -> Write) v0 ws db :
  (forall r, about (g r) = r_id r) -> Forall spares_tasks ws -> young v0 db ->
  Forall (fun w => about w <> id) (map g (oldTasks cutoff (apply_writes ws db))).
Proof.
  intros Hg Hws Hy. apply Forall_forall. intros w (r & -> & Hr)%list_elem_of_fmap.
  rewrite Hg. by apply (young_not_old v0 ws db Hws Hy).
Qed.

Lemma wp_tx_exec_rc {A} (s : Stmt A) Q db now ws met n :
  (match s now (o n) (apply_writes ws (ev_env (o n) db)) with
   | Ok (a, ws') => Q (Ok a) (mkWorld (ev_env (o n) db) (Some (mkTx now (ws ++ ws') false)) met (S n))
   | Err e => Q (Err e) (mkWorld (ev_env (o n) db) (Some (mkTx now ws true)) met (S n))
   end) ->
  (forall e, Q (Err e) (mkWorld (ev_env (o n) db) (Some (mkTx now ws true)) met (S n))) ->
  wp (tx_exec_rc s) o Q (mkWorld db (Some (mkTx now ws false)) met n).
Proof.
  intros Hok Herr. unfold wp, tx_exec_rc, tick_rc. simpl.
  destruct (ev_fault (o n)); simpl; [|by eauto..]. destruct (s now (o n) _) as [[a ws']|e]; done.
Qed.

Lemma wp_Commit_rc Q db now ws met n :
  (forall r, Q r (mkWorld (apply_writes ws (ev_env (o n) db)) None met (S n))) ->
  (forall e, Q (Err e) (mkWorld (ev_env (o n) db) None met (S n))) ->
  wp Commit_rc o Q (mkWorld db (Some (mkTx now ws false)) met n).
Proof.
  intros H1 H2. unfold wp, Commit_rc, tick_rc. simpl. destruct (ev_fault (o n)); simpl; eauto.
Qed.

Lemma DeleteOlderThan_young db met n : young (view id db) db ->
  wp (DeleteOlderThan cutoff) o (fun _ w' => rtc (task_step id) (view id db) (view id (w_db w')) /\
    exists r, tasks (w_db w') !! id = Some r) (mkWorld db None met n).
Proof.
  intros Hy. set (v0 := view id db) in *.
  assert (forall db', young v0 db' -> rtc (task_step id) v0 (view id db') /\
    exists r, tasks db' !! id = Some r) as Hdone by (intros db' (_ & ? & r & ? & _); eauto).
  unfold DeleteOlderThan. wp_step. wp_step; [intros _|intros m _; cbn beta iota; by apply Hdone, young_env].
  cbn beta iota. apply (young_env v0 n) in Hy. wp_step. wp_step.
  apply wp_tx_exec_rc; [|intros e; cbn beta iota; by apply Hdone, young_env].
  cbn beta iota. cbn [apply_writes app sql_delete_letters].
  apply (young_env v0 (S n)) in Hy. set (db1 := ev_env (o (S n)) _) in *.
  set (W1 := map _ (oldTasks cutoff db1)).
  assert (Forall spares_tasks W1) as HW1 by (apply Forall_fmap, Forall_forall; done).
  assert (Forall (fun w => about w <> id) W1) as HA1 by by apply (old_writes_other _ v0 []).
  wp_step. apply wp_tx_exec_rc; [|intros e; cbn beta iota; by apply Hdone, young_env].
  unfold sql_delete_logs. apply (young_env v0 (S (S n))) in Hy. set (db2 := ev_env (o (S (S n))) _) in *.
  set (W2 := map _ (oldTasks cutoff _)). cbn beta iota.
  assert (Forall spares_tasks W2) as HW2 by (apply Forall_fmap, Forall_forall; done).
  assert (Forall (fun w => about w <> id) W2) as HA2 by by apply (old_writes_other _ v0 W1).
  wp_step. apply wp_tx_exec_rc; [|intros e; cbn beta iota; by apply Hdone, young_env].
  unfold sql_delete_tasks. apply (young_env v0 (S (S (S n)))) in Hy. set (db3 := ev_env (o (S (S (S n)))) _) in *.
  destruct (existsb _ _); [by apply Hdone|]. set (W3 := map _ (oldTasks cutoff _)). cbn beta iota.
  assert (Forall (fun w => about w <> id) W3) as HA3
    by (apply (old_writes_other _ v0 (W1 ++ W2)); [done|by apply Forall_app_2|done]).
  wp_step. apply (young_env v0 (S (S (S (S n))))) in Hy. set (db4 := ev_env (o (S (S (S (S n))))) _) in *.
  assert (view id (apply_writes ((W1 ++ W2) ++ W3) db4) = view id db4) as Hsame.
  { rewrite view_apply_writes. apply view_writes_other. by repeat apply Forall_app_2. }
  apply wp_Commit_rc.
  - intros r. assert (rtc (task_step id) v0 (view id (apply_writes ((W1 ++ W2) ++ W3) db4)) /\
      exists r, tasks (apply_writes ((W1 ++ W2) ++ W3) db4) !! id = Some r) as Hfin.
    { apply (f_equal v_row) in Hsame as Hrow. unfold view in Hrow. simpl in Hrow. rewrite Hsame, Hrow.
      by apply Hdone. }
    destruct r; [wp_step|]; exact Hfin.
  - intros e. by apply Hdone.
Qed.
End Young.

(** Whatever fails and whatever other sessions do meanwhile, a cleanup does not
    touch a task younger than the cutoff: all that happens to it are steps of
    its life. *)
Theorem cleanup_keeps_young o cutoff w id r :
  env_ok o -> idle w -> tasks (w_db w) !! id = Some r -> cutoff <= r_created_at r ->
  let db' := w_db (DeleteOlderThan cutoff o w).2 in
  rtc (task_step id) (view id (w_db w)) (view id db') /\ is_Some (tasks db' !! id).
Proof.
  intros He [Htx HI] Hr Hc. destruct w as [db tx met n]. simpl in *. subst tx.
  destruct (DeleteOlderThan_young o cutoff id He db met n) as [H1 [r' H2]].
  { split_and!; [done|apply rtc_refl|eauto]. }
  split; [exact H1|]. by exists r'.
Qed.

(** ** A race *)

(** A task that failed once and waits for its second attempt. *)
#[local] Abbreviation requeued_world :=
  (@run_ops demo_hasher
     [OpCreate (demo_task "echo" None 3); OpClaim "w-1";
      OpMarkPending (mkTaskRow 2 "echo" "{}" EmptyString None EmptyString 0 1 3 0 None None None None None 0 0)
        "w-1" "boom" 0]
     demo_oracle (world0 empty_db)).2.

(** A worker of another process claims it. *)
Definition worker_elsewhere (db : DB) : DB :=
  w_db (Claim "w-2" (fun _ => quiet_event (100 * Second) 0) (world0 db)).2.

(** Events 11 to 15 are the cleanup's [Begin], its three deletes and its
    [Commit]; the claim commits between the second and the third delete. *)
Definition cleanup_race : Oracle := fun n =>
  if (n =? 14)%nat then mkEvent worker_elsewhere ∅ (100 * Second) 0 0 0 NoFault else demo_oracle n.

(** The cleanup is not atomic: each [DELETE] picks the expired tasks anew. A task
    claimed after its log was deleted survives, RUNNING and without its log: the
    remaining log tells one attempt, the row two. *)
Theorem cleanup_race_loses_log :
  Inv (w_db requeued_world) /\
  let '(r, w') := DeleteOlderThan (50 * Second) cleanup_race requeued_world in
  r = Ok 0 /\
  (fun r => (r_status r, r_attempts r)) <$> tasks (w_db w') !! 2%N = Some (RUNNING, 2) /\
  replay (history 2 (w_db w')) = Some (RUNNING, 1).
Proof.
  split; [apply run_ops_Inv, demo_oracle_env_ok|]. vm_compute. repeat split; reflexivity.
Qed.

Lemma cleanup_exact_witness :
  exists db', yields (DeleteOlderThan (50 * Second)) demo_oracle requeued_world (Ok 1) db'
    (w_metrics requeued_world) /\ view 2 db' = mkView None [] 0.
Proof.
  destruct (cleanup_exact (50 * Second) demo_oracle requeued_world demo_oracle_calm) as (db' & Hy & Hv & _).
  { split; [vm_compute; reflexivity|apply run_ops_Inv, demo_oracle_env_ok]. }
  exists db'. split; [exact Hy|]. rewrite Hv. vm_compute. reflexivity.
Defined.

(** ** The list of a session *)

Definition plain (c : ascii) : bool :=
  negb (bool_decide (c = "%"%char) || bool_decide (c = "_"%char) || bool_decide (c = backslash)).

Lemma like_any k : like "%" k = true.
Proof. induction k as [|c k IH]; [done|]. simpl in *. exact IH. Qed.

(** A pattern without wildcards before a final [%] asks for a prefix. *)
Lemma like_prefix p k : all_chars plain p = true -> like (p +:+ "%") k = HasPrefix k p.
Proof.
  revert k. induction p as [|c p IH]; intros k Hp.
  { rewrite like_any. symmetry. apply HasPrefix_spec. by exists k. }
  apply andb_true_iff in Hp as [Hc Hp]. unfold plain in Hc. apply negb_true_iff in Hc.
  apply orb_false_iff in Hc as [[H1 H2]%orb_false_iff H3].
  change (String c p +:+ "%") with (String c (p +:+ "%")). cbn [like]. rewrite H1, H2, H3.
  destruct k as [|a k]; [done|]. rewrite IH by done. unfold HasPrefix. cbn [strip_prefix].
  destruct (decide (a = c)) as [->|Hne].
  - by rewrite !bool_decide_true.
  - by rewrite !bool_decide_false by congruence.
Qed.

Lemma uuid_char_plain c : uuid_char c = true -> plain c = true.
Proof. destruct c as [[] [] [] [] [] [] [] []]; done. Qed.

(** "Mine" selects exactly the tasks whose key belongs to the session. *)
Lemma recent_mine `{UUIDText} session r : canonical session ->
  recent session EmptyString r = keyBelongsToSession (r_idempotency_key r) session.
Proof.
  intros Hs. pose proof (canonical_nonempty _ Hs) as Hne. unfold recent, keyBelongsToSession.
  rewrite bool_decide_false by done. rewrite (bool_decide_true (EmptyString = EmptyString)) by done.
  rewrite andb_true_r. destruct (r_idempotency_key r) as [k|]; [|done]. cbn [orb].
  replace ("demo:" +:+ session +:+ ":%") with ((keyPrefix +:+ session +:+ ":") +:+ "%")
    by (rewrite !app_string_assoc; done).
  apply like_prefix. rewrite !all_chars_app. rewrite !andb_true_iff. split_and!; [done| |done].
  destruct Hs as (u & _ & ->). eapply all_chars_impl; [apply uuid_char_plain|apply uuid_String_chars].
Qed.
