(* ===== verification/Server.v ===== *)
(** Server: the HTTP API, [cmd/server/task_handler.go] and [task_request.go].

    A handler is a program of [Pg]'s monad that answers a status code and a
    body. What [net/http], [encoding/json] and [google/uuid] make of a request
    is part of the request: the query parameters ([r.URL.Query().Get], empty
    when absent), the decoded body or a decoding error, and the path's id as
    [uuid.Parse] reads it. Request logging has no effect on the answer. *)

From S2P Require Import Prelude Dharatype GoTime GoStrconv Float64 Metrics Pg PgLogic TaskStore.
From S2P Require Import Lifecycle StoreRefine StoreTheorems StoreSpec StoreContracts Client.
Open Scope dhara_scope.

(** ** Requests and responses *)

Record createTaskRequest := mkCreateTaskRequest {
  c_Type : string;
  c_Payload : option string;
  c_IdempotencyKey : option string;
  c_Priority : option Z;
  c_MaxRetries : option Z;
  c_RunAt : option Z
}.

Definition toInsertParams (r : createTaskRequest) : InsertParams :=
  mkInsertParams (c_Type r) (c_Payload r) (c_IdempotencyKey r) (c_Priority r) (c_MaxRetries r) (c_RunAt r).

Inductive Body : Type :=
  | ErrorBody (message : string)
  | TaskBody (task : Task)
  | ListBody (tasks : list Task) (limit offset total : Z)
  | RunningBody.

Record Response := mkResponse { code : Z; body : Body }.

Definition writeError (status : Z) (message : string) : M Response :=
  ret (mkResponse status (ErrorBody message)).
Definition writeJSON (status : Z) (b : Body) : M Response := ret (mkResponse status b).

Definition StatusOK : Z := 200.
Definition StatusCreated : Z := 201.
Definition StatusBadRequest : Z := 400.
Definition StatusNotFound : Z := 404.
Definition StatusConflict : Z := 409.
Definition StatusInternalServerError : Z := 500.

(** ** Handlers *)

(** The filter of a list request, or the message of a bad request. *)
Definition parseListQuery (q : string -> string) : result string TaskListFilter :=
  let with_retrying (retrying : option bool) :=
    let with_limit (limit : Z) :=
      let with_offset (offset : Z) := Ok (mkFilter (q "status") (q "type") retrying limit offset) in
      if bool_decide (q "offset" = EmptyString) then with_offset 0
      else match Atoi (q "offset") with
           | Some n => if n <? 0 then Err "offset must be a non-negative integer" else with_offset n
           | None => Err "offset must be a non-negative integer"
           end in
    if bool_decide (q "limit" = EmptyString) then with_limit 20
    else match Atoi (q "limit") with
         | Some n => if n <? 1 then Err "limit must be a positive integer" else with_limit (Z.min n 100)
         | None => Err "limit must be a positive integer"
         end in
  if bool_decide (q "retrying" = EmptyString) then with_retrying None
  else match ParseBool (q "retrying") with
       | Some b => with_retrying (Some b)
       | None => Err "retrying must be true or false"
       end.

Definition handleListTasks (q : string -> string) : M Response :=
  match parseListQuery q with
  | Err msg => writeError StatusBadRequest msg
  | Ok filter =>
      r <- ListTasks filter;
      match r with
      | Err _ => writeError StatusInternalServerError "failed to list tasks"
      | Ok (tasks, total) => writeJSON StatusOK (ListBody tasks (f_Limit filter) (f_Offset filter) total)
      end
  end.

Definition handleCreateTask {hasher : PayloadHasher} (req : res createTaskRequest) : M Response :=
  match req with
  | Err _ => writeError StatusBadRequest "request body must be valid JSON"
  | Ok req =>
      r <- Insert (toInsertParams req);
      match r with
      | Err err =>
          match errors_As_Validation err with
          | Some verr => writeError StatusBadRequest (Error verr)
          | None =>
              if errors_Is err ErrTaskConflict then
                writeError StatusConflict "idempotency key reused with different payload"
              else writeError StatusInternalServerError "failed to create task"
          end
      | Ok result =>
          if er_Duplicate result then writeJSON StatusOK (TaskBody (er_Task result))
          else writeJSON StatusCreated (TaskBody (er_Task result))
      end
  end.

Definition handleGetTaskById (id : option uuid) : M Response :=
  match id with
  | None => writeError StatusBadRequest "invalid task id"
  | Some id =>
      r <- GetTask id;
      match r with
      | Err err =>
          if errors_Is err ErrTaskNotFound then writeError StatusNotFound "task not found"
          else writeError StatusInternalServerError "failed to get task"
      | Ok task => writeJSON StatusOK (TaskBody task)
      end
  end.

Definition handleDeleteTask (id : option uuid) : M Response :=
  match id with
  | None => writeError StatusBadRequest "invalid task id"
  | Some id =>
      r <- CancelTask id;
      match r with
      | Err err =>
          if errors_Is err ErrTaskNotFound then writeError StatusNotFound "task not found"
          else writeError StatusInternalServerError "failed to cancel task"
      | Ok task =>
          if bool_decide (Status task = status_text RUNNING) then writeJSON StatusConflict RunningBody
          else if bool_decide (Status task = status_text CANCELED) ||
                  bool_decide (Status task = status_text COMPLETED) ||
                  bool_decide (Status task = status_text DEAD)
          then writeJSON StatusOK (TaskBody task)
          else writeError StatusInternalServerError "unexpected task state"
      end
  end.

Definition handleRetryDeadTask (id : option uuid) : M Response :=
  match id with
  | None => writeError StatusBadRequest "invalid task id"
  | Some id =>
      r <- RetryTask id;
      match r with
      | Err err =>
          if errors_Is err ErrTaskNotFound then writeError StatusNotFound "task not found"
          else if errors_Is err ErrTaskNotDead then writeError StatusConflict "task is not in DEAD status"
          else writeError StatusInternalServerError "failed to retry task"
      | Ok task => writeJSON StatusOK (TaskBody task)
      end
  end.

(** ** Lemmas *)

Lemma parseListQuery_bounds q f :
  parseListQuery q = Ok f -> 1 <= f_Limit f <= 100 /\ 0 <= f_Offset f <= int64_max /\
  f_Status f = q "status" /\ f_Type f = q "type".
Proof.
  unfold parseListQuery. intros H.
  assert (int64_max = 9223372036854775807) by done.
  repeat (case_match; simplify_eq; simpl in *); bool_to_prop;
    repeat match goal with H : Atoi _ = Some _ |- _ => apply Atoi_int64 in H end;
    split_and!; try done; lia.
Qed.

(** A handler that maps a known answer to a response. *)
Lemma yields_respond {A} (m : M A) (k : A -> M Response) o w a db' met' resp :
  yields m o w a db' met' -> k a = ret resp -> yields (bind m k) o w resp db' met'.
Proof.
  unfold yields, bind. destruct (m o w) as [r w']. simpl. intros (-> & Hd & Hm & Ht) ->. done.
Qed.

Lemma CancelTask_calm id o w :
  calm o -> idle w ->
  let now := ev_now (o (w_next w)) in
  match tasks (w_db w) !! id with
  | Some r =>
      if decide (r_status r = PENDING)
      then yields (CancelTask id) o w (Ok (newTask (scan_public (set_cancel now r))))
             (apply_writes [PutTask (set_cancel now r); AddLog (mkLog id CANCELED cancel_message now)] (w_db w))
             (add_canceled 1 (w_metrics w))
      else yields (CancelTask id) o w (Ok (newTask (scan_GetById r))) (w_db w) (w_metrics w)
  | None => yields (CancelTask id) o w (Err ErrTaskNotFound) (w_db w) (w_metrics w)
  end.
Proof.
  intros Hcalm Hidle now. unfold CancelTask.
  destruct (tasks (w_db w) !! id) as [r|] eqn:Hr; [|by apply yields_try_err, Cancel_absent].
  case_decide; [by apply (yields_try_ok _ newTask), Cancel_pending|].
  by apply (yields_try_ok _ newTask), (Cancel_other o w Hcalm Hidle id r).
Qed.

Lemma RetryTask_calm id o w :
  calm o -> idle w ->
  let now := ev_now (o (w_next w)) in
  match tasks (w_db w) !! id with
  | Some r =>
      if decide (r_status r = DEAD)
      then yields (RetryTask id) o w (Ok (newTask (scan_public (set_retry_dead now r))))
             (apply_writes [PutTask (set_retry_dead now r); DelDeadLetters id;
                            AddLog (mkLog id PENDING retry_message now)] (w_db w)) (w_metrics w)
      else yields (RetryTask id) o w (Err ErrTaskNotDead) (w_db w) (w_metrics w)
  | None => yields (RetryTask id) o w (Err ErrTaskNotFound) (w_db w) (w_metrics w)
  end.
Proof.
  intros Hcalm Hidle now. unfold RetryTask.
  destruct (tasks (w_db w) !! id) as [r|] eqn:Hr; [|by apply yields_try_err, RetryDead_absent].
  case_decide; [by apply (yields_try_ok _ newTask), RetryDead_dead|].
  by apply yields_try_err, (RetryDead_other o w Hcalm Hidle id r).
Qed.

(** ** A database that fails *)

(** An error the create handler has no answer of its own for. *)
Definition unexpected (e : error) : Prop := errors_As_Validation e = None /\ errors_Is e ErrTaskConflict = false.

(** One of the first [k] calls from number [n] on fails. *)
Definition call_fails (k : nat) (o : Oracle) (n : nat) : Prop :=
  exists i m, (i < k)%nat /\ ev_fault (o (i + n)%nat) = FailBefore m.

Lemma call_fails_not o n :
  call_fails 3 o n -> ev_fault (o n) = NoFault -> ev_fault (o (S n)) = NoFault -> ev_fault (o (S (S n))) = NoFault -> False.
Proof. intros (k & m & Hk & Hf) H0 H1 H2. destruct k as [|[|[|k]]]; cbn in Hf; [congruence..|lia]. Qed.

Lemma call_fails_last o n :
  call_fails 4 o n -> call_fails 3 o n \/ exists m, ev_fault (o (S (S (S n)))) = FailBefore m.
Proof.
  intros (k & m & Hk & Hf). destruct (decide (k < 3)%nat); [left; by exists k, m|right].
  assert (k = 3%nat) as -> by lia. by exists m.
Qed.

(** [Create] ends in an error that has no answer of its own, without effect. *)
Definition create_error (db : DB) (r : res (bool * TaskRow)) (w' : World) : Prop :=
  (exists e, r = Err e /\ unexpected e) /\ w_db w' = db.

Ltac error_leaf := try (split; [eexists; by split|done]).

Lemma Create_unhashed {hasher : PayloadHasher} task e o db met n :
  no_interference o -> hashPayload (t_Payload task) = Err e -> unexpected e ->
  wp (Create task) o (create_error db) (mkWorld db None met n).
Proof. intros Hq Hh He. unfold Create, CreateTx, insertTask. rewrite Hh. quiet_run; error_leaf. Qed.

Lemma Create_fails {hasher : PayloadHasher} task h o db met n :
  no_interference o -> no_lost_ack o -> row_acceptable task = true ->
  hashPayload (t_Payload task) = Ok h -> call_fails 3 o n ->
  wp (Create task) o (create_error db) (mkWorld db None met n).
Proof.
  intros Hq Ha Hok Hh Hfail. unfold Create, CreateTx, insertTask. rewrite Hh, (acceptable_encodable task Hok).
  quiet_run; error_leaf.
  destruct (sql_insert_task_cases (t_Type task) (t_Payload task) h (t_IdempotencyKey task) (t_Priority task)
    (t_MaxRetries task) (t_RunAt task) (ev_now (o n)) (o (S n)) db) as [[m Hins]|[(r & Hr & Hins)|(Hk & Hid & Hins)]];
    quiet_run; error_leaf; rewrite Hins; cbn beta iota; autorewrite with dhara;
    quiet_run; error_leaf; try (exfalso; by eapply call_fails_not).
  unfold getByTypeAndIdempotencyKey. quiet_run; error_leaf. exfalso. by eapply call_fails_not.
Qed.

(** The replay of a key makes a fourth call, the commit. *)
Lemma Create_replay_fails {hasher : PayloadHasher} task h r o db met n :
  no_interference o -> no_lost_ack o -> Inv db -> row_acceptable task = true ->
  hashPayload (t_Payload task) = Ok h -> has_row db r ->
  same_key (t_Type task) (t_IdempotencyKey task) r = true -> r_payload_hash r = h -> call_fails 4 o n ->
  wp (Create task) o (create_error db) (mkWorld db None met n).
Proof.
  intros Hq Ha HI Hok Hh Hr Hkey Heq Hfail.
  destruct (call_fails_last _ _ Hfail) as [Hfail'|[m Hm]]; [by eapply Create_fails|].
  unfold Create, CreateTx, insertTask. rewrite Hh, (acceptable_encodable task Hok).
  quiet_run; error_leaf. pose proof (rows_with_key db _ r _ _ HI Hr Hkey) as Hrows.
  rewrite sql_insert_acceptable, Hrows by done.
  cbn beta iota; autorewrite with dhara; quiet_run; error_leaf.
  unfold getByTypeAndIdempotencyKey. quiet_run; error_leaf.
  assert (exists k, t_IdempotencyKey task = Some k) as [k Hk].
  { unfold same_key in Hkey. destruct (t_IdempotencyKey task); [eauto|done]. }
  unfold sql_get_by_key. rewrite Hk in Hrows |- *. cbn [default from_option]. change (Datatypes.id k) with k.
  rewrite Hrows. cbn [head]. cbn beta iota. quiet_run; error_leaf. cbn [scan_by_key t_PayloadHash].
  rewrite bool_decide_true by done. cbn [negb]. quiet_run; error_leaf. congruence.
Qed.

Lemma create_fails {hasher : PayloadHasher} req o w :
  no_interference o -> idle w ->
  let p := Normalize (ev_now (o (w_next w))) (toInsertParams req) in
  Validate (ev_now (o (w_next w))) p = Ok tt ->
  wp (Create (toStoreTask p)) o (create_error (w_db w)) (bump w) ->
  (handleCreateTask (Ok req) o w).1 = mkResponse 500 (ErrorBody "failed to create task") /\
  w_db (handleCreateTask (Ok req) o w).2 = w_db w.
Proof.
  intros Hq [Htx HI] p Hv Hfail. wp_world w.
  change (wp (handleCreateTask (Ok req)) o (fun resp w' => resp = mkResponse 500 (ErrorBody "failed to create task") /\ w_db w' = db)
    (mkWorld db None met n)).
  unfold handleCreateTask, Insert. do 2 wp_step. wp_step. rewrite Hq. fold p. rewrite Hv. wp_step.
  eapply wp_mono; [exact Hfail|]. intros r w' [(e & -> & He1 & He2) Hd]. cbn beta iota.
  rewrite He1, He2. by split.
Qed.

(** ** Theorems *)

Section server_theorems.
Context (o : Oracle) (w : World).
Local Abbreviation now := (ev_now (o (w_next w))).
Local Abbreviation db := (w_db w).
Local Abbreviation met := (w_metrics w).

(** C26: POST on every branch, with the tables it leaves. A body that is not JSON
    is answered 400 without a call. Otherwise, alone with the database: 400 with
    the reason for invalid parameters; 500 when the payload cannot be hashed or one
    of the calls fails (three of them, four for a replay), as long as the driver
    reports no call as failed that took effect; and when all goes well 201 with the new task, 200 with the
    existing task for a replay of its key, or 409 for a key reused with another
    payload. Only 201 changes the tables. *)
Theorem create_status {hasher : PayloadHasher} :
  (forall e, handleCreateTask (Err e) o w = (mkResponse 400 (ErrorBody "request body must be valid JSON"), w)) /\
  forall req, no_interference o -> no_lost_ack o -> idle w ->
  let p := Normalize now (toInsertParams req) in
  let task := toStoreTask p in
  let failed := (handleCreateTask (Ok req) o w).1 = mkResponse 500 (ErrorBody "failed to create task") /\
                w_db (handleCreateTask (Ok req) o w).2 = db in
  match Validate now p with
  | Err e => yields (handleCreateTask (Ok req)) o w (mkResponse 400 (ErrorBody (Error e))) db met
  | Ok _ =>
      match hashPayload (t_Payload task) with
      | Err e => unexpected e -> failed
      | Ok h =>
          (call_fails 3 o (S (w_next w)) -> failed) /\
          (forall r, has_row db r -> same_key (t_Type task) (t_IdempotencyKey task) r = true ->
           r_payload_hash r = h -> call_fails 4 o (S (w_next w)) -> failed) /\
          (no_faults o -> tasks db !! ev_uuid (o (S (S (w_next w)))) = None -> no_row_with_key db task ->
           let row := inserted_row o (bump w) task h in
           yields (handleCreateTask (Ok req)) o w
             (mkResponse 201 (TaskBody (newTask (scan_inserted task row))))
             (apply_writes [PutTask row] db) (add_enqueued 1 met)) /\
          (forall r, no_faults o -> has_row db r -> same_key (t_Type task) (t_IdempotencyKey task) r = true ->
           yields (handleCreateTask (Ok req)) o w
             (if bool_decide (r_payload_hash r = h)
              then mkResponse 200 (TaskBody (newTask (scan_by_key r)))
              else mkResponse 409 (ErrorBody "idempotency key reused with different payload")) db met)
      end
  end.
Proof.
  split; [done|]. intros req Hq Ha Hidle p task failed.
  assert (bump w = mkWorld db None met (S (w_next w))) as Hb by (unfold bump; by rewrite (proj1 Hidle)).
  destruct (Validate now p) as [[]|e] eqn:Hv.
  - pose proof (Validate_acceptable _ _ Hv) as Hok. destruct (hashPayload (t_Payload task)) as [h|e] eqn:Hh.
    2: { intros He. apply create_fails; [done..|]. rewrite Hb. by eapply Create_unhashed. }
    split_and!.
    + intros Hf. apply create_fails; [done..|]. rewrite Hb. by eapply Create_fails.
    + intros r Hr Hk Heq Hf. apply create_fails; [done..|]. rewrite Hb.
      by apply (Create_replay_fails _ h r); [done..|apply Hidle| | | | | |].
    + intros Hn Hid Hno row. pose proof (Insert_calm o w (toInsertParams req) h (conj Hn Hq) Hidle Hh) as HI.
      fold p in HI. rewrite Hv in HI. eapply yields_respond; [by apply HI|done].
    + intros r Hn Hr Hk. pose proof (Insert_calm o w (toInsertParams req) h (conj Hn Hq) Hidle Hh) as HI.
      fold p in HI. rewrite Hv in HI. pose proof (proj2 HI r Hr Hk) as Hex.
      destruct (bool_decide _); (eapply yields_respond; [exact Hex|done]).
  - destruct Hidle as [Htx HI]. unfold yields, handleCreateTask, Insert, bind, time_Now. fold p. rewrite Hv. cbn.
    unfold tick, pending. by rewrite Htx, Hq.
Qed.

(** DELETE answers 404 for an unknown id, 409 for a running task, and 200
    otherwise, with a PENDING task now CANCELED and a finished one as it is;
    without interference it never fails, and only a PENDING task changes. *)
Theorem cancel_status id :
  calm o -> idle w ->
  match tasks db !! id with
  | None => yields (handleDeleteTask (Some id)) o w (mkResponse 404 (ErrorBody "task not found")) db met
  | Some r =>
      match r_status r with
      | PENDING =>
          yields (handleDeleteTask (Some id)) o w
            (mkResponse 200 (TaskBody (newTask (scan_public (set_cancel now r)))))
            (apply_writes [PutTask (set_cancel now r); AddLog (mkLog id CANCELED cancel_message now)] db)
            (add_canceled 1 met)
      | RUNNING => yields (handleDeleteTask (Some id)) o w (mkResponse 409 RunningBody) db met
      | _ => yields (handleDeleteTask (Some id)) o w
               (mkResponse 200 (TaskBody (newTask (scan_GetById r)))) db met
      end
  end.
Proof.
  intros Hcalm Hidle. pose proof (CancelTask_calm id o w Hcalm Hidle) as HC. cbv zeta in HC.
  destruct (tasks db !! id) as [r|] eqn:Hr; [|by eapply yields_respond; [exact HC|]].
  destruct (r_status r) eqn:Hs; (eapply yields_respond; [exact HC|]);
    cbn [newTask Status scan_public scan_GetById t_Status]; rewrite ?Hs; done.
Qed.

(** POST .../retry answers 200 and revives a DEAD task, 409 for any other
    task, 404 for an unknown id. *)
Theorem retry_status id :
  calm o -> idle w ->
  match tasks db !! id with
  | None => yields (handleRetryDeadTask (Some id)) o w (mkResponse 404 (ErrorBody "task not found")) db met
  | Some r =>
      if decide (r_status r = DEAD)
      then yields (handleRetryDeadTask (Some id)) o w
             (mkResponse 200 (TaskBody (newTask (scan_public (set_retry_dead now r)))))
             (apply_writes [PutTask (set_retry_dead now r); DelDeadLetters id;
                            AddLog (mkLog id PENDING retry_message now)] db) met
      else yields (handleRetryDeadTask (Some id)) o w
             (mkResponse 409 (ErrorBody "task is not in DEAD status")) db met
  end.
Proof.
  intros Hcalm Hidle. pose proof (RetryTask_calm id o w Hcalm Hidle) as HC. cbv zeta in HC.
  destruct (tasks db !! id) as [r|] eqn:Hr; [|by eapply yields_respond; [exact HC|]].
  case_decide; by eapply yields_respond; [exact HC|].
Qed.

(** GET answers 400 for a malformed query and otherwise 200 with at most
    100 tasks: the page, newest first, of the tasks the filter describes, and
    how many there are. It changes nothing. *)
Theorem list_status q :
  calm o -> idle w ->
  match parseListQuery q with
  | Err msg => yields (handleListTasks q) o w (mkResponse 400 (ErrorBody msg)) db met
  | Ok f =>
      let page := take (Z.to_nat (f_Limit f)) (drop (Z.to_nat (f_Offset f)) (listing f db)) in
      (length page <= 100)%nat /\
      (forall r, r ∈ page -> has_row db r /\ filter_meaning f r) /\
      yields (handleListTasks q) o w
        (mkResponse 200 (ListBody (map newTask (map scan_public page)) (f_Limit f) (f_Offset f)
           (Z.of_nat (length (listing f db))))) db met
  end.
Proof.
  intros Hcalm Hidle. unfold handleListTasks. destruct (parseListQuery q) as [f|msg] eqn:Hq.
  - pose proof (parseListQuery_bounds _ _ Hq) as (Hl & Ho & _). set (page := take _ _). split_and!.
    + unfold page. rewrite length_take. lia.
    + intros r Hr. apply elem_of_listing; [apply Hidle|].
      apply subseteq_take in Hr. apply list_elem_of_lookup_1 in Hr as [i Hi].
      rewrite lookup_drop in Hi. by eapply list_elem_of_lookup_2.
    + eapply yields_respond; [refine (yields_try_ok _ (fun r => (map newTask r.1, r.2)) _ _ (_, _) _ _ (List_calm f o w Hcalm Hidle _ _)); lia|done].
  - by split_and!; try apply Hidle.
Qed.
End server_theorems.

(** ** A race *)

(** While a cancel request looks up why its [UPDATE] matched no row, the reaper
    of another process requeues the task. Events: 0-2 create, 3-6 claim, 7 and 8
    the cancel's transaction, 9 its lookup. *)
Definition reaper_elsewhere (db : DB) : DB :=
  w_db (RequeueStaleRunning 1 "r" (fun _ => quiet_event (9 * Second) 0) (world0 db)).2.

Definition racing_oracle : Oracle := fun n =>
  if (n =? 9)%nat then mkEvent reaper_elsewhere ∅ (9 * Second) 0 0 0 NoFault else demo_oracle n.

#[local] Abbreviation running_world :=
  (@run_ops demo_hasher [OpCreate (demo_task "echo" None 2); OpClaim "w-1"] racing_oracle (world0 empty_db)).2.

(** Without any failure a DELETE can answer 500: when a running task is
    requeued between the cancel's update and its lookup, the handler meets a
    PENDING task and reports an unexpected state, and the task is not
    cancelled. *)
Theorem cancel_race_internal_error :
  no_faults racing_oracle /\
  (handleDeleteTask (Some 2%N) racing_oracle running_world).1 =
    mkResponse 500 (ErrorBody "unexpected task state") /\
  r_status <$> tasks (w_db (handleDeleteTask (Some 2%N) racing_oracle running_world).2) !! 2%N =
    Some PENDING.
Proof.
  split; [intros n; unfold racing_oracle; by case_match|].
  split; vm_compute; reflexivity.
Qed.

(** ** Concrete runs *)

Definition demo_request : createTaskRequest := mkCreateTaskRequest "echo" None (Some "k") None None None.
#[local] Abbreviation pending_world :=
  (@run_ops demo_hasher [OpCreate (demo_task "echo" (Some "k") 1)] demo_oracle (world0 empty_db)).2.

(** A database that refuses the connection. *)
Definition down_oracle : Oracle := fun n =>
  mkEvent (fun db => db) ∅ (Z.of_nat n * Second) (N.of_nat (n + 1)) 0 0 (FailBefore "connection refused").

Lemma create_status_witness :
  (exists t, (@handleCreateTask demo_hasher (Ok demo_request) demo_oracle (world0 empty_db)).1 =
    mkResponse 201 (TaskBody t)) /\
  (@handleCreateTask demo_hasher (Ok demo_request) down_oracle (world0 empty_db)).1 =
    mkResponse 500 (ErrorBody "failed to create task").
Proof.
  split.
  - destruct (proj2 (@create_status demo_oracle (world0 empty_db) demo_hasher) demo_request
      (proj2 demo_oracle_calm) ltac:(intros n m; discriminate) world0_idle) as (_ & _ & H & _).
    destruct (H (proj1 demo_oracle_calm) eq_refl (no_row_in_empty _)) as [Hy _]. eexists. exact Hy.
  - destruct (proj2 (@create_status down_oracle (world0 empty_db) demo_hasher) demo_request
      ltac:(by intros n db) ltac:(intros n m; discriminate) world0_idle) as (H & _).
    refine (proj1 (H _)). exists 0%nat, "connection refused". split; [lia|reflexivity].
Defined.

Lemma cancel_status_witness :
  (exists t, (handleDeleteTask (Some 2%N) demo_oracle pending_world).1 = mkResponse 200 (TaskBody t)) /\
  (handleDeleteTask (Some 9%N) demo_oracle pending_world).1 = mkResponse 404 (ErrorBody "task not found").
Proof.
  split.
  - pose proof (cancel_status demo_oracle pending_world 2 demo_oracle_calm pending_world_idle) as H.
    destruct pending_row as (r & Hr & Hid & Hs & _). unfold has_row in Hr. rewrite Hid in Hr.
    rewrite Hr, Hs in H. destruct H as [H _]. eexists. exact H.
  - exact (proj1 (cancel_status demo_oracle pending_world 9 demo_oracle_calm pending_world_idle)).
Defined.

Lemma retry_status_witness :
  (handleRetryDeadTask (Some 2%N) demo_oracle pending_world).1 =
    mkResponse 409 (ErrorBody "task is not in DEAD status").
Proof.
  pose proof (retry_status demo_oracle pending_world 2 demo_oracle_calm pending_world_idle) as H.
  destruct pending_row as (r & Hr & Hid & Hs & _). unfold has_row in Hr. rewrite Hid in Hr.
  rewrite Hr in H. destruct (decide (r_status r = DEAD)) as [Hd|_]; [congruence|]. exact (proj1 H).
Defined.

Lemma list_status_witness :
  (handleListTasks (fun k => if bool_decide (k = "limit") then "abc" else EmptyString) demo_oracle
    pending_world).1 = mkResponse 400 (ErrorBody "limit must be a positive integer").
Proof.
  exact (proj1 (list_status demo_oracle pending_world
    (fun k => if bool_decide (k = "limit") then "abc" else EmptyString) demo_oracle_calm pending_world_idle)).
Defined.
