(* ===== verification/Config.v ===== *)
(** Config: the configuration of the binaries, [internal/config], and the
    library worker it is handed to, [worker.go] of the root package with
    [cmd/worker]'s wiring.

    The environment is the function [os.Getenv], empty for an unset variable. *)

From S2P Require Import Prelude Dharatype GoTime Float64 GoStrconv Metrics Pg PgLogic TaskStore.
From S2P Require Import Lifecycle StoreRefine StoreTheorems StoreSpec StoreContracts Client Worker.
From S2P Require Import WorkerRefine WorkerTheorems.

Definition Env : Type := string -> string.

(** ** Environment helpers *)

Definition getEnvString (env : Env) (key defaultValue : string) : string :=
  if bool_decide (env key = EmptyString) then defaultValue else env key.

Definition getEnvInt (env : Env) (key : string) (defaultValue : Z) : Z :=
  if bool_decide (env key = EmptyString) then defaultValue
  else default defaultValue (Atoi (env key)).

(** Arithmetic on [time.Duration] wraps around at 64 bits. *)
Definition wrap64 (n : Z) : Z := (n + 2 ^ 63) mod 2 ^ 64 - 2 ^ 63.

(** A duration string, or an integer of seconds. *)
Definition getEnvDuration (env : Env) (key : string) (defaultValue : Z) : Z :=
  if bool_decide (env key = EmptyString) then defaultValue
  else match ParseDuration (env key) with
       | Some d => d
       | None => match Atoi (TrimSpace (env key)) with
                 | Some i => wrap64 (i * Second)
                 | None => defaultValue
                 end
       end.

Definition getEnvBool (env : Env) (key : string) (defaultValue : bool) : bool :=
  if bool_decide (env key = EmptyString) then defaultValue
  else default defaultValue (ParseBool (env key)).

(** ** Sections *)

Record DatabaseConfig := mkDatabaseConfig { d_URL : string; d_MaxConns : Z; d_MinConns : Z }.

Definition NewDatabaseConfig (env : Env) : DatabaseConfig :=
  mkDatabaseConfig (getEnvString env "DHARA_DATABASE_URL" EmptyString)
    (getEnvInt env "DHARA_MAX_CONNS" 10) (getEnvInt env "DHARA_MIN_CONNS" 2).

Definition DatabaseConfig_Validate (c : DatabaseConfig) : res unit :=
  if bool_decide (d_URL c = EmptyString) then Err (NewError "DHARA_DATABASE_URL must be set")
  else if d_MaxConns c <? 1 then Err (NewError "DHARA_MAX_CONNS must be >= 1")
  else if d_MinConns c <? 1 then Err (NewError "DHARA_MIN_CONNS must be >= 1")
  else if d_MaxConns c <? d_MinConns c then
    Err (NewError "DHARA_MIN_CONNS must be <= DHARA_MAX_CONNS")
  else Ok tt.

Record MigrationsConfig := mkMigrationsConfig { m_AutoMigrate : bool }.
Definition NewMigrationsConfig (env : Env) : MigrationsConfig :=
  mkMigrationsConfig (getEnvBool env "AUTO_MIGRATE" true).
Definition MigrationsConfig_Validate (c : MigrationsConfig) : res unit := Ok tt.

Record ServerConfig := mkServerConfig { s_Port : Z }.
Definition NewServerConfig (env : Env) : ServerConfig := mkServerConfig (getEnvInt env "PORT" 8080).
Definition ServerConfig_Validate (c : ServerConfig) : res unit :=
  if s_Port c <=? 0 then Err (NewError "PORT must be > 0") else Ok tt.

Record ShutdownConfig := mkShutdownConfig { s_ShutdownTimeout : Z }.
Definition NewShutdownConfig (env : Env) : ShutdownConfig :=
  mkShutdownConfig (getEnvDuration env "SHUTDOWN_TIMEOUT" (30 * Second)).
Definition ShutdownConfig_Validate (c : ShutdownConfig) : res unit :=
  if s_ShutdownTimeout c <=? 0 then Err (NewError "SHUTDOWN_TIMEOUT must be > 0") else Ok tt.

Record LoggingConfig := mkLoggingConfig { l_Level : string; l_Format : string }.
Definition NewLoggingConfig (env : Env) : LoggingConfig :=
  mkLoggingConfig (getEnvString env "LOG_LEVEL" "info") (getEnvString env "LOG_FORMAT" "text").

(** [Validate] also canonicalizes: the section it leaves behind, with the error
    if any; a bad level leaves the format canonical. *)
Definition LoggingConfig_Validate (c : LoggingConfig) : LoggingConfig * res unit :=
  let format := ToLower (l_Format c) in
  if bool_decide (format ∈ ["text"; "json"]) then
    let level := ToLower (l_Level c) in
    if bool_decide (level ∈ ["debug"; "info"; "warn"; "error"]) then (mkLoggingConfig level format, Ok tt)
    else if bool_decide (level = "warning") then (mkLoggingConfig "warn" format, Ok tt)
    else (mkLoggingConfig (l_Level c) format, Err (NewError ("invalid LOG_LEVEL: " +:+ l_Level c)))
  else (c, Err (NewError ("invalid LOG_FORMAT: " +:+ l_Format c))).

Record WorkerConfig := mkWorkerConfig {
  wc_WorkerPrefix : string;
  wc_WorkerCount : Z;
  wc_PollInterval : Z;
  wc_HeartbeatInterval : Z;
  wc_HandlerTimeout : Z;
  wc_StuckThreshold : Z;
  wc_ReaperInterval : Z;
  wc_BaseBackoff : Z;
  wc_MaxBackoff : Z;
  wc_MetricsPort : Z
}.

Definition NewWorkerConfig (env : Env) : WorkerConfig :=
  mkWorkerConfig
    (getEnvString env "WORKER_PREFIX" "dhara-worker")
    (getEnvInt env "WORKER_COUNT" 5)
    (getEnvDuration env "POLL_INTERVAL" Second)
    (getEnvDuration env "HEARTBEAT_INTERVAL" (30 * Second))
    (getEnvDuration env "HANDLER_TIMEOUT" (5 * Minute))
    (getEnvDuration env "STUCK_THRESHOLD" (5 * Minute))
    (getEnvDuration env "REAPER_INTERVAL" (30 * Second))
    (getEnvDuration env "BASE_BACKOFF" Second)
    (getEnvDuration env "MAX_BACKOFF" (5 * Minute))
    (getEnvInt env "WORKER_METRICS_PORT" 9090).

Definition WorkerConfig_Validate (c : WorkerConfig) : res unit :=
  if bool_decide (wc_WorkerPrefix c = EmptyString) then Err (NewError "WORKER_PREFIX must not be empty")
  else if wc_WorkerCount c <? 1 then Err (NewError "WORKER_COUNT must be >= 1")
  else if wc_PollInterval c <=? 0 then Err (NewError "POLL_INTERVAL must be > 0")
  else if wc_HeartbeatInterval c <=? 0 then Err (NewError "HEARTBEAT_INTERVAL must be > 0")
  else if wc_HandlerTimeout c <=? 0 then Err (NewError "HANDLER_TIMEOUT must be > 0")
  else if wc_StuckThreshold c <=? wc_HeartbeatInterval c then
    Err (NewError "STUCK_THRESHOLD must be more than HEARTBEAT_INTERVAL")
  else if wc_ReaperInterval c <=? 0 then Err (NewError "REAPER_INTERVAL must be > 0")
  else if wc_StuckThreshold c <? wc_ReaperInterval c then
    Err (NewError ("REAPER_INTERVAL (" +:+ duration_string (wc_ReaperInterval c) +:+
      ") should be <= STUCK_THRESHOLD (" +:+ duration_string (wc_StuckThreshold c) +:+ ")"))
  else if (wc_BaseBackoff c <=? 0) || (wc_MaxBackoff c <=? 0) then
    Err (NewError "BASE_BACKOFF and MAX_BACKOFF must be > 0")
  else if wc_MaxBackoff c <? wc_BaseBackoff c then
    Err (NewError ("BASE_BACKOFF (" +:+ duration_string (wc_BaseBackoff c) +:+ ") must be <= MAX_BACKOFF (" +:+
      duration_string (wc_MaxBackoff c) +:+ ")"))
  else if (wc_MetricsPort c <? 0) || (65535 <? wc_MetricsPort c) then
    Err (NewError "WORKER_METRICS_PORT must be between 0 and 65535")
  else Ok tt.

(** [Load]: the first error of the sections given. *)
Fixpoint Load (sections : list (res unit)) : res unit :=
  match sections with
  | [] => Ok tt
  | Ok _ :: rest => Load rest
  | Err e :: _ => Err e
  end.

Record Config := mkConfig {
  c_Database : DatabaseConfig;
  c_Migrations : MigrationsConfig;
  c_Server : ServerConfig;
  c_Shutdown : ShutdownConfig;
  c_Worker : WorkerConfig;
  c_Logging : LoggingConfig
}.

Definition Config_Validate (c : Config) : res unit :=
  Load [DatabaseConfig_Validate (c_Database c); MigrationsConfig_Validate (c_Migrations c);
        ServerConfig_Validate (c_Server c); ShutdownConfig_Validate (c_Shutdown c);
        WorkerConfig_Validate (c_Worker c); (LoggingConfig_Validate (c_Logging c)).2].

Definition NewFromEnv (env : Env) : res Config :=
  let logging := NewLoggingConfig env in
  let c := mkConfig (NewDatabaseConfig env) (NewMigrationsConfig env) (NewServerConfig env)
             (NewShutdownConfig env) (NewWorkerConfig env) logging in
  match Config_Validate c with
  | Err e => Err e
  | Ok _ => Ok (mkConfig (c_Database c) (c_Migrations c) (c_Server c) (c_Shutdown c) (c_Worker c)
                  (LoggingConfig_Validate logging).1)
  end.

(** ** The library worker *)

Record workerConfig := mkLibConfig {
  workerPrefix : string;
  maxWorkers : Z;
  lib_pollInterval : Z;
  lib_heartbeatInterval : Z;
  lib_handlerTimeout : Z;
  lib_baseBackoff : Z;
  lib_maxBackoff : Z;
  reaperInterval : Z;
  stuckThreshold : Z;
  shutdownTimeout : Z
}.

Definition defaultWorkerConfig : workerConfig :=
  mkLibConfig "dhara-worker" 5 Second (30 * Second) (5 * Minute) Second (5 * Minute) (30 * Second)
    (5 * Minute) (30 * Second).

Definition WorkerOption : Type := workerConfig -> workerConfig.

Definition WithWorkerPrefix (x : string) : WorkerOption := fun c =>
  mkLibConfig x (maxWorkers c) (lib_pollInterval c) (lib_heartbeatInterval c) (lib_handlerTimeout c)
    (lib_baseBackoff c) (lib_maxBackoff c) (reaperInterval c) (stuckThreshold c) (shutdownTimeout c).
Definition WithMaxWorkers (x : Z) : WorkerOption := fun c =>
  mkLibConfig (workerPrefix c) x (lib_pollInterval c) (lib_heartbeatInterval c) (lib_handlerTimeout c)
    (lib_baseBackoff c) (lib_maxBackoff c) (reaperInterval c) (stuckThreshold c) (shutdownTimeout c).
Definition WithPollInterval (x : Z) : WorkerOption := fun c =>
  mkLibConfig (workerPrefix c) (maxWorkers c) x (lib_heartbeatInterval c) (lib_handlerTimeout c)
    (lib_baseBackoff c) (lib_maxBackoff c) (reaperInterval c) (stuckThreshold c) (shutdownTimeout c).
Definition WithHeartbeatInterval (x : Z) : WorkerOption := fun c =>
  mkLibConfig (workerPrefix c) (maxWorkers c) (lib_pollInterval c) x (lib_handlerTimeout c)
    (lib_baseBackoff c) (lib_maxBackoff c) (reaperInterval c) (stuckThreshold c) (shutdownTimeout c).
Definition WithHandlerTimeout (x : Z) : WorkerOption := fun c =>
  mkLibConfig (workerPrefix c) (maxWorkers c) (lib_pollInterval c) (lib_heartbeatInterval c) x
    (lib_baseBackoff c) (lib_maxBackoff c) (reaperInterval c) (stuckThreshold c) (shutdownTimeout c).
Definition WithBaseBackoff (x : Z) : WorkerOption := fun c =>
  mkLibConfig (workerPrefix c) (maxWorkers c) (lib_pollInterval c) (lib_heartbeatInterval c)
    (lib_handlerTimeout c) x (lib_maxBackoff c) (reaperInterval c) (stuckThreshold c) (shutdownTimeout c).
Definition WithMaxBackoff (x : Z) : WorkerOption := fun c =>
  mkLibConfig (workerPrefix c) (maxWorkers c) (lib_pollInterval c) (lib_heartbeatInterval c)
    (lib_handlerTimeout c) (lib_baseBackoff c) x (reaperInterval c) (stuckThreshold c) (shutdownTimeout c).
Definition WithReaperInterval (x : Z) : WorkerOption := fun c =>
  mkLibConfig (workerPrefix c) (maxWorkers c) (lib_pollInterval c) (lib_heartbeatInterval c)
    (lib_handlerTimeout c) (lib_baseBackoff c) (lib_maxBackoff c) x (stuckThreshold c) (shutdownTimeout c).
Definition WithStuckThreshold (x : Z) : WorkerOption := fun c =>
  mkLibConfig (workerPrefix c) (maxWorkers c) (lib_pollInterval c) (lib_heartbeatInterval c)
    (lib_handlerTimeout c) (lib_baseBackoff c) (lib_maxBackoff c) (reaperInterval c) x (shutdownTimeout c).
Definition WithShutdownTimeout (x : Z) : WorkerOption := fun c =>
  mkLibConfig (workerPrefix c) (maxWorkers c) (lib_pollInterval c) (lib_heartbeatInterval c)
    (lib_handlerTimeout c) (lib_baseBackoff c) (lib_maxBackoff c) (reaperInterval c) (stuckThreshold c) x.

(** The worker object: [lw_started], and the pool once [Start] made it. *)
Record LibWorker := mkLibWorker {
  lw_registry : MapRegistry;
  lw_config : workerConfig;
  lw_started : bool;
  lw_pool : option WorkerPool
}.

Definition NewWorker (opts : list WorkerOption) : LibWorker :=
  mkLibWorker (NewRegistry None) (foldl (fun c opt => opt c) defaultWorkerConfig opts) false None.

(** [None] is the panic "RegisterHandler called after Start". *)
Definition RegisterHandler (taskType : string) (handler : HandlerFunc) (w : LibWorker) : option LibWorker :=
  if lw_started w then None
  else Some (mkLibWorker (Add taskType handler (lw_registry w)) (lw_config w) false (lw_pool w)).

Definition settings_of (c : workerConfig) : Settings :=
  mkSettings (workerPrefix c) (lib_pollInterval c) (maxWorkers c) (lib_heartbeatInterval c)
    (lib_handlerTimeout c) (lib_baseBackoff c) (lib_maxBackoff c) (reaperInterval c) (stuckThreshold c).

(** [Start] up to the point where it blocks: a second call is an error. *)
Definition LibWorker_Start (w : LibWorker) : LibWorker * res unit :=
  if lw_started w then (w, Err (NewError "dhara: worker already started"))
  else
    (mkLibWorker (lw_registry w) (lw_config w) true
       (Some (pool_Start (NewWorkerPool (lw_registry w) (settings_of (lw_config w))))), Ok tt).

(** The options [cmd/worker] passes, in order. *)
Definition worker_options (c : WorkerConfig) (shutdown : Z) : list WorkerOption :=
  [WithWorkerPrefix (wc_WorkerPrefix c); WithMaxWorkers (wc_WorkerCount c);
   WithPollInterval (wc_PollInterval c); WithHeartbeatInterval (wc_HeartbeatInterval c);
   WithHandlerTimeout (wc_HandlerTimeout c); WithBaseBackoff (wc_BaseBackoff c);
   WithMaxBackoff (wc_MaxBackoff c); WithReaperInterval (wc_ReaperInterval c);
   WithStuckThreshold (wc_StuckThreshold c); WithShutdownTimeout shutdown].

(** ** Theorems *)

Lemma WorkerConfig_Validate_ok c :
  WorkerConfig_Validate c = Ok tt ->
  wc_WorkerPrefix c <> EmptyString /\ 1 <= wc_WorkerCount c /\ 0 < wc_PollInterval c /\
  0 < wc_HeartbeatInterval c < wc_StuckThreshold c /\ 0 < wc_HandlerTimeout c /\
  0 < wc_ReaperInterval c <= wc_StuckThreshold c /\ 0 < wc_BaseBackoff c <= wc_MaxBackoff c.
Proof. unfold WorkerConfig_Validate. intros H. repeat (case_match; [done|]). bool_to_prop. split_and!; lia || done. Qed.

(** The settings a configuration asks for. *)
Definition asked (c : WorkerConfig) : Settings :=
  mkSettings (wc_WorkerPrefix c) (wc_PollInterval c) (wc_WorkerCount c) (wc_HeartbeatInterval c)
    (wc_HandlerTimeout c) (wc_BaseBackoff c) (wc_MaxBackoff c) (wc_ReaperInterval c) (wc_StuckThreshold c).

Lemma asked_sane c : WorkerConfig_Validate c = Ok tt -> sane (asked c).
Proof.
  intros (Hp & Hn & Hpi & Hh & Ht & Hr & Hb)%WorkerConfig_Validate_ok. unfold sane. simpl.
  split_and!; lia || done.
Qed.

(** A validated configuration reaches the pool unchanged: the worker
    process runs exactly the number of workers and the intervals it was asked
    for (no default replaces one), its reaper waits longer than a heartbeat
    takes, and starting the worker again is an error that changes nothing. *)
Theorem validated_config_runs c shutdown :
  WorkerConfig_Validate c = Ok tt ->
  exists w p r, LibWorker_Start (NewWorker (worker_options c shutdown)) = (w, Ok tt) /\
    lw_pool w = Some p /\ p_settings p = asked c /\
    Z.of_nat (length (p_workers p)) = wc_WorkerCount c /\
    p_reaper p = Some r /\ staleThreshold r = wc_StuckThreshold c /\ interval r = wc_ReaperInterval c /\
    wc_HeartbeatInterval c < staleThreshold r /\
    LibWorker_Start w = (w, Err (NewError "dhara: worker already started")).
Proof.
  intros Hv. pose proof (sane_normalize _ (asked_sane c Hv)) as Hn.
  pose proof (WorkerConfig_Validate_ok c Hv) as (Hp & Hc & _ & Hh & _ & Hr & _).
  eexists _, _, _. split; [reflexivity|].
  change (settings_of _) with (asked c). unfold NewWorkerPool. rewrite Hn.
  split; [reflexivity|]. cbn [pool_Start p_started p_settings p_workers p_reaper p_registry asked Concurrency].
  rewrite length_map, length_seq. split; [reflexivity|]. split; [lia|]. split; [reflexivity|].
  unfold newReaper. cbn [ReaperInterval StaleThreshold asked staleThreshold interval].
  rewrite !or_default_id by lia. split_and!; done || lia.
Qed.

(** A plain number of seconds is multiplied in 64 bits without an overflow
    check: a POLL_INTERVAL of 18446744074 (some 584 years) passes validation and
    polls about every 0.29 seconds. *)
Theorem seconds_overflow_accepted :
  let env k := if bool_decide (k = "POLL_INTERVAL") then "18446744074" else EmptyString in
  wc_PollInterval (NewWorkerConfig env) = 290448384 /\
  WorkerConfig_Validate (NewWorkerConfig env) = Ok tt.
Proof. split; vm_compute; reflexivity. Qed.

Lemma validated_config_runs_witness :
  exists w p, LibWorker_Start (NewWorker (worker_options (NewWorkerConfig (fun _ => EmptyString)) Second)) =
    (w, Ok tt) /\ lw_pool w = Some p /\ Z.of_nat (length (p_workers p)) = 5.
Proof.
  destruct (validated_config_runs (NewWorkerConfig (fun _ => EmptyString)) Second eq_refl)
    as (w & p & r & H1 & H2 & _ & H3 & _).
  exists w, p. split; [exact H1|]. split; [exact H2|exact H3].
Defined.
