(* ===== verification/LibRun.v ===== *)
(** LibRun: the library's worker from [Start] to its return, [worker.go].

    [Config] models the options and [Start] up to the point where the pool runs.
    Here [Start]'s goroutine is one more party of the interleaving: it waits for
    its context or for [Stop], stops the pool and waits for it, while the pool's
    goroutines (Pool.v) go on. The program calls [Stop] whenever it likes. *)

From S2P Require Import Prelude Dharatype GoTime Float64 Metrics Pg PgLogic TaskStore Lifecycle.
From S2P Require Import StoreRefine StoreTheorems StoreSpec StoreContracts Client Worker Pool WorkerRefine.
From S2P Require Import WorkerTheorems PoolTheorems PoolDrain Config.
Open Scope dhara_scope.

(** Where [Start] is. *)
Inductive MainState : Type :=
  | Selecting
  | WaitingForPool
  | StartReturned (err : res unit).

(** [lr_closed]: [stopCh] is closed; [lr_once]: [stopOnce] has run;
    [lr_ctx_done]: the caller's context is done; [lr_expired]: so is [waitCtx]. *)
Record LibRun := mkLibRun {
  lr_once : bool;
  lr_closed : bool;
  lr_ctx_done : bool;
  lr_expired : bool;
  lr_main : MainState;
  lr_pool : Pool
}.

Inductive LibLabel : Type :=
  | CallStop
  | ContextDone
  | ShutdownTimeout
  | MainAdvance (first : bool)
  | OfPool (l : Label).

(** [close(ch)] panics ([None]) on a closed channel. *)
Definition close_channel (closed : bool) : option bool := if closed then None else Some true.

(** [Stop]: the close is under a [sync.Once]. *)
Definition LibWorker_Stop (s : LibRun) : option LibRun :=
  if lr_once s then Some s
  else
    match close_channel (lr_closed s) with
    | None => None
    | Some closed => Some (mkLibRun true closed (lr_ctx_done s) (lr_expired s) (lr_main s) (lr_pool s))
    end.

(** The rest of [Start]: the [select], [wp.Stop()] and [wp.Wait(waitCtx)]. *)
Definition LibWorker_finish (first : bool) (s : LibRun) : LibRun :=
  match lr_main s with
  | Selecting =>
      if lr_ctx_done s || lr_closed s
      then mkLibRun (lr_once s) (lr_closed s) (lr_ctx_done s) false WaitingForPool (cancel_pool (lr_pool s))
      else s
  | WaitingForPool =>
      match pool_Wait (lr_expired s) first (lr_pool s) with
      | Some err => mkLibRun (lr_once s) (lr_closed s) (lr_ctx_done s) (lr_expired s) (StartReturned err) (lr_pool s)
      | None => s
      end
  | StartReturned _ => s
  end.

(** The pool's context is a child of the caller's; the timeout runs from the
    moment the wait begins. *)
Definition lib_step (o : Oracle) (s : LibRun) (l : LibLabel) : option LibRun :=
  match l with
  | CallStop => LibWorker_Stop s
  | ContextDone => Some (mkLibRun (lr_once s) (lr_closed s) true (lr_expired s) (lr_main s) (cancel_pool (lr_pool s)))
  | ShutdownTimeout =>
      Some (match lr_main s with
            | WaitingForPool => mkLibRun (lr_once s) (lr_closed s) (lr_ctx_done s) true (lr_main s) (lr_pool s)
            | _ => s
            end)
  | MainAdvance first => Some (LibWorker_finish first s)
  | OfPool l => Some (mkLibRun (lr_once s) (lr_closed s) (lr_ctx_done s) (lr_expired s) (lr_main s) (pool_step o (lr_pool s) l))
  end.

Fixpoint run_lib (o : Oracle) (schedule : list LibLabel) (s : LibRun) : option LibRun :=
  match schedule with
  | [] => Some s
  | l :: schedule' =>
      match lib_step o s l with
      | None => None
      | Some s' => run_lib o schedule' s'
      end
  end.

(** The run that a first [Start] begins; [stopped]: [Stop] was called before it. *)
Definition begin_run (w : LibWorker) (stopped : bool) (wd : World) : option LibRun :=
  match lw_pool (LibWorker_Start w).1 with
  | Some p => Some (mkLibRun stopped stopped false false Selecting (launch p wd))
  | None => None
  end.

(** ** The invariant *)

Record lib_ok (s : LibRun) : Prop := mkLibOk {
  lo_once : lr_once s = lr_closed s;
  lo_asked : lr_main s <> Selecting -> lr_closed s || lr_ctx_done s = true /\ q_cancelled (lr_pool s) = true;
  lo_nil : lr_main s = StartReturned (Ok tt) -> drained (lr_pool s) = true;
  lo_err : forall e, lr_main s = StartReturned (Err e) -> lr_expired s = true /\ e = DeadlineExceeded
}.

Lemma pool_step_drained o l s : drained s = true -> drained (pool_step o s l) = true.
Proof.
  rewrite !drained_spec. intros [Hw Hr]. destruct l as [i a| | | |]; cbn [pool_step]; [| | |done..].
  - unfold move_worker. destruct (q_workers s !! i) as [[w st]|] eqn:Hi; [|done].
    pose proof (Hw _ _ _ Hi) as ->. replace (worker_move w (q_cancelled s) a Exited o (q_world s)) with
      (Exited, q_world s) by by destruct a.
    cbn [q_workers q_reaper]. split; [|done]. intros j w' st' Hj. destruct (decide (i = j)) as [<-|Hne].
    + rewrite list_lookup_insert_eq in Hj by (by eapply lookup_lt_Some). by injection Hj as _ <-.
    + rewrite list_lookup_insert_ne in Hj by done. by eapply Hw.
  - unfold move_reaper. by rewrite Hr.
  - by destruct (q_cancelled s).
Qed.

Lemma pool_Wait_nil expired first s : pool_Wait expired first s = Some (Ok tt) -> drained s = true.
Proof. unfold pool_Wait. destruct (expired && _); [done|]. by destruct (drained s). Qed.

Lemma pool_Wait_err expired first s e :
  pool_Wait expired first s = Some (Err e) -> expired = true /\ e = DeadlineExceeded.
Proof. unfold pool_Wait. destruct expired; cbn [andb]; repeat case_match; naive_solver. Qed.

Lemma lib_step_ok o s l : lib_ok s -> exists s', lib_step o s l = Some s' /\ lib_ok s'.
Proof.
  intros [H1 H2 H3 H4]. destruct l as [| | |first|l]; cbn [lib_step].
  - unfold LibWorker_Stop, close_channel. rewrite <- H1. destruct (lr_once s) eqn:Ho; (eexists; split; [done|]).
    + split; [congruence|done..].
    + split; cbn; [done|intros Hm; by destruct (H2 Hm)|done..].
  - eexists. split; [done|]. split; cbn; [done|intros _; by rewrite orb_true_r|done..].
  - eexists. split; [done|]. destruct (lr_main s) eqn:Hm; split; cbn; rewrite ?Hm; try done; intros; by apply H2.
  - eexists. split; [done|]. unfold LibWorker_finish. destruct (lr_main s) eqn:Hm.
    + destruct (lr_ctx_done s || lr_closed s) eqn:Hc; [|by split; rewrite ?Hm].
      split; cbn; [done|intros _; by rewrite orb_comm|done..].
    + destruct (pool_Wait _ _ _) as [r|] eqn:Hw; [|by split; rewrite ?Hm].
      split; cbn; [done|intros _; by apply H2|intros [= ->]; by eapply pool_Wait_nil|].
      intros e [= ->]. by eapply pool_Wait_err.
    + split; rewrite ?Hm; done.
  - eexists. split; [done|]. split; cbn; [done|..|done].
    + intros Hm. destruct (H2 Hm). split; [done|]. by apply pool_step_cancelled.
    + intros Hm. by apply pool_step_drained, H3.
Qed.

Lemma run_lib_ok o schedule s : lib_ok s -> exists s', run_lib o schedule s = Some s' /\ lib_ok s'.
Proof.
  revert s. induction schedule as [|l schedule IH]; intros s Hs; [by exists s|]. cbn [run_lib].
  destruct (lib_step_ok o s l Hs) as (s' & -> & Hs'). by apply IH.
Qed.

(** ** Progress *)

(** What a schedule does to the pool once [Start] is past its [select]. *)
Fixpoint pool_labels (schedule : list LibLabel) : list Label :=
  match schedule with
  | [] => []
  | OfPool l :: schedule' => l :: pool_labels schedule'
  | ContextDone :: schedule' => Cancelled :: pool_labels schedule'
  | _ :: schedule' => pool_labels schedule'
  end.

Lemma run_lib_pool o schedule s s' :
  lr_main s <> Selecting -> run_lib o schedule s = Some s' ->
  lr_main s' <> Selecting /\ lr_pool s' = run_pool o (pool_labels schedule) (lr_pool s) /\
  (~ In ShutdownTimeout schedule -> lr_expired s' = lr_expired s).
Proof.
  revert s. induction schedule as [|l schedule IH]; intros s Hm Hrun.
  { injection Hrun as <-. done. }
  cbn [run_lib] in Hrun. destruct (lib_step o s l) as [s1|] eqn:Hs; [|done].
  assert (lr_main s1 <> Selecting /\ lr_pool s1 = run_pool o (pool_labels [l]) (lr_pool s) /\
    (l <> ShutdownTimeout -> lr_expired s1 = lr_expired s)) as (H1 & H2 & H3).
  { destruct l as [| | |first|l]; cbn [lib_step] in Hs.
    - unfold LibWorker_Stop, close_channel in Hs. repeat case_match; by simplify_eq.
    - by simplify_eq.
    - destruct (lr_main s) eqn:E; simplify_eq; cbn; rewrite ?E; split_and!; done.
    - unfold LibWorker_finish in Hs. destruct (lr_main s) eqn:E; [done|..];
        repeat case_match; simplify_eq; cbn; rewrite ?E; done.
    - by simplify_eq. }
  destruct (IH s1 H1 Hrun) as (H4 & H5 & H6). split_and!; [done| |].
  - rewrite H5, H2. unfold run_pool. rewrite <- fold_left_app. f_equal. by destruct l.
  - intros Hn. cbn [In] in Hn. rewrite H6, H3; [done|intros ->; tauto|tauto].
Qed.

Lemma run_lib_app o l1 l2 s s1 : run_lib o l1 s = Some s1 -> run_lib o (l1 ++ l2) s = run_lib o l2 s1.
Proof.
  revert s. induction l1 as [|l l1 IH]; intros s H; [by injection H as ->|]. cbn [run_lib app] in *.
  destruct (lib_step o s l); [|done]. by apply IH.
Qed.

(** From a [Start] that was asked to stop to its return. *)
Lemma asked_start_returns o s first after :
  lib_ok s -> lr_main s = Selecting -> lr_closed s || lr_ctx_done s = true ->
  fair (length (q_workers (lr_pool s))) (pool_labels after) -> ~ In ShutdownTimeout after ->
  exists s', run_lib o (MainAdvance first :: after ++ [MainAdvance first]) s = Some s' /\
    lr_main s' = StartReturned (Ok tt) /\ drained (lr_pool s') = true.
Proof.
  intros Hok Hm Hask Hfair Hno. cbn [run_lib lib_step]. unfold LibWorker_finish at 1. rewrite Hm, orb_comm, Hask.
  set (s1 := mkLibRun _ _ _ _ _ _).
  assert (lib_ok s1) as Hok1.
  { destruct (lib_step_ok o s (MainAdvance first) Hok) as (s' & Hs' & H). cbn [lib_step] in Hs'.
    unfold LibWorker_finish in Hs'. rewrite Hm, orb_comm, Hask in Hs'. by injection Hs' as <-. }
  destruct (run_lib_ok o after s1 Hok1) as (s2 & Hrun & Hok2).
  rewrite (run_lib_app _ _ _ _ _ Hrun). cbn [run_lib lib_step].
  destruct (run_lib_pool o after s1 s2 ltac:(done) Hrun) as (Hm2 & Hp & Hx). specialize (Hx Hno).
  assert (drained (lr_pool s2) = true) as Hd by (rewrite Hp; by apply fair_drains).
  eexists. split; [done|]. unfold LibWorker_finish. destruct (lr_main s2) as [| |r] eqn:E; [done|..].
  - unfold pool_Wait. rewrite Hx, Hd. done.
  - destruct r as [[]|e]; [done|]. destruct (lo_err _ Hok2 e E) as [He _]. by rewrite Hx in He.
Qed.

(** ** Theorems *)


(** ** A concrete run *)

#[local] Abbreviation waiting_world :=
  (@run_ops demo_hasher [OpCreate (demo_task "echo" None 2)] demo_oracle (world0 empty_db)).2.

Definition two_worker_library : LibWorker :=
  match RegisterHandler "echo" fails (NewWorker [WithMaxWorkers 2]) with
  | Some w => w
  | None => NewWorker []
  end.

(** [Stop] is called twice while a task is being handled. *)
Definition stop_twice : list LibLabel := map OfPool some_schedule ++ [CallStop; CallStop].

Lemma stop_twice_asked s0 s :
  begin_run two_worker_library false waiting_world = Some s0 -> run_lib demo_oracle stop_twice s0 = Some s ->
  lr_main s = Selecting /\ lr_closed s || lr_ctx_done s = true /\ length (q_workers (lr_pool s)) = 2%nat.
Proof.
  intros H0 Hs.
  assert (match begin_run two_worker_library false waiting_world with
          | Some s0 =>
              match run_lib demo_oracle stop_twice s0 with
              | Some s => (bool_decide (lr_closed s || lr_ctx_done s = true) && Nat.eqb (length (q_workers (lr_pool s))) 2 &&
                  match lr_main s with Selecting => true | _ => false end)%bool
              | None => false
              end
          | None => false
          end = true) as H by (vm_compute; reflexivity).
  rewrite H0, Hs in H. apply andb_true_iff in H as [[H1%bool_decide_eq_true H2%Nat.eqb_eq]%andb_true_iff H3].
  by destruct (lr_main s).
Qed.

