(* ===== verification/PlayConfig.v ===== *)
(** PlayConfig: the configuration of the playground,
    [internal/playground/config.go], and the worker it is handed to ([NewApp] and
    [RunCrashWorker]).

    The helpers shadow those of [Config]: they trim the value first. *)

From Stdlib Require Import Ascii.
From S2P Require Import Prelude Dharatype GoTime Float64 GoStrconv GoJson Metrics Pg PgLogic TaskStore.
From S2P Require Import Lifecycle StoreRefine StoreTheorems StoreSpec StoreContracts Client Worker.
From S2P Require Import WorkerRefine WorkerTheorems Config PlaySession.

(** ** Environment helpers *)

Definition getEnvString (env : Env) (key fallback : string) : string :=
  let v := TrimSpace (env key) in
  if bool_decide (v = EmptyString) then fallback else v.

Definition getEnvInt (env : Env) (key : string) (fallback : Z) : Z :=
  if bool_decide (env key = EmptyString) then fallback
  else default fallback (Atoi (TrimSpace (env key))).

Definition getEnvDuration (env : Env) (key : string) (fallback : Z) : Z :=
  if bool_decide (env key = EmptyString) then fallback
  else match ParseDuration (TrimSpace (env key)) with
       | Some d => d
       | None => match Atoi (TrimSpace (env key)) with
                 | Some n => wrap64 (n * Second)
                 | None => fallback
                 end
       end.

Definition getEnvBool (env : Env) (key : string) (fallback : bool) : bool :=
  if bool_decide (env key = EmptyString) then fallback
  else default fallback (ParseBool (TrimSpace (env key))).

(** The conversion [int32(n)] keeps the low 32 bits. *)
Definition wrap32 (n : Z) : Z := (n + 2 ^ 31) mod 2 ^ 32 - 2 ^ 31.

(** ** The configuration *)

Record Config := mkConfig {
  pc_DatabaseURL : string;
  pc_MaxConns : Z;
  pc_MinConns : Z;
  pc_Port : Z;
  pc_Schema : string;
  pc_CrashSchema : string;
  pc_AutoMigrate : bool;
  pc_ShutdownTimeout : Z;
  pc_TrustProxy : bool;
  pc_WorkerPrefix : string;
  pc_WorkerCount : Z;
  pc_PollInterval : Z;
  pc_HeartbeatInterval : Z;
  pc_HandlerTimeout : Z;
  pc_StuckThreshold : Z;
  pc_ReaperInterval : Z;
  pc_BaseBackoff : Z;
  pc_MaxBackoff : Z;
  pc_MaxBatch : Z;
  pc_MaxBodyBytes : Z;
  pc_MaxPayloadBytes : Z;
  pc_MaxPending : Z;
  pc_RateLimitPerMinute : Z;
  pc_RateLimitBurst : Z;
  pc_SessionRatePerMinute : Z;
  pc_SessionRateBurst : Z;
  pc_ReadRateLimitPerMin : Z;
  pc_ReadRateLimitBurst : Z;
  pc_CleanupInterval : Z;
  pc_Retention : Z;
  pc_EnableCrashDemo : bool;
  pc_CrashDemoTimeout : Z;
  pc_CrashTaskDuration : Z;
  pc_CrashHeartbeatInterval : Z;
  pc_CrashStuckThreshold : Z;
  pc_CrashReaperInterval : Z;
  pc_CrashHandlerTimeout : Z;
  pc_CrashWorkerPrefix : string;
  pc_CrashPollInterval : Z;
  pc_LogLevel : string;
  pc_LogFormat : string
}.

Definition loadConfigRaw (env : Env) : Config :=
  mkConfig
    (getEnvString env "DHARA_DATABASE_URL" EmptyString)
    (wrap32 (getEnvInt env "DHARA_MAX_CONNS" 10))
    (wrap32 (getEnvInt env "DHARA_MIN_CONNS" 2))
    (getEnvInt env "PORT" 8080)
    (getEnvString env "PLAYGROUND_DB_SCHEMA" "dhara_playground")
    (getEnvString env "PLAYGROUND_CRASH_SCHEMA" "dhara_playground_crash")
    (getEnvBool env "AUTO_MIGRATE" true)
    (getEnvDuration env "SHUTDOWN_TIMEOUT" (15 * Second))
    (getEnvBool env "PLAYGROUND_TRUST_PROXY" false)
    (getEnvString env "WORKER_PREFIX" "playground-worker")
    (getEnvInt env "WORKER_COUNT" 4)
    (getEnvDuration env "POLL_INTERVAL" (250 * Millisecond))
    (getEnvDuration env "HEARTBEAT_INTERVAL" (2 * Second))
    (getEnvDuration env "HANDLER_TIMEOUT" (12 * Second))
    (getEnvDuration env "STUCK_THRESHOLD" (10 * Second))
    (getEnvDuration env "REAPER_INTERVAL" (2 * Second))
    (getEnvDuration env "BASE_BACKOFF" Second)
    (getEnvDuration env "MAX_BACKOFF" (30 * Second))
    (getEnvInt env "PLAYGROUND_MAX_BATCH" 50)
    (getEnvInt env "PLAYGROUND_MAX_BODY_BYTES" (16 * 1024))
    (getEnvInt env "PLAYGROUND_MAX_PAYLOAD_BYTES" (4 * 1024))
    (getEnvInt env "PLAYGROUND_MAX_PENDING" 500)
    (getEnvInt env "PLAYGROUND_RATE_LIMIT_PER_MIN" 30)
    (getEnvInt env "PLAYGROUND_RATE_LIMIT_BURST" 10)
    (getEnvInt env "PLAYGROUND_SESSION_RATE_LIMIT_PER_MIN" 20)
    (getEnvInt env "PLAYGROUND_SESSION_RATE_LIMIT_BURST" 8)
    (getEnvInt env "PLAYGROUND_READ_RATE_LIMIT_PER_MIN" 180)
    (getEnvInt env "PLAYGROUND_READ_RATE_LIMIT_BURST" 40)
    (getEnvDuration env "PLAYGROUND_CLEANUP_INTERVAL" (5 * Minute))
    (getEnvDuration env "PLAYGROUND_TASK_RETENTION" Hour)
    (getEnvBool env "PLAYGROUND_ENABLE_CRASH_DEMO" true)
    (getEnvDuration env "PLAYGROUND_CRASH_DEMO_TIMEOUT" (35 * Second))
    (getEnvDuration env "PLAYGROUND_CRASH_TASK_DURATION" (6 * Second))
    (getEnvDuration env "PLAYGROUND_CRASH_HEARTBEAT_INTERVAL" Second)
    (getEnvDuration env "PLAYGROUND_CRASH_STUCK_THRESHOLD" (4 * Second))
    (getEnvDuration env "PLAYGROUND_CRASH_REAPER_INTERVAL" Second)
    (getEnvDuration env "PLAYGROUND_CRASH_HANDLER_TIMEOUT" (30 * Second))
    (getEnvString env "PLAYGROUND_CRASH_WORKER_PREFIX" "playground-crash-worker")
    (getEnvDuration env "PLAYGROUND_CRASH_POLL_INTERVAL" (150 * Millisecond))
    (getEnvString env "LOG_LEVEL" "info")
    (getEnvString env "LOG_FORMAT" "text").

(** [schemaPattern]: [a-z_] and then at most 62 of [a-z0-9_]. *)
Definition schema_start (c : ascii) : bool := within 97 122 c || bool_decide (c = "_"%char).
Definition schema_char (c : ascii) : bool := schema_start c || within 48 57 c.
Definition schemaPattern (s : string) : bool :=
  match s with
  | EmptyString => false
  | String c rest => schema_start c && all_chars schema_char rest && (len rest <=? 62)
  end.

Definition validateSchema (schema : string) : res unit :=
  if negb (schemaPattern schema) then Err (NewError "must match [a-z_][a-z0-9_]{0,62}")
  else if HasPrefix schema "pg_" then Err (NewError "must not use PostgreSQL's reserved pg_ prefix")
  else if bool_decide (schema ∈ ["public"; "pg_catalog"; "information_schema"]) then
    Err (NewError (Quote schema +:+ " is not a dedicated playground schema"))
  else Ok tt.

(** The checks of the crash demo, made when it is enabled. *)
Definition validate_crash (c : Config) : res unit :=
  if bool_decide (pc_CrashSchema c ∈ ["public"; "pg_catalog"; "information_schema"]) then
    Err (NewError "PLAYGROUND_CRASH_SCHEMA must be a dedicated schema")
  else if bool_decide (pc_CrashWorkerPrefix c = EmptyString) || (pc_CrashDemoTimeout c <=? 0) ||
          (pc_CrashTaskDuration c <=? 0) then
    Err (NewError "crash demo settings must be positive")
  else if pc_CrashDemoTimeout c <=? pc_CrashStuckThreshold c then
    Err (NewError "PLAYGROUND_CRASH_DEMO_TIMEOUT must be greater than PLAYGROUND_CRASH_STUCK_THRESHOLD")
  else if 60 * Second <? pc_CrashTaskDuration c then
    Err (NewError "PLAYGROUND_CRASH_TASK_DURATION must be 60s or less")
  else if pc_CrashDemoTimeout c <=? wrap64 (pc_CrashTaskDuration c + pc_CrashStuckThreshold c) then
    Err (NewError "PLAYGROUND_CRASH_DEMO_TIMEOUT must exceed the crash task duration plus the stale threshold")
  else if pc_CrashHandlerTimeout c <=? pc_CrashTaskDuration c then
    Err (NewError "PLAYGROUND_CRASH_HANDLER_TIMEOUT must be greater than PLAYGROUND_CRASH_TASK_DURATION")
  else if (pc_CrashHeartbeatInterval c <=? 0) || (pc_CrashStuckThreshold c <=? pc_CrashHeartbeatInterval c) then
    Err (NewError "PLAYGROUND_CRASH_STUCK_THRESHOLD must be greater than PLAYGROUND_CRASH_HEARTBEAT_INTERVAL")
  else if (pc_CrashReaperInterval c <=? 0) || (pc_CrashHandlerTimeout c <=? 0) || (pc_CrashPollInterval c <=? 0) then
    Err (NewError "crash demo intervals must be > 0")
  else Ok tt.

Definition Config_Validate (c : Config) : res unit :=
  if bool_decide (pc_DatabaseURL c = EmptyString) then Err (NewError "DHARA_DATABASE_URL must be set")
  else if (pc_MaxConns c <? 1) || (pc_MinConns c <? 1) || (pc_MaxConns c <? pc_MinConns c) then
    Err (NewError "DHARA_MAX_CONNS and DHARA_MIN_CONNS must be >= 1 and min <= max")
  else if (pc_Port c <=? 0) || (65535 <? pc_Port c) then Err (NewError "PORT must be between 1 and 65535")
  else if pc_ShutdownTimeout c <=? 0 then Err (NewError "SHUTDOWN_TIMEOUT must be positive")
  else match validateSchema (pc_Schema c) with
  | Err e => Err (Wrapped "PLAYGROUND_DB_SCHEMA" e)
  | Ok _ =>
  match validateSchema (pc_CrashSchema c) with
  | Err e => Err (Wrapped "PLAYGROUND_CRASH_SCHEMA" e)
  | Ok _ =>
  if bool_decide (pc_Schema c = pc_CrashSchema c) then
    Err (NewError "PLAYGROUND_DB_SCHEMA and PLAYGROUND_CRASH_SCHEMA must differ")
  else if bool_decide (pc_WorkerPrefix c = EmptyString) then Err (NewError "WORKER_PREFIX must not be empty")
  else if (pc_WorkerCount c <? 1) || (32 <? pc_WorkerCount c) then
    Err (NewError "WORKER_COUNT must be between 1 and 32")
  else if (pc_PollInterval c <=? 0) || (pc_HeartbeatInterval c <=? 0) || (pc_HandlerTimeout c <=? 0) then
    Err (NewError "POLL_INTERVAL, HEARTBEAT_INTERVAL and HANDLER_TIMEOUT must be > 0")
  else if pc_StuckThreshold c <=? pc_HeartbeatInterval c then
    Err (NewError "STUCK_THRESHOLD must be greater than HEARTBEAT_INTERVAL")
  else if (pc_ReaperInterval c <=? 0) || (pc_StuckThreshold c <? pc_ReaperInterval c) then
    Err (NewError "REAPER_INTERVAL must be > 0 and <= STUCK_THRESHOLD")
  else if (pc_BaseBackoff c <=? 0) || (pc_MaxBackoff c <=? 0) || (pc_MaxBackoff c <? pc_BaseBackoff c) then
    Err (NewError "BASE_BACKOFF and MAX_BACKOFF must be > 0 and base <= max")
  else if (pc_MaxBatch c <? 1) || (200 <? pc_MaxBatch c) then
    Err (NewError "PLAYGROUND_MAX_BATCH must be between 1 and 200")
  else if (pc_MaxPayloadBytes c <? 2) || (64 * 1024 <? pc_MaxPayloadBytes c) then
    Err (NewError "PLAYGROUND_MAX_PAYLOAD_BYTES must be between 2 and 65536")
  else if (pc_MaxBodyBytes c <? pc_MaxPayloadBytes c) || (2 ^ 20 <? pc_MaxBodyBytes c) then
    Err (NewError "PLAYGROUND_MAX_BODY_BYTES must be >= max payload and <= 1 MiB")
  else if (pc_MaxPending c <? 1) || (10000 <? pc_MaxPending c) then
    Err (NewError "PLAYGROUND_MAX_PENDING must be between 1 and 10000")
  else if (pc_RateLimitPerMinute c <? 1) || (pc_RateLimitBurst c <? 1) then
    Err (NewError "PLAYGROUND_RATE_LIMIT_PER_MIN and BURST must be >= 1")
  else if (pc_SessionRatePerMinute c <? 1) || (pc_SessionRateBurst c <? 1) then
    Err (NewError "PLAYGROUND_SESSION_RATE_LIMIT_PER_MIN and BURST must be >= 1")
  else if (pc_ReadRateLimitPerMin c <? 1) || (pc_ReadRateLimitBurst c <? 1) then
    Err (NewError "PLAYGROUND_READ_RATE_LIMIT_PER_MIN and BURST must be >= 1")
  else if (pc_CleanupInterval c <=? 0) || (pc_Retention c <=? 0) then
    Err (NewError "PLAYGROUND_CLEANUP_INTERVAL and PLAYGROUND_TASK_RETENTION must be > 0")
  else if pc_EnableCrashDemo c then validate_crash c
  else Ok tt
  end end.

Definition LoadConfig (env : Env) : res Config :=
  let cfg := loadConfigRaw env in
  match Config_Validate cfg with Err e => Err e | Ok _ => Ok cfg end.

(** ** The workers *)

(** The options of [NewApp]. *)
Definition app_options (cfg : Config) : list WorkerOption :=
  [WithWorkerPrefix (pc_WorkerPrefix cfg); WithMaxWorkers (pc_WorkerCount cfg);
   WithPollInterval (pc_PollInterval cfg); WithHeartbeatInterval (pc_HeartbeatInterval cfg);
   WithHandlerTimeout (pc_HandlerTimeout cfg); WithBaseBackoff (pc_BaseBackoff cfg);
   WithMaxBackoff (pc_MaxBackoff cfg); WithReaperInterval (pc_ReaperInterval cfg);
   WithStuckThreshold (pc_StuckThreshold cfg); WithShutdownTimeout (pc_ShutdownTimeout cfg)].

(** The options of [RunCrashWorker]. *)
Definition crash_options (cfg : Config) : list WorkerOption :=
  [WithWorkerPrefix (pc_CrashWorkerPrefix cfg); WithMaxWorkers 1;
   WithPollInterval (pc_CrashPollInterval cfg); WithHeartbeatInterval (pc_CrashHeartbeatInterval cfg);
   WithHandlerTimeout (pc_CrashHandlerTimeout cfg); WithBaseBackoff Second; WithMaxBackoff (5 * Second);
   WithReaperInterval Hour; WithStuckThreshold (pc_CrashStuckThreshold cfg);
   WithShutdownTimeout (5 * Second)].

(** ** What a validated configuration guarantees *)

(** A name PostgreSQL keeps as it is, quoted or not: lower case letters, digits
    and underscores, at most 63 of them. *)
Definition plain_identifier (s : string) : Prop :=
  s <> EmptyString /\ all_chars schema_char s = true /\ len s <= 63 /\ HasPrefix s "pg_" = false.

Lemma validateSchema_Ok s : validateSchema s = Ok tt ->
  plain_identifier s /\ s <> "public" /\ s <> "information_schema".
Proof.
  unfold validateSchema. destruct (schemaPattern s) eqn:Hp; [|done]. simpl.
  destruct (HasPrefix s "pg_") eqn:Hpg; [done|]. case_bool_decide as Hr; [done|]. intros _.
  destruct s as [|c s]; [done|]. simpl in Hp. bool_to_prop. split_and!; try set_solver.
  split_and!; [done| |unfold len in *; simpl; lia|done].
  simpl. unfold schema_char at 1. rewrite H. simpl. done.
Qed.

Lemma validate_crash_Ok c : validate_crash c = Ok tt ->
  pc_CrashWorkerPrefix c <> EmptyString /\ 0 < pc_CrashTaskDuration c <= 60 * Second /\
  pc_CrashTaskDuration c < pc_CrashHandlerTimeout c /\
  0 < pc_CrashHeartbeatInterval c < pc_CrashStuckThreshold c /\
  pc_CrashStuckThreshold c < pc_CrashDemoTimeout c /\ 0 < pc_CrashReaperInterval c /\ 0 < pc_CrashPollInterval c.
Proof.
  unfold validate_crash. intros H. repeat (case_match; [done|]). bool_to_prop. split_and!; lia || done.
Qed.

Lemma Config_Validate_Ok c : Config_Validate c = Ok tt ->
  (validateSchema (pc_Schema c) = Ok tt /\ validateSchema (pc_CrashSchema c) = Ok tt /\
   pc_Schema c <> pc_CrashSchema c) /\
  (pc_WorkerPrefix c <> EmptyString /\ 1 <= pc_WorkerCount c <= 32 /\ 0 < pc_PollInterval c /\
   0 < pc_HeartbeatInterval c < pc_StuckThreshold c /\ 0 < pc_HandlerTimeout c /\
   0 < pc_ReaperInterval c <= pc_StuckThreshold c /\ 0 < pc_BaseBackoff c <= pc_MaxBackoff c) /\
  (1 <= pc_MaxBatch c <= 200 /\ 2 <= pc_MaxPayloadBytes c <= 64 * 1024 /\
   pc_MaxPayloadBytes c <= pc_MaxBodyBytes c <= 2 ^ 20 /\ 1 <= pc_MaxPending c <= 10000) /\
  (1 <= pc_RateLimitPerMinute c /\ 1 <= pc_RateLimitBurst c /\ 1 <= pc_SessionRatePerMinute c /\
   1 <= pc_SessionRateBurst c /\ 1 <= pc_ReadRateLimitPerMin c /\ 1 <= pc_ReadRateLimitBurst c /\
   0 < pc_CleanupInterval c /\ 0 < pc_Retention c) /\
  (pc_EnableCrashDemo c = true -> validate_crash c = Ok tt).
Proof.
  unfold Config_Validate. intros H. repeat (case_match; [done|]).
  destruct (validateSchema (pc_Schema c)) as [[]|]; [|done].
  destruct (validateSchema (pc_CrashSchema c)) as [[]|]; [|done].
  repeat (case_match; [done|]). bool_to_prop.
  split_and!; try (lia || done). intros He. by rewrite He in H.
Qed.

(** The settings the playground asks for. *)
Definition app_settings (c : Config) : Settings :=
  mkSettings (pc_WorkerPrefix c) (pc_PollInterval c) (pc_WorkerCount c) (pc_HeartbeatInterval c)
    (pc_HandlerTimeout c) (pc_BaseBackoff c) (pc_MaxBackoff c) (pc_ReaperInterval c) (pc_StuckThreshold c).

Lemma app_settings_sane c : Config_Validate c = Ok tt -> sane (app_settings c).
Proof.
  intros (_ & (Hp & Hn & Hpi & Hh & Ht & Hr & Hb) & _)%Config_Validate_Ok. unfold sane. simpl.
  split_and!; lia || done.
Qed.

(** A validated playground configuration names two different schemas that need
    no quoting, and reaches its worker unchanged: between 1 and 32 workers on
    exactly the intervals asked for; a payload within its limit is within the
    library's. *)
Theorem playground_config_runs c :
  Config_Validate c = Ok tt ->
  plain_identifier (pc_Schema c) /\ plain_identifier (pc_CrashSchema c) /\ pc_Schema c <> pc_CrashSchema c /\
  1 <= pc_WorkerCount c <= 32 /\ pc_MaxPayloadBytes c <= 64 * 1024 /\ pc_MaxPending c <= 10000 /\
  exists w p, LibWorker_Start (NewWorker (app_options c)) = (w, Ok tt) /\ lw_pool w = Some p /\
    p_settings p = app_settings c /\ Z.of_nat (length (p_workers p)) = pc_WorkerCount c /\
    NoDup (map workerID (p_workers p)).
Proof.
  intros Hv. pose proof (Config_Validate_Ok c Hv) as ((H1 & H2 & H3) & (_ & H4 & _) & (_ & H5 & _ & H6) & _).
  split; [exact (proj1 (validateSchema_Ok _ H1))|]. split; [exact (proj1 (validateSchema_Ok _ H2))|]. split; [done|].
  split; [lia|]. split; [lia|]. split; [lia|].
  pose proof (pool_names (NewRegistry None) (app_settings c)) as Hnames.
  eexists _, _. split; [reflexivity|]. change (settings_of _) with (app_settings c).
  split; [reflexivity|]. revert Hnames. unfold NewWorkerPool. rewrite (sane_normalize _ (app_settings_sane c Hv)).
  intros Hnames. split; [reflexivity|]. split; [|exact Hnames].
  cbn [pool_Start p_started p_settings p_workers p_reaper p_registry app_settings Concurrency].
  rewrite length_map, length_seq. lia.
Qed.

(** The environment that sets the database URL only. *)
Definition bare_env : Env := fun key =>
  if bool_decide (key = "DHARA_DATABASE_URL") then "postgres://localhost/dhara" else EmptyString.

Lemma playground_config_runs_witness :
  Config_Validate (loadConfigRaw bare_env) = Ok tt /\ 1 <= pc_WorkerCount (loadConfigRaw bare_env) <= 32.
Proof.
  split; [reflexivity|]. apply (playground_config_runs (loadConfigRaw bare_env)). reflexivity.
Defined.
