(* ===== verification/Logging.v ===== *)
(** Logging: [internal/logging], [internal/ctxlog] and the attributes the
    server's handlers and the workers log with.

    A logger is a handler (its format and its minimum level) and the attributes
    it was given; a record is what [Info] and the like pass to the handler. The
    text a handler of [log/slog] writes is not modelled. *)

From S2P Require Import Prelude Dharatype GoTime Float64 Metrics Pg TaskStore Worker Config GoStrconv PlaySession PlayConfig.
Open Scope dhara_scope.

(** ** Loggers *)

(** [slog.Level]. *)
Definition LevelDebug : Z := -4.
Definition LevelInfo : Z := 0.
Definition LevelWarn : Z := 4.
Definition LevelError : Z := 8.

Inductive LogFormat : Type := JSONHandler | TextHandler.

Inductive AttrValue : Type :=
  | AStr (s : string)
  | AInt (n : Z).

Record Logger := mkLogger {
  lg_format : LogFormat;
  lg_level : Z;
  lg_attrs : list (string * AttrValue)
}.

Record LogRecord := mkRecord { lr_level : Z; lr_message : string; lr_attrs : list (string * AttrValue) }.

(** [logger.With(...)]. *)
Definition With (attrs : list (string * AttrValue)) (l : Logger) : Logger :=
  mkLogger (lg_format l) (lg_level l) (lg_attrs l ++ attrs).

(** The record a call writes, if the handler is enabled for its level. *)
Definition emit (l : Logger) (level : Z) (message : string) (attrs : list (string * AttrValue)) : option LogRecord :=
  if lg_level l <=? level then Some (mkRecord level message (lg_attrs l ++ attrs)) else None.

(** ** [internal/logging] *)

Definition parseLogLevel (level : string) : Z :=
  if bool_decide (level = "debug") then LevelDebug
  else if bool_decide (level = "info") then LevelInfo
  else if bool_decide (level = "warn") || bool_decide (level = "warning") then LevelWarn
  else if bool_decide (level = "error") then LevelError
  else LevelInfo.

Definition logging_New (format level : string) : Logger :=
  mkLogger (if bool_decide (format = "json") then JSONHandler else TextHandler) (parseLogLevel level) [].

(** ** [internal/ctxlog] *)

(** A context as far as values are concerned: the values its ancestors carry
    under the package's own key, innermost first; a context derived for a
    deadline or a cancellation adds none. *)
Inductive ValueCtx : Type :=
  | Background
  | Derived (parent : ValueCtx)
  | WithLogger (parent : ValueCtx) (logger : Logger).

Fixpoint From (default_logger : Logger) (ctx : ValueCtx) : Logger :=
  match ctx with
  | Background => default_logger
  | Derived parent => From default_logger parent
  | WithLogger _ logger => logger
  end.

(** ** The loggers of the code *)

(** [taskLogger] of a worker; [id] is the task's id as text. *)
Definition taskLogger (l : Logger) (workerID id : string) (task : TaskRow) : Logger :=
  With [("worker_id", AStr workerID); ("task_id", AStr id); ("task_type", AStr (t_Type task));
        ("attempts", AInt (t_Attempts task)); ("max_retries", AInt (t_MaxRetries task))] l.

(** [reqLogger] of the server's task handlers; [rid] is the header
    [X-Request-Id]. *)
Definition reqLogger (l : Logger) (method path rid : string) : Logger :=
  let l := With [("component", AStr "server"); ("handler", AStr "task"); ("method", AStr method); ("path", AStr path)] l in
  if negb (bool_decide (rid = EmptyString)) then With [("request_id", AStr rid)] l else l.

Definition logRequestDone (l : Logger) (event : string) (status start now : Z) (attrs : list (string * AttrValue)) :
    option LogRecord :=
  emit l LevelInfo "request completed"
    ([("event", AStr event); ("http_status", AInt status); ("duration_ms", AInt (Milliseconds (now - start)))] ++ attrs).

(** The context a terminal write runs under: its deadline is its own, its logger
    the task's. *)
Definition persistContext (l : Logger) (workerID id : string) (task : TaskRow) : ValueCtx :=
  WithLogger (Derived Background) (taskLogger l workerID id task).

(** ** Theorems *)

(** The names of a logger's settings. *)
Definition format_name (l : Logger) : string := match lg_format l with JSONHandler => "json" | TextHandler => "text" end.
Definition level_name (l : Logger) : string :=
  if lg_level l =? LevelDebug then "debug" else if lg_level l =? LevelInfo then "info"
  else if lg_level l =? LevelWarn then "warn" else "error".

(** A validated configuration is what the logger runs with: the format and the
    level asked for in any letter case ([warning] as [warn]), and neither of the
    two defaults of [New] and [parseLogLevel] is ever used. *)
Theorem validated_logging_effective c :
  (LoggingConfig_Validate c).2 = Ok tt ->
  let c' := (LoggingConfig_Validate c).1 in
  let l := logging_New (l_Format c') (l_Level c') in
  format_name l = ToLower (l_Format c) /\
  level_name l = (if bool_decide (ToLower (l_Level c) = "warning") then "warn" else ToLower (l_Level c)).
Proof.
  unfold LoggingConfig_Validate. case_bool_decide as Hf; [|done].
  assert (format_name (logging_New (ToLower (l_Format c)) EmptyString) = ToLower (l_Format c)) as Hformat.
  { rewrite !elem_of_cons, elem_of_nil in Hf. by destruct Hf as [-> |[-> |[]]]. }
  case_bool_decide as Hl.
  - intros _. cbn [fst l_Format l_Level]. split; [exact Hformat|].
    rewrite !elem_of_cons, elem_of_nil in Hl. by destruct Hl as [-> |[-> |[-> |[-> |[]]]]].
  - case_bool_decide as Hw; [|done]. intros _. cbn [fst l_Format l_Level]. split; [exact Hformat|].
    reflexivity.
Qed.

(** The playground hands over what it reads: a level or a format in capitals,
    which the other processes accept, falls back to the defaults without a
    word. *)
Definition capitals : Env := fun key =>
  if bool_decide (key = "LOG_LEVEL") then "DEBUG" else if bool_decide (key = "LOG_FORMAT") then "JSON" else EmptyString.

Example playground_ignores_capitals :
  let c := loadConfigRaw capitals in
  let here := logging_New (pc_LogFormat c) (pc_LogLevel c) in
  let there := (LoggingConfig_Validate (NewLoggingConfig capitals)).1 in
  lg_level here = LevelInfo /\ lg_format here = TextHandler /\
  lg_level (logging_New (l_Format there) (l_Level there)) = LevelDebug /\
  lg_format (logging_New (l_Format there) (l_Level there)) = JSONHandler.
Proof. vm_compute. done. Qed.

(** Whatever contexts are derived for deadlines, the store logs an outcome with
    the task's own attributes. *)
Theorem outcome_logged_with_task default_logger l workerID id task (n : nat) :
  lg_attrs (From default_logger (Nat.iter n Derived (persistContext l workerID id task))) =
  lg_attrs l ++ lg_attrs (taskLogger (mkLogger TextHandler 0 []) workerID id task).
Proof. induction n as [|n IH]; [reflexivity|exact IH]. Qed.
