(* ===== verification/PlayService.v ===== *)
(** PlayService: the playground's service layer,
    [internal/playground/service.go]: capacity, ownership, the scenarios.

    The service sits on the client of [Client] and the queries of [PlayStore].
    Its mutex [enqueueMu] keeps the process's own enqueues out between a
    capacity check and the inserts it allows: in the theorems the other
    sessions of a locked section are those that only work tasks off. The crash
    demo is an interface, a record of operations. *)

From Stdlib Require Import Ascii.
From S2P Require Import Prelude Dharatype GoTime Float64 GoStrconv GoJson Metrics Pg PgLogic TaskStore.
From S2P Require Import Lifecycle StoreRefine StoreTheorems StoreSpec StoreContracts Client Worker.
From S2P Require Import WorkerRefine WorkerTheorems Config PlaySession PlayStore PlayConfig.
Open Scope dhara_scope.

Definition ErrQueueFull : error :=
  NewError "playground queue is full; wait for existing tasks to drain".
Definition ErrBadRequest : error := NewError "invalid playground request".
Definition ErrCrashDisabled : error := NewError "crash demo is disabled".
Definition ErrCrashBusy : error := NewError "a crash demo is already running".

(** [badRequestf]: [fmt.Errorf("%w: %s", ErrBadRequest, ...)]. *)
Definition badRequestf (message : string) : error :=
  Annotated ErrBadRequest (Error ErrBadRequest +:+ ": " +:+ message).

(** ** Data *)

Record CrashStatus := mkCrashStatus {
  cs_Enabled : bool;
  cs_Phase : string;
  cs_Session : string;
  cs_TaskID : option uuid;
  cs_StartedAt : option Z;
  cs_UpdatedAt : option Z;
  cs_FinishedAt : option Z;
  cs_Error : string;
  cs_Task : option TaskView;
  cs_ReapedTotal : Z
}.

(** The [CrashController] interface. *)
Record CrashController := mkCrashController {
  Enabled : bool;
  crash_Start : string -> M (res CrashStatus);
  crash_Status : M CrashStatus
}.

Record Overview := mkOverview {
  o_Pending : Z; o_PendingReady : Z; o_PendingDelayed : Z; o_Running : Z; o_Completed : Z;
  o_Dead : Z; o_Canceled : Z; o_WorkersActive : Z; o_WorkersInflight : Z;
  o_EnqueuedLastMinute : Z; o_CompletedLastMinute : Z; o_DeadLastMinute : Z;
  o_TasksEnqueuedTotal : Z; o_CompletedTotal : Z; o_AttemptFailures : Z; o_RetriedTotal : Z;
  o_DeadTotal : Z; o_CanceledTotal : Z; o_ReapedTotal : Z
}.

Record WorkerPool := mkPlayPool {
  wp_Configured : Z; wp_Prefix : string; wp_Active : Z; wp_Inflight : Z; wp_Leases : list WorkerLease
}.

Record Snapshot := mkPlaySnapshot {
  sn_GeneratedAt : Z;
  sn_Scope : string;
  sn_StatusFilter : string;
  sn_Overview : Overview;
  sn_WorkerPool : WorkerPool;
  sn_Tasks : list TaskView;
  sn_CrashEnabled : bool;
  sn_CrashDemo : option CrashStatus
}.

Record TaskDetail := mkTaskDetail {
  td_Task : TaskView;
  td_Owned : bool;
  td_Payload : option string;
  td_Logs : list TaskLog
}.

Record FlakyRequest := mkFlakyRequest { fl_Count : Z; fl_Mode : string; fl_SucceedAfterMS : Z }.
Record ScenarioResult := mkScenarioResult { sr_Scenario : string; sr_Count : Z; sr_TaskIDs : list uuid }.

Record CreateTaskInput := mkCreateTaskInput {
  in_Type : string;
  in_Payload : string;
  in_IdempotencyKey : option string;
  in_Priority : option Z;
  in_MaxRetries : option Z;
  in_RunAt : option Z
}.

(** The service; [workerStats] is the worker's counters when they are read, zero
    without a worker. *)
Record Service := mkService {
  cfg : PlayConfig.Config;
  workerStats : MetricsSnapshot;
  crash : option CrashController
}.

Definition hide_error (v : TaskView) : TaskView :=
  mkTaskView (tv_ID v) (tv_Type v) (tv_Status v) (tv_Priority v) (tv_Attempts v) (tv_MaxRetries v)
    (tv_RunAt v) (tv_StartedAt v) (tv_CompletedAt v) (tv_LockedBy v) (tv_LockedAt v) None
    (tv_CreatedAt v) (tv_UpdatedAt v) (tv_DurationMS v) (tv_IdempotencyKey v).

(** [c.Metrics()] of the client. *)
Definition client_Metrics : M MetricsSnapshot := fun _ w => (snapshotMetrics (w_metrics w), w).

(** ** Operations *)

Section Service.
Context {hasher : PayloadHasher} {uuid_text : UUIDText} (s : Service).

Definition crash_enabled : bool := match crash s with Some c => Enabled c | None => false end.

Definition get_Snapshot (session scope status : string) (limit : Z) : M (res Snapshot) :=
  let scope := ToLower (TrimSpace scope) in
  let scope := if bool_decide (scope = EmptyString) then "all" else scope in
  if negb (bool_decide (scope = "all")) && negb (bool_decide (scope = "mine")) then
    ret (Err (badRequestf "scope must be 'all' or 'mine'"))
  else if bool_decide (scope = "mine") && bool_decide (session = EmptyString) then
    ret (Err ErrSessionRequired)
  else
  let status := ToUpper (TrimSpace status) in
  if negb (bool_decide (status ∈ [EmptyString; "PENDING"; "RUNNING"; "COMPLETED"; "CANCELED"; "DEAD"])) then
    ret (Err (badRequestf "status must be a valid task status"))
  else
  qm <-? QueueMetrics or "queue metrics";
  tp <-? get_Throughput;
  tasks <-? ListRecent (if bool_decide (scope = "mine") then session else EmptyString) status limit;
  let tasks := if bool_decide (scope = "mine") then tasks else map hide_error tasks in
  leases <-? ListRunning 32;
  cm <- client_Metrics;
  let wm := workerStats s in
  now <- time_Now;
  demo <- (match crash s with
           | Some c => if Enabled c then st <- crash_Status c; ret (Some st) else ret None
           | None => ret None
           end);
  ret (Ok (mkPlaySnapshot now scope status
    (mkOverview (q_TasksPending qm) (q_TasksPendingReady qm) (q_TasksPendingDelayed qm) (q_TasksRunning qm)
       (q_TasksCompleted qm) (q_TasksDead qm) (q_TasksCanceled qm) (s_WorkersActive wm) (s_WorkersInflight wm)
       (EnqueuedLastMinute tp) (CompletedLastMinute tp) (DeadLastMinute tp) (s_TasksEnqueuedTotal cm)
       (s_TasksCompletedTotal wm) (s_TaskAttemptFailuresTotal wm) (s_TasksRetriedTotal wm)
       (s_TasksDeadTotal wm) (s_TasksCanceledTotal cm) (s_TasksReapedTotal wm))
    (mkPlayPool (pc_WorkerCount (cfg s)) (pc_WorkerPrefix (cfg s)) (s_WorkersActive wm)
       (s_WorkersInflight wm) leases)
    tasks crash_enabled demo)).

Definition get_TaskDetail (session : string) (id : uuid) : M (res TaskDetail) :=
  t <-? GetStoredTask id;
  match t with
  | None => ret (Err ErrTaskNotFound)
  | Some t =>
      let owned := keyBelongsToSession (st_IdempotencyKey t) session in
      now <- time_Now;
      let view := toTaskView t now in
      if negb owned then ret (Ok (mkTaskDetail (hide_error view) false None []))
      else
        logs <-? TaskLogs id 100;
        ret (Ok (mkTaskDetail view true (Some (st_Payload t)) logs))
  end.

Definition ensureCapacity (n : Z) : M (res unit) :=
  qm <-? QueueMetrics or "read queue depth";
  let current := q_TasksPending qm + q_TasksRunning qm in
  if pc_MaxPending (cfg s) <? current + n then ret (Err ErrQueueFull) else ret (Ok tt).

Definition CreateTask (session : string) (input : CreateTaskInput) : M (res EnqueueResult) :=
  if negb (isAllowedType (in_Type input)) then
    ret (Err (badRequestf ("task type " +:+ Quote (in_Type input) +:+ " is not allowed")))
  else
  now <- time_Now;
  match normalizePayload (in_Type input) (in_Payload input) now (pc_MaxPayloadBytes (cfg s)) with
  | Err e => ret (Err (badRequestf (Error e)))
  | Ok payload =>
  late <- (match in_RunAt input with
           | None => ret false
           | Some t => now <- time_Now; ret (now + pc_Retention (cfg s) <? t)
           end);
  if (late : bool) then
    ret (Err (badRequestf ("run_at must be within the playground retention window (" +:+
      duration_string (pc_Retention (cfg s)) +:+ ")")))
  else
  key <- ownedKey session;
  match (match in_IdempotencyKey input with None => Ok key | Some k => customKey session k end) with
  | Err e => ret (Err (badRequestf (Error e)))
  | Ok key =>
      _ <-? ensureCapacity 1;
      Insert (mkInsertParams (in_Type input) (Some payload) (Some key) (in_Priority input)
        (in_MaxRetries input) (in_RunAt input))
  end
  end.

(** [insert]: one task of a scenario. *)
Definition insert (session taskType payload : string) (maxRetries : Z) : M (res Task) :=
  now <- time_Now;
  match normalizePayload taskType payload now (pc_MaxPayloadBytes (cfg s)) with
  | Err e => ret (Err (badRequestf (Error e)))
  | Ok payload =>
      key <- ownedKey session;
      r <-? Insert (mkInsertParams taskType (Some payload) (Some key) (Some 0) (Some maxRetries) None);
      ret (Ok (er_Task r))
  end.

(** The loops of the scenarios: [job i] is the type, payload and budget of task
    [i]; the ids so far are dropped with the error of an insert. *)
Fixpoint insert_all (session : string) (job : Z -> M (string * string * Z)) (i : Z) (n : nat) :
    M (res (list uuid)) :=
  match n with
  | O => ret (Ok [])
  | S n' =>
      j <- job i;
      let '(taskType, payload, maxRetries) := j in
      task <-? insert session taskType payload maxRetries;
      rest <-? insert_all session job (i + 1) n';
      ret (Ok (ID task :: rest))
  end.

Definition run_scenario (name session : string) (job : Z -> M (string * string * Z)) (count : Z) :
    M (res ScenarioResult) :=
  _ <-? ensureCapacity count;
  ids <-? insert_all session job 0 (Z.to_nat count);
  ret (Ok (mkScenarioResult name (Z.of_nat (length ids)) ids)).

Definition burst_job (size i : Z) : M (string * string * Z) :=
  ret (TypeEcho, "{" +:+ quoted "message" +:+ ":" +:+
    quoted ("burst job " +:+ itoa (i + 1) +:+ " of " +:+ itoa size) +:+ "}", DefaultMaxRetries).

Definition EnqueueBurst (session : string) (size : Z) : M (res ScenarioResult) :=
  match validateCount size 25 (pc_MaxBatch (cfg s)) with
  | Err e => ret (Err (badRequestf (Error e)))
  | Ok size => run_scenario "burst" session (burst_job size) size
  end.

Definition flaky_job (mode : string) (succeedAfter i : Z) : M (string * string * Z) :=
  if bool_decide (mode = "dead") then
    ret (TypeAlwaysFail, "{" +:+ quoted "reason" +:+ ":" +:+
      quoted ("dead-letter demo " +:+ itoa (i + 1)) +:+ "}", 3)
  else
    now <- time_Now;
    let succeedAt := (now + succeedAfter * Millisecond) / Millisecond in
    ret (TypeFlaky, "{" +:+ quoted "succeed_at" +:+ ":" +:+ itoa succeedAt +:+ "}", 8).

Definition EnqueueFlaky (session : string) (req : FlakyRequest) : M (res ScenarioResult) :=
  match validateCount (fl_Count req) 3 10 with
  | Err e => ret (Err (badRequestf (Error e)))
  | Ok count =>
      let mode := ToLower (TrimSpace (fl_Mode req)) in
      let mode := if bool_decide (mode = EmptyString) then "recover" else mode in
      if negb (bool_decide (mode = "recover")) && negb (bool_decide (mode = "dead")) then
        ret (Err (badRequestf "mode must be 'recover' or 'dead'"))
      else
        let succeedAfter := if fl_SucceedAfterMS req =? 0 then 6000 else fl_SucceedAfterMS req in
        if (succeedAfter <? 1000) || (30000 <? succeedAfter) then
          ret (Err (badRequestf "succeed_after_ms must be between 1000 and 30000"))
        else run_scenario "flaky" session (flaky_job mode succeedAfter) count
  end.

Definition slow_job (i : Z) : M (string * string * Z) :=
  ret (TypeSlowTask, "{" +:+ quoted "reason" +:+ ":" +:+
    quoted ("handler timeout demo " +:+ itoa (i + 1)) +:+ "}", 2).

Definition EnqueueSlow (session : string) (count : Z) : M (res ScenarioResult) :=
  match validateCount count 1 3 with
  | Err e => ret (Err (badRequestf (Error e)))
  | Ok count => run_scenario "slow" session slow_job count
  end.

Definition RetryOwned (session : string) (id : uuid) : M (res Task) :=
  t <-? GetStoredTask id;
  match t with
  | None => ret (Err ErrTaskNotFound)
  | Some t =>
      match requireOwned (st_IdempotencyKey t) session with
      | Err e => ret (Err e)
      | Ok _ =>
          _ <-? (if bool_decide (st_Status t = "DEAD") then ensureCapacity 1 else ret (Ok tt));
          RetryTask id
      end
  end.

Definition CancelOwned (session : string) (id : uuid) : M (res Task) :=
  t <-? GetStoredTask id;
  match t with
  | None => ret (Err ErrTaskNotFound)
  | Some t =>
      match requireOwned (st_IdempotencyKey t) session with
      | Err e => ret (Err e)
      | Ok _ => CancelTask id
      end
  end.

Definition StartCrashDemo (session : string) : M (res CrashStatus) :=
  match crash s with
  | Some c => if Enabled c then crash_Start c session else ret (Err ErrCrashDisabled)
  | None => ret (Err ErrCrashDisabled)
  end.
End Service.
