(* ===== verification/PlayReads.v ===== *)
(** PlayReads: the calls of the playground that only read.

    [Walk P] says that a property of programs holds of calls that write nothing
    and is kept by sequencing; a [reader] is a program that has every such
    property. Each read of the service is shown to be a reader once; capacity,
    isolation and failure are different instances of [Walk]. *)

From S2P Require Import Prelude Dharatype GoTime Float64 GoStrconv Metrics Pg PgLogic TaskStore Client.
From S2P Require Import Lifecycle StoreRefine StoreTheorems StoreSpec PlaySession PlayStore PlayConfig PlayService.
Open Scope dhara_scope.

(** A statement that writes nothing. *)
Definition reads {A} (st : Stmt A) : Prop :=
  forall now e db a ws, st now e db = Ok (a, ws) -> ws = [].

Class Walk (P : forall A, M A -> Prop) : Prop := mkWalk {
  walk_bind A B (m : M A) (k : A -> M B) : P A m -> (forall a, P B (k a)) -> P B (bind m k);
  walk_look A (f : Oracle -> World -> A) : P A (fun o w => (f o w, w));
  walk_tick A (f : Oracle -> World -> A) : P A (fun o w => (f o w, tick o w));
  walk_exec A (st : Stmt A) : reads st -> P (res A) (db_exec st)
}.

Definition reader {A} (m : M A) : Prop := forall P, Walk P -> P A m.

Section Walk.
Context (P : forall A, M A -> Prop) `{!Walk P}.

Lemma walk_ret {A} (a : A) : P A (ret a).
Proof. apply (walk_look A (fun _ _ => a)). Qed.

Lemma walk_try {A B} (m : M (res A)) (k : A -> M (res B)) :
  P _ m -> (forall a, P _ (k a)) -> P _ (try m k).
Proof. intros Hm Hk. apply walk_bind; [done|]. intros [a|e]; [apply Hk|apply walk_ret]. Qed.

Lemma walk_try_wrap {A B} p (m : M (res A)) (k : A -> M (res B)) :
  P _ m -> (forall a, P _ (k a)) -> P _ (try_wrap p m k).
Proof. intros Hm Hk. apply walk_bind; [done|]. intros [a|e]; [apply Hk|apply walk_ret]. Qed.

Lemma walk_time_Now : P _ time_Now.
Proof. apply (walk_tick Z). Qed.

Lemma walk_reader {A} (m : M A) : reader m -> P _ m.
Proof. intros H. by apply H. Qed.
End Walk.

Lemma reads_pure {A} (f : Z -> Event -> DB -> A) : reads (fun now e db => Ok (f now e db, [])).
Proof. by intros ????? [= _ <-]. Qed.

Lemma reader_ret {A} (a : A) : reader (ret a).
Proof. intros P ?. apply walk_ret, _. Qed.
Lemma reader_bind {A B} (m : M A) (k : A -> M B) : reader m -> (forall a, reader (k a)) -> reader (bind m k).
Proof. intros Hm Hk P ?. apply walk_bind; [by apply Hm|]. intros a. by apply Hk. Qed.
Lemma reader_try {A B} (m : M (res A)) (k : A -> M (res B)) :
  reader m -> (forall a, reader (k a)) -> reader (try m k).
Proof. intros Hm Hk P ?. apply walk_try; [done|by apply Hm|]. intros a. by apply Hk. Qed.
Lemma reader_try_wrap {A B} p (m : M (res A)) (k : A -> M (res B)) :
  reader m -> (forall a, reader (k a)) -> reader (try_wrap p m k).
Proof. intros Hm Hk P ?. apply walk_try_wrap; [done|by apply Hm|]. intros a. by apply Hk. Qed.
Lemma reader_exec {A} (st : Stmt A) : reads st -> reader (db_exec st).
Proof. intros Hr P ?. by apply walk_exec. Qed.
Lemma reader_time_Now : reader time_Now.
Proof. intros P ?. apply walk_time_Now, _. Qed.
Lemma reader_uuid `{UUIDText} : reader uuid_NewString.
Proof. intros P ?. apply (walk_tick string). Qed.
Lemma reader_client_Metrics : reader client_Metrics.
Proof. intros P ?. apply (walk_look MetricsSnapshot). Qed.
Lemma sql_list_reads clauses limit offset : reads (sql_list clauses limit offset).
Proof. intros now e db a ws. unfold sql_list. repeat case_match; by intros [= _ <-]. Qed.

Create HintDb reader discriminated.
#[export] Hint Resolve reader_ret reader_exec reader_time_Now reader_uuid reader_client_Metrics reads_pure
  sql_list_reads : reader.

(** Steps through a program whose calls are readers. *)
Ltac reader_walk :=
  repeat first
    [ progress intros
    | solve [eauto with reader]
    | apply reader_try_wrap | apply reader_try | apply reader_bind
    | match goal with |- reader (match ?x with _ => _ end) => destruct x end ].

(** ** Readers leave the database alone *)

(** Under [no_interference], a program that leaves the database as it is. *)
Definition still {A} (m : M A) : Prop :=
  forall o w, no_interference o -> idle w -> w_db (m o w).2 = w_db w /\ w_tx (m o w).2 = None.

#[export] Instance still_walk : Walk (fun A => still (A := A)).
Proof.
  split.
  - intros A B m k Hm Hk o w Hq Hw. unfold bind. destruct (Hm o w Hq Hw) as [Hdb Htx].
    destruct (m o w) as [a w1]. cbn [snd] in *. destruct (Hk a o w1 Hq) as [Hdb2 Htx2]; [|split; congruence].
    split; [done|]. rewrite Hdb. apply Hw.
  - intros A f o w Hq [Htx _]. done.
  - intros A f o w Hq [Htx _]. unfold tick, pending. simpl. by rewrite Htx, Hq.
  - intros A st Hr o w Hq [Htx _]. unfold db_exec, tick, pending. rewrite Htx, Hq. simpl.
    destruct (st _ _ _) as [[a ws]|e] eqn:Hs; destruct (ev_fault _); try done; by apply Hr in Hs as ->.
Qed.

Lemma still_reader {A} (m : M A) : reader m -> still m.
Proof. intros Hm. by apply (walk_reader (fun A => still (A := A))). Qed.

(** ** The reads of the playground *)

Lemma GetById_reader id : reader (GetById id).
Proof. unfold GetById. reader_walk. Qed.
Lemma List_reader filter : reader (List_ filter).
Proof. unfold List_. reader_walk. Qed.
#[export] Hint Resolve GetById_reader List_reader : reader.
Lemma GetTask_reader id : reader (GetTask id).
Proof. unfold GetTask. reader_walk. Qed.
Lemma ListTasks_reader filter : reader (ListTasks filter).
Proof. unfold ListTasks. reader_walk. Qed.
Lemma QueueMetrics_reader : reader QueueMetrics.
Proof. unfold QueueMetrics, GetQueueDBMetrics. reader_walk. Qed.
Lemma GetStoredTask_reader id : reader (GetStoredTask id).
Proof. unfold GetStoredTask. reader_walk. Qed.
Lemma TaskLogs_reader id limit : reader (TaskLogs id limit).
Proof. unfold TaskLogs. reader_walk. Qed.
Lemma views_reader rows : reader (views rows).
Proof. induction rows as [|r rows IH]; simpl; reader_walk. Qed.
#[export] Hint Resolve views_reader : reader.
Lemma ListRecent_reader session status limit : reader (ListRecent session status limit).
Proof. unfold ListRecent. reader_walk. Qed.
Lemma ListRunning_reader limit : reader (ListRunning limit).
Proof. unfold ListRunning. reader_walk. Qed.
Lemma get_Throughput_reader : reader get_Throughput.
Proof. unfold get_Throughput. reader_walk. Qed.
Lemma ownedKey_reader `{UUIDText} session : reader (ownedKey session).
Proof. unfold ownedKey. reader_walk. Qed.
#[export] Hint Resolve QueueMetrics_reader GetStoredTask_reader TaskLogs_reader ListRecent_reader
  ListRunning_reader get_Throughput_reader ownedKey_reader : reader.

Lemma ensureCapacity_reader s n : reader (ensureCapacity s n).
Proof. unfold ensureCapacity. reader_walk. Qed.
Lemma get_TaskDetail_reader session id : reader (get_TaskDetail session id).
Proof. unfold get_TaskDetail. reader_walk. Qed.
Lemma burst_job_reader size i : reader (burst_job size i).
Proof. apply reader_ret. Qed.
Lemma flaky_job_reader mode succeedAfter i : reader (flaky_job mode succeedAfter i).
Proof. unfold flaky_job. reader_walk. Qed.
Lemma slow_job_reader i : reader (slow_job i).
Proof. apply reader_ret. Qed.
#[export] Hint Resolve burst_job_reader flaky_job_reader slow_job_reader : reader.

(** A snapshot also reads the crash demo. *)
Lemma get_Snapshot_walk (P : forall A, M A -> Prop) `{!Walk P} s session scope status limit :
  (forall c, crash s = Some c -> P _ (crash_Status c)) -> P _ (get_Snapshot s session scope status limit).
Proof.
  intros Hcrash. unfold get_Snapshot. cbn zeta. destruct (negb _ && negb _); [apply walk_ret, _|].
  destruct (_ && _); [apply walk_ret, _|]. destruct (negb _); [apply walk_ret, _|].
  apply walk_try_wrap; [done|apply walk_reader; eauto with reader|intros qm].
  apply walk_try; [done|apply walk_reader; eauto with reader|intros tp].
  apply walk_try; [done|apply walk_reader; eauto with reader|intros ts].
  apply walk_try; [done|apply walk_reader; eauto with reader|intros ls].
  apply walk_bind; [apply walk_reader; eauto with reader|intros cm].
  apply walk_bind; [apply walk_reader; eauto with reader|intros now].
  apply walk_bind; [|intros; apply walk_ret, _]. destruct (crash s) as [c|] eqn:Hc; [|apply walk_ret, _].
  destruct (Enabled c); [|apply walk_ret, _].
  apply walk_bind; [by apply Hcrash|intros; apply walk_ret, _].
Qed.
