(* ===== verification/PlayCapacity.v ===== *)
(** PlayCapacity: the playground's queue never holds more than [MaxPending]
    tasks.

    A task is live while it is PENDING or RUNNING. [drains] is the rely on the
    sessions that run while a service call holds the enqueue lock: workers, the
    reaper and cancellations follow the lifecycle and make no task live. Calls
    may fail in any way. *)

From S2P Require Import Prelude Dharatype GoTime Float64 GoStrconv GoJson Metrics Pg PgLogic TaskStore.
From S2P Require Import Lifecycle StoreRefine StoreTheorems StoreSpec StoreContracts Client Worker.
From S2P Require Import WorkerRefine WorkerTheorems Config PlaySession PlayUuid PlayStore PlayConfig PlayService PlayReads.
Open Scope dhara_scope.

Definition is_live (r : Row) : bool := has_status PENDING r || has_status RUNNING r.
Definition live_ids (db : DB) : gset uuid := dom (filter (fun kr => is_live kr.2 = true) (tasks db)).
(** The queue depth [ensureCapacity] bounds. *)
Definition depth (db : DB) : Z := Z.of_nat (size (live_ids db)).

Definition drains (o : Oracle) : Prop :=
  env_ok o /\ forall n db, live_ids (ev_env (o n) db) ⊆ live_ids db.

Lemma elem_of_live_ids id db : id ∈ live_ids db <-> exists r, tasks db !! id = Some r /\ is_live r = true.
Proof.
  unfold live_ids. rewrite elem_of_dom. split.
  - intros [r Hr]. apply map_lookup_filter_Some in Hr as [Hr Hl]. eauto.
  - intros (r & Hr & Hl). exists r. by apply map_lookup_filter_Some.
Qed.

(** ** What writes make live *)

Definition put_live (w : Write) : gset uuid :=
  match w with PutTask r => if is_live r then {[r_id r]} else ∅ | _ => ∅ end.

Lemma live_write w db : live_ids (apply_write w db) ⊆ live_ids db ∪ put_live w.
Proof.
  intros id (r & Hr & Hl)%elem_of_live_ids. destruct w as [r'|i|l|i k|d|i|i k]; simpl in *;
    try (apply elem_of_union_l, elem_of_live_ids; by eauto).
  - apply lookup_insert_Some in Hr as [[<- <-]|[_ Hr]].
    + rewrite Hl. set_solver.
    + apply elem_of_union_l, elem_of_live_ids. eauto.
  - apply lookup_delete_Some in Hr as [_ Hr]. apply elem_of_union_l, elem_of_live_ids. eauto.
Qed.

Lemma live_writes ws db : live_ids (apply_writes ws db) ⊆ live_ids db ∪ ⋃ (map put_live ws).
Proof.
  revert db. induction ws as [|w ws IH]; intros db; simpl; [set_solver|].
  etrans; [apply IH|]. pose proof (live_write w db). set_solver.
Qed.

(** ** Programs that make few tasks live *)

(** From [db] on, at most [X] became live. *)
Definition gained (X : gset uuid) (db db' : DB) : Prop := live_ids db' ⊆ live_ids db ∪ X.

(** A program after which at most the tasks of some [X] with [P X] are live that
    were not before. *)
Definition gains (P : gset uuid -> Prop) {A} (m : M A) : Prop :=
  forall o w, drains o -> w_tx w = None -> Inv (w_db w) ->
  wp m o (fun _ w' => w_tx w' = None /\ Inv (w_db w') /\ exists X, P X /\ gained X (w_db w) (w_db w')) w.

Definition adds (k : nat) {A} (m : M A) : Prop := gains (fun X => (size X <= k)%nat) m.

Lemma gained_trans X Y db db1 db2 : gained X db db1 -> gained Y db1 db2 -> gained (X ∪ Y) db db2.
Proof. unfold gained. set_solver. Qed.

Lemma size_union_le (X Y : gset uuid) : (size (X ∪ Y) <= size X + size Y)%nat.
Proof. rewrite size_union_alt. pose proof (subseteq_size (Y ∖ X) Y). set_solver by lia. Qed.

Lemma gained_depth X db db' : gained X db db' -> depth db' <= depth db + Z.of_nat (size X).
Proof.
  intros H. unfold depth. pose proof (subseteq_size _ _ H). pose proof (size_union_le (live_ids db) X). lia.
Qed.

Lemma adds_mono {A} k k' (m : M A) : (k <= k')%nat -> adds k m -> adds k' m.
Proof.
  intros Hk Hm o w Hd Htx HI. eapply wp_mono; [by apply Hm|].
  intros a w' (? & ? & X & HX & Hg). split_and!; [done..|]. exists X. split; [lia|done].
Qed.

Lemma adds_ret {A} (a : A) : adds 0 (ret a).
Proof. intros o w Hd Htx HI. apply wp_ret. split_and!; [done..|]. exists ∅. unfold gained. set_solver by done. Qed.

Lemma adds_bind {A B} a b (m : M A) (k : A -> M B) :
  adds a m -> (forall x, adds b (k x)) -> adds (a + b) (bind m k).
Proof.
  intros Hm Hk o w Hd Htx HI. apply wp_bind. eapply wp_mono; [by apply Hm|].
  intros x w1 (Htx1 & HI1 & X & HX & Hg). eapply wp_mono; [by apply Hk|].
  intros y w2 (Htx2 & HI2 & Y & HY & Hg2). split_and!; [done..|].
  exists (X ∪ Y). split; [|by eapply gained_trans]. pose proof (size_union_le X Y). lia.
Qed.

Lemma adds_try {A B} a b (m : M (res A)) (k : A -> M (res B)) :
  adds a m -> (forall x, adds b (k x)) -> adds (a + b) (try m k).
Proof.
  intros Hm Hk. apply adds_bind; [done|]. intros [x|e]; [apply Hk|].
  apply (adds_mono 0); [lia|]. apply adds_ret.
Qed.

Lemma adds_try_wrap {A B} a b p (m : M (res A)) (k : A -> M (res B)) :
  adds a m -> (forall x, adds b (k x)) -> adds (a + b) (try_wrap p m k).
Proof.
  intros Hm Hk. apply adds_bind; [done|]. intros [x|e]; [apply Hk|].
  apply (adds_mono 0); [lia|]. apply adds_ret.
Qed.

Lemma drains_env o n db : drains o -> Inv db -> Inv (ev_env (o n) db) /\ gained ∅ db (ev_env (o n) db).
Proof.
  intros [He Hl] HI. split; [by eapply db_steps_Inv; [apply He|]|]. unfold gained. pose proof (Hl n db). set_solver.
Qed.

(** A call that only consumes an event. *)
Lemma adds_tick {A} (f : Oracle -> World -> A) : adds 0 (fun o w => (f o w, tick o w)).
Proof.
  intros o w Hd Htx HI. unfold wp, tick, pending. simpl. rewrite Htx. simpl.
  destruct (drains_env o (w_next w) (w_db w) Hd HI) as [HI' Hg]. split_and!; [done..|].
  exists ∅. by rewrite size_empty.
Qed.

Lemma adds_db_exec {A} (st : Stmt A) : reads st -> adds 0 (db_exec st).
Proof.
  intros Hr o w Hd Htx HI. wp_world w.
  destruct (drains_env o n db Hd HI) as [HI' Hg].
  assert (forall db', db' = ev_env (o n) db -> Inv db' /\ exists X : gset uuid, (size X <= 0)%nat /\ gained X db db') as Hdone.
  { intros db' ->. split; [done|]. exists ∅. by rewrite size_empty. }
  apply wp_db_exec; [done| |intros; split; [done|by apply Hdone]].
  destruct (st _ _ _) as [[a ws]|e] eqn:Hs.
  - apply Hr in Hs as ->. split; intros; (split; [done|by apply Hdone]).
  - split; [done|by apply Hdone].
Qed.

#[export] Instance adds_walk : Walk (fun A => adds 0 (A := A)).
Proof.
  split.
  - intros A B m k. apply (adds_bind 0 0).
  - intros A f o w Hd Htx HI. unfold wp. simpl. split_and!; [done..|]. exists ∅. unfold gained. set_solver by done.
  - intros. apply adds_tick.
  - intros. by apply adds_db_exec.
Qed.

(** A program that only reads adds nothing. *)
Lemma adds_reader {A} (m : M A) : reader m -> adds 0 m.
Proof. intros Hm. by apply (walk_reader (fun A => adds 0 (A := A))). Qed.

(** ** The calls of the service *)

(** Ends a run whose writes are known: the state is reached from [db] by steps
    of other sessions and by writes that make at most [X] live. *)
Lemma gained_writes X ws db db' : gained X db db' -> ⋃ (map put_live ws) ⊆ X -> gained X db (apply_writes ws db').
Proof. unfold gained. intros H1 H2. pose proof (live_writes ws db'). set_solver. Qed.

Lemma gained_env X o n db db' : drains o -> gained X db db' -> gained X db (ev_env (o n) db').
Proof. intros [_ Hl]. unfold gained. pose proof (Hl n db'). set_solver. Qed.

Lemma gained_refl X db : gained X db db.
Proof. unfold gained. set_solver. Qed.

Ltac live_leaf :=
  cbn beta iota; intros; cbn [w_db set_tx];
  repeat first [ apply gained_env; [assumption|] | apply gained_writes; [|set_solver] ];
  apply gained_refl.

(** A refined operation whose runs gain only [X]. *)
Lemma gains_intro (P : gset uuid -> Prop) {A} (m : M A) :
  refines m ->
  (forall o w, drains o -> w_tx w = None -> Inv (w_db w) ->
     exists X, P X /\ wp m o (fun _ w' => gained X (w_db w) (w_db w')) w) ->
  gains P m.
Proof.
  intros Hr Hg o w Hd Htx HI. destruct (Hr o w (proj1 Hd) Htx HI) as [Hsteps Htx'].
  destruct (Hg o w Hd Htx HI) as (X & HX & Hw). unfold wp in *.
  split_and!; [done|by eapply db_steps_Inv|eauto].
Qed.

Lemma Create_adds `{PayloadHasher} task : adds 1 (Create task).
Proof.
  apply gains_intro; [apply Create_refines|]. intros o w Hd Htx HI. wp_world w.
  exists {[ev_uuid (o (S n))]}. split; [by rewrite size_singleton|].
  unfold Create, CreateTx, insertTask. run; try live_leaf.
  destruct (hashPayload _) as [h|e]; [|run; live_leaf]. destruct (encodable task); [|run; live_leaf]. run; try live_leaf.
  destruct (sql_insert_task_cases (t_Type task) (t_Payload task) h (t_IdempotencyKey task)
    (t_Priority task) (t_MaxRetries task) (t_RunAt task) (ev_now (o n)) (o (S n))
    (ev_env (o (S n)) (ev_env (o n) db))) as [[m ->]|[(r & _ & ->)|(Hk & Hid & ->)]];
    cbn beta iota; autorewrite with dhara.
  - run; live_leaf.
  - unfold getByTypeAndIdempotencyKey. run; try live_leaf.
    cbn [sql_get_by_key]. destruct (head _); run; try live_leaf. destruct (negb _); run; live_leaf.
  - run; live_leaf.
Qed.

Lemma RetryDead_gains id : gains (fun X => X = {[id]}) (RetryDead id).
Proof.
  apply gains_intro; [apply RetryDead_refines|]. intros o w Hd Htx HI. wp_world w.
  exists {[id]}. split; [done|]. pose proof (proj1 Hd) as Henv.
  unfold RetryDead, insertLog. run; try live_leaf.
  update_cases sql_retry_dead r Hr Hp; run; try live_leaf.
  - cbn [sql_delete_dead_letters app]. run; try live_leaf. after_put. run; try live_leaf.
  - apply wp_GetById; [naive_solver|intros|intros; live_leaf]. destruct (_ <$> _); run; live_leaf.
Qed.

Lemma Cancel_adds id : adds 0 (Cancel id).
Proof.
  apply gains_intro; [apply Cancel_refines|]. intros o w Hd Htx HI. wp_world w.
  exists ∅. split; [by rewrite size_empty|]. pose proof (proj1 Hd) as Henv.
  unfold Cancel, insertLog. run; try live_leaf.
  update_cases sql_cancel r Hr Hp; run; try live_leaf.
  - cbn [set_cancel set_updated_at set_status r_id]. rewrite ?Hid. after_put. run; live_leaf.
  - apply wp_GetById; [naive_solver|intros|intros; live_leaf]. destruct (_ <$> _); run; live_leaf.
Qed.

Lemma CancelTask_adds id : adds 0 (CancelTask id).
Proof. apply (adds_try 0 0); [apply Cancel_adds|]. intros. apply adds_ret. Qed.

Lemma Insert_adds `{PayloadHasher} params : adds 1 (Insert params).
Proof.
  apply (adds_bind 0 1); [apply adds_reader; eauto with reader|]. intros now.
  cbn zeta. destruct (Validate now (Normalize now params)) as [[]|e]; [|apply (adds_mono 0); [lia|apply adds_ret]].
  apply (adds_try 1 0); [apply Create_adds|]. intros. apply adds_ret.
Qed.

(** ** The capacity check *)

Lemma depth_counts db :
  depth db = count_rows (has_status PENDING) db + count_rows (has_status RUNNING) db.
Proof.
  unfold depth, live_ids, count_rows. rewrite size_dom, size_filter_rows, <- Nat2Z.inj_add. f_equal.
  unfold rows_where. generalize (map snd (map_to_list (tasks db))).
  induction l as [|r l IH]; [done|]. cbn [List.filter].
  assert (is_live r = has_status PENDING r || has_status RUNNING r) as -> by done.
  assert (has_status PENDING r && has_status RUNNING r = false) as Hex
    by (unfold has_status; by destruct (r_status r)).
  destruct (has_status PENDING r), (has_status RUNNING r); simpl in *; try done; lia.
Qed.

Lemma wp_QueueMetrics o db met n :
  wp QueueMetrics o (fun r w' => w' = mkWorld (ev_env (o n) db) None met (S n) /\
    forall qm, r = Ok qm -> q_TasksPending qm + q_TasksRunning qm = depth (w_db w')) (mkWorld db None met n).
Proof.
  unfold QueueMetrics, GetQueueDBMetrics. do 3 wp_step. apply wp_db_exec; [done| |intros; by split].
  cbn [sql_queue_metrics]. split; intros; [|by split]. run. split; [done|].
  intros qm [= <-]. by rewrite depth_counts.
Qed.

Section Capacity.
Context {hasher : PayloadHasher} {uuid_text : UUIDText} (s : Service).

(** [m] keeps the queue within its bound. *)
Definition keeps_capacity {A} (m : M A) : Prop :=
  forall o w, drains o -> w_tx w = None -> Inv (w_db w) -> depth (w_db w) <= pc_MaxPending (cfg s) ->
  wp m o (fun _ w' => w_tx w' = None /\ Inv (w_db w') /\ depth (w_db w') <= pc_MaxPending (cfg s)) w.

Lemma keeps_adds0 {A} (m : M A) : adds 0 m -> keeps_capacity m.
Proof.
  intros Hm o w Hd Htx HI Hcap. eapply wp_mono; [by apply Hm|]. intros a w' (? & ? & X & HX & Hg).
  split_and!; [done..|]. apply gained_depth in Hg. lia.
Qed.

Lemma capacity_bind {A B} (m : M A) (k : A -> M B) :
  adds 0 m -> (forall x, keeps_capacity (k x)) -> keeps_capacity (bind m k).
Proof.
  intros Hm Hk o w Hd Htx HI Hcap. apply wp_bind. eapply wp_mono; [by apply Hm|].
  intros x w1 (Htx1 & HI1 & X & HX & Hg). apply Hk; [done..|]. apply gained_depth in Hg. lia.
Qed.

(** A capacity check for [k] tasks allows a program that adds at most [k]. *)
Lemma keeps_ensureCapacity {A} (k : Z) (m : M (res A)) :
  0 <= k -> adds (Z.to_nat k) m -> keeps_capacity (try (ensureCapacity s k) (fun _ => m)).
Proof.
  intros Hk Hm o w Hd Htx HI Hcap. wp_world w. destruct (drains_env o n db Hd HI) as [HI1 Hg1].
  apply gained_depth in Hg1. rewrite size_empty in Hg1.
  wp_step. unfold ensureCapacity. wp_step. eapply wp_mono; [apply wp_QueueMetrics|].
  intros [qm|e] w1 [-> Hqm]; cbn beta iota; [|cbn; split_and!; [done..|lia]].
  specialize (Hqm qm eq_refl). cbn [w_db] in Hqm.
  destruct (Z.ltb_spec (pc_MaxPending (cfg s)) (q_TasksPending qm + q_TasksRunning qm + k)); wp_step;
    cbn beta iota; [cbn; split_and!; [done..|lia]|].
  eapply wp_mono; [by apply Hm|]. intros a w2 (? & ? & X & HX & Hg2). split_and!; [done..|].
  apply gained_depth in Hg2. cbn [w_db] in Hg2. lia.
Qed.

Lemma insert_adds session taskType payload maxRetries : adds 1 (insert s session taskType payload maxRetries).
Proof.
  apply (adds_bind 0 1); [apply adds_reader; eauto with reader|]. intros now.
  destruct (normalizePayload _ _ _ _) as [p|e]; [|apply (adds_mono 0); [lia|apply adds_ret]].
  apply (adds_bind 0 1); [apply adds_reader; eauto with reader|]. intros key.
  apply (adds_try 1 0); [apply Insert_adds|]. intros. apply adds_ret.
Qed.

Lemma insert_all_adds session job n : (forall i, reader (job i)) -> forall i, adds n (insert_all s session job i n).
Proof.
  intros Hjob. induction n as [|n IH]; intros i; [apply adds_ret|].
  apply (adds_bind 0 (S n)); [by apply adds_reader|]. intros [[t p] r].
  apply (adds_try 1 n); [apply insert_adds|]. intros task.
  apply (adds_mono (n + 0)); [lia|]. apply (adds_try n 0); [apply IH|]. intros. apply adds_ret.
Qed.

Lemma run_scenario_keeps name session job count :
  0 <= count -> (forall i, reader (job i)) -> keeps_capacity (run_scenario s name session job count).
Proof.
  intros Hc Hjob. apply keeps_ensureCapacity; [done|]. apply (adds_mono (Z.to_nat count + 0)); [lia|].
  apply adds_try; [by apply insert_all_adds|]. intros. apply adds_ret.
Qed.

Lemma EnqueueBurst_keeps session size :
  1 <= pc_MaxBatch (cfg s) -> keeps_capacity (EnqueueBurst s session size).
Proof.
  intros Hb. unfold EnqueueBurst. destruct (validateCount _ _ _) as [k|e] eqn:Hv; [|apply keeps_adds0, adds_ret].
  apply run_scenario_keeps; [|eauto with reader]. revert Hv. unfold validateCount.
  repeat case_match; intros; simplify_eq; bool_to_prop; lia.
Qed.

Lemma EnqueueFlaky_keeps session req : keeps_capacity (EnqueueFlaky s session req).
Proof.
  unfold EnqueueFlaky. destruct (validateCount _ _ _) as [k|e] eqn:Hv; [|apply keeps_adds0, adds_ret].
  apply validateCount_Ok in Hv; [|lia]. cbn zeta.
  destruct (negb _ && negb _); [apply keeps_adds0, adds_ret|]. destruct (_ || _); [apply keeps_adds0, adds_ret|].
  apply run_scenario_keeps; [lia|]. eauto with reader.
Qed.

Lemma EnqueueSlow_keeps session count : keeps_capacity (EnqueueSlow s session count).
Proof.
  unfold EnqueueSlow. destruct (validateCount _ _ _) as [k|e] eqn:Hv; [|apply keeps_adds0, adds_ret].
  apply validateCount_Ok in Hv; [|lia]. apply run_scenario_keeps; [lia|]. eauto with reader.
Qed.

Lemma CreateTask_keeps session input : keeps_capacity (CreateTask s session input).
Proof.
  unfold CreateTask. destruct (negb _); [apply keeps_adds0, adds_ret|].
  apply capacity_bind; [apply adds_reader; eauto with reader|]. intros now.
  destruct (normalizePayload _ _ _ _) as [p|e]; [|apply keeps_adds0, adds_ret].
  apply capacity_bind; [apply adds_reader; reader_walk|]. intros [|]; [apply keeps_adds0, adds_ret|].
  apply capacity_bind; [apply adds_reader; eauto with reader|]. intros key.
  destruct (match in_IdempotencyKey input with None => _ | Some _ => _ end) as [k|e]; [|apply keeps_adds0, adds_ret].
  apply keeps_ensureCapacity; [lia|]. apply Insert_adds.
Qed.

Lemma CancelOwned_keeps session id : keeps_capacity (CancelOwned session id).
Proof.
  apply keeps_adds0, (adds_try 0 0); [apply adds_reader; eauto with reader|]. intros [t|]; [|apply adds_ret].
  destruct (requireOwned _ _); [apply CancelTask_adds|apply adds_ret].
Qed.

Lemma RetryTask_gains id : gains (fun X => X = {[id]}) (RetryTask id).
Proof.
  intros o w Hd Htx HI. unfold RetryTask. wp_step. eapply wp_mono; [by apply RetryDead_gains|].
  intros [t|e] w' H; [wp_step|]; exact H.
Qed.

Lemma wp_GetStoredTask o id db met n :
  wp (GetStoredTask id) o (fun r w' => w' = mkWorld (ev_env (o n) db) None met (S n) /\
    forall t, r = Ok (Some t) -> exists row, tasks (w_db w') !! id = Some row /\
      t = scan_stored (r_payload row) row) (mkWorld db None met n).
Proof.
  unfold GetStoredTask. do 2 wp_step. apply wp_db_exec; [done| |intros; run; by split].
  cbn [sql_get_by_id]. split; intros; [|run; by split].
  destruct (tasks (ev_env (o n) db) !! id) as [row|] eqn:Hrow; run; split; try done.
  intros t [= <-]. eauto.
Qed.

(** A retry of a task that was not DEAD when it was read revives nothing: a
    live one counts already, a final one stays. *)
Lemma RetryTask_not_dead o w id row :
  drains o -> w_tx w = None -> Inv (w_db w) -> tasks (w_db w) !! id = Some row -> r_status row <> DEAD ->
  wp (RetryTask id) o (fun _ w' => w_tx w' = None /\ Inv (w_db w') /\ gained ∅ (w_db w) (w_db w')) w.
Proof.
  intros Hd Htx HI Hrow Hdead. destruct (RetryTask_gains id o w Hd Htx HI) as (Htx' & HI' & X & -> & Hg).
  unfold wp. split_and!; [done..|]. destruct (is_live row) eqn:Hlive.
  - assert (id ∈ live_ids (w_db w)) by (apply elem_of_live_ids; eauto). unfold gained in *. set_solver.
  - assert (r_status row = COMPLETED \/ r_status row = CANCELED) as Hfinal.
    { unfold is_live, has_status in Hlive. destruct (r_status row); naive_solver. }
    assert (refines (RetryTask id)) as Href.
    { apply refines_bind; [apply RetryDead_refines|]. intros [t|e]; apply refines_ret. }
    destruct (Href o w (proj1 Hd) Htx HI) as [Hsteps _].
    pose proof (db_steps_final _ _ id row Hsteps Hrow Hfinal) as Hsame.
    assert (id ∉ live_ids (w_db (RetryTask id o w).2)) as Hno.
    { intros (r & Hr & Hl)%elem_of_live_ids. unfold view in Hsame. simplify_eq. congruence. }
    unfold gained in *. set_solver.
Qed.

Lemma RetryOwned_keeps session id : keeps_capacity (RetryOwned s session id).
Proof.
  intros o w Hd Htx HI Hcap. wp_world w. destruct (drains_env o n db Hd HI) as [HI1 Hg1].
  apply gained_depth in Hg1. rewrite size_empty in Hg1.
  unfold RetryOwned. wp_step. eapply wp_mono; [apply wp_GetStoredTask|].
  assert (depth (ev_env (o n) db) <= pc_MaxPending (cfg s)) as Hcap1 by lia.
  intros [[t|]|e] w1 [-> Ht]; cbn beta iota; [|by wp_step|done].
  destruct (Ht t eq_refl) as (row & Hrow & ->). cbn [w_db] in Hrow.
  destruct (requireOwned _ _) as [[]|e]; [|by wp_step].
  cbn [scan_stored st_Status]. destruct (bool_decide _) eqn:Hs; bool_to_prop.
  - apply (keeps_ensureCapacity 1 (RetryTask id)); [lia| |done..].
    intros o' w' Hd' Htx' HI'. eapply wp_mono; [by apply RetryTask_gains|].
    intros a w'' (? & ? & X & -> & Hg). split_and!; [done..|]. exists {[id]}. by rewrite size_singleton.
  - do 2 wp_step. eapply wp_mono.
    + apply (RetryTask_not_dead _ _ id row Hd); [done..|]. intros Hdead. by rewrite Hdead in Hs.
    + intros a w2 (? & ? & Hg2). split_and!; [done..|]. apply gained_depth in Hg2. cbn [w_db] in Hg2.
      rewrite size_empty in Hg2. lia.
Qed.
End Capacity.

(** ** A race *)

(** A playground that admits one task. *)
Definition demo_env : Env := fun k =>
  if bool_decide (k = "DHARA_DATABASE_URL") then "postgres://localhost/dhara"
  else if bool_decide (k = "PLAYGROUND_MAX_PENDING") then "1" else EmptyString.
Definition demo_service : Service :=
  mkService (loadConfigRaw demo_env) (mkSnapshot 0 0 0 0 0 0 0 0 0 0 0) None.
Definition demo_input : CreateTaskInput := mkCreateTaskInput "echo" EmptyString None None None None.
Definition alice : string := canonical_text 7.
Definition bob : string := canonical_text 8.

#[local] Existing Instance demo_hasher.
#[local] Existing Instance rfc_uuid.

(** Alice's task is running. *)
#[local] Abbreviation alice_world :=
  (Claim "w-1" demo_oracle (CreateTask demo_service alice demo_input demo_oracle (world0 empty_db)).2).2.

(** Meanwhile its attempts run out and Bob creates a task of his own. *)
Definition bob_elsewhere (db : DB) : DB :=
  let o n := quiet_event (100 * Second) (N.of_nat (n + 100)) in
  w_db (CreateTask demo_service bob demo_input o (MarkDead 6 "w-1" "boom" "exhausted" o (world0 db)).2).2.

(** Event 11 reads Alice's task, event 12 begins the retry. *)
Definition retry_race : Oracle := fun n =>
  if (n =? 12)%nat then mkEvent bob_elsewhere ∅ (100 * Second) 0 0 0 NoFault else demo_oracle n.

(** [RetryOwned] decides by the status it read before it took the enqueue lock:
    a task that dies in between is revived without a capacity check, although
    another request has used the slot. *)
Theorem retry_race_exceeds_capacity :
  PlayConfig.Config_Validate (cfg demo_service) = Ok tt /\ pc_MaxPending (cfg demo_service) = 1 /\
  depth (w_db alice_world) = 1 /\ depth (bob_elsewhere (w_db alice_world)) = 1 /\
  (exists t, (RetryOwned demo_service alice 6 retry_race alice_world).1 = Ok t) /\
  depth (w_db (RetryOwned demo_service alice 6 retry_race alice_world).2) = 2.
Proof.
  split; [vm_compute; reflexivity|]. split; [vm_compute; reflexivity|]. split; [vm_compute; reflexivity|].
  split; [vm_compute; reflexivity|]. split; [eexists; vm_compute; reflexivity|]. vm_compute. reflexivity.
Qed.
