(* ===== verification/PlayIsolation.v ===== *)
(** PlayIsolation: what a playground session can do to, and learn about, the
    tasks of others.

    A task belongs to the session whose prefix its idempotency key carries.
    [spares session] relates two databases between which only tasks of that
    session changed; it is shown of every operation of the service, whatever
    calls fail. *)

From S2P Require Import Prelude Dharatype GoTime Float64 GoStrconv GoJson Metrics Pg PgLogic TaskStore.
From S2P Require Import Lifecycle StoreRefine StoreTheorems StoreSpec StoreContracts Client Worker.
From S2P Require Import WorkerRefine WorkerTheorems Server Config PlaySession PlayUuid PlayStore PlayConfig PlayService.
From S2P Require Import PlayReads PlayCapacity.
Open Scope dhara_scope.

Definition belongs (session : string) (r : Row) : bool :=
  keyBelongsToSession (r_idempotency_key r) session.

(** Every task but those of [mine] that does not belong to [session] is as it
    was: its row, its log and its dead letters. *)
Definition spares_but (mine : uuid -> Prop) (session : string) (db db' : DB) : Prop :=
  forall id, ~ mine id -> (forall r, tasks db' !! id = Some r -> belongs session r = false) ->
  view id db' = view id db.
Abbreviation spares := (spares_but (fun _ => False)).

(** Other sessions of the database follow the lifecycle and, like the service
    call, work on tasks of [session] only. *)
Definition spared_env (session : string) (o : Oracle) : Prop :=
  env_ok o /\ forall n db, spares session db (ev_env (o n) db).

Lemma quiet_spared session o : no_interference o -> spared_env session o.
Proof.
  intros Hq. split; [|by intros n db id _ _; rewrite Hq]. intros n db. rewrite Hq. apply rtc_refl.
Qed.

Section Spares.
Context (session : string).
Implicit Types (mine : uuid -> Prop).

Lemma spares_refl mine db : spares_but mine session db db.
Proof. by intros id _ _. Qed.

Lemma spares_trans mine db db1 db2 :
  spares_but mine session db db1 -> spares_but mine session db1 db2 -> spares_but mine session db db2.
Proof.
  intros H1 H2 id Hm Hf. pose proof (H2 id Hm Hf) as E2. rewrite E2. apply H1; [done|].
  intros r Hr. apply Hf. apply (f_equal v_row) in E2. unfold view in E2. cbn [v_row] in E2. by rewrite E2.
Qed.

Lemma spares_env mine o n db db' :
  spared_env session o -> spares_but mine session db db' -> spares_but mine session db (ev_env (o n) db').
Proof. intros [_ He] H. eapply spares_trans; [done|]. intros id _ Hf. apply He; [tauto|done]. Qed.

Lemma spares_writes mine ws db db' :
  Forall (fun w => mine (about w)) ws -> spares_but mine session db db' ->
  spares_but mine session db (apply_writes ws db').
Proof.
  intros Hws H. eapply spares_trans; [done|]. intros id Hm _. rewrite view_apply_writes.
  apply view_writes_other. eapply Forall_impl; [exact Hws|]. intros w Hw <-. done.
Qed.

(** A new task of the session. *)
Lemma spares_put r db db' : belongs session r = true -> spares session db db' ->
  spares session db (apply_writes [PutTask r] db').
Proof.
  intros Hb H. eapply spares_trans; [done|]. intros id _ Hf. rewrite view_apply_writes.
  apply view_writes_other. constructor; [|done]. simpl. intros <-.
  specialize (Hf r). simpl in Hf. rewrite lookup_insert_eq in Hf. specialize (Hf eq_refl). congruence.
Qed.

(** A task whose row belongs to the session needs no exception. *)
Lemma spares_mine id r db db' : spares_but (fun i => i = id) session db db' ->
  tasks db' !! id = Some r -> belongs session r = true -> spares session db db'.
Proof.
  intros H Hr Hb id' _ Hf. apply H; [|done]. intros ->. rewrite (Hf r Hr) in Hb. done.
Qed.

(** ** Programs *)

Definition isolated {A} (m : M A) : Prop :=
  forall o w, spared_env session o -> w_tx w = None -> Inv (w_db w) ->
  wp m o (fun _ w' => w_tx w' = None /\ Inv (w_db w') /\ rtc db_step (w_db w) (w_db w') /\
    spares session (w_db w) (w_db w')) w.

Lemma isolated_ret {A} (a : A) : isolated (ret a).
Proof. intros o w Ho Htx HI. apply wp_ret. split_and!; [done..| |apply spares_refl]. apply rtc_refl. Qed.

Lemma isolated_bind {A B} (m : M A) (k : A -> M B) :
  isolated m -> (forall x, isolated (k x)) -> isolated (bind m k).
Proof.
  intros Hm Hk o w Ho Htx HI. apply wp_bind. eapply wp_mono; [by apply Hm|].
  intros x w1 (Htx1 & HI1 & Hs1 & Hg1). eapply wp_mono; [by apply Hk|].
  intros y w2 (Htx2 & HI2 & Hs2 & Hg2).
  split_and!; [done..| |]; [by etrans|by eapply spares_trans].
Qed.

Lemma isolated_try {A B} (m : M (res A)) (k : A -> M (res B)) :
  isolated m -> (forall x, isolated (k x)) -> isolated (try m k).
Proof. intros Hm Hk. apply isolated_bind; [done|]. intros [x|e]; [apply Hk|apply isolated_ret]. Qed.

Lemma isolated_try_wrap {A B} p (m : M (res A)) (k : A -> M (res B)) :
  isolated m -> (forall x, isolated (k x)) -> isolated (try_wrap p m k).
Proof. intros Hm Hk. apply isolated_bind; [done|]. intros [x|e]; [apply Hk|apply isolated_ret]. Qed.

Lemma isolated_tick {A} (f : Oracle -> World -> A) : isolated (fun o w => (f o w, tick o w)).
Proof.
  intros o w Ho Htx HI. unfold wp, tick, pending. simpl. rewrite Htx. simpl.
  split_and!; [done|by apply env_ok_Inv; [apply Ho|]|apply Ho|apply Ho].
Qed.

Lemma isolated_db_exec {A} (st : Stmt A) : reads st -> isolated (db_exec st).
Proof.
  intros Hr o w Ho Htx HI. wp_world w.
  assert (Inv (ev_env (o n) db) /\ rtc db_step db (ev_env (o n) db) /\ spares session db (ev_env (o n) db)) as Hdone.
  { split_and!; [by apply env_ok_Inv; [apply Ho|]|apply Ho|apply Ho]. }
  apply wp_db_exec; [done| |intros; by split].
  destruct (st _ _ _) as [[a ws]|e] eqn:Hs; [|by split].
  apply Hr in Hs as ->. split; intros; by split.
Qed.

(** A refined operation whose runs spare all but the session's tasks. *)
Lemma isolated_intro {A} (m : M A) :
  refines m ->
  (forall o w, spared_env session o -> w_tx w = None -> Inv (w_db w) ->
     wp m o (fun _ w' => spares session (w_db w) (w_db w')) w) -> isolated m.
Proof.
  intros Hr Hs o w Ho Htx HI. destruct (Hr o w (proj1 Ho) Htx HI) as [Hsteps Htx'].
  unfold wp. split_and!; [done|by eapply db_steps_Inv|done|by apply Hs].
Qed.
End Spares.

#[export] Instance isolated_walk session : Walk (fun A => isolated session (A := A)).
Proof.
  split.
  - intros. by apply isolated_bind.
  - intros A f o w Ho Htx HI. unfold wp. simpl. split_and!; [done..|apply rtc_refl|apply spares_refl].
  - intros. apply isolated_tick.
  - intros. by apply isolated_db_exec.
Qed.

Lemma isolated_reader {A} session (m : M A) : reader m -> isolated session m.
Proof. intros Hm. by apply (walk_reader (fun A => isolated session (A := A))). Qed.

Ltac spare_leaf :=
  cbn beta iota; intros; cbn [w_db set_tx];
  repeat first [ apply spares_env; [assumption|] | apply spares_put; [done|]
               | apply spares_writes; [by repeat constructor|] ];
  apply spares_refl.

(** ** The calls of the service *)

Section Calls.
Context (session : string).

Lemma Create_isolated `{PayloadHasher} task :
  keyBelongsToSession (t_IdempotencyKey task) session = true -> isolated session (Create task).
Proof.
  intros Hkey. apply isolated_intro; [apply Create_refines|]. intros o w Ho Htx HI. wp_world w.
  unfold Create, CreateTx, insertTask. run; try spare_leaf.
  destruct (hashPayload _) as [h|e]; [|run; spare_leaf]. destruct (encodable task); [|run; spare_leaf]. run; try spare_leaf.
  destruct (sql_insert_task_cases (t_Type task) (t_Payload task) h (t_IdempotencyKey task)
    (t_Priority task) (t_MaxRetries task) (t_RunAt task) (ev_now (o n)) (o (S n))
    (ev_env (o (S n)) (ev_env (o n) db))) as [[m ->]|[(r & _ & ->)|(Hk & Hid & ->)]];
    cbn beta iota; autorewrite with dhara.
  - run; spare_leaf.
  - unfold getByTypeAndIdempotencyKey. run; try spare_leaf.
    cbn [sql_get_by_key]. destruct (head _); run; try spare_leaf. destruct (negb _); run; spare_leaf.
  - run; spare_leaf.
Qed.

(** [m] works on the task [id] only. *)
Definition works_on (id : uuid) {A} (m : M A) : Prop :=
  forall o w, spared_env session o -> w_tx w = None -> Inv (w_db w) ->
  wp m o (fun _ w' => spares_but (fun i => i = id) session (w_db w) (w_db w')) w.

Lemma Cancel_works_on id : works_on id (Cancel id).
Proof.
  intros o w Ho Htx HI. wp_world w. pose proof (proj1 Ho) as Henv.
  unfold Cancel, insertLog. run; try spare_leaf.
  update_cases sql_cancel r Hr Hp; run; try spare_leaf.
  - cbn [set_cancel set_updated_at set_status r_id]. rewrite ?Hid. after_put. run; spare_leaf.
  - apply wp_GetById; [naive_solver|intros|intros; spare_leaf]. destruct (_ <$> _); run; spare_leaf.
Qed.

Lemma RetryDead_works_on id : works_on id (RetryDead id).
Proof.
  intros o w Ho Htx HI. wp_world w. pose proof (proj1 Ho) as Henv.
  unfold RetryDead, insertLog. run; try spare_leaf.
  update_cases sql_retry_dead r Hr Hp; run; try spare_leaf.
  - cbn [sql_delete_dead_letters app]. run; try spare_leaf. after_put. run; spare_leaf.
  - apply wp_GetById; [naive_solver|intros|intros; spare_leaf]. destruct (_ <$> _); run; spare_leaf.
Qed.

Lemma belongs_identity r r' : identity r' = identity r -> belongs session r' = belongs session r.
Proof. unfold belongs, identity. by intros [= _ _ -> _ _ _ _ _]. Qed.

(** What [isolated] promises of a run from [w]. *)
Definition spared_post {A} (w : World) (_ : A) (w' : World) : Prop :=
  w_tx w' = None /\ Inv (w_db w') /\ rtc db_step (w_db w) (w_db w') /\ spares session (w_db w) (w_db w').

(** An operation on one task, when the task is the session's. *)
Lemma works_on_mine {A} id (m : M A) o w row :
  refines m -> works_on id m -> spared_env session o -> w_tx w = None -> Inv (w_db w) ->
  tasks (w_db w) !! id = Some row -> belongs session row = true -> wp m o (spared_post w) w.
Proof.
  intros Hr Hm Ho Htx HI Hrow Hb. destruct (Hr o w (proj1 Ho) Htx HI) as [Hsteps Htx'].
  destruct (db_steps_row _ _ _ _ Hsteps Hrow) as (row' & Hrow' & Hid).
  unfold wp, spared_post. split_and!; [done|by eapply db_steps_Inv|done|].
  eapply spares_mine; [by apply Hm|done|]. by rewrite (belongs_identity row).
Qed.

Lemma works_on_try {A B} id (m : M (res A)) (f : A -> B) :
  works_on id m -> works_on id (try m (fun x => ret (Ok (f x)))).
Proof.
  intros Hm o w Ho Htx HI. wp_step. eapply wp_mono; [by apply Hm|]. intros [a|e] w' H; [by wp_step|done].
Qed.

Lemma refines_try {A B} (m : M (res A)) (f : A -> B) : refines m -> refines (try m (fun x => ret (Ok (f x)))).
Proof. intros Hm. apply refines_bind; [done|]. intros [a|e]; apply refines_ret. Qed.

(** The owner check of [CancelOwned] and [RetryOwned]: what follows it may rely
    on the task being the session's, if nothing in between loses it. *)
Lemma owned_isolated {A} id (k : StoredTask -> M (res A)) :
  (forall row o w, spared_env session o -> w_tx w = None -> Inv (w_db w) ->
     tasks (w_db w) !! id = Some row -> belongs session row = true ->
     wp (k (scan_stored (r_payload row) row)) o (spared_post w) w) ->
  isolated session
    (t <-? GetStoredTask id;
     match t with
     | None => ret (Err ErrTaskNotFound)
     | Some t => match requireOwned (st_IdempotencyKey t) session with Err e => ret (Err e) | Ok _ => k t end
     end).
Proof.
  intros Hk o w Ho Htx HI. wp_world w. wp_step. eapply wp_mono; [apply wp_GetStoredTask|].
  assert (spared_post (mkWorld db None met n) tt (mkWorld (ev_env (o n) db) None met (S n))) as Hrd.
  { split_and!; [done|by apply env_ok_Inv; [apply Ho|]|apply Ho|apply Ho]. }
  intros [[t|]|e] w1 [-> Ht]; cbn beta iota; [|by wp_step|exact Hrd].
  destruct (Ht t eq_refl) as (row & Hrow & ->). cbn [w_db scan_stored st_IdempotencyKey] in Hrow |- *.
  unfold requireOwned. destruct (keyBelongsToSession _ _) eqn:Hb; cbn [negb]; [|by wp_step].
  destruct Hrd as (_ & HI1 & Hs1 & Hg1). cbn [w_db] in HI1, Hs1, Hg1.
  eapply wp_mono; [by eapply (Hk row)|]. intros a w2 (Htx2 & HI2 & Hs2 & Hg2). cbn [w_db] in Hs2, Hg2.
  split_and!; [done..| |]; [by etrans|by eapply spares_trans].
Qed.

Lemma CancelOwned_isolated id : isolated session (CancelOwned session id).
Proof.
  apply owned_isolated. intros row o w Ho Htx HI Hrow Hb.
  apply (works_on_mine id _ o w row); try done.
  - apply refines_try, Cancel_refines.
  - apply works_on_try, Cancel_works_on.
Qed.
End Calls.

(** What [isolated] means for the tasks before and after. *)
Lemma isolated_tasks {A} session (m : M A) o w :
  isolated session m -> spared_env session o -> idle w ->
  let db' := w_db (m o w).2 in
  (forall id row, tasks (w_db w) !! id = Some row -> belongs session row = false ->
     view id db' = view id (w_db w)) /\
  (forall id row, tasks db' !! id = Some row -> tasks (w_db w) !! id = None -> belongs session row = true).
Proof.
  intros Hm Ho [Htx HI] db'. destruct (Hm o w Ho Htx HI) as (_ & _ & Hsteps & Hs).
  fold db' in Hsteps, Hs. split.
  - intros id row Hrow Hb. apply Hs; [tauto|]. intros r' Hr'.
    destruct (db_steps_row _ _ _ _ Hsteps Hrow) as (r1 & Hr1 & Hid).
    assert (r' = r1) as -> by congruence. by rewrite (belongs_identity _ row).
  - intros id row Hrow Hnone. destruct (belongs session row) eqn:Hb; [done|].
    assert (view id db' = view id (w_db w)) as Heq by (apply Hs; [tauto|]; intros r' ?; by simplify_eq).
    apply (f_equal v_row) in Heq. unfold view in Heq. cbn [v_row] in Heq. congruence.
Qed.

(** ** The service *)

Section Service.
Context {hasher : PayloadHasher} {uuid_text : UUIDText} (s : Service) (session : string).
Hypothesis Hsession : session <> EmptyString.

Lemma sessionKey_mine suffix : keyBelongsToSession (Some (sessionKey session suffix)) session = true.
Proof.
  unfold keyBelongsToSession. rewrite bool_decide_false by done. apply HasPrefix_spec.
  exists suffix. unfold sessionKey. by rewrite !app_string_assoc.
Qed.

(** A key of the session: what [ownedKey] makes and [customKey] accepts. *)
Lemma Insert_isolated params suffix :
  p_IdempotencyKey params = Some (sessionKey session suffix) -> isolated session (Insert params).
Proof.
  intros Hkey. apply isolated_bind; [apply isolated_reader; eauto with reader|]. intros now. cbn zeta.
  destruct (Validate now (Normalize now params)) as [[]|e]; [|apply isolated_ret].
  apply isolated_try; [|intros; apply isolated_ret]. apply Create_isolated. cbn.
  rewrite Hkey. apply sessionKey_mine.
Qed.

(** A program after which a key of the session is known. *)
Lemma isolated_ownedKey_bind {A} (k : string -> M A) :
  (forall suffix, isolated session (k (sessionKey session suffix))) ->
  isolated session (bind (ownedKey session) k).
Proof.
  intros Hk o w Ho Htx HI. unfold ownedKey. apply wp_bind. wp_step. unfold wp, uuid_NewString. simpl.
  destruct (isolated_tick session (fun o w => uuid_String (ev_uuid (o (w_next w)))) o w Ho Htx HI)
    as (Htx1 & HI1 & Hs1 & Hg1). cbn [fst snd] in Htx1, HI1, Hs1, Hg1.
  destruct (Hk (uuid_String (ev_uuid (o (w_next w)))) o (tick o w) Ho Htx1 HI1) as (Htx2 & HI2 & Hs2 & Hg2).
  split_and!; [done..| |]; [by etrans|by eapply spares_trans].
Qed.

Lemma CreateTask_isolated input : isolated session (CreateTask s session input).
Proof.
  unfold CreateTask. destruct (negb _); [apply isolated_ret|].
  apply isolated_bind; [apply isolated_reader; eauto with reader|]. intros now.
  destruct (normalizePayload _ _ _ _) as [p|e]; [|apply isolated_ret].
  apply isolated_bind; [apply isolated_reader; reader_walk|]. intros [|]; [apply isolated_ret|].
  apply isolated_ownedKey_bind. intros suffix.
  destruct (in_IdempotencyKey input) as [k|].
  - destruct (customKey session k) as [full|e] eqn:Hc; [|apply isolated_ret].
    apply customKey_Ok in Hc as (_ & t & ->).
    apply isolated_try; [apply isolated_reader, ensureCapacity_reader|]. intros _. by eapply Insert_isolated.
  - apply isolated_try; [apply isolated_reader, ensureCapacity_reader|]. intros _. by eapply Insert_isolated.
Qed.

Lemma insert_isolated taskType payload maxRetries : isolated session (insert s session taskType payload maxRetries).
Proof.
  unfold insert. apply isolated_bind; [apply isolated_reader; eauto with reader|]. intros now.
  destruct (normalizePayload _ _ _ _) as [p|e]; [|apply isolated_ret].
  apply isolated_ownedKey_bind. intros suffix.
  apply isolated_try; [by eapply Insert_isolated|]. intros. apply isolated_ret.
Qed.

Lemma insert_all_isolated job n : (forall i, reader (job i)) ->
  forall i, isolated session (insert_all s session job i n).
Proof.
  intros Hjob. induction n as [|n IH]; intros i; [apply isolated_ret|].
  apply isolated_bind; [by apply isolated_reader|]. intros [[t p] r].
  apply isolated_try; [apply insert_isolated|]. intros task.
  apply isolated_try; [apply IH|]. intros. apply isolated_ret.
Qed.

Lemma run_scenario_isolated name job count : (forall i, reader (job i)) ->
  isolated session (run_scenario s name session job count).
Proof.
  intros Hjob. apply isolated_try; [apply isolated_reader, ensureCapacity_reader|]. intros _.
  apply isolated_try; [by apply insert_all_isolated|]. intros. apply isolated_ret.
Qed.

Lemma EnqueueBurst_isolated size : isolated session (EnqueueBurst s session size).
Proof.
  unfold EnqueueBurst. destruct (validateCount _ _ _); [|apply isolated_ret].
  apply run_scenario_isolated. eauto with reader.
Qed.
Lemma EnqueueFlaky_isolated req : isolated session (EnqueueFlaky s session req).
Proof.
  unfold EnqueueFlaky. destruct (validateCount _ _ _); [|apply isolated_ret]. cbn zeta.
  destruct (negb _ && negb _); [apply isolated_ret|]. destruct (_ || _); [apply isolated_ret|].
  apply run_scenario_isolated. eauto with reader.
Qed.
Lemma EnqueueSlow_isolated count : isolated session (EnqueueSlow s session count).
Proof.
  unfold EnqueueSlow. destruct (validateCount _ _ _); [|apply isolated_ret].
  apply run_scenario_isolated. eauto with reader.
Qed.

Lemma RetryOwned_isolated id : isolated session (RetryOwned s session id).
Proof.
  apply owned_isolated. intros row o w Ho Htx HI Hrow Hb. wp_step.
  assert (isolated session (if bool_decide (st_Status (scan_stored (r_payload row) row) = "DEAD")
    then ensureCapacity s 1 else ret (Ok tt))) as Hcheck.
  { case_bool_decide; [apply isolated_reader, ensureCapacity_reader|apply isolated_ret]. }
  eapply wp_mono; [by apply Hcheck|]. intros [[]|e] w1 (Htx1 & HI1 & Hs1 & Hg1); [|done].
  destruct (db_steps_row _ _ _ _ Hs1 Hrow) as (row1 & Hrow1 & Hid).
  eapply wp_mono.
  - apply (works_on_mine session id _ o w1 row1); try done.
    + apply refines_try, RetryDead_refines.
    + apply works_on_try, RetryDead_works_on.
    + by rewrite (belongs_identity _ row).
  - intros a w2 (Htx2 & HI2 & Hs2 & Hg2). split_and!; [done..| |]; [by etrans|by eapply spares_trans].
Qed.
End Service.

(** ** What a session is told *)

Section Told.
Context {uuid_text : UUIDText} (s : Service).

(** The error text of a task is shown to the session it belongs to only. *)
Definition told (session : string) (v : TaskView) : Prop :=
  tv_LastError v <> None -> keyBelongsToSession (tv_IdempotencyKey v) session = true.

Lemma views_rows (P : option string -> Prop) rows o w :
  Forall (fun r => P (r_idempotency_key r)) rows ->
  Forall (fun v => P (tv_IdempotencyKey v)) (views rows o w).1.
Proof.
  intros H. revert w. induction H as [|r rows Hr _ IH]; intros w; [by constructor|].
  simpl. unfold bind at 1. unfold time_Now at 1. unfold bind.
  destruct (views rows o (tick o w)) as [vs w'] eqn:Hv. simpl. constructor; [done|].
  specialize (IH (tick o w)). by rewrite Hv in IH.
Qed.

Lemma ListRecent_rows session status limit o db met n vs :
  (ListRecent session status limit o (mkWorld db None met n)).1 = Ok vs ->
  Forall (fun v => exists r, recent session status r = true /\ tv_IdempotencyKey v = r_idempotency_key r) vs.
Proof.
  revert vs. unfold ListRecent. cbn zeta.
  match goal with |- forall vs, (?m o ?w).1 = Ok vs -> _ =>
    change (wp m o (fun a _ => forall vs, a = Ok vs ->
      Forall (fun v => exists r, recent session status r = true /\ tv_IdempotencyKey v = r_idempotency_key r) vs) w) end.
  wp_step. apply wp_db_exec; [done| |by intros]. cbn [sql_list_recent]. split; [intros _|by intros].
  set (rows := take _ _). assert (Forall (fun r => recent session status r = true) rows) as Hrows.
  { apply Forall_take, Forall_forall. intros r Hr. rewrite merge_sort_Permutation in Hr.
    by apply elem_of_rows_where in Hr as [? _]. }
  wp_step. unfold wp at 1.
  pose proof (views_rows (fun k => exists r, recent session status r = true /\ k = r_idempotency_key r) rows o
    (mkWorld (apply_writes [] (ev_env (o n) db)) None met (S n))) as Hv.
  set (out := views _ _ _) in *. wp_step. unfold wp.
  destruct (db_fetch rows o out.2) as [[u|e] w'] eqn:Hf; cbn [fst snd]; [|by intros].
  cbn. intros vs [= <-]. apply Hv. eapply Forall_impl; [exact Hrows|]. intros r Hr. by exists r.
Qed.

Lemma recent_belongs session status r : canonical session ->
  recent session status r = true -> keyBelongsToSession (r_idempotency_key r) session = true.
Proof.
  intros Hs H. rewrite <- (recent_mine session r Hs). unfold recent in *.
  rewrite (bool_decide_true (EmptyString = EmptyString)) by done. apply andb_true_iff in H as [-> _]. done.
Qed.

(** A call that only consumes events outside transactions. *)
Lemma wp_QueueMetrics_tx o db met n :
  wp QueueMetrics o (fun _ w' => exists db', w' = mkWorld db' None met (S n)) (mkWorld db None met n).
Proof. eapply wp_mono; [apply wp_QueueMetrics|]. intros r w' [-> _]. eauto. Qed.

Lemma wp_get_Throughput_tx o db met n :
  wp get_Throughput o (fun _ w' => exists db', w' = mkWorld db' None met (S n)) (mkWorld db None met n).
Proof.
  unfold get_Throughput. do 2 wp_step. apply wp_db_exec; [done| |intros; eauto].
  cbn [sql_throughput]. split; intros; [wp_step|]; eauto.
Qed.

Lemma wp_ListRecent_told session status limit o db met n : canonical session \/ session = EmptyString ->
  wp (ListRecent session status limit) o (fun r _ => forall vs, r = Ok vs -> session <> EmptyString ->
    Forall (fun v => keyBelongsToSession (tv_IdempotencyKey v) session = true) vs) (mkWorld db None met n).
Proof.
  intros [Hs| ->]; [|by intros vs _ ?]. intros vs Hvs _. apply ListRecent_rows in Hvs.
  eapply Forall_impl; [exact Hvs|]. intros v (r & Hr & ->). by eapply recent_belongs.
Qed.

(** What a snapshot lists: everybody's tasks without their errors, or the
    session's own tasks. *)
Lemma get_Snapshot_told session scope status limit o db met n sn :
  canonical session \/ session = EmptyString ->
  (get_Snapshot s session scope status limit o (mkWorld db None met n)).1 = Ok sn ->
  (sn_Scope sn = "all" /\ Forall (fun v => tv_LastError v = None) (sn_Tasks sn)) \/
  (sn_Scope sn = "mine" /\ Forall (fun v => keyBelongsToSession (tv_IdempotencyKey v) session = true) (sn_Tasks sn)).
Proof.
  intros Hs. revert sn.
  match goal with |- forall sn, (?m o ?w).1 = Ok sn -> @?P sn =>
    change (wp m o (fun a _ => forall sn, a = Ok sn -> P sn) w) end. cbn beta.
  unfold get_Snapshot. cbn zeta. set (sc := if bool_decide (ToLower _ = _) then _ else _).
  destruct (negb _ && negb _) eqn:Hsc; [by wp_step|].
  destruct (bool_decide (sc = "mine") && bool_decide (session = EmptyString)) eqn:Hmine; [by wp_step|].
  destruct (negb (bool_decide (ToUpper _ ∈ _))); [by wp_step|].
  wp_step. eapply wp_mono; [apply wp_QueueMetrics_tx|]. intros [qm|e] w1 [db1 ->]; [|by intros].
  wp_step. eapply wp_mono; [apply wp_get_Throughput_tx|]. intros [tp|e] w2 [db2 ->]; [|by intros].
  wp_step. eapply wp_mono; [apply wp_ListRecent_told; case_bool_decide; tauto|]. intros [vs|e] w3 Hvs; [|by intros].
  specialize (Hvs vs eq_refl). unfold wp. intros sn Hsn.
  assert (sn_Scope sn = sc /\ sn_Tasks sn = if bool_decide (sc = "mine") then vs else map hide_error vs) as [-> ->].
  { revert Hsn. unfold try at 1. unfold bind at 1. destruct (ListRunning 32 o w3) as [[ls|e] w4]; [|by intros].
    unfold bind, ret. repeat (case_match; simpl); intros; by simplify_eq. }
  destruct (bool_decide (sc = "mine")) eqn:Hm.
  - right. cbn [andb] in Hmine. apply bool_decide_eq_true in Hm. apply bool_decide_eq_false in Hmine. by split; [|apply Hvs].
  - left. rewrite andb_true_r in Hsc. apply negb_false_iff, bool_decide_eq_true in Hsc.
    split; [done|]. by apply Forall_map, Forall_true.
Qed.

(** The crash demo in a snapshot is what its controller reports, to everybody. *)
Definition demo_reported (d : option CrashStatus) : Prop :=
  forall st, d = Some st -> exists c o w, crash s = Some c /\ Enabled c = true /\ st = (crash_Status c o w).1.

Lemma get_Snapshot_demo session scope status limit o w sn :
  (get_Snapshot s session scope status limit o w).1 = Ok sn -> demo_reported (sn_CrashDemo sn).
Proof.
  unfold get_Snapshot. cbn zeta. set (sc := if bool_decide (ToLower _ = _) then _ else _).
  destruct (negb _ && negb _); [done|]. destruct (bool_decide (sc = "mine") && _); [done|].
  destruct (negb (bool_decide (ToUpper _ ∈ _))); [done|].
  unfold try_wrap, try, bind, ret. destruct (QueueMetrics o w) as [[qm|e] w1]; [|done].
  destruct (get_Throughput o w1) as [[tp|e] w2]; [|done]. destruct (ListRecent _ _ _ o w2) as [[vs|e] w3]; [|done].
  destruct (ListRunning 32 o w3) as [[ls|e] w4]; [|done]. destruct (client_Metrics o w4) as [cm w5].
  destruct (time_Now o w5) as [now w6]. destruct (crash s) as [c|] eqn:Hc; [|by intros [= <-] st].
  destruct (Enabled c) eqn:He; [|by intros [= <-] st].
  destruct (crash_Status c o w6) as [st w7] eqn:Hst. intros [= <-] st' [= <-]. exists c, o, w6. by rewrite Hst.
Qed.

Lemma get_TaskDetail_told session id o db met n d :
  (get_TaskDetail session id o (mkWorld db None met n)).1 = Ok d ->
  exists row, tasks (ev_env (o n) db) !! id = Some row /\ tv_IdempotencyKey (td_Task d) = r_idempotency_key row /\
    td_Owned d = belongs session row /\
    (td_Owned d = false -> td_Payload d = None /\ td_Logs d = [] /\ tv_LastError (td_Task d) = None).
Proof.
  revert d.
  match goal with |- forall d, (?m o ?w).1 = Ok d -> @?P d =>
    change (wp m o (fun a _ => forall d, a = Ok d -> P d) w) end. cbn beta.
  unfold get_TaskDetail. wp_step. eapply wp_mono; [apply wp_GetStoredTask|].
  intros [[t|]|e] w1 [-> Ht]; [|by wp_step|by intros].
  destruct (Ht t eq_refl) as (row & Hrow & ->). cbn [w_db scan_stored st_IdempotencyKey] in *.
  do 2 wp_step. destruct (keyBelongsToSession _ _) eqn:Hb; cbn [negb].
  - unfold wp, try, bind. destruct (TaskLogs _ _ _ _) as [[ls|e] w']; [|by intros].
    intros d [= <-]. by exists row.
  - wp_step. intros d [= <-]. by exists row.
Qed.
End Told.

(** ** Concrete runs *)

#[local] Existing Instance demo_hasher.
#[local] Existing Instance rfc_uuid.

(** The playground with its default bounds. *)
Definition open_env : Env := fun k =>
  if bool_decide (k = "DHARA_DATABASE_URL") then "postgres://localhost/dhara" else EmptyString.
Definition open_service : Service :=
  mkService (loadConfigRaw open_env) (mkSnapshot 0 0 0 0 0 0 0 0 0 0 0) None.

(** Alice has a task. *)
#[local] Abbreviation shared_world := (CreateTask open_service alice demo_input demo_oracle (world0 empty_db)).2.

Lemma shared_world_idle : idle shared_world.
Proof.
  destruct (CreateTask_isolated open_service alice ltac:(vm_compute; discriminate) demo_input demo_oracle (world0 empty_db))
    as (Htx & HI & _); [apply quiet_spared, demo_oracle_calm|done|apply empty_db_Inv|done].
Qed.
