(* ===== verification/PlayHttp.v ===== *)
(** PlayHttp: the playground's HTTP API, [internal/playground/http.go].

    A handler takes the state of the three rate limiters and is a program that
    answers a response and their new state. What [net/http] and [encoding/json]
    make of a request is part of it: headers and remote address ([Request] of
    [PlaySession]), query parameters, the path's id as text, and what the two
    [Decode] calls of [decodeJSON] answer. [Routes] is the table of the mux. The
    text of the metrics pages is [MetricsText]'s; the mux itself, the web files,
    the security headers and the recovery of panics are [PlayMux]'s. *)

From S2P Require Import Prelude Dharatype GoTime Float64 GoStrconv GoJson Metrics Pg PgLogic TaskStore.
From S2P Require Import Lifecycle StoreRefine StoreTheorems StoreSpec StoreContracts Client Worker.
From S2P Require Import WorkerRefine WorkerTheorems Server Config PlaySession PlayUuid RateLimiter PlayStore.
From S2P Require Import PlayConfig PlayService PlayReads PlayCapacity PlayIsolation.
Open Scope dhara_scope.

(** ** Requests and responses *)

Definition StatusAccepted : Z := 202.
Definition StatusRequestEntityTooLarge : Z := 413.
Definition StatusTooManyRequests : Z := 429.
Definition StatusServiceUnavailable : Z := 503.

Inductive PlayBody : Type :=
  | PErrorBody (message : string)
  | PRateBody (message : string) (retry_after_sec : Z)
  | PLiveBody (uptime_s : Z)
  | PReadyBody (uptime_s latency_ms : Z)
  | PNotReadyBody
  | PTaskBody (task : Task)
  | PListBody (tasks : list Task) (limit offset total : Z)
  | PRunningBody (message status : string)
  | PSnapshotBody (snap : Snapshot)
  | PDetailBody (detail : TaskDetail)
  | PScenarioBody (result : ScenarioResult)
  | PCrashBody (status : CrashStatus).

(** A response: the status code, the [Retry-After] header and the body. *)
Record PlayResponse := mkPlayResponse { p_code : Z; p_retry_after : option Z; p_body : PlayBody }.

(** Why a [Decode] of a body behind [http.MaxBytesReader] fails. *)
Inductive DecodeError : Type :=
  | MaxBytesError
  | DecodeEOF
  | DecodeInvalid.

(** A body as [decodeJSON] meets it: what the first [Decode] answers, and the
    second, which must find the end of the body. *)
Record Decoding (A : Type) := mkDecoding {
  dc_first : result DecodeError A;
  dc_second : result DecodeError unit
}.
Arguments mkDecoding {A}.
Arguments dc_first {A}.
Arguments dc_second {A}.

(** A body that is drained: its error, if any. *)
Definition Drained : Type := result DecodeError unit.

(** ** The server *)

Record HTTPServer := mkHTTPServer {
  h_cfg : PlayConfig.Config;
  h_play : Service;
  h_startedAt : Z
}.

Record Limiters := mkLimiters {
  readLimiter : RateLimiter;
  mutationLimiter : RateLimiter;
  sessionLimiter : RateLimiter
}.

Definition NewHTTPServer (c : PlayConfig.Config) (play : Service) (startedAt : Z) : HTTPServer * Limiters :=
  (mkHTTPServer c play startedAt,
   mkLimiters (NewRateLimiter (pc_ReadRateLimitPerMin c) (pc_ReadRateLimitBurst c))
     (NewRateLimiter (pc_RateLimitPerMinute c) (pc_RateLimitBurst c))
     (NewRateLimiter (pc_SessionRatePerMinute c) (pc_SessionRateBurst c))).

Definition Handler : Type := Limiters -> M (PlayResponse * Limiters).

Definition writeJSON (status : Z) (b : PlayBody) : PlayResponse := mkPlayResponse status None b.
Definition writeError (status : Z) (message : string) : PlayResponse := writeJSON status (PErrorBody message).
Definition respond (r : PlayResponse) : Handler := fun l => ret (r, l).

(** [call m k]: a call from a handler. *)
Definition call {A} (m : M A) (k : A -> Handler) : Handler := fun l => a <- m; k a l.

Definition writeRetryAfter (wait : Z) : PlayResponse :=
  let secs := to_int (Seconds wait) in
  let secs := if secs <? 1 then 1 else secs in
  mkPlayResponse StatusTooManyRequests (Some secs) (PRateBody "rate limit exceeded; slow down and try again" secs).

Definition decodeJSON {A} (maxBytes : Z) (d : Decoding A) : res A :=
  match dc_first d with
  | Err MaxBytesError =>
      Err (StatusError StatusRequestEntityTooLarge
        ("request body must not exceed " +:+ itoa maxBytes +:+ " bytes"))
  | Err _ => Err (StatusError StatusBadRequest "request body must be valid JSON")
  | Ok v =>
      match dc_second d with
      | Err DecodeEOF => Ok v
      | _ => Err (StatusError StatusBadRequest "request body must contain a single JSON object")
      end
  end.

Definition writeStatusError (err : error) : PlayResponse :=
  match errors_As_Status err with
  | Some (c, message) => writeError c message
  | None => writeError StatusBadRequest (Error err)
  end.

Definition TrimPrefix (s prefix : string) : string :=
  match strip_prefix prefix s with Some t => t | None => s end.

Definition writeServiceError (err : error) : PlayResponse :=
  if errors_Is err ErrQueueFull then
    mkPlayResponse StatusTooManyRequests (Some 5) (PErrorBody (Error err))
  else if errors_Is err ErrSessionRequired then writeError StatusBadRequest (Error err)
  else if errors_Is err ErrTaskConflict then
    writeError StatusConflict "idempotency key reused with a different payload"
  else if errors_Is err ErrBadRequest then
    writeError StatusBadRequest (TrimPrefix (Error err) (Error ErrBadRequest +:+ ": "))
  else match errors_As_Validation err with
       | Some verr => writeError StatusBadRequest (Error verr)
       | None =>
           match errors_As_Status err with
           | Some (c, message) => writeError c message
           | None => writeError StatusInternalServerError "request failed"
           end
       end.

Definition writeScenarioResult (r : res ScenarioResult) : PlayResponse :=
  match r with
  | Err err => writeServiceError err
  | Ok result => writeJSON StatusOK (PScenarioBody result)
  end.

Definition sanitizeTask (t : Task) : Task :=
  mkTask (ID t) (Type_ t) (Status t) (Priority t) (Attempts t) (MaxRetries t) (RunAt t) None
    (StartedAt t) (CompletedAt t) None (CreatedAt t) (UpdatedAt t).

(** What [handleCreateTask], [handleDeleteTask] and [handleRetryTask] make of
    the service's answer. *)
Definition createResponse (r : res EnqueueResult) : PlayResponse :=
  match r with
  | Err err => writeServiceError err
  | Ok result => writeJSON (if er_Duplicate result then StatusOK else StatusCreated) (PTaskBody (er_Task result))
  end.

Definition deleteResponse (r : res Task) : PlayResponse :=
  match r with
  | Err err =>
      if errors_Is err ErrNotOwned || errors_Is err ErrTaskNotFound
      then writeError StatusNotFound "task not found"
      else writeError StatusInternalServerError "failed to cancel task"
  | Ok task =>
      if bool_decide (Status task = status_text RUNNING) then
        writeJSON StatusConflict (PRunningBody "task is currently running and cannot be canceled" (Status task))
      else writeJSON StatusOK (PTaskBody task)
  end.

Definition retryResponse (r : res Task) : PlayResponse :=
  match r with
  | Err err =>
      if errors_Is err ErrNotOwned || errors_Is err ErrTaskNotFound
      then writeError StatusNotFound "task not found"
      else if errors_Is err ErrTaskNotDead then writeError StatusConflict "task is not in DEAD status"
      else writeError StatusInternalServerError "failed to retry task"
  | Ok task => writeJSON StatusOK (PTaskBody task)
  end.

(** ** Handlers *)

Section Handlers.
Context {hasher : PayloadHasher} {uuid_text : UUIDText} (s : HTTPServer).

Definition allowRead (r : Request) (next : Handler) : Handler := fun l =>
  now <- time_Now;
  let '((ok, wait), rl) := Allow now ("ip:" +:+ requestIP r (pc_TrustProxy (h_cfg s))) (readLimiter l) in
  let l := mkLimiters rl (mutationLimiter l) (sessionLimiter l) in
  if ok then next l else ret (writeRetryAfter wait, l).

Definition checkMutation (r : Request) (next : string -> Handler) : Handler := fun l =>
  now <- time_Now;
  let '((ok, wait), ml) := Allow now ("ip:" +:+ requestIP r (pc_TrustProxy (h_cfg s))) (mutationLimiter l) in
  let l := mkLimiters (readLimiter l) ml (sessionLimiter l) in
  if negb ok then ret (writeRetryAfter wait, l)
  else match SessionFromRequest r with
       | Err err => ret (writeError StatusBadRequest (Error err), l)
       | Ok session =>
           now <- time_Now;
           let '((ok, wait), sl) := Allow now ("session:" +:+ session) (sessionLimiter l) in
           let l := mkLimiters (readLimiter l) (mutationLimiter l) sl in
           if ok then next session l else ret (writeRetryAfter wait, l)
       end.

(** [time.Since(s.startedAt).Seconds()], as an integer. *)
Definition uptime (now : Z) : Z := to_int (Seconds (now - h_startedAt s)).

Definition handleLive : Handler :=
  call time_Now (fun now => respond (writeJSON StatusOK (PLiveBody (uptime now)))).

(** [pool.Ping]: an empty statement. *)
Definition Ping : M (res unit) := db_exec (fun _ _ _ => Ok (tt, [])).

Definition handleReady : Handler :=
  call time_Now (fun start =>
  call Ping (fun r =>
  match r with
  | Err _ => respond (writeJSON StatusServiceUnavailable PNotReadyBody)
  | Ok _ =>
      call time_Now (fun now1 => call time_Now (fun now2 =>
        respond (writeJSON StatusOK (PReadyBody (uptime now1) (Milliseconds (now2 - start))))))
  end)).

(** The filter of a list request, or the message of a bad request. *)
Definition parseListQuery (q : string -> string) : result string TaskListFilter :=
  let status := if bool_decide (q "status" = EmptyString) then EmptyString else ToUpper (TrimSpace (q "status")) in
  if negb (bool_decide (q "status" = EmptyString)) &&
     negb (bool_decide (status ∈ ["PENDING"; "RUNNING"; "COMPLETED"; "CANCELED"; "DEAD"]))
  then Err "status must be a valid task status"
  else
  match (if bool_decide (q "retrying" = EmptyString) then Ok None
         else match ParseBool (q "retrying") with
              | Some b => Ok (Some b)
              | None => Err "retrying must be true or false"
              end) with
  | Err msg => Err msg
  | Ok retrying =>
  match (if bool_decide (q "limit" = EmptyString) then Ok 20
         else match Atoi (q "limit") with
              | Some n => if n <? 1 then Err "limit must be a positive integer" else Ok (Z.min n 100)
              | None => Err "limit must be a positive integer"
              end) with
  | Err msg => Err msg
  | Ok limit =>
  match (if bool_decide (q "offset" = EmptyString) then Ok 0
         else match Atoi (q "offset") with
              | Some n => if n <? 0 then Err "offset must be a non-negative integer" else Ok n
              | None => Err "offset must be a non-negative integer"
              end) with
  | Err msg => Err msg
  | Ok offset => Ok (mkFilter status (q "type") retrying limit offset)
  end
  end
  end.

Definition handleListTasks (r : Request) (q : string -> string) : Handler :=
  allowRead r
  match parseListQuery q with
  | Err msg => respond (writeError StatusBadRequest msg)
  | Ok filter =>
      call (ListTasks filter) (fun res =>
      match res with
      | Err _ => respond (writeError StatusInternalServerError "failed to list tasks")
      | Ok (tasks, total) =>
          respond (writeJSON StatusOK (PListBody (map sanitizeTask tasks) (f_Limit filter) (f_Offset filter) total))
      end)
  end.

Definition handleCreateTask (r : Request) (d : Decoding CreateTaskInput) : Handler :=
  checkMutation r (fun session =>
  match decodeJSON (pc_MaxBodyBytes (h_cfg s)) d with
  | Err err => respond (writeStatusError err)
  | Ok input =>
      call (CreateTask (h_play s) session input) (fun res => respond (createResponse res))
  end).

Definition handleGetTask (r : Request) (path : string) : Handler :=
  allowRead r
  match uuid_Parse path with
  | None => respond (writeError StatusBadRequest "invalid task id")
  | Some id =>
      call (GetTask id) (fun res =>
      match res with
      | Err err =>
          if errors_Is err ErrTaskNotFound then respond (writeError StatusNotFound "task not found")
          else respond (writeError StatusInternalServerError "failed to get task")
      | Ok task => respond (writeJSON StatusOK (PTaskBody (sanitizeTask task)))
      end)
  end.

Definition handleDeleteTask (r : Request) (path : string) : Handler :=
  checkMutation r (fun session =>
  match uuid_Parse path with
  | None => respond (writeError StatusBadRequest "invalid task id")
  | Some id =>
      call (CancelOwned session id) (fun res => respond (deleteResponse res))
  end).

Definition handleRetryTask (r : Request) (path : string) : Handler :=
  checkMutation r (fun session =>
  match uuid_Parse path with
  | None => respond (writeError StatusBadRequest "invalid task id")
  | Some id =>
      call (RetryOwned (h_play s) session id) (fun res => respond (retryResponse res))
  end).

Definition handleSnapshot (r : Request) (q : string -> string) : Handler :=
  allowRead r
  match (if bool_decide (q "scope" = "mine") then SessionFromRequest r else Ok EmptyString) with
  | Err err => respond (writeError StatusBadRequest (Error err))
  | Ok session =>
      match (if bool_decide (q "limit" = EmptyString) then Some 100
             else match Atoi (q "limit") with
                  | Some n => if (n <? 1) || (200 <? n) then None else Some n
                  | None => None
                  end) with
      | None => respond (writeError StatusBadRequest "limit must be between 1 and 200")
      | Some limit =>
          call (get_Snapshot (h_play s) session (q "scope") (q "status") limit) (fun res =>
          match res with
          | Err err => respond (writeServiceError err)
          | Ok snap => respond (writeJSON StatusOK (PSnapshotBody snap))
          end)
      end
  end.

Definition handleTaskDetail (r : Request) (path : string) : Handler :=
  allowRead r
  match uuid_Parse path with
  | None => respond (writeError StatusBadRequest "invalid task id")
  | Some id =>
      let session := match SessionFromRequest r with Ok session => session | Err _ => EmptyString end in
      call (get_TaskDetail session id) (fun res =>
      match res with
      | Err err =>
          if errors_Is err ErrTaskNotFound then respond (writeError StatusNotFound "task not found")
          else respond (writeError StatusInternalServerError "failed to load task")
      | Ok detail => respond (writeJSON StatusOK (PDetailBody detail))
      end)
  end.

(** The bodies of the scenario handlers: decode, enqueue, answer. *)
Definition handleScenario {A} (r : Request) (d : Decoding A) (enqueue : string -> A -> M (res ScenarioResult)) : Handler :=
  checkMutation r (fun session =>
  match decodeJSON (pc_MaxBodyBytes (h_cfg s)) d with
  | Err err => respond (writeStatusError err)
  | Ok req => call (enqueue session req) (fun res => respond (writeScenarioResult res))
  end).

Definition handleBurst (r : Request) (d : Decoding Z) : Handler := handleScenario r d (EnqueueBurst (h_play s)).
Definition handleFlaky (r : Request) (d : Decoding FlakyRequest) : Handler := handleScenario r d (EnqueueFlaky (h_play s)).
Definition handleSlow (r : Request) (d : Decoding Z) : Handler := handleScenario r d (EnqueueSlow (h_play s)).

(** [drainBoundedBody]: the response that refuses the body, if any. *)
Definition drainBoundedBody (d : Drained) : option PlayResponse :=
  match d with
  | Ok _ => None
  | Err MaxBytesError =>
      Some (writeError StatusRequestEntityTooLarge
        ("request body must not exceed " +:+ itoa (pc_MaxBodyBytes (h_cfg s)) +:+ " bytes"))
  | Err _ => Some (writeError StatusBadRequest "failed to read request body")
  end.

Definition handleCrash (r : Request) (d : Drained) : Handler :=
  checkMutation r (fun session =>
  match drainBoundedBody d with
  | Some resp => respond resp
  | None =>
      call (StartCrashDemo (h_play s) session) (fun res =>
      match res with
      | Err err =>
          if errors_Is err ErrCrashDisabled then respond (writeError StatusNotFound "crash demo is disabled")
          else if errors_Is err ErrCrashBusy then respond (writeError StatusConflict (Error err))
          else respond (writeError StatusInternalServerError "failed to start crash demo")
      | Ok status => respond (writeJSON StatusAccepted (PCrashBody status))
      end)
  end).

(** ** Routes *)

Inductive Route : Type :=
  | GetLivez
  | GetReadyz
  | GetTasks (q : string -> string)
  | PostTasks (d : Decoding CreateTaskInput)
  | GetTaskPath (id : string)
  | DeleteTaskPath (id : string)
  | PostRetry (id : string)
  | GetSnapshot (q : string -> string)
  | GetDetail (id : string)
  | PostBurst (d : Decoding Z)
  | PostFlaky (d : Decoding FlakyRequest)
  | PostSlow (d : Decoding Z)
  | PostCrash (d : Drained).

Definition Routes (route : Route) (r : Request) : Handler :=
  match route with
  | GetLivez => handleLive
  | GetReadyz => handleReady
  | GetTasks q => handleListTasks r q
  | PostTasks d => handleCreateTask r d
  | GetTaskPath id => handleGetTask r id
  | DeleteTaskPath id => handleDeleteTask r id
  | PostRetry id => handleRetryTask r id
  | GetSnapshot q => handleSnapshot r q
  | GetDetail id => handleTaskDetail r id
  | PostBurst d => handleBurst r d
  | PostFlaky d => handleFlaky r d
  | PostSlow d => handleSlow r d
  | PostCrash d => handleCrash r d
  end.

(** Routes that only read. *)
Definition is_read (route : Route) : bool :=
  match route with
  | GetLivez | GetReadyz | GetTasks _ | GetTaskPath _ | GetSnapshot _ | GetDetail _ => true
  | _ => false
  end.

(** Requests served one after the other. *)
Fixpoint serve (reqs : list (Route * Request)) (l : Limiters) : M (list PlayResponse * Limiters) :=
  match reqs with
  | [] => ret ([], l)
  | (route, r) :: rest =>
      a <- Routes route r l;
      b <- serve rest a.2;
      ret (a.1 :: b.1, b.2)
  end.
End Handlers.

(** ** Properties of the API from properties of the service *)

Section Walk.
Context {hasher : PayloadHasher} {uuid_text : UUIDText} (s : HTTPServer).
Context (P : forall A, M A -> Prop) `{!Walk P}.
Abbreviation keeps m := (P _ m).

(** What a request may make the service do, by the session it carries. *)
Record calls_keep (r : Request) : Prop := mkCallsKeep {
  ck_Status c : crash (h_play s) = Some c -> keeps (crash_Status c);
  ck_Create session input : SessionFromRequest r = Ok session -> keeps (CreateTask (h_play s) session input);
  ck_Cancel session id : SessionFromRequest r = Ok session -> keeps (CancelOwned session id);
  ck_Retry session id : SessionFromRequest r = Ok session -> keeps (RetryOwned (h_play s) session id);
  ck_Burst session n : SessionFromRequest r = Ok session -> keeps (EnqueueBurst (h_play s) session n);
  ck_Flaky session req : SessionFromRequest r = Ok session -> keeps (EnqueueFlaky (h_play s) session req);
  ck_Slow session n : SessionFromRequest r = Ok session -> keeps (EnqueueSlow (h_play s) session n);
  ck_Crash session : SessionFromRequest r = Ok session -> keeps (StartCrashDemo (h_play s) session)
}.

Lemma Ping_reader : reader Ping.
Proof. apply reader_exec, reads_pure. Qed.

Lemma walk_respond resp l : keeps (respond resp l).
Proof. exact (walk_ret P _). Qed.

Lemma walk_call {A} (m : M A) k l : keeps m -> (forall a, keeps (k a l)) -> keeps (call m k l).
Proof. apply walk_bind. Qed.

Lemma walk_allowRead r next l : (forall l, keeps (next l)) -> keeps (allowRead s r next l).
Proof.
  intros Hn. apply walk_bind; [apply (walk_time_Now P)|]. intros now.
  destruct (Allow _ _ _) as [[[|] wait] rl]; [apply Hn|apply (walk_ret P)].
Qed.

Lemma walk_checkMutation r next l :
  (forall session l, SessionFromRequest r = Ok session -> keeps (next session l)) ->
  keeps (checkMutation s r next l).
Proof.
  intros Hn. apply walk_bind; [apply (walk_time_Now P)|]. intros now.
  destruct (Allow _ _ _) as [[[|] wait] rl]; [|apply (walk_ret P)]. cbn [negb].
  destruct (SessionFromRequest r) as [session|e]; [|apply (walk_ret P)].
  apply walk_bind; [apply (walk_time_Now P)|]. intros now'.
  destruct (Allow _ _ _) as [[[|] wait'] sl]; [by apply Hn|apply (walk_ret P)].
Qed.

Ltac walk :=
  repeat first
    [ progress intros | apply walk_respond | apply walk_call
    | match goal with |- keeps (match ?x with _ => _ end _) => destruct x end
    | by eauto using ck_Create, ck_Cancel, ck_Retry, ck_Burst, ck_Flaky, ck_Slow, ck_Crash
    | by apply walk_reader; eauto using GetTask_reader, ListTasks_reader, get_TaskDetail_reader, Ping_reader with reader ].

Lemma walk_Scenario {A} r (d : Decoding A) enqueue l :
  (forall session req, SessionFromRequest r = Ok session -> keeps (enqueue session req)) ->
  keeps (handleScenario s r d enqueue l).
Proof. intros He. apply walk_checkMutation. intros session l' Hs. walk. Qed.

Lemma walk_handleSnapshot r q l :
  (forall c, crash (h_play s) = Some c -> keeps (crash_Status c)) -> keeps (handleSnapshot s r q l).
Proof.
  intros Hc. apply walk_allowRead. intros l'.
  destruct (if bool_decide (q "scope" = "mine") then _ else _) as [session|e]; [|apply walk_respond].
  destruct (if bool_decide (q "limit" = EmptyString) then _ else _); [|apply walk_respond].
  apply walk_call; [|walk]. by apply get_Snapshot_walk.
Qed.

Lemma walk_read_Routes route r l : is_read route = true ->
  (forall c, crash (h_play s) = Some c -> keeps (crash_Status c)) -> keeps (Routes s route r l).
Proof.
  intros Hr Hc. destruct route; try done; cbn [Routes].
  - walk.
  - unfold handleReady. walk.
  - apply walk_allowRead. walk.
  - apply walk_allowRead. walk.
  - by apply walk_handleSnapshot.
  - apply walk_allowRead. walk.
Qed.

Lemma walk_Routes route r l : calls_keep r -> keeps (Routes s route r l).
Proof.
  intros Hc. destruct (is_read route) eqn:Hr; [by apply walk_read_Routes, (ck_Status r Hc)|].
  destruct route; try done; cbn [Routes]; first [apply walk_Scenario; walk|apply walk_checkMutation; walk].
Qed.

Lemma walk_serve reqs l : Forall (fun q => calls_keep q.2) reqs -> keeps (serve s reqs l).
Proof.
  intros H. revert l. induction H as [|[route r] reqs Hr _ IH]; intros l; cbn [serve]; [apply (walk_ret P)|].
  apply walk_bind; [by apply walk_Routes|]. intros a. apply walk_bind; [apply IH|]. intros b. apply (walk_ret P).
Qed.
End Walk.

(** ** Isolation and capacity of the whole API *)

Section Api.
Context {hasher : PayloadHasher} {uuid_text : UUIDText} (s : HTTPServer).

#[local] Instance capacity_walk : Walk (fun A => keeps_capacity (h_play s) (A := A)).
Proof.
  split.
  - intros A B m k Hm Hk o w Hd Htx HI Hcap. apply wp_bind. eapply wp_mono; [by apply Hm|].
    intros a w1 (? & ? & ?). by apply Hk.
  - intros. apply keeps_adds0, (walk_look (P := fun A => adds 0 (A := A))).
  - intros. apply keeps_adds0, adds_tick.
  - intros. by apply keeps_adds0, adds_db_exec.
Qed.

(** The crash demo works on a schema of its own, and starts nothing in ours. *)
Definition separate_crash : Prop := forall c, crash (h_play s) = Some c ->
  (forall session, isolated session (crash_Status c) /\ forall u, isolated session (crash_Start c u)) /\
  adds 0 (crash_Status c) /\ forall u, adds 0 (crash_Start c u).

Lemma isolated_calls session r : separate_crash -> canonical session ->
  (forall u, SessionFromRequest r = Ok u -> u = session) ->
  calls_keep s (fun A => isolated session (A := A)) r.
Proof.
  intros Hc Hcan Hr. pose proof (canonical_nonempty _ Hcan) as Hne.
  split; intros; try match goal with H : SessionFromRequest r = Ok _ |- _ => apply Hr in H as -> end.
  - by apply (Hc c).
  - by apply CreateTask_isolated.
  - apply CancelOwned_isolated.
  - by apply RetryOwned_isolated.
  - by apply EnqueueBurst_isolated.
  - by apply EnqueueFlaky_isolated.
  - by apply EnqueueSlow_isolated.
  - unfold StartCrashDemo. destruct (crash (h_play s)) as [c|] eqn:Hcr; [|apply isolated_ret].
    destruct (Enabled c); [apply (Hc c Hcr)|apply isolated_ret].
Qed.

Lemma capacity_calls r : separate_crash -> 1 <= pc_MaxBatch (cfg (h_play s)) ->
  calls_keep s (fun A => keeps_capacity (h_play s) (A := A)) r.
Proof.
  intros Hc Hb. split; intros.
  - by apply keeps_adds0, (Hc c).
  - apply CreateTask_keeps.
  - apply CancelOwned_keeps.
  - apply RetryOwned_keeps.
  - by apply EnqueueBurst_keeps.
  - apply EnqueueFlaky_keeps.
  - apply EnqueueSlow_keeps.
  - apply keeps_adds0. unfold StartCrashDemo. destruct (crash (h_play s)) as [c|] eqn:Hcr; [|apply adds_ret].
    destruct (Enabled c); [apply (Hc c Hcr)|apply adds_ret].
Qed.

(** C28: A session of the playground changes its own tasks only. Whatever
    requests it sends, with its session header or without any valid one, and
    whatever calls fail, the row, the log and the dead letters of every task that
    is not the session's stay as they are, and every task the requests add is the
    session's. *)
Theorem requests_isolated session reqs l o w :
  separate_crash -> canonical session ->
  Forall (fun q => forall u, SessionFromRequest q.2 = Ok u -> u = session) reqs ->
  spared_env session o -> idle w ->
  let db' := w_db (serve s reqs l o w).2 in
  (forall id row, tasks (w_db w) !! id = Some row -> belongs session row = false ->
     view id db' = view id (w_db w)) /\
  (forall id row, tasks db' !! id = Some row -> tasks (w_db w) !! id = None -> belongs session row = true).
Proof.
  intros Hc Hcan Hreqs Ho Hw. apply isolated_tasks; [|done..].
  apply (walk_serve s (fun A => isolated session (A := A))).
  eapply Forall_impl; [exact Hreqs|]. intros q Hq. by apply isolated_calls.
Qed.

(** C30: The playground's queue stays within its bound when requests are served
    one after the other: whatever they ask and whatever calls fail, the number of
    PENDING and RUNNING tasks never exceeds MaxPending, as long as the other
    sessions of the database only work tasks off. *)
Theorem capacity_respected reqs l o w :
  separate_crash -> PlayConfig.Config_Validate (cfg (h_play s)) = Ok tt -> drains o -> idle w ->
  depth (w_db w) <= pc_MaxPending (cfg (h_play s)) ->
  depth (w_db (serve s reqs l o w).2) <= pc_MaxPending (cfg (h_play s)).
Proof.
  intros Hc Hv Hd [Htx HI] Hcap. apply PlayConfig.Config_Validate_Ok in Hv as (_ & _ & (Hb & _) & _).
  apply (walk_serve s (fun A => keeps_capacity (h_play s) (A := A)) reqs l); try done.
  apply Forall_true. intros q. apply capacity_calls; [done|lia].
Qed.
End Api.

(** ** Refused requests *)

(** When the answer of [m] is [bad], the database is as before. *)
Definition harmless {A} (bad : A -> Prop) (m : M A) : Prop :=
  forall o w, no_interference o -> no_lost_ack o -> idle w -> bad (m o w).1 -> w_db (m o w).2 = w_db w.

Lemma harmless_bind {A B} (bad : B -> Prop) (m : M A) (k : A -> M B) :
  still m -> (forall a, harmless bad (k a)) -> harmless bad (bind m k).
Proof.
  intros Hm Hk o w Hq Ha Hw. unfold bind. destruct (Hm o w Hq Hw) as [Hdb Htx].
  destruct (m o w) as [a w1]. cbn [snd] in *. intros Hbad. rewrite (Hk a o w1 Hq Ha); [done| |done].
  split; [done|]. rewrite Hdb. apply Hw.
Qed.

Lemma harmless_still {A} (bad : A -> Prop) (m : M A) : still m -> harmless bad m.
Proof. intros Hm o w Hq Ha Hw _. by apply Hm. Qed.

(** The last call of a handler: a bad response only from a bad answer. *)
Lemma harmless_answer {A B} (bad : A -> Prop) (bad' : B -> Prop) (m : M A) (f : A -> B) :
  harmless bad m -> (forall a, bad' (f a) -> bad a) -> harmless bad' (bind m (fun a => ret (f a))).
Proof.
  intros Hm Hf o w Hq Ha Hw. unfold bind. specialize (Hm o w Hq Ha Hw). destruct (m o w) as [a w1]. cbn. auto.
Qed.

Abbreviation is_error := (fun r => exists e, r = Err e).

Lemma fails_safely_harmless {A} (m : M (res A)) : fails_safely m -> harmless is_error m.
Proof. intros Hm o w Hq Ha Hw [e He]. by eapply Hm. Qed.

Lemma harmless_try {A B} (m : M (res A)) (k : A -> M (res B)) (bad : res B -> Prop) :
  still m -> (forall a, harmless bad (k a)) -> harmless bad (try m k).
Proof.
  intros Hm Hk. apply harmless_bind; [done|]. intros [a|e]; [apply Hk|].
  apply harmless_still, (still_reader (ret (Err e))), reader_ret.
Qed.

Lemma harmless_ret {A} (bad : A -> Prop) (a : A) : harmless bad (ret a).
Proof. apply harmless_still, still_reader, reader_ret. Qed.

Section Refused.
Context {hasher : PayloadHasher} {uuid_text : UUIDText} (s : HTTPServer).

Lemma Insert_harmless params : harmless is_error (Insert params).
Proof.
  apply harmless_bind; [apply still_reader, reader_time_Now|]. intros now. cbn zeta.
  destruct (Validate _ _); [|apply harmless_ret].
  apply fails_safely_harmless. intros o w Hq Ha Hw e. unfold try, bind.
  pose proof (Create_fails_safely (toStoreTask (Normalize now params)) o w Hq Ha Hw) as Hc.
  destruct (Create _ o w) as [[c|e'] w']; [done|]. intros _. by eapply Hc.
Qed.

Lemma CreateTask_harmless session input : harmless is_error (CreateTask (h_play s) session input).
Proof.
  unfold CreateTask. destruct (negb _); [apply harmless_ret|].
  apply harmless_bind; [apply still_reader, reader_time_Now|]. intros now.
  destruct (normalizePayload _ _ _ _); [|apply harmless_ret].
  apply harmless_bind; [apply still_reader; reader_walk|]. intros [|]; [apply harmless_ret|].
  apply harmless_bind; [apply still_reader, ownedKey_reader|]. intros key.
  destruct (match in_IdempotencyKey input with None => _ | Some _ => _ end); [|apply harmless_ret].
  apply harmless_try; [apply still_reader, ensureCapacity_reader|]. intros _. apply Insert_harmless.
Qed.

Lemma RetryTask_harmless id : harmless is_error (RetryTask id).
Proof.
  apply fails_safely_harmless. intros o w Hq Ha Hw e. unfold RetryTask, try, bind.
  pose proof (RetryDead_fails_safely id o w Hq Ha Hw) as Hc.
  destruct (RetryDead id o w) as [[c|e'] w']; [done|]. intros _. by eapply Hc.
Qed.

(** A cancellation that answers a RUNNING task has changed nothing either. *)
Definition not_canceled (r : res Task) : Prop :=
  match r with Err _ => True | Ok t => Status t = status_text RUNNING end.

Lemma CancelTask_harmless id : harmless not_canceled (CancelTask id).
Proof.
  intros o w Hquiet Hack [Htx HInv]. wp_world w.
  match goal with |- not_canceled (?m o ?w).1 -> _ = ?db =>
    change (wp m o (fun r w' => not_canceled r -> w_db w' = db) w) end.
  unfold CancelTask, Cancel, insertLog. quiet_run.
  quiet_update sql_cancel r Hr; quiet_run.
  - cbn [set_cancel set_updated_at set_status r_id]. after_put. quiet_run.
  - destruct (_ <$> _); quiet_run.
Qed.

Definition refused (a : PlayResponse * Limiters) : Prop := 400 <= p_code a.1.

Lemma harmless_allowRead r next l :
  (forall l, harmless refused (next l)) -> harmless refused (allowRead s r next l).
Proof.
  intros Hn. apply harmless_bind; [apply still_reader, reader_time_Now|]. intros now.
  destruct (Allow _ _ _) as [[[|] wait] rl]; [apply Hn|apply harmless_ret].
Qed.

Lemma harmless_checkMutation r next l :
  (forall session l, harmless refused (next session l)) -> harmless refused (checkMutation s r next l).
Proof.
  intros Hn. apply harmless_bind; [apply still_reader, reader_time_Now|]. intros now.
  destruct (Allow _ _ _) as [[[|] wait] rl]; [|apply harmless_ret]. cbn [negb].
  destruct (SessionFromRequest r) as [session|e]; [|apply harmless_ret].
  apply harmless_bind; [apply still_reader, reader_time_Now|]. intros now'.
  destruct (Allow _ _ _) as [[[|] wait'] sl]; [apply Hn|apply harmless_ret].
Qed.

(** The last call of a handler, whose response is a function of the answer. *)
Lemma harmless_call {A} (bad : A -> Prop) (m : M A) (f : A -> PlayResponse) l :
  harmless bad m -> (forall a, 400 <= p_code (f a) -> bad a) ->
  harmless refused (call m (fun a => respond (f a)) l).
Proof. intros Hm Hf. apply (harmless_answer bad); [done|]. intros a. apply Hf. Qed.

Lemma owned_harmless {A} (bad : res A -> Prop) session id (k : StoredTask -> M (res A)) :
  (forall t, harmless bad (k t)) ->
  harmless bad
    (t <-? GetStoredTask id;
     match t with
     | None => ret (Err ErrTaskNotFound)
     | Some t => match requireOwned (st_IdempotencyKey t) session with Err e => ret (Err e) | Ok _ => k t end
     end).
Proof.
  intros Hk. apply harmless_try; [apply still_reader, GetStoredTask_reader|].
  intros [t|]; [|apply harmless_ret]. destruct (requireOwned _ _); [apply Hk|apply harmless_ret].
Qed.

Lemma handleCreateTask_harmless r d l : harmless refused (handleCreateTask s r d l).
Proof.
  apply harmless_checkMutation. intros session l'. destruct (decodeJSON _ _) as [input|e]; [|apply harmless_ret].
  apply (harmless_call is_error _ createResponse); [apply CreateTask_harmless|].
  intros [er|e]; [|by eauto]. cbn. destruct (er_Duplicate er); unfold StatusOK, StatusCreated; lia.
Qed.

Lemma handleDeleteTask_harmless r path l : harmless refused (handleDeleteTask s r path l).
Proof.
  apply harmless_checkMutation. intros session l'. destruct (uuid_Parse path) as [id|]; [|apply harmless_ret].
  apply (harmless_call not_canceled _ deleteResponse).
  - apply owned_harmless. intros t. apply CancelTask_harmless.
  - intros [t|e]; [|done]. cbn. case_bool_decide; [done|]. cbn. unfold StatusOK. lia.
Qed.

Lemma handleRetryTask_harmless r path l : harmless refused (handleRetryTask s r path l).
Proof.
  apply harmless_checkMutation. intros session l'. destruct (uuid_Parse path) as [id|]; [|apply harmless_ret].
  apply (harmless_call is_error _ retryResponse).
  - apply owned_harmless. intros t. apply harmless_try; [|intros; apply RetryTask_harmless].
    apply still_reader. case_bool_decide; [apply ensureCapacity_reader|apply reader_ret].
  - intros [t|e]; [|by eauto]. cbn. unfold StatusOK. lia.
Qed.

(** Routes that enqueue several tasks, or start the crash demo. *)
Definition is_scenario (route : Route) : bool :=
  match route with PostBurst _ | PostFlaky _ | PostSlow _ | PostCrash _ => true | _ => false end.

(** C31: A request about a single task that is answered with an error status
    (limited, invalid, foreign, absent, in conflict, full or failed) has changed
    nothing in the database, provided that no call takes effect while the driver
    reports it as failed and that no other session writes meanwhile. *)
Theorem refused_requests_change_nothing route r l o w :
  is_scenario route = false -> (forall c, crash (h_play s) = Some c -> still (crash_Status c)) ->
  no_interference o -> no_lost_ack o -> idle w ->
  400 <= p_code (Routes s route r l o w).1.1 -> w_db (Routes s route r l o w).2 = w_db w.
Proof.
  intros Hroute Hcrash Hq Ha Hw Hcode. revert Hq Ha Hw Hcode.
  enough (harmless refused (Routes s route r l)) as H by apply H.
  destruct (is_read route) eqn:Hr.
  - apply harmless_still. by apply (walk_read_Routes s (fun A => still (A := A))).
  - destruct route; try done; cbn [Routes];
      [apply handleCreateTask_harmless|apply handleDeleteTask_harmless|apply handleRetryTask_harmless].
Qed.
End Refused.

(** ** What responses disclose *)

Section Private.
Context {hasher : PayloadHasher} {uuid_text : UUIDText} (s : HTTPServer).

(** The session a request acts for, empty without a valid header. *)
Definition requester (r : Request) : string :=
  match SessionFromRequest r with Ok session => session | Err _ => EmptyString end.

Definition anonymous (t : Task) : Prop := IdempotencyKey t = None /\ LastError t = None.

Definition private_body (session : string) (b : PlayBody) : Prop :=
  match b with
  | PTaskBody t => anonymous t
  | PListBody ts _ _ _ => Forall anonymous ts
  | PSnapshotBody sn => Forall (told session) (sn_Tasks sn) /\ demo_reported (h_play s) (sn_CrashDemo sn)
  | PDetailBody d =>
      told session (td_Task d) /\
      td_Owned d = keyBelongsToSession (tv_IdempotencyKey (td_Task d)) session /\
      (td_Owned d = false -> td_Payload d = None /\ td_Logs d = [])
  | _ => True
  end.

Definition discreet (session : string) (h : Handler) : Prop := forall l o w, w_tx w = None ->
  private_body session (p_body (h l o w).1.1).

Lemma discreet_respond session resp : private_body session (p_body resp) -> discreet session (respond resp).
Proof. by intros H l o w _. Qed.

Lemma discreet_allowRead session r h : discreet session h -> discreet session (allowRead s r h).
Proof.
  intros Hh l o w Htx. unfold allowRead, bind, time_Now.
  destruct (Allow _ _ _) as [[[|] wait] rl]; [|done]. apply Hh. done.
Qed.

(** The response depends on the answer of the last call only. *)
Lemma discreet_call {A} session (m : M A) (k : A -> Handler) :
  (forall o w a, w_tx w = None -> (m o w).1 = a -> exists resp, k a = respond resp /\ private_body session (p_body resp)) ->
  discreet session (call m k).
Proof.
  intros H l o w Htx. unfold call, bind. destruct (m o w) as [a w1] eqn:Hm.
  destruct (H o w a Htx) as (resp & -> & Hp); [by rewrite Hm|done].
Qed.

Lemma requester_canonical r : canonical (requester r) \/ requester r = EmptyString.
Proof.
  unfold requester. destruct (SessionFromRequest r) eqn:Hs; [left|by right]. by eapply SessionFromRequest_canonical.
Qed.

(** Without a session every task is foreign. *)
Lemma told_nobody session v : told EmptyString v -> told session v.
Proof. unfold told, keyBelongsToSession. intros H Herr. specialize (H Herr). by destruct (tv_IdempotencyKey v). Qed.

Lemma handleSnapshot_discreet r q : discreet (requester r) (handleSnapshot s r q).
Proof.
  apply discreet_allowRead.
  destruct (if bool_decide (q "scope" = "mine") then _ else _) as [session|e] eqn:Hs; [|by apply discreet_respond].
  destruct (if bool_decide (q "limit" = EmptyString) then _ else _) as [limit|]; [|by apply discreet_respond].
  apply discreet_call. intros o w a Htx Ha. destruct a as [sn|e].
  - eexists. split; [done|]. cbn.
    assert (canonical session \/ session = EmptyString) as Hcan.
    { case_bool_decide; [left; by eapply SessionFromRequest_canonical|right; congruence]. }
    pose proof (get_Snapshot_demo _ _ _ _ _ _ _ _ Ha) as Hdemo. split; [|exact Hdemo].
    destruct w as [db tx met n]. cbn in Htx. subst tx.
    apply get_Snapshot_told in Ha; [|done].
    assert (Forall (told session) (sn_Tasks sn)) as Htold.
    { destruct Ha as [[_ H]|[_ H]]; (eapply Forall_impl; [exact H|]); unfold told; naive_solver. }
    destruct (bool_decide (q "scope" = "mine")).
    + unfold requester. by rewrite Hs.
    + injection Hs as <-. eapply Forall_impl; [exact Htold|]. intros v. apply told_nobody.
  - eexists. split; [done|]. unfold writeServiceError. repeat case_match; done.
Qed.

Lemma handleTaskDetail_discreet r path : discreet (requester r) (handleTaskDetail s r path).
Proof.
  apply discreet_allowRead. destruct (uuid_Parse path) as [id|]; [|by apply discreet_respond].
  apply discreet_call. fold (requester r). intros o w [d|e] Htx Ha.
  - eexists. split; [done|]. cbn. destruct w as [db tx met n]. cbn in Htx. subst tx.
    apply get_TaskDetail_told in Ha as (row & _ & Hk & Ho & Hh). unfold told, belongs in *. rewrite Hk.
    split_and!; [|done|naive_solver]. intros Herr. rewrite <- Ho. destruct (td_Owned d); naive_solver.
  - case_match; by eexists.
Qed.

End Private.

(** ** Status codes *)

Section Status.
Context {hasher : PayloadHasher} {uuid_text : UUIDText} (s : HTTPServer) (o : Oracle) (w : World).
Hypothesis (Hcalm : calm o) (Hidle : idle w).

(** Both limiters let the request of [session] pass. *)
Definition admitted (r : Request) (session : string) (l : Limiters) (t1 t2 : Z) : Prop :=
  (Allow t1 ("ip:" +:+ requestIP r (pc_TrustProxy (h_cfg s))) (mutationLimiter l)).1.1 = true /\
  (Allow t2 ("session:" +:+ session) (sessionLimiter l)).1.1 = true.

Lemma tick_calm w' : w_tx w' = None -> tick o w' = bump w'.
Proof. intros Htx. unfold tick, pending, bump. by rewrite Htx, (proj2 Hcalm). Qed.

Lemma checkMutation_admitted r session next l :
  SessionFromRequest r = Ok session ->
  admitted r session l (ev_now (o (w_next w))) (ev_now (o (S (w_next w)))) ->
  exists l', checkMutation s r next l o w = next session l' o (bump (bump w)).
Proof.
  intros Hs [H1 H2]. unfold checkMutation, bind, time_Now. rewrite !tick_calm by apply Hidle.
  destruct (Allow _ _ _) as [[ok wait] ml]. cbn in H1. subst ok. cbn [negb]. rewrite Hs.
  rewrite tick_calm by apply Hidle. cbn [mutationLimiter sessionLimiter readLimiter bump w_next].
  destruct (Allow _ _ _) as [[ok wait2] sl]. cbn in H2. subst ok. eauto.
Qed.
End Status.

Section Owned.
Context {hasher : PayloadHasher} {uuid_text : UUIDText} (s : Service) (o : Oracle) (w : World).
Hypothesis (Hcalm : calm o) (Hidle : idle w).

Lemma GetStoredTask_calm id :
  GetStoredTask id o w = (Ok ((fun row => scan_stored (r_payload row) row) <$> tasks (w_db w) !! id), bump w).
Proof.
  unfold GetStoredTask, one_row, bind, db_exec. rewrite tick_calm by (done || apply Hidle).
  rewrite (proj1 Hcalm). cbn [sql_get_by_id bump w_db]. by destruct (tasks (w_db w) !! id).
Qed.

(** What [CancelOwned] answers. *)
Lemma CancelOwned_calm session id :
  (CancelOwned session id o w).1 =
  match tasks (w_db w) !! id with
  | None => Err ErrTaskNotFound
  | Some row =>
      if belongs session row
      then Ok (newTask (if decide (r_status row = PENDING)
                        then scan_public (set_cancel (ev_now (o (S (w_next w)))) row) else scan_GetById row))
      else Err (Annotated ErrNotOwned (Error ErrNotOwned))
  end.
Proof.
  unfold CancelOwned, try at 1, bind. rewrite GetStoredTask_calm.
  destruct (tasks (w_db w) !! id) as [row|] eqn:Hrow; cbn [fmap option_fmap option_map]; [|done]. cbn [scan_stored st_IdempotencyKey].
  unfold requireOwned, belongs. destruct (keyBelongsToSession _ _); [|done]. cbn [negb].
  pose proof (CancelTask_calm id o (bump w) Hcalm Hidle) as Hc. cbn [bump w_db w_next] in Hc.
  rewrite Hrow in Hc. by destruct (decide (r_status row = PENDING)); destruct Hc as [-> _].
Qed.

Lemma ensureCapacity_calm w' n : idle w' ->
  ensureCapacity s n o w' =
  (if pc_MaxPending (cfg s) <? depth (w_db w') + n then Err ErrQueueFull else Ok tt, bump w').
Proof.
  clear w Hidle. intros Hidle. rename w' into w.
  pose proof (wp_QueueMetrics o (w_db w) (w_metrics w) (w_next w)) as H.
  replace (mkWorld (w_db w) None (w_metrics w) (w_next w)) with w in H
    by (destruct w, Hidle as [Htx _]; cbn in *; by subst).
  unfold ensureCapacity, try_wrap, bind. unfold wp in H.
  assert (exists qm, (QueueMetrics o w).1 = Ok qm) as [qm Hqm].
  { unfold QueueMetrics, GetQueueDBMetrics, one_row, try, try_wrap, bind, db_exec.
    rewrite (proj1 Hcalm). cbn. eauto. }
  destruct (QueueMetrics o w) as [r w']. cbn [fst snd] in *. destruct H as [-> H]. subst r.
  cbn [ret]. rewrite (H qm eq_refl). cbn [w_db]. rewrite (proj2 Hcalm).
  unfold bump. rewrite (proj1 Hidle). by destruct (_ <? _).
Qed.

(** What [RetryOwned] answers. *)
Lemma RetryOwned_calm session id :
  (RetryOwned s session id o w).1 =
  match tasks (w_db w) !! id with
  | None => Err ErrTaskNotFound
  | Some row =>
      if negb (belongs session row) then Err (Annotated ErrNotOwned (Error ErrNotOwned))
      else if decide (r_status row = DEAD) then
        if pc_MaxPending (cfg s) <? depth (w_db w) + 1 then Err ErrQueueFull
        else Ok (newTask (scan_public (set_retry_dead (ev_now (o (S (S (w_next w))))) row)))
      else Err ErrTaskNotDead
  end.
Proof.
  unfold RetryOwned, try at 1, bind. rewrite GetStoredTask_calm.
  destruct (tasks (w_db w) !! id) as [row|] eqn:Hrow; cbn [fmap option_fmap option_map]; [|done].
  cbn [scan_stored st_IdempotencyKey st_Status].
  unfold requireOwned, belongs. destruct (keyBelongsToSession _ _); [|done]. cbn [negb].
  assert (bool_decide (status_text (r_status row) = "DEAD") = bool_decide (r_status row = DEAD)) as ->.
  { apply bool_decide_ext. split; [by destruct (r_status row)|by intros ->]. }
  destruct (decide (r_status row = DEAD)) as [Hd|Hd];
    [rewrite bool_decide_true by done|rewrite bool_decide_false by done].
  - unfold try, bind. rewrite ensureCapacity_calm by done. cbn [bump w_db].
    destruct (_ <? _); [done|].
    pose proof (RetryTask_calm id o (bump (bump w)) Hcalm Hidle) as Hc. cbn [bump w_db w_next] in Hc.
    rewrite Hrow, decide_True in Hc by done. by destruct Hc as [-> _].
  - unfold try, bind, ret.
    pose proof (RetryTask_calm id o (bump w) Hcalm Hidle) as Hc. cbn [bump w_db w_next] in Hc.
    rewrite Hrow, decide_False in Hc by done. by destruct Hc as [-> _].
Qed.
End Owned.

Section OwnedStatus.
Context {hasher : PayloadHasher} {uuid_text : UUIDText} (s : HTTPServer) (o : Oracle) (w : World).

Lemma call_code {A} (m : M A) (f : A -> PlayResponse) l w' :
  p_code (call m (fun a => respond (f a)) l o w').1.1 = p_code (f (m o w').1).
Proof. unfold call, bind. by destruct (m o w'). Qed.

(** Status codes of cancelling and retrying in the playground, for a
    request that passes the limiters and names its session and a task id. A task
    of another session looks like an absent one: 404. An own RUNNING task cannot
    be canceled (409), every other own task answers 200; an own task that is not
    DEAD cannot be retried (409), a DEAD one answers 200 if the queue has room,
    and 500 if it is full. *)
Theorem owned_task_status r session path id l :
  calm o -> idle w -> SessionFromRequest r = Ok session -> uuid_Parse path = Some id ->
  admitted s r session l (ev_now (o (w_next w))) (ev_now (o (S (w_next w)))) ->
  let own := match tasks (w_db w) !! id with
             | Some row => if belongs session row then Some row else None
             | None => None
             end in
  p_code (handleDeleteTask s r path l o w).1.1 =
    match own with
    | None => 404
    | Some row => if decide (r_status row = RUNNING) then 409 else 200
    end /\
  p_code (handleRetryTask s r path l o w).1.1 =
    match own with
    | None => 404
    | Some row =>
        if decide (r_status row = DEAD)
        then if depth (w_db w) <? pc_MaxPending (cfg (h_play s)) then 200 else 500
        else 409
    end.
Proof.
  intros Hcalm Hidle Hs Hid Hadm own. unfold handleDeleteTask, handleRetryTask. rewrite Hid. split.
  - destruct (checkMutation_admitted s o w Hcalm Hidle r session
      (fun session => call (CancelOwned session id) (fun a => respond (deleteResponse a))) l Hs Hadm) as [l' ->].
    rewrite call_code, CancelOwned_calm by done. cbn [bump w_db w_next]. subst own.
    destruct (tasks (w_db w) !! id) as [row|]; [|done]. destruct (belongs session row); [|done].
    destruct (decide (r_status row = PENDING)) as [Hp|Hp]; [by rewrite decide_False by congruence|].
    cbn. by destruct (r_status row).
  - destruct (checkMutation_admitted s o w Hcalm Hidle r session
      (fun session => call (RetryOwned (h_play s) session id) (fun a => respond (retryResponse a))) l Hs Hadm) as [l' ->].
    rewrite call_code, RetryOwned_calm by done. cbn [bump w_db w_next]. subst own.
    destruct (tasks (w_db w) !! id) as [row|]; [|done]. destruct (belongs session row); [|done]. cbn [negb].
    destruct (decide (r_status row = DEAD)); [|done].
    destruct (Z.ltb_spec (pc_MaxPending (cfg (h_play s))) (depth (w_db w) + 1));
      destruct (Z.ltb_spec (depth (w_db w)) (pc_MaxPending (cfg (h_play s)))); done || lia.
Qed.
End OwnedStatus.

(** ** Concrete runs *)

#[local] Existing Instance demo_hasher.
#[local] Existing Instance rfc_uuid.

Definition open_server : HTTPServer * Limiters := NewHTTPServer (cfg open_service) open_service 0.
Definition small_server : HTTPServer * Limiters := NewHTTPServer (cfg demo_service) demo_service 0.
Definition request_of (session : string) : Request := mkRequest session EmptyString "203.0.113.9:4711".
Definition posted : Route := PostTasks (mkDecoding (Ok demo_input) (Err DecodeEOF)).

(** Alice has a task, number 6; Bob creates one and tries to cancel and to retry
    hers. *)
#[local] Abbreviation shared_world := (CreateTask open_service alice demo_input demo_oracle (world0 empty_db)).2.
Definition bob_requests : list (Route * Request) :=
  [(posted, request_of bob); (DeleteTaskPath (canonical_text 6), request_of bob);
   (PostRetry (canonical_text 6), request_of bob); (GetDetail (canonical_text 6), request_of bob)].

Lemma bob_canonical : canonical bob.
Proof. exists 8%N. by split. Qed.

Lemma requests_isolated_witness :
  map p_code (serve open_server.1 bob_requests open_server.2 demo_oracle shared_world).1.1 = [201; 404; 404; 200] /\
  view 6 (w_db (serve open_server.1 bob_requests open_server.2 demo_oracle shared_world).2) = view 6 (w_db shared_world).
Proof.
  split; [vm_compute; reflexivity|].
  assert (exists row, tasks (w_db shared_world) !! 6%N = Some row /\ belongs bob row = false) as (row & Hrow & Hb)
    by (eexists; split; vm_compute; reflexivity).
  assert (Forall (fun q => forall u, SessionFromRequest q.2 = Ok u -> u = bob) bob_requests) as Hreqs.
  { assert (SessionFromRequest (request_of bob) = Ok bob) as Hs by (vm_compute; reflexivity).
    repeat constructor; intros u; cbn [snd]; rewrite Hs; congruence. }
  destruct (requests_isolated open_server.1 bob bob_requests open_server.2 demo_oracle shared_world) as [H _];
    [by intros c|apply bob_canonical|exact Hreqs|apply quiet_spared, demo_oracle_calm|exact shared_world_idle|].
  exact (H 6%N row Hrow Hb).
Defined.

(** A playground that admits one task. *)
Lemma capacity_respected_witness :
  let reqs := [(posted, request_of alice); (posted, request_of bob)] in
  map p_code (serve small_server.1 reqs small_server.2 demo_oracle (world0 empty_db)).1.1 = [201; 429] /\
  depth (w_db (serve small_server.1 reqs small_server.2 demo_oracle (world0 empty_db)).2) <= 1.
Proof.
  intros reqs. split; [vm_compute; reflexivity|].
  apply (capacity_respected small_server.1 reqs small_server.2 demo_oracle (world0 empty_db));
    [by intros c|vm_compute; reflexivity| |split; [done|apply empty_db_Inv]|vm_compute; discriminate].
  split; [apply demo_oracle_env_ok|]. intros n db. set_solver.
Defined.


Lemma refused_requests_change_nothing_witness :
  let run := Routes open_server.1 (DeleteTaskPath (canonical_text 6)) (request_of bob) open_server.2 demo_oracle shared_world in
  p_code run.1.1 = 404 /\ w_db run.2 = w_db shared_world.
Proof.
  intros run. assert (p_code run.1.1 = 404) as Hc by (vm_compute; reflexivity). split; [exact Hc|].
  apply (refused_requests_change_nothing open_server.1); [done|by intros c|apply demo_oracle_calm| |exact shared_world_idle|].
  - intros n m. rewrite (proj1 demo_oracle_calm). discriminate.
  - subst run. rewrite Hc. lia.
Defined.

Lemma owned_task_status_witness :
  p_code (handleDeleteTask open_server.1 (request_of alice) (canonical_text 6) open_server.2 demo_oracle shared_world).1.1 = 200 /\
  p_code (handleDeleteTask open_server.1 (request_of bob) (canonical_text 6) open_server.2 demo_oracle shared_world).1.1 = 404.
Proof.
  assert (uuid_Parse (canonical_text 6) = Some 6%N) as Hid by (vm_compute; reflexivity). split.
  - assert (SessionFromRequest (request_of alice) = Ok alice) as Hs by (vm_compute; reflexivity).
    rewrite (proj1 (owned_task_status open_server.1 demo_oracle shared_world (request_of alice) alice
      (canonical_text 6) 6 open_server.2 demo_oracle_calm shared_world_idle Hs Hid (conj eq_refl eq_refl))).
    vm_compute. reflexivity.
  - assert (SessionFromRequest (request_of bob) = Ok bob) as Hs by (vm_compute; reflexivity).
    rewrite (proj1 (owned_task_status open_server.1 demo_oracle shared_world (request_of bob) bob
      (canonical_text 6) 6 open_server.2 demo_oracle_calm shared_world_idle Hs Hid (conj eq_refl eq_refl))).
    vm_compute. reflexivity.
Defined.
