(* ===== verification/PlayCrash.v ===== *)
(** PlayCrash: the crash demonstration of the playground,
    [internal/playground/crash.go].

    The manager runs against a schema of its own; a [World] of this file is that
    schema. Besides the database it talks to the operating system: [System]
    answers its calls that start, kill and look for the child process, and tells
    whether the child has exited, or the manager was closed, since the last of
    them. A demo waits in polling loops; what its [select]s receive is a list of
    [Wake]s, which ends with the deadline.

    A demo runs as a goroutine between [Start] and the end of [runDemo]; the
    manager's mutex makes every access to its status atomic, so that a demo, the
    reads of its status and refused starts interleave as sequences of these
    operations. *)

From S2P Require Import Prelude Dharatype GoTime Float64 GoStrconv GoJson Metrics Pg PgLogic TaskStore.
From S2P Require Import Lifecycle StoreRefine StoreTheorems StoreSpec StoreContracts Client Worker.
From S2P Require Import WorkerRefine WorkerTheorems Config PlaySession PlayUuid PlayStore PlayConfig PlayService.
From S2P Require Import PlayReads PlayCapacity PlayIsolation.
Open Scope dhara_scope.

(** ** The operating system *)

Record SysEvent := mkSysEvent {
  se_exited : bool;          (* the child exited and was waited for *)
  se_closed : bool;          (* the manager's context is cancelled *)
  se_fail : option string;   (* the call fails *)
  se_hangs : bool            (* a killed child does not exit within 3 seconds *)
}.
Definition System : Type := nat -> SysEvent.

(** ** The manager *)

(** [m_proc] is the child's handle, [m_calls] the number of system calls made. *)
Record CrashManager := mkCrashManager {
  m_status : CrashStatus;
  m_running : bool;
  m_proc : option nat;
  m_calls : nat
}.

(** Programs of the manager. *)
Definition CM (A : Type) : Type := CrashManager -> M (A * CrashManager).

Definition cret {A} (a : A) : CM A := fun m => ret (a, m).
Definition cbind {A B} (x : CM A) (k : A -> CM B) : CM B := fun m => r <- x m; k r.1 r.2.
Definition lift {A} (x : M A) : CM A := fun m => a <- x; ret (a, m).
Notation "x <~ m ; k" := (cbind m (fun x => k)) (at level 100, m at next level, right associativity) : dhara_scope.

Definition set_cs_status (f : CrashStatus -> CrashStatus) : CM unit := fun m =>
  ret (tt, mkCrashManager (f (m_status m)) (m_running m) (m_proc m) (m_calls m)).
(** *** The assignments to [m.status], all of them under the mutex *)

(** The literal of [Start]. *)
Definition starting (session : string) (now : Z) : CrashStatus :=
  mkCrashStatus true "starting" session None (Some now) (Some now) None EmptyString None 0.

(** [m.status.TaskID = taskID] in [runDemo]. *)
Definition with_task (id : uuid) (st : CrashStatus) : CrashStatus :=
  mkCrashStatus (cs_Enabled st) (cs_Phase st) (cs_Session st) (Some id) (cs_StartedAt st)
    (cs_UpdatedAt st) (cs_FinishedAt st) (cs_Error st) (cs_Task st) (cs_ReapedTotal st).

(** Those of [setPhase]. *)
Definition with_phase (phase : string) (now : Z) (st : CrashStatus) : CrashStatus :=
  mkCrashStatus (cs_Enabled st) phase (cs_Session st) (cs_TaskID st) (cs_StartedAt st)
    (Some now) (cs_FinishedAt st) EmptyString (cs_Task st) (cs_ReapedTotal st).

(** Those of [fail]. *)
Definition with_failure (message : string) (now : Z) (st : CrashStatus) : CrashStatus :=
  mkCrashStatus (cs_Enabled st) "failed" (cs_Session st) (cs_TaskID st) (cs_StartedAt st)
    (Some now) (Some now) message (cs_Task st) (cs_ReapedTotal st).

(** Those at the end of [runDemo]. *)
Definition with_completion (now : Z) (st : CrashStatus) : CrashStatus :=
  mkCrashStatus (cs_Enabled st) "completed" (cs_Session st) (cs_TaskID st) (cs_StartedAt st)
    (Some now) (Some now) (cs_Error st) (cs_Task st) (cs_ReapedTotal st).

Definition set_running (b : bool) : CM unit := fun m =>
  ret (tt, mkCrashManager (m_status m) b (m_proc m) (m_calls m)).
Definition set_proc (p : option nat) : CM unit := fun m =>
  ret (tt, mkCrashManager (m_status m) (m_running m) p (m_calls m)).

(** The child's [Wait] goroutine clears the handle when the child has exited. *)
Definition sys_call (sys : System) : CM SysEvent := fun m =>
  let e := sys (m_calls m) in
  ret (e, mkCrashManager (m_status m) (m_running m) (if se_exited e then None else m_proc m) (S (m_calls m))).

Definition get_proc : CM (option nat) := fun m => ret (m_proc m, m).

Section Manager.
Context {hasher : PayloadHasher} {uuid_text : UUIDText} (c : PlayConfig.Config) (sys : System).

Definition new_status : CrashStatus :=
  mkCrashStatus (pc_EnableCrashDemo c) "idle" EmptyString None None None None EmptyString None 0.
Definition NewCrashManager : CrashManager := mkCrashManager new_status false None 0.

Definition manager_Enabled : bool := pc_EnableCrashDemo c.

(** [ctx] is the error of the request's context, if it is done. *)
Definition manager_Start (ctx : option error) (session : string) : CM (res CrashStatus) := fun m =>
  if negb manager_Enabled then ret (Err ErrCrashDisabled, m)
  else match ctx with
  | Some e => ret (Err e, m)
  | None =>
      if m_running m then ret (Err ErrCrashBusy, m)
      else
        now <- time_Now;
        let status := starting session now in
        ret (Ok status, mkCrashManager status true (m_proc m) (m_calls m))
  end.

(** The task of the demo is shown as its row is, if it can be read. A disabled
    manager has no metrics. *)
Definition manager_Status : CM CrashStatus := fun m =>
  w_reaped <- (fun _ w => (TasksReapedTotal (w_metrics w), w));
  let st := m_status m in
  let status := mkCrashStatus manager_Enabled (cs_Phase st) (cs_Session st) (cs_TaskID st) (cs_StartedAt st)
    (cs_UpdatedAt st) (cs_FinishedAt st) (cs_Error st) (cs_Task st)
    (if manager_Enabled then w_reaped else cs_ReapedTotal st) in
  match cs_TaskID status with
  | None => ret (status, m)
  | Some id =>
      r <- GetStoredTask id;
      match r with
      | Ok (Some t) =>
          now <- time_Now;
          ret (mkCrashStatus (cs_Enabled status) (cs_Phase status) (cs_Session status) (cs_TaskID status)
            (cs_StartedAt status) (cs_UpdatedAt status) (cs_FinishedAt status) (cs_Error status)
            (Some (toTaskView t now)) (cs_ReapedTotal status), m)
      | _ => ret (status, m)
      end
  end.

(** A disabled manager has no store. *)
Definition manager_Cleanup (cutoff : Z) : CM (res Z) :=
  if manager_Enabled then lift (DeleteOlderThan cutoff) else cret (Ok 0).

Definition setPhase (phase : string) : CM unit :=
  now <~ lift time_Now;
  set_cs_status (with_phase phase now).

Definition fail (message : string) : CM unit :=
  now <~ lift time_Now;
  set_cs_status (with_failure message now).

(** ** The child process *)

Definition spawnWorker : CM (res unit) :=
  e <~ sys_call sys;
  p <~ get_proc;
  match p, se_fail e with
  | Some _, _ => cret (Ok tt)
  | None, Some msg => cret (Err (NewError msg))
  | None, None => fun m => ret (Ok tt, mkCrashManager (m_status m) (m_running m) (Some (m_calls m)) (m_calls m))
  end.

Definition killWorker : CM (res unit) :=
  e <~ sys_call sys;
  p <~ get_proc;
  _ <~ set_proc None;
  match p, se_fail e with
  | None, _ => cret (Err (NewError "isolated worker is not running"))
  | Some _, Some msg => cret (Err (NewError msg))
  | Some _, None =>
      if se_hangs e then cret (Err (NewError "isolated worker did not exit after kill")) else cret (Ok tt)
  end.

(** ** The demo *)

(** What the [select] of a polling loop receives. *)
Inductive Wake : Type :=
  | WakeTick
  | WakeDeadline
  | WakeDone (err : error).

Definition timed_out : error := NewError "timed out".

(** After the listed wakes the deadline passes. *)
Fixpoint waitFor (id : uuid) (matches : StoredTask -> bool) (wakes : list Wake) : M (res StoredTask) :=
  r <- GetStoredTask id;
  match (match r with Ok (Some t) => if matches t then Some t else None | _ => None end) with
  | Some t => ret (Ok t)
  | None =>
      match wakes with
      | WakeTick :: rest => waitFor id matches rest
      | WakeDone err :: _ => ret (Err err)
      | WakeDeadline :: _ | [] => ret (Err timed_out)
      end
  end.

Definition status_in (l : list string) (t : StoredTask) : bool := bool_decide (st_Status t ∈ l).

(** The wakes of the three waits of a demo. *)
Record Waits := mkWaits { wt_claim : list Wake; wt_reap : list Wake; wt_finish : list Wake }.

Definition demo_params (key : string) : InsertParams :=
  mkInsertParams TypeCrash
    (Some ("{" +:+ quoted "duration_ms" +:+ ":" +:+ itoa (Milliseconds (pc_CrashTaskDuration c)) +:+ "}"))
    (Some key) (Some 0) (Some 2) None.

Definition set_task_id (id : uuid) : CM unit :=
  set_cs_status (with_task id).

Definition complete : CM unit :=
  now <~ lift time_Now;
  set_cs_status (with_completion now).

(** The early returns of [runDemo]: an error of [x] fails the demo. *)
Definition or_fail {A} (x : CM (res A)) (text : string) (k : A -> CM unit) : CM unit :=
  r <~ x;
  match r with
  | Err e => fail (text +:+ Error e)
  | Ok a => k a
  end.

(** The last part of a demo: a new child, which completes the task. *)
Definition demo_finish (id : uuid) (waits : Waits) : CM unit :=
  _ <~ setPhase "restarting isolated worker";
  or_fail spawnWorker "failed to restart isolated worker: " (fun _ =>
  _ <~ setPhase "waiting for recovered task to complete";
  or_fail (lift (waitFor id (status_in ["COMPLETED"; "DEAD"]) (wt_finish waits)))
    "recovered task did not finish: " (fun task =>
  if negb (bool_decide (st_Status task = "COMPLETED")) then
    fail ("recovered task ended in " +:+ st_Status task)
  else complete)).

(** The crash: the child is killed under its task, and the reaper takes the
    task back. *)
Definition demo_crash (id : uuid) (waits : Waits) : CM unit :=
  _ <~ setPhase "killing isolated worker process";
  or_fail killWorker "failed to kill isolated worker: " (fun _ =>
  _ <~ setPhase "waiting for stale heartbeat reaper";
  or_fail (lift (waitFor id (status_in ["PENDING"; "DEAD"]) (wt_reap waits)))
    "reaper did not recover the task: " (fun task =>
  if bool_decide (st_Status task = "DEAD") then
    fail "task was dead-lettered instead of requeued (attempt budget exhausted)"
  else demo_finish id waits)).

Definition demo (session : string) (waits : Waits) : CM unit :=
  or_fail spawnWorker "failed to start isolated worker: " (fun _ =>
  _ <~ setPhase "enqueuing task";
  key <~ lift (ownedKey session);
  or_fail (lift (Insert (demo_params key))) "failed to enqueue crash task: " (fun res =>
  let id := ID (er_Task res) in
  _ <~ set_task_id id;
  _ <~ setPhase "waiting for worker claim";
  or_fail (lift (waitFor id (status_in ["RUNNING"; "COMPLETED"; "DEAD"]) (wt_claim waits)))
    "worker did not claim the task: " (fun task =>
  if negb (bool_decide (st_Status task = "RUNNING")) then
    fail ("task left RUNNING before the simulated crash: " +:+ st_Status task)
  else demo_crash id waits))).

(** The deferred part of [runDemo]: the manager is free again, and a healthy
    child is left behind unless the playground is shutting down. *)
Definition finish : CM unit :=
  _ <~ set_running false;
  e <~ sys_call sys;
  p <~ get_proc;
  if se_closed e then cret tt
  else match p with
       | Some _ => cret tt
       | None => _ <~ spawnWorker; cret tt
       end.

Definition runDemo (session : string) (waits : Waits) : CM unit :=
  _ <~ demo session waits;
  finish.

(** [Close] kills the child. *)
Definition manager_Close : CM unit := _ <~ killWorker; cret tt.
End Manager.

(** ** The reaper of the demo *)

Definition crash_reaper_tick (c : PlayConfig.Config) : M unit :=
  r <- RequeueStaleRunning (pc_CrashStuckThreshold c) "playground-crash-reaper";
  match r with
  | Err _ => add_metric (add_reaper_failures 1)
  | Ok _ => ret tt
  end.

(** [reaperLoop]: one tick per element until the manager is closed. *)
Fixpoint reaperLoop (c : PlayConfig.Config) (ticks : nat) : M unit :=
  match ticks with
  | O => ret tt
  | S n => _ <- crash_reaper_tick c; reaperLoop c n
  end.

(** ** Lemmas *)

#[export] Instance refines_walk {policy : RetryPolicy} : Walk (fun A => refines (A := A)).
Proof.
  split.
  - intros A B m k. apply refines_bind.
  - intros A f o w Henv Htx HI. simpl. split; [apply rtc_refl|done].
  - intros A f o w Henv Htx HI. unfold tick, pending. rewrite Htx. simpl. split; [apply Henv|done].
  - intros A st Hr o w Henv Htx HI. unfold db_exec, tick, pending. rewrite Htx. simpl.
    destruct (st _ _ _) as [[a ws]|e] eqn:Hs; destruct (ev_fault _); simpl;
      try (apply Hr in Hs as ->); (split; [apply Henv|done]).
Qed.

Lemma waitFor_reader id p wakes : reader (waitFor id p wakes).
Proof.
  induction wakes as [|wk wakes IH]; simpl; (apply reader_bind; [apply GetStoredTask_reader|]); intros r;
    (destruct (match r with Ok _ => _ | Err _ => _ end); [apply reader_ret|]); [apply reader_ret|].
  destruct wk; [exact IH|apply reader_ret..].
Qed.

(** A task a wait answers was found in the database as it is then. *)
Lemma wp_waitFor o id p wakes : forall w, w_tx w = None ->
  wp (waitFor id p wakes) o (fun r w' => forall t, r = Ok t ->
    exists row, tasks (w_db w') !! id = Some row /\ t = scan_stored (r_payload row) row /\ p t = true) w.
Proof.
  induction wakes as [|wk wakes IH]; intros w Htx; wp_world w; simpl; wp_step;
    (eapply wp_mono; [apply wp_GetStoredTask|]); intros r w1 [-> Hr];
    (destruct (match r with Ok _ => _ | Err _ => _ end) as [t|] eqn:Hm; [wp_step|]).
  1, 3: intros t' [= <-]; destruct r as [[t1|]|]; try done; destruct (p t1) eqn:Hp; simplify_eq;
    destruct (Hr t eq_refl) as (row & Hrow & ->); by exists row.
  - wp_step. done.
  - destruct wk; [by apply IH|wp_step; done..].
Qed.

(** A program of the manager: answer, manager and world at its end. *)
Definition cwp {A} (x : CM A) (o : Oracle) (Q : A -> CrashManager -> World -> Prop) (m : CrashManager) (w : World) : Prop :=
  wp (x m) o (fun r w' => Q r.1 r.2 w') w.

Section cwp.
Context (o : Oracle).

Lemma cwp_mono {A} (x : CM A) (Q Q' : A -> CrashManager -> World -> Prop) m w :
  cwp x o Q m w -> (forall a m' w', Q a m' w' -> Q' a m' w') -> cwp x o Q' m w.
Proof. unfold cwp, wp. auto. Qed.

Lemma cwp_bind {A B} (x : CM A) (k : A -> CM B) Q m w :
  cwp x o (fun a m' w' => cwp (k a) o Q m' w') m w -> cwp (cbind x k) o Q m w.
Proof. intros H. unfold cwp, cbind. by wp_step. Qed.

Lemma cwp_lift {A} (x : M A) Q m w : wp x o (fun a w' => Q a m w') w -> cwp (lift x) o Q m w.
Proof. intros H. unfold cwp, lift. wp_step. eapply wp_mono; [exact H|]. intros a w' HQ. by wp_step. Qed.

Lemma cwp_or_fail {A} (x : CM (res A)) text k Q m w :
  cwp x o (fun r m' w' => match r with
    | Err e => cwp (fail (text +:+ Error e)) o Q m' w'
    | Ok a => cwp (k a) o Q m' w' end) m w ->
  cwp (or_fail x text k) o Q m w.
Proof. intros H. apply cwp_bind. eapply cwp_mono; [exact H|]. by intros [a|e] m' w'. Qed.
End cwp.

(** ** Runs of a demo *)

Section Runs.
Context (o : Oracle) (Henv : env_ok o).

(** From one point of a demo to a later one: the schema followed the lifecycle,
    and the demo still holds the manager. *)
Definition moves (m : CrashManager) (w : World) (m' : CrashManager) (w' : World) : Prop :=
  idle w' /\ rtc db_step (w_db w) (w_db w') /\ m_running m' = m_running m.

Lemma moves_refl m w : idle w -> moves m w m w.
Proof. intros H. by split_and!; [|apply rtc_refl|]. Qed.

Lemma moves_trans m w m1 w1 m2 w2 : moves m w m1 w1 -> moves m1 w1 m2 w2 -> moves m w m2 w2.
Proof. intros (? & ? & ?) (? & ? & ?). split_and!; [done|by etrans|congruence]. Qed.

Lemma moves_lift {A} (x : M A) m w : refines x -> idle w ->
  cwp (lift x) o (fun _ m' w' => m' = m /\ moves m w m' w') m w.
Proof.
  intros Hx [Htx HI]. apply cwp_lift. destruct (Hx o w Henv Htx HI) as [Hs Htx'].
  unfold wp. split; [done|]. split_and!; [split; [done|by eapply db_steps_Inv]|done..].
Qed.

Lemma moves_reader {A} (x : M A) m w : reader x -> idle w ->
  cwp (lift x) o (fun _ m' w' => m' = m /\ moves m w m' w') m w.
Proof. intros Hx. apply moves_lift. by apply (walk_reader (fun A => refines (A := A))). Qed.

Lemma cwp_and {A} (x : CM A) (Q1 Q2 : A -> CrashManager -> World -> Prop) m w :
  cwp x o Q1 m w -> cwp x o Q2 m w -> cwp x o (fun a m' w' => Q1 a m' w' /\ Q2 a m' w') m w.
Proof. by split. Qed.

(** The end of a demo that failed. *)
Definition failed (st : CrashStatus) : Prop :=
  cs_Phase st = "failed" /\ cs_Error st <> EmptyString /\
  exists t, cs_FinishedAt st = Some t /\ cs_UpdatedAt st = Some t.

Lemma cwp_fail text m w : text <> EmptyString -> idle w ->
  cwp (fail text) o (fun _ m' w' => moves m w m' w' /\ failed (m_status m')) m w.
Proof.
  intros Ht Hw. apply cwp_bind. eapply cwp_mono; [apply (moves_reader time_Now); [apply reader_time_Now|done]|].
  intros now m1 w1 [-> Hm]. split; [exact Hm|]. split_and!; [done..|by exists now].
Qed.

Lemma cwp_setPhase phase m w : idle w ->
  cwp (setPhase phase) o (fun _ m' w' => moves m w m' w' /\ cs_Error (m_status m') = EmptyString /\
    cs_TaskID (m_status m') = cs_TaskID (m_status m)) m w.
Proof.
  intros Hw. apply cwp_bind. eapply cwp_mono; [apply (moves_reader time_Now); [apply reader_time_Now|done]|].
  intros now m1 w1 [-> Hm]. by split_and!.
Qed.

(** Calls of the operating system leave schema and status alone. *)
Definition process_only {A} (x : CM A) : Prop := forall m w, idle w ->
  cwp x o (fun _ m' w' => moves m w m' w' /\ m_status m' = m_status m) m w.

Lemma spawnWorker_only sys : process_only (spawnWorker sys).
Proof.
  intros m w Hw. unfold cwp, spawnWorker, cbind, sys_call, get_proc, cret, wp, bind, ret. cbn.
  repeat case_match; cbn; (split; [split_and!; [done|apply rtc_refl|done]|done]).
Qed.

Lemma killWorker_only sys : process_only (killWorker sys).
Proof.
  intros m w Hw. unfold cwp, killWorker, cbind, sys_call, get_proc, set_proc, cret, wp, bind, ret. cbn.
  repeat case_match; cbn; (split; [split_and!; [done|apply rtc_refl|done]|done]).
Qed.

(** ** What a demo shows *)

(** How often a task was started, by its log. *)
Definition starts (id : uuid) (db : DB) : nat :=
  length (List.filter (fun s => bool_decide (s = RUNNING)) (history id db)).

Lemma replay_last h s n : replay h = Some (s, n) -> (h = [] /\ s = PENDING) \/ exists h', h = h' ++ [s].
Proof.
  induction h as [|x h _] using rev_ind; [intros [= <- _]; by left|]. intros H. right. exists h. f_equal.
  unfold replay in H.
  assert (forall l st, replay_from st (l ++ [x]) = Some (s, n) -> x = s) as Hx.
  { induction l as [|y l IH]; intros st; simpl.
    - destruct (advance st x) as [[s' n']|] eqn:Ha; [|done]. intros [= -> ->].
      destruct st as [[] k], x; simpl in Ha; by simplify_eq.
    - destruct (advance st y); [apply IH|done]. }
  by rewrite (Hx _ _ H).
Qed.

(** Completing a waiting task takes a start. *)
Lemma completing_starts h n k : replay_from (PENDING, n) h = Some (COMPLETED, k) -> RUNNING ∈ h.
Proof.
  destruct h as [|x h]; [done|]. simpl. destruct x; simpl; try done; [intros _; apply elem_of_cons; by left|].
  destruct h as [|y h]; [done|]. by destruct y.
Qed.

Lemma replay_from_app s h1 h2 s' : replay_from s (h1 ++ h2) = Some s' ->
  exists s1, replay_from s h1 = Some s1 /\ replay_from s1 h2 = Some s'.
Proof.
  revert s. induction h1 as [|x h1 IH]; intros s; simpl; [by eauto|]. destruct (advance s x); [apply IH|done].
Qed.

Lemma Inv_replay db id row : Inv db -> tasks db !! id = Some row ->
  replay (history id db) = Some (r_status row, r_attempts row).
Proof. intros [Hv _] Hrow. specialize (Hv id). unfold view_ok, view in Hv. cbn in Hv. rewrite Hrow in Hv. apply Hv. Qed.

Lemma length_filter_elem {A} (p : A -> bool) l x : x ∈ l -> p x = true -> (1 <= length (List.filter p l))%nat.
Proof.
  intros Hx Hp. assert (x ∈ List.filter p l) as H by by apply elem_of_filter_In.
  destruct (List.filter p l); [by apply not_elem_of_nil in H|simpl; lia].
Qed.

(** A task seen RUNNING, then PENDING, then COMPLETED was started twice. *)
Lemma started_twice id db1 db2 db3 r1 r2 r3 :
  Inv db1 -> rtc db_step db1 db2 -> rtc db_step db2 db3 ->
  tasks db1 !! id = Some r1 -> r_status r1 = RUNNING -> tasks db2 !! id = Some r2 -> r_status r2 = PENDING ->
  tasks db3 !! id = Some r3 -> r_status r3 = COMPLETED -> (2 <= starts id db3)%nat.
Proof.
  intros HI1 H12 H23 Hr1 Hs1 Hr2 Hs2 Hr3 Hs3.
  pose proof (db_steps_Inv _ _ H12 HI1) as HI2. pose proof (db_steps_Inv _ _ H23 HI2) as HI3.
  pose proof (Inv_replay _ _ _ HI1 Hr1) as R1. pose proof (Inv_replay _ _ _ HI2 Hr2) as R2.
  pose proof (Inv_replay _ _ _ HI3 Hr3) as R3. rewrite Hs1 in R1. rewrite Hs2 in R2. rewrite Hs3 in R3.
  destruct (db_steps_history _ _ id H12) as [x Hx]. destruct (db_steps_history _ _ id H23) as [y Hy].
  apply replay_last in R1 as [[_ ?]|[h1 Hh1]]; [done|].
  unfold starts. rewrite Hy in R3 |- *. apply replay_from_app in R3 as (s & R2' & R3).
  unfold replay in R2. rewrite R2 in R2'. injection R2' as <-. apply completing_starts in R3.
  rewrite Hx, Hh1, !List.filter_app, !length_app.
  pose proof (length_filter_elem (fun s => bool_decide (s = RUNNING)) y RUNNING R3 eq_refl). simpl. lia.
Qed.

(** The end of a demo that completed: the task was started, lost, and started
    again. *)
Definition completed (st : CrashStatus) (db : DB) : Prop :=
  cs_Phase st = "completed" /\ cs_Error st = EmptyString /\
  (exists t, cs_FinishedAt st = Some t /\ cs_UpdatedAt st = Some t) /\
  exists id row, cs_TaskID st = Some id /\ tasks db !! id = Some row /\ r_status row = COMPLETED /\
    (2 <= starts id db)%nat.

Definition demo_post (m : CrashManager) (w : World) (_ : unit) (m' : CrashManager) (w' : World) : Prop :=
  moves m w m' w' /\ (failed (m_status m') \/ completed (m_status m') (w_db w')).

Section Steps.
Context (m0 : CrashManager) (w0 : World).

Lemma app_nonempty a b : a <> EmptyString -> a +:+ b <> EmptyString.
Proof. by destruct a. Qed.

Lemma step_fail text m w : text <> EmptyString -> moves m0 w0 m w -> cwp (fail text) o (demo_post m0 w0) m w.
Proof.
  intros Ht Hm. eapply cwp_mono; [by apply cwp_fail; [|apply Hm]|]. intros [] m' w' [Hm' Hf].
  split; [by eapply moves_trans|by left].
Qed.

Lemma step_process {A} (x : CM (res A)) text k m w : process_only x -> text <> EmptyString -> moves m0 w0 m w ->
  (forall a m' w', moves m0 w0 m' w' -> rtc db_step (w_db w) (w_db w') -> m_status m' = m_status m ->
     cwp (k a) o (demo_post m0 w0) m' w') ->
  cwp (or_fail x text k) o (demo_post m0 w0) m w.
Proof.
  intros Hx Ht Hm Hk. apply cwp_or_fail. eapply cwp_mono; [by apply Hx, Hm|].
  intros [a|e] m' w' [Hm' Hs]; pose proof (moves_trans _ _ _ _ _ _ Hm Hm') as Hm2.
  - by apply Hk; [|apply Hm'|].
  - apply step_fail; [by apply app_nonempty|done].
Qed.

Lemma step_phase phase k m w : moves m0 w0 m w ->
  (forall m' w', moves m0 w0 m' w' -> rtc db_step (w_db w) (w_db w') -> cs_Error (m_status m') = EmptyString ->
     cs_TaskID (m_status m') = cs_TaskID (m_status m) -> cwp k o (demo_post m0 w0) m' w') ->
  cwp (_ <~ setPhase phase; k) o (demo_post m0 w0) m w.
Proof.
  intros Hm Hk. apply cwp_bind. eapply cwp_mono; [by apply cwp_setPhase, Hm|].
  intros [] m' w' (Hm' & He & Hid). apply Hk; [by eapply moves_trans|apply Hm'|done..].
Qed.

Lemma step_lift {A} (x : M (res A)) text k m w : refines x -> text <> EmptyString -> moves m0 w0 m w ->
  (forall a w', moves m0 w0 m w' -> cwp (k a) o (demo_post m0 w0) m w') ->
  cwp (or_fail (lift x) text k) o (demo_post m0 w0) m w.
Proof.
  intros Hx Ht Hm Hk. apply cwp_or_fail. eapply cwp_mono; [by apply moves_lift; [|apply Hm]|].
  intros [a|e] m' w' [-> Hm']; pose proof (moves_trans _ _ _ _ _ _ Hm Hm') as Hm2; [by apply Hk|].
  apply step_fail; [by apply app_nonempty|done].
Qed.

Lemma step_wait id p wakes text k m w : text <> EmptyString -> moves m0 w0 m w ->
  (forall row w', moves m0 w0 m w' -> rtc db_step (w_db w) (w_db w') -> tasks (w_db w') !! id = Some row ->
     p (scan_stored (r_payload row) row) = true ->
     cwp (k (scan_stored (r_payload row) row)) o (demo_post m0 w0) m w') ->
  cwp (or_fail (lift (waitFor id p wakes)) text k) o (demo_post m0 w0) m w.
Proof.
  intros Ht Hm Hk. apply cwp_or_fail.
  eapply cwp_mono; [apply cwp_and; [by apply moves_reader; [apply waitFor_reader|apply Hm]|
    apply cwp_lift, (wp_waitFor o id p wakes w), Hm]|].
  intros [t|e] m' w' [[-> Hm'] Hrow]; pose proof (moves_trans _ _ _ _ _ _ Hm Hm') as Hm2.
  - destruct (Hrow t eq_refl) as (row & Hr & -> & Hp). apply Hk; [done|apply Hm'|done..].
  - apply step_fail; [by apply app_nonempty|done].
Qed.
End Steps.

Lemma status_text_eq row s : st_Status (scan_stored (r_payload row) row) = status_text s -> r_status row = s.
Proof. cbn. apply (inj status_text). Qed.

(** From a requeued task on. *)
Lemma cwp_demo_finish m0 w0 sys id waits m w db1 r1 r2 :
  moves m0 w0 m w -> cs_TaskID (m_status m) = Some id ->
  Inv db1 -> tasks db1 !! id = Some r1 -> r_status r1 = RUNNING -> rtc db_step db1 (w_db w) ->
  tasks (w_db w) !! id = Some r2 -> r_status r2 = PENDING ->
  cwp (demo_finish sys id waits) o (demo_post m0 w0) m w.
Proof.
  intros Hm Hid HI1 Hr1 Hs1 S1 Hr2 Hs2. apply step_phase; [done|]. intros m1 w1 H1 S2 _ Hid1.
  apply step_process; [apply spawnWorker_only|done..|]. intros _ m2 w2 H2 S3 Hst2.
  apply step_phase; [done|]. intros m3 w3 H3 S4 He3 Hid3. apply step_wait; [done..|].
  intros r3 w4 H4 S5 Hr3 _.
  destruct (bool_decide (st_Status (scan_stored (r_payload r3) r3) = "COMPLETED")) eqn:Hs3; cbn [negb];
    [|by apply step_fail].
  apply bool_decide_eq_true, (status_text_eq r3 COMPLETED) in Hs3.
  apply cwp_bind. eapply cwp_mono; [apply (moves_reader time_Now); [apply reader_time_Now|apply H4]|].
  intros now m4 w5 [-> H5]. split; [exact (moves_trans _ _ _ _ _ _ H4 H5)|]. right.
  destruct H5 as (Hidle & S6 & _). cbn [fst snd] in *.
  assert (tasks (w_db w5) !! id = Some r3) as Hr5.
  { pose proof (db_steps_final _ _ _ _ S6 Hr3 (or_introl Hs3)) as Hv.
    apply (f_equal v_row) in Hv. unfold view in Hv. cbn [v_row] in Hv. by rewrite Hv. }
  split_and!; [done|exact He3|by exists now|]. exists id, r3.
  split_and!; [cbn; congruence|done..|].
  eapply (started_twice id db1 (w_db w) (w_db w5)); try done. do 4 (etrans; [eassumption|]). done.
Qed.

Lemma cwp_demo_crash m0 w0 sys id waits m w r1 :
  moves m0 w0 m w -> cs_TaskID (m_status m) = Some id ->
  tasks (w_db w) !! id = Some r1 -> r_status r1 = RUNNING ->
  cwp (demo_crash sys id waits) o (demo_post m0 w0) m w.
Proof.
  intros Hm Hid Hr1 Hs1. apply step_phase; [done|]. intros m1 w1 H1 S1 _ Hid1.
  apply step_process; [apply killWorker_only|done..|]. intros _ m2 w2 H2 S2 Hst2.
  apply step_phase; [done|]. intros m3 w3 H3 S3 _ Hid3. apply step_wait; [done..|].
  intros r2 w4 H4 S4 Hr2 Hp2.
  destruct (bool_decide (st_Status (scan_stored (r_payload r2) r2) = "DEAD")) eqn:Hs2; [by apply step_fail|].
  assert (r_status r2 = PENDING) as Hpending.
  { apply bool_decide_eq_true in Hp2. apply bool_decide_eq_false in Hs2. cbn in Hp2, Hs2.
    destruct (r_status r2); set_solver. }
  apply (cwp_demo_finish m0 w0 sys id waits m3 w4 (w_db w) r1 r2); try done; [congruence|apply Hm|].
  do 3 (etrans; [eassumption|]). done.
Qed.

Lemma cwp_demo {hasher : PayloadHasher} {uuid_text : UUIDText} c sys session waits m w :
  idle w -> cwp (demo c sys session waits) o (demo_post m w) m w.
Proof.
  intros Hw. unfold demo.
  apply step_process; [apply spawnWorker_only|done|by apply moves_refl|]. intros _ m1 w1 H1 _ _.
  apply step_phase; [done|]. intros m2 w2 H2 _ _ _.
  apply cwp_bind. eapply cwp_mono; [apply moves_reader; [apply ownedKey_reader|apply H2]|].
  intros key m3 w3 [-> H3]. pose proof (moves_trans _ _ _ _ _ _ H2 H3) as H3'.
  apply step_lift; [apply Insert_refines|done..|]. intros res w4 H4. cbn zeta. set (id := ID (er_Task res)).
  apply cwp_bind. unfold cwp at 1, set_task_id, set_cs_status, wp. cbn [ret fst snd].
  set (m5 := mkCrashManager _ _ _ _). assert (moves m w m5 w4) as H5 by exact H4.
  assert (cs_TaskID (m_status m5) = Some id) as Hid by done. clearbody m5.
  apply step_phase; [done|]. intros m6 w6 H6 _ _ Hid6. apply step_wait; [done..|].
  intros r1 w7 H7 _ Hr1 _.
  destruct (bool_decide (st_Status (scan_stored (r_payload r1) r1) = "RUNNING")) eqn:Hs1; cbn [negb];
    [|by apply step_fail].
  apply bool_decide_eq_true, (status_text_eq r1 RUNNING) in Hs1.
  apply (cwp_demo_crash m w sys id waits m6 w7 r1); [done|congruence|done..].
Qed.
End Runs.

(** ** Theorems *)

(** A demo that was accepted holds the manager: until it ends, other starts are
    refused and change nothing. *)
Theorem one_demo_at_a_time c ctx session m o w :
  match manager_Start c ctx session m o w with
  | ((Ok st, m'), _) =>
      m_running m = false /\ m_running m' = true /\ m_status m' = st /\ cs_Phase st = "starting" /\
      cs_Session st = session /\ cs_FinishedAt st = None
  | ((Err e, m'), w') =>
      m' = m /\ w' = w /\
      (m_running m = true -> manager_Enabled c = true -> ctx = None -> e = ErrCrashBusy)
  end.
Proof.
  unfold manager_Start. destruct (manager_Enabled c); [|by split_and!]. cbn [negb].
  destruct ctx as [e|]; [by split_and!|]. destruct (m_running m) eqn:Hr; [by split_and!|].
  unfold bind, time_Now, ret. by split_and!.
Qed.

(** The deferred part frees the manager and, unless the playground shuts down or
    the system refuses, leaves a child behind. *)
Lemma finish_spec sys m o w :
  exists m', finish sys m o w = ((tt, m'), w) /\ m_running m' = false /\ m_status m' = m_status m /\
    ((forall n, se_closed (sys n) = false /\ se_fail (sys n) = None) -> is_Some (m_proc m')).
Proof.
  unfold finish, spawnWorker, cbind, set_running, sys_call, get_proc, cret, bind, ret. cbn.
  destruct (se_closed (sys (m_calls m))) eqn:Hc, (se_exited (sys (m_calls m))), (m_proc m); cbn;
    try (destruct (se_exited (sys (S (m_calls m))))); try (destruct (se_fail (sys (S (m_calls m)))) eqn:Hf); cbn;
    eexists; (split; [reflexivity|]); (split; [done|]); (split; [done|]); intros Hsys; cbn; try (by eauto);
    destruct (Hsys (m_calls m)), (Hsys (S (m_calls m))); congruence.
Qed.

(** C34: A crash demo always comes to an end that its status tells: it frees the
    manager, and either says why it failed, or is completed, and then its task was
    started, lost its worker, was taken back and started again before it
    completed: its log records two starts at least. Unless the playground shuts
    down or the system refuses, a child is left for the next demo. This holds
    whatever the child, the reaper and the database do. *)
Theorem crash_demo_outcome {hasher : PayloadHasher} {uuid_text : UUIDText} c sys session waits m o w :
  env_ok o -> idle w ->
  let r := runDemo c sys session waits m o w in
  let st := m_status r.1.2 in
  m_running r.1.2 = false /\ (failed st \/ completed st (w_db r.2)) /\
  ((forall n, se_closed (sys n) = false /\ se_fail (sys n) = None) -> is_Some (m_proc r.1.2)).
Proof.
  intros Henv Hw r st. pose proof (cwp_demo o Henv c sys session waits m w Hw) as [_ Hend].
  subst st r. unfold runDemo, cbind, bind. destruct (demo c sys session waits m o w) as [[[] m1] w1].
  cbn [fst snd] in *. destruct (finish_spec sys m1 o w1) as (m2 & -> & Hrun & Hst & Hp). cbn [fst snd].
  rewrite Hst. by split_and!.
Qed.

(** ** Concrete runs *)

#[local] Existing Instance demo_hasher.
#[local] Existing Instance rfc_uuid.

Definition healthy_system : System := fun _ => mkSysEvent false false None false.
Definition crash_config : PlayConfig.Config := loadConfigRaw open_env.
Definition three_ticks : list Wake := [WakeTick; WakeTick; WakeTick].
Definition patient : Waits := mkWaits three_ticks three_ticks three_ticks.

(** Nobody works on the task: the demo fails. *)
Lemma crash_demo_outcome_witness :
  let r := runDemo crash_config healthy_system alice patient (NewCrashManager crash_config) demo_oracle (world0 empty_db) in
  cs_Error (m_status r.1.2) = "worker did not claim the task: timed out" /\ m_running r.1.2 = false.
Proof.
  intros r. split; [vm_compute; reflexivity|].
  apply (crash_demo_outcome crash_config healthy_system alice patient (NewCrashManager crash_config) demo_oracle
    (world0 empty_db)); [apply demo_oracle_env_ok|split; [done|apply empty_db_Inv]].
Defined.

(** A run that completes: the child claims the task at event 7 and is killed; the
    reaper finds the lock stale at event 10; the new child completes the task at
    event 13. *)
Definition elsewhere (t : Z) {A} (x : M A) (db : DB) : DB :=
  w_db (x (fun n => quiet_event t (N.of_nat (n + 100))) (world0 db)).2.

Definition crash_and_recovery : Oracle := fun n =>
  let env := match n with
    | 7 => elsewhere (100 * Second) (Claim "crash-1")
    | 10 => elsewhere (110 * Second) (crash_reaper_tick crash_config)
    | 13 => elsewhere (120 * Second) (_ <- Claim "crash-1"; MarkCompleted 5 "crash-1" 6000)
    | _ => fun db => db
    end%nat in
  mkEvent env ∅ (ev_now (demo_oracle n)) (ev_uuid (demo_oracle n)) 0 0 NoFault.

Example crash_demo_completes :
  let r := runDemo crash_config healthy_system alice patient (NewCrashManager crash_config) crash_and_recovery (world0 empty_db) in
  cs_Phase (m_status r.1.2) = "completed" /\ starts 5 (w_db r.2) = 2%nat /\
  history 5 (w_db r.2) = [RUNNING; PENDING; RUNNING; COMPLETED].
Proof. vm_compute. repeat split; reflexivity. Qed.
