(* ===== verification/PlayStatus.v ===== *)
(** PlayStatus: the crash demo's status with its pointers.

    PlayCrash.v keeps the times of a [CrashStatus] as values. In
    [internal/playground/crash.go] they are pointers: the manager writes fresh
    variables into its status while copies of it are being encoded for visitors,
    and one variable may be behind two fields. Here are the assignments and
    [copyStatusLocked] over a heap, and the proof that the copies make the
    difference disappear. *)

From S2P Require Import Prelude Dharatype GoTime Float64 Metrics Pg TaskStore Client Worker Config.
From S2P Require Import PlayConfig PlayStore PlayService PlayCrash.
Open Scope dhara_scope.

(** ** Heap *)

(** The [time.Time] variables that escape, by address. *)
Abbreviation Heap := (list Z).
Abbreviation Ptr := nat.

Definition new_time (v : Z) (h : Heap) : Ptr * Heap := (length h, h ++ [v]).
Definition read_time (h : Heap) (p : option Ptr) : option Z := match p with Some a => h !! a | None => None end.

(** [CrashStatus] as Go lays it out. [Task] is set in copies only, to a variable
    nobody else has, and is kept as a value. *)
Record PtrStatus := mkPtrStatus {
  ps_Enabled : bool;
  ps_Phase : string;
  ps_Session : string;
  ps_TaskID : option uuid;
  ps_StartedAt : option Ptr;
  ps_UpdatedAt : option Ptr;
  ps_FinishedAt : option Ptr;
  ps_Error : string;
  ps_Task : option TaskView;
  ps_ReapedTotal : Z
}.

Definition read_status (h : Heap) (s : PtrStatus) : CrashStatus :=
  mkCrashStatus (ps_Enabled s) (ps_Phase s) (ps_Session s) (ps_TaskID s) (read_time h (ps_StartedAt s))
    (read_time h (ps_UpdatedAt s)) (read_time h (ps_FinishedAt s)) (ps_Error s) (ps_Task s) (ps_ReapedTotal s).

(** ** The code *)

(** [if p != nil { v := *p; p = &v }]. *)
Definition copy_time (p : option Ptr) (h : Heap) : option Ptr * Heap :=
  match p with
  | None => (None, h)
  | Some a => match h !! a with
              | Some v => let '(b, h') := new_time v h in (Some b, h')
              | None => (p, h)
              end
  end.

Definition copyStatusLocked (s : PtrStatus) (h : Heap) : PtrStatus * Heap :=
  let '(started, h) := copy_time (ps_StartedAt s) h in
  let '(updated, h) := copy_time (ps_UpdatedAt s) h in
  let '(finished, h) := copy_time (ps_FinishedAt s) h in
  (mkPtrStatus (ps_Enabled s) (ps_Phase s) (ps_Session s) (ps_TaskID s) started updated finished
     (ps_Error s) (ps_Task s) (ps_ReapedTotal s), h).

(** *** The assignments; [now] is one variable, even where two fields point to it *)

Definition starting_ptr (session : string) (t : Z) (h : Heap) : PtrStatus * Heap :=
  let '(now, h) := new_time t h in
  (mkPtrStatus true "starting" session None (Some now) (Some now) None EmptyString None 0, h).

Definition with_task_ptr (id : uuid) (s : PtrStatus) (h : Heap) : PtrStatus * Heap :=
  (mkPtrStatus (ps_Enabled s) (ps_Phase s) (ps_Session s) (Some id) (ps_StartedAt s) (ps_UpdatedAt s)
     (ps_FinishedAt s) (ps_Error s) (ps_Task s) (ps_ReapedTotal s), h).

Definition with_phase_ptr (phase : string) (t : Z) (s : PtrStatus) (h : Heap) : PtrStatus * Heap :=
  let '(now, h) := new_time t h in
  (mkPtrStatus (ps_Enabled s) phase (ps_Session s) (ps_TaskID s) (ps_StartedAt s) (Some now)
     (ps_FinishedAt s) EmptyString (ps_Task s) (ps_ReapedTotal s), h).

Definition with_failure_ptr (message : string) (t : Z) (s : PtrStatus) (h : Heap) : PtrStatus * Heap :=
  let '(now, h) := new_time t h in
  (mkPtrStatus (ps_Enabled s) "failed" (ps_Session s) (ps_TaskID s) (ps_StartedAt s) (Some now)
     (Some now) message (ps_Task s) (ps_ReapedTotal s), h).

Definition with_completion_ptr (t : Z) (s : PtrStatus) (h : Heap) : PtrStatus * Heap :=
  let '(now, h) := new_time t h in
  (mkPtrStatus (ps_Enabled s) "completed" (ps_Session s) (ps_TaskID s) (ps_StartedAt s) (Some now)
     (Some now) (ps_Error s) (ps_Task s) (ps_ReapedTotal s), h).

Definition new_ptr_status (enabled : bool) : PtrStatus :=
  mkPtrStatus enabled "idle" EmptyString None None None None EmptyString None 0.

(** ** Runs *)

(** The manager's assignments, the copies it hands out, and callers that write
    to what they were given. *)
Inductive TimeField : Type := FStarted | FUpdated | FFinished.
#[export] Instance TimeField_eq_dec : EqDecision TimeField.
Proof. solve_decision. Defined.

(** Which of the five assignments. *)
Inductive Update : Type :=
  | UStart (session : string) (now : Z)
  | UTask (id : uuid)
  | UPhase (phase : string) (now : Z)
  | UFail (message : string) (now : Z)
  | UComplete (now : Z).

Definition update_ptr (u : Update) (s : PtrStatus) (h : Heap) : PtrStatus * Heap :=
  match u with
  | UStart session now => starting_ptr session now h
  | UTask id => with_task_ptr id s h
  | UPhase phase now => with_phase_ptr phase now s h
  | UFail message now => with_failure_ptr message now s h
  | UComplete now => with_completion_ptr now s h
  end.

Inductive Step : Type :=
  | Assign (u : Update)
  | HandOut
  | CallerSets (copy : nat) (f : TimeField) (v : Z).

Definition field (f : TimeField) (s : PtrStatus) : option Ptr :=
  match f with FStarted => ps_StartedAt s | FUpdated => ps_UpdatedAt s | FFinished => ps_FinishedAt s end.

Record Shared := mkShared {
  sh_heap : Heap;
  sh_status : PtrStatus;
  sh_copies : list PtrStatus
}.

Definition shared_step (x : Shared) (s : Step) : Shared :=
  match s with
  | Assign u => let '(st, h) := update_ptr u (sh_status x) (sh_heap x) in mkShared h st (sh_copies x)
  | HandOut => let '(c, h) := copyStatusLocked (sh_status x) (sh_heap x) in mkShared h (sh_status x) (sh_copies x ++ [c])
  | CallerSets k f v =>
      match sh_copies x !! k with
      | None => x
      | Some c => match field f c with
                  | None => x
                  | Some a => mkShared (<[a := v]> (sh_heap x)) (sh_status x) (sh_copies x)
                  end
      end
  end.

(** ** Specification: values without sharing *)

Definition set_present (v : Z) (x : option Z) : option Z := match x with Some _ => Some v | None => None end.

Definition set_field (f : TimeField) (v : Z) (s : CrashStatus) : CrashStatus :=
  mkCrashStatus (cs_Enabled s) (cs_Phase s) (cs_Session s) (cs_TaskID s)
    (if f is FStarted then set_present v (cs_StartedAt s) else cs_StartedAt s)
    (if f is FUpdated then set_present v (cs_UpdatedAt s) else cs_UpdatedAt s)
    (if f is FFinished then set_present v (cs_FinishedAt s) else cs_FinishedAt s)
    (cs_Error s) (cs_Task s) (cs_ReapedTotal s).

Definition update (u : Update) (st : CrashStatus) : CrashStatus :=
  match u with
  | UStart session now => starting session now
  | UTask id => with_task id st
  | UPhase phase now => with_phase phase now st
  | UFail message now => with_failure message now st
  | UComplete now => with_completion now st
  end.

Definition value_step (x : CrashStatus * list CrashStatus) (s : Step) : CrashStatus * list CrashStatus :=
  match s with
  | Assign u => (update u x.1, x.2)
  | HandOut => (x.1, x.2 ++ [x.1])
  | CallerSets k f v => (x.1, alter (set_field f v) k x.2)
  end.

Definition read_shared (x : Shared) : CrashStatus * list CrashStatus :=
  (read_status (sh_heap x) (sh_status x), map (read_status (sh_heap x)) (sh_copies x)).

(** ** Ownership of the variables *)

Definition valid (h : Heap) (s : PtrStatus) : Prop := forall f a, field f s = Some a -> (a < length h)%nat.
Definition distinct (s : PtrStatus) : Prop := forall f g a, field f s = Some a -> field g s = Some a -> f = g.
Definition apart (s t : PtrStatus) : Prop := forall f g a, field f s = Some a -> field g t = Some a -> False.

Record owned (x : Shared) : Prop := mkOwned {
  ow_status : valid (sh_heap x) (sh_status x);
  ow_copies : forall k c, sh_copies x !! k = Some c ->
    valid (sh_heap x) c /\ distinct c /\ apart (sh_status x) c;
  ow_apart : forall j k c d, j <> k -> sh_copies x !! j = Some c -> sh_copies x !! k = Some d -> apart c d
}.

(** A status reads the same where its variables are the same. *)
Lemma read_same h h' s : (forall f a, field f s = Some a -> h' !! a = h !! a) -> read_status h' s = read_status h s.
Proof.
  intros H. unfold read_status, read_time.
  pose proof (H FStarted) as H1. pose proof (H FUpdated) as H2. pose proof (H FFinished) as H3. cbn [field] in *.
  f_equal; repeat case_match; by auto.
Qed.

Lemma read_app h l s : valid h s -> read_status (h ++ l) s = read_status h s.
Proof. intros H. apply read_same. intros f a Ha. by apply lookup_app_l, (H f). Qed.

Lemma valid_app h l s : valid h s -> valid (h ++ l) s.
Proof. intros H f a Ha. rewrite length_app. specialize (H f a Ha). lia. Qed.

Lemma read_copies_app h l cs :
  (forall k c, cs !! k = Some c -> valid h c) -> map (read_status (h ++ l)) cs = map (read_status h) cs.
Proof.
  intros H. apply map_ext_in. intros c Hc. apply read_app.
  apply list_elem_of_In, list_elem_of_lookup_1 in Hc as [k Hk]. by eapply H.
Qed.

Definition in_range (n m : nat) (p : option Ptr) : Prop := forall a, p = Some a -> (n <= a < m)%nat.

Lemma read_time_app h l p : in_range 0 (length h) p -> read_time (h ++ l) p = read_time h p.
Proof. intros H. destruct p as [a|]; [|done]. cbn. by apply lookup_app_l, H. Qed.

Lemma in_range_weaken n m n' m' p : (n' <= n)%nat -> (m <= m')%nat -> in_range n m p -> in_range n' m' p.
Proof. intros Hn Hm H a Ha. specialize (H a Ha). lia. Qed.

(** The copy of one field: a fresh variable with the same value. *)
Lemma copy_time_spec p h :
  in_range 0 (length h) p ->
  exists q l, copy_time p h = (q, h ++ l) /\ read_time (h ++ l) q = read_time h p /\
    in_range (length h) (length (h ++ l)) q.
Proof.
  intros Hp. destruct p as [a|]; [|exists None, []; by rewrite app_nil_r].
  destruct (lookup_lt_is_Some_2 h a) as [v Hv]; [by apply Hp|]. exists (Some (length h)), [v]. cbn [copy_time].
  rewrite Hv. split_and!; [done| |].
  - cbn [read_time]. by rewrite Hv, lookup_app_r, Nat.sub_diag.
  - intros b [= <-]. rewrite length_app. cbn. lia.
Qed.

Lemma copy_spec s h :
  valid h s ->
  exists c l, copyStatusLocked s h = (c, h ++ l) /\ read_status (h ++ l) c = read_status h s /\
    valid (h ++ l) c /\ distinct c /\ (forall f a, field f c = Some a -> (length h <= a)%nat).
Proof.
  intros Hv. assert (forall f l, in_range 0 (length (h ++ l)) (field f s)) as V.
  { intros f l a Ha. rewrite length_app. specialize (Hv f a Ha). lia. }
  assert (forall f, in_range 0 (length h) (field f s)) as V0 by (intros f a Ha; specialize (Hv f a Ha); lia).
  destruct (copy_time_spec (ps_StartedAt s) h (V0 FStarted)) as (p1 & l1 & E1 & R1 & I1).
  destruct (copy_time_spec (ps_UpdatedAt s) (h ++ l1) (V FUpdated l1)) as (p2 & l2 & E2 & R2 & I2).
  rewrite <- app_assoc in E2, R2, I2.
  destruct (copy_time_spec (ps_FinishedAt s) (h ++ l1 ++ l2) (V FFinished _)) as (p3 & l3 & E3 & R3 & I3).
  rewrite (read_time_app _ _ _ (V0 FUpdated)) in R2. rewrite (read_time_app _ _ _ (V0 FFinished)) in R3.
  unfold copyStatusLocked. rewrite E1, E2, E3. rewrite <- !app_assoc in R3, I3 |- *.
  eexists _, (l1 ++ l2 ++ l3). split; [done|].
  rewrite !length_app in I1. rewrite !length_app in I2. rewrite !length_app in I3. unfold in_range in *. split_and!.
  - unfold read_status. cbn. f_equal; [..|done].
    + rewrite app_assoc, read_time_app; [done|]. intros a Ha. rewrite length_app. specialize (I1 a Ha). lia.
    + replace (h ++ l1 ++ l2 ++ l3) with ((h ++ l1 ++ l2) ++ l3) by (by rewrite <- !app_assoc).
      rewrite read_time_app; [done|]. intros a Ha. rewrite !length_app. specialize (I2 a Ha). lia.
  - intros f a. rewrite !length_app. destruct f; cbn; intros Ha; [specialize (I1 a Ha)|specialize (I2 a Ha)|specialize (I3 a Ha)]; lia.
  - intros f g a Hf Hg.
    destruct f, g; cbn in *; try done; exfalso;
      repeat match goal with H : ?p = Some a, I : forall a, ?p = Some a -> _ |- _ => specialize (I a H) end; lia.
  - intros f a Hf. destruct f; cbn in Hf; [specialize (I1 a Hf)|specialize (I2 a Hf)|specialize (I3 a Hf)]; lia.
Qed.

(** An assignment: the fields point to variables they pointed to before, or to
    a fresh one. *)
Lemma update_spec u s h :
  valid h s ->
  exists s' l, update_ptr u s h = (s', h ++ l) /\ read_status (h ++ l) s' = update u (read_status h s) /\
    valid (h ++ l) s' /\
    (forall f a, field f s' = Some a -> (exists g, field g s = Some a) \/ (length h <= a)%nat).
Proof.
  intros Hv. pose proof (fun t => lookup_app_r h [t] (length h) (Nat.le_refl _)) as Hf. rewrite Nat.sub_diag in Hf.
  pose proof (fun t => read_app h [t] s Hv) as Hr. unfold read_status in Hr.
  assert (forall t, (length h < length (h ++ [t]))%nat) as Hl by (intros t; rewrite length_app; cbn; lia).
  destruct u as [session now|id|phase now|message now|now]; cbv [update_ptr starting_ptr with_task_ptr with_phase_ptr with_failure_ptr with_completion_ptr new_time].
  2: { eexists _, []. rewrite app_nil_r. split; [reflexivity|]. split_and!; [done|intros f a Ha; apply (Hv f); by destruct f|].
       intros f a Ha. left. exists f. by destruct f. }
  all: specialize (Hf now); specialize (Hr now); specialize (Hl now); injection Hr as H1 H2 H3;
    eexists _, [now]; (split; [reflexivity|]); split_and!; [unfold read_status; cbn; rewrite ?Hf, ?H1, ?H3; done|..].
  all: intros [] a Ha; cbn [field] in Ha; simplify_eq/=; try done; try (by right);
    try (left; first [by exists FStarted|by exists FFinished]);
    first [by apply (valid_app h [now] s Hv FStarted)|by apply (valid_app h [now] s Hv FFinished)].
Qed.

Lemma lookup_snoc {A} (l : list A) x k y :
  (l ++ [x]) !! k = Some y -> (l !! k = Some y /\ (k < length l)%nat) \/ (k = length l /\ y = x).
Proof.
  rewrite lookup_app_Some. intros [H|[H1 H2]]; [left; split; [done|by eapply lookup_lt_Some]|right].
  apply list_lookup_singleton_Some in H2 as [H2 ->]. split; [lia|done].
Qed.

Lemma assign_ok u x :
  owned x -> owned (shared_step x (Assign u)) /\
  read_shared (shared_step x (Assign u)) = value_step (read_shared x) (Assign u).
Proof.
  intros [Hs Hc Ha]. cbn [shared_step].
  destruct (update_spec u (sh_status x) (sh_heap x) Hs) as (s' & l & -> & Hr & Hv & Hf). split.
  - split; cbn; [done| |done]. intros k c Hk. destruct (Hc k c Hk) as (H1 & H2 & H3).
    split_and!; [by apply valid_app|done|]. intros f g a Hfa Hga.
    destruct (Hf f a Hfa) as [[f' Hf']|Hle]; [by eapply H3|]. specialize (H1 g a Hga). lia.
  - unfold read_shared. cbn. rewrite Hr. f_equal. apply read_copies_app. intros k c Hk. by destruct (Hc k c Hk).
Qed.

Lemma hand_out_ok x :
  owned x -> owned (shared_step x HandOut) /\ read_shared (shared_step x HandOut) = value_step (read_shared x) HandOut.
Proof.
  intros [Hs Hc Ha]. cbn [shared_step].
  destruct (copy_spec (sh_status x) (sh_heap x) Hs) as (c & l & -> & Hr & Hv & Hd & Hf). split.
  - split; cbn; [by apply valid_app| |].
    + intros k c' [[Hk _]|[_ ->]]%lookup_snoc.
      * destruct (Hc k c' Hk) as (H1 & H2 & H3). split_and!; [by apply valid_app|done..].
      * split_and!; [done..|]. intros f g a Hfa Hga. specialize (Hs f a Hfa). specialize (Hf g a Hga). lia.
    + intros j k c1 c2 Hne [[Hj Hlj]|[-> ->]]%lookup_snoc [[Hk Hlk]|[-> ->]]%lookup_snoc; [by eapply Ha| | |lia].
      * intros f g a Hfa Hga. specialize (proj1 (Hc _ _ Hj) f a Hfa) as H1. specialize (Hf g a Hga). lia.
      * intros f g a Hfa Hga. specialize (proj1 (Hc _ _ Hk) g a Hga) as H1. specialize (Hf f a Hfa). lia.
  - unfold read_shared. cbn. rewrite map_app, read_app by done. f_equal. cbn. rewrite Hr. f_equal.
    apply read_copies_app. intros k c' Hk. by destruct (Hc k c' Hk).
Qed.

(** A write through one field of a copy. *)
Lemma read_write h f v c a :
  valid h c -> distinct c -> field f c = Some a ->
  read_status (<[a := v]> h) c = set_field f v (read_status h c).
Proof.
  intros Hv Hd Ha. pose proof (Hv f a Ha) as Hl.
  assert (forall g, read_time (<[a := v]> h) (field g c) =
    if decide (g = f) then set_present v (read_time h (field g c)) else read_time h (field g c)) as H.
  { intros g. destruct (decide (g = f)) as [->|Hne].
    - rewrite Ha. cbn. rewrite list_lookup_insert_eq by done. destruct (lookup_lt_is_Some_2 h a Hl) as [u ->]. done.
    - destruct (field g c) as [b|] eqn:Hb; [|done]. cbn. apply list_lookup_insert_ne. intros <-. by apply Hne, (Hd _ _ a). }
  unfold read_status, set_field. cbn.
  pose proof (H FStarted) as H1. pose proof (H FUpdated) as H2. pose proof (H FFinished) as H3. cbn [field] in *.
  rewrite H1, H2, H3. by destruct f.
Qed.

Lemma map_alter {A B} (F F' : A -> B) G k cs :
  (forall j c, cs !! j = Some c -> F' c = if decide (j = k) then G (F c) else F c) ->
  map F' cs = alter G k (map F cs).
Proof.
  intros H. apply list_eq. intros j. change (map ?f cs) with (f <$> cs). rewrite list_lookup_fmap.
  destruct (decide (j = k)) as [->|Hne].
  - rewrite list_lookup_alter_eq. change (map ?f cs) with (f <$> cs). rewrite list_lookup_fmap.
    destruct (cs !! k) as [c|] eqn:Hk; [|done]. cbn. rewrite (H k c Hk), decide_True by done. done.
  - rewrite list_lookup_alter_ne by done. change (map ?f cs) with (f <$> cs). rewrite list_lookup_fmap.
    destruct (cs !! j) as [c|] eqn:Hj; [|done]. cbn. rewrite (H j c Hj), decide_False by done. done.
Qed.

Lemma caller_sets_ok k f v x :
  owned x -> owned (shared_step x (CallerSets k f v)) /\
  read_shared (shared_step x (CallerSets k f v)) = value_step (read_shared x) (CallerSets k f v).
Proof.
  intros Hx. pose proof Hx as [Hs Hc Ha]. cbn [shared_step]. unfold read_shared at 2. cbn [value_step fst snd].
  destruct (sh_copies x !! k) as [c|] eqn:Hk.
  2: { split; [done|]. unfold read_shared. f_equal. apply map_alter. intros j c Hj. rewrite decide_False; [done|]. congruence. }
  destruct (Hc k c Hk) as (H1 & H2 & H3). destruct (field f c) as [a|] eqn:Hf.
  2: { split; [done|]. unfold read_shared. f_equal. apply map_alter. intros j c' Hj.
       destruct (decide (j = k)) as [->|]; [|done]. rewrite Hk in Hj. injection Hj as <-.
       unfold set_field, read_status. cbn. destruct f; cbn in Hf; by rewrite Hf. }
  assert (forall s, valid (sh_heap x) s -> valid (<[a := v]> (sh_heap x)) s) as Hw.
  { intros s H g b Hb. rewrite length_insert. by apply (H g). }
  assert (forall s, apart s c -> read_status (<[a := v]> (sh_heap x)) s = read_status (sh_heap x) s) as Hr.
  { intros s H. apply read_same. intros g b Hb. apply list_lookup_insert_ne. intros <-. by eapply H. }
  split.
  - split; cbn; [by apply Hw| |done]. intros j d Hj. destruct (Hc j d Hj) as (? & ? & ?). split_and!; [by apply Hw|done..].
  - unfold read_shared. cbn [sh_heap sh_status sh_copies]. f_equal; [by apply Hr|]. apply map_alter. intros j d Hj.
    destruct (decide (j = k)) as [->|Hne]; [|by apply Hr; eapply Ha].
    rewrite Hk in Hj. injection Hj as <-. by apply read_write.
Qed.

Lemma shared_step_ok s x :
  owned x -> owned (shared_step x s) /\ read_shared (shared_step x s) = value_step (read_shared x) s.
Proof. destruct s; [apply assign_ok|apply hand_out_ok|apply caller_sets_ok]. Qed.

(** ** Theorem *)

Definition new_shared (enabled : bool) : Shared := mkShared [] (new_ptr_status enabled) [].

(** C35: The status of the crash demo has value semantics: whatever the manager
    assigns, however many copies of its status it hands out and whatever the
    receivers write through the pointers of their copies, in any order, the
    manager's status and every copy read exactly as if they were values: an
    assignment reaches no copy, a copy keeps what it was made with, and a
    write by a receiver is seen in that field of that copy only. *)
Theorem status_copies_isolated c steps :
  read_shared (fold_left shared_step steps (new_shared (pc_EnableCrashDemo c))) =
    fold_left value_step steps (new_status c, []).
Proof.
  change (new_status c, []) with (read_shared (new_shared (pc_EnableCrashDemo c))).
  assert (owned (new_shared (pc_EnableCrashDemo c))) as Hx by (split; [by intros []|done..]).
  revert Hx. generalize (new_shared (pc_EnableCrashDemo c)) as x. induction steps as [|s steps IH]; intros x Hx; [done|].
  cbn [fold_left]. destruct (shared_step_ok s x Hx) as [H1 H2]. by rewrite (IH _ H1), H2.
Qed.
