(* ===== verification/Handlers.v ===== *)
(** Handlers: the task handlers that come with the program,
    [internal/tasks/demo_handlers.go] and [internal/playground/demo_handlers.go],
    and the registries [cmd/worker], [NewApp] and [RunCrashWorker] fill.

    A handler waits in a [select] on its context and a timer. Its context is done
    when the handler timeout has passed, or earlier when the worker shuts down:
    then the handler's event carries a fault, with the context's error as text.

    A payload travels through a [JSONB] column, which keeps the members of an
    object in an order of its own, the last of duplicate ones only, and numbers
    by value ([kept]). The theorem says that what the playground accepts its
    handlers can work on; a second one that this needs members with names of
    their own. *)

From S2P Require Import Prelude Dharatype GoTime Float64 GoStrconv GoJson Metrics Pg PgLogic TaskStore.
From S2P Require Import Lifecycle StoreRefine StoreTheorems StoreSpec StoreContracts Client Worker.
From S2P Require Import WorkerRefine WorkerTheorems Config PlaySession GoText GoDecimal PlayConfig PlayStore.
From S2P Require Import PlayService PlayReads PlayCapacity PlayIsolation PlayCrash.
Open Scope dhara_scope.


(** [select] on [ctx.Done()] and [time.After(delay)], [timeout] before the
    context's deadline; when both are ready it picks one. *)
Definition wait (timeout delay : Z) (e : Event) : option error :=
  match ev_fault e with
  | FailBefore m | FailAfter m => Some (NewError m)
  | NoFault =>
      if (timeout <? delay) || ((timeout =? delay) && Nat.odd (ev_pick e)) then Some DeadlineExceeded else None
  end.

Section Handlers.
Context (timeout : Z).

Definition Echo : HandlerFunc := fun _ e => Returned (wait timeout (2 * Second) e).

Definition SendEmail : HandlerFunc := fun payload e =>
  match parse payload with
  | None => Returned (Some (Wrapped "invalid payload" (NewError "json: syntax error")))
  | Some v =>
      match (match v with JObj ms => Some ms | JNull => Some [] | _ => None end) with
      | None => Returned (Some (Wrapped "invalid payload" (NewError "json: cannot unmarshal")))
      | Some ms =>
          match decode_field store_string "to" EmptyString ms, decode_field store_string "subject" EmptyString ms with
          | Some _, Some _ => Returned (wait timeout (2 * Second) e)
          | _, _ => Returned (Some (Wrapped "invalid payload" (NewError "json: cannot unmarshal")))
          end
      end
  end.

Definition AlwaysFails : HandlerFunc := fun _ _ =>
  Returned (Some (NewError "intentional failure for testing retry behavior")).

Definition SlowTask : HandlerFunc := fun _ e => Returned (wait timeout (10 * Minute) e).

(** [rand.Intn(150)] is taken from the event's random bits. *)
Definition RealisticWork : HandlerFunc := fun _ e =>
  Returned (wait timeout (50 * Millisecond + (ev_rand e mod 150) * Millisecond) e).

(** The member [name] of an object as an integer; [None] is an error of
    [json.Unmarshal]. *)
Definition decode_int64 (name payload : string) : option Z :=
  match parse payload with
  | Some (JObj ms) => decode_field store_int64 name 0 ms
  | Some JNull => Some 0
  | _ => None
  end.

Definition FlakyWork : HandlerFunc := fun payload e =>
  match decode_int64 "succeed_at" payload with
  | None => Returned (Some (Wrapped "invalid flaky payload" (NewError "json: cannot unmarshal")))
  | Some succeedAt =>
      if succeedAt <=? 0 then Returned (Some (NewError "invalid flaky payload: succeed_at is required"))
      else
        let now := ev_now e / Millisecond in
        if now <? succeedAt then
          Returned (Some (NewError ("simulated transient failure: retrying in " +:+ itoa (succeedAt - now) +:+ "ms")))
        else Returned None
  end.

Definition CrashWork : HandlerFunc := fun payload e =>
  match decode_int64 "duration_ms" payload with
  | None => Returned (Some (Wrapped "invalid crash-demo payload" (NewError "json: cannot unmarshal")))
  | Some durationMS =>
      if (durationMS <? 0) || (60000 <? durationMS) then
        Returned (Some (NewError "invalid crash-demo payload: duration_ms must be between 0 and 60000"))
      else Returned (wait timeout (durationMS * Millisecond) e)
  end.
End Handlers.

(** ** Registration *)

(** [RegisterHandler] for each pair, in order; [None] is its panic. *)
Definition register (hs : list (string * HandlerFunc)) (w : LibWorker) : option LibWorker :=
  foldl (fun acc h => match acc with Some w => RegisterHandler h.1 h.2 w | None => None end) (Some w) hs.

Definition app_handlers (timeout : Z) : list (string * HandlerFunc) :=
  [(TypeEcho, Echo timeout); (TypeSendEmail, SendEmail timeout); (TypeAlwaysFail, AlwaysFails);
   (TypeSlowTask, SlowTask timeout); (TypeRealisticWork, RealisticWork timeout); (TypeFlaky, FlakyWork)].

Definition app_worker (c : PlayConfig.Config) : option LibWorker :=
  register (app_handlers (pc_HandlerTimeout c)) (NewWorker (app_options c)).

Definition crash_worker (c : PlayConfig.Config) : option LibWorker :=
  register [(TypeCrash, CrashWork (pc_CrashHandlerTimeout c))] (NewWorker (crash_options c)).

Definition cmd_worker (c : WorkerConfig) (shutdown : Z) : option LibWorker :=
  register [("echo", Echo (wc_HandlerTimeout c)); ("send_email", SendEmail (wc_HandlerTimeout c));
            ("always_fail", AlwaysFails); ("slow_task", SlowTask (wc_HandlerTimeout c));
            ("realistic_work", RealisticWork (wc_HandlerTimeout c))] (NewWorker (worker_options c shutdown)).

(** ** What a JSONB column keeps *)

(** Of members with the same name the last one counts. *)
Definition last_members (ms : list (string * json)) : list (string * json) :=
  foldr (fun m acc => if bool_decide (m.1 ∈ map fst acc) then acc else m :: acc) [] ms.

(** Scalars keep their kind and value; the text of an integer may change. *)
Definition same_scalar (v v' : json) : Prop :=
  match v, v' with
  | JNull, JNull => True
  | JBool b, JBool b' => b = b'
  | JStr s, JStr s' => s = s'
  | JNum l, JNum l' => forall n, Atoi l = Some n -> Atoi l' = Some n
  | JArr _, JArr _ | JObj _, JObj _ => True
  | _, _ => False
  end.

Definition same_member (m m' : string * json) : Prop := m.1 = m'.1 /\ same_scalar m.2 m'.2.

(** The members of an object and those the column gives back. *)
Definition kept (ms ms' : list (string * json)) : Prop :=
  exists l, l ≡ₚ last_members ms /\ Forall2 same_member l ms'.

(** No two members match the same field of a struct. *)
Definition distinct (ms : list (string * json)) : Prop := NoDup (map (fun m => foldName m.1) ms).

Lemma field_matches_fold name key : field_matches name key = true <-> foldName key = foldName name.
Proof.
  unfold field_matches. rewrite orb_true_iff, !bool_decide_eq_true. split; [|by right]. by intros [->|].
Qed.

Lemma last_members_distinct ms : distinct ms -> last_members ms = ms.
Proof.
  induction ms as [|m ms IH]; [done|]. intros [Hm Hd]%NoDup_cons. simpl. rewrite IH by done.
  rewrite bool_decide_false; [done|]. intros Hin. apply Hm.
  apply list_elem_of_fmap in Hin as (m' & He & Hin). apply list_elem_of_fmap. exists m'. by rewrite He.
Qed.

Section Decode.
Context {A : Type} (store : json -> option A) (name : string) (zero : A).

(** What one member stores in a field that is still zero. *)
Definition stored_value (v : json) : option A := match v with JNull => Some zero | _ => store v end.

Lemma decode_field_skip x ms : (forall m, m ∈ ms -> field_matches name m.1 = false) ->
  foldl (fun acc m => match acc with
    | None => None
    | Some x => if field_matches name m.1 then match m.2 with JNull => Some x | v => store v end else Some x
    end) x ms = x.
Proof.
  revert x. induction ms as [|m ms IH]; intros x Hms; [done|]. simpl. rewrite (Hms m) by by left.
  destruct x; apply IH; intros; apply Hms; by right.
Qed.

(** Among members with names of their own, a field is zero or the value of the
    one that matches. *)
Lemma decode_field_distinct ms x : distinct ms ->
  decode_field store name zero ms = Some x <->
  ((forall m, m ∈ ms -> field_matches name m.1 = false) /\ x = zero) \/
  (exists m, m ∈ ms /\ field_matches name m.1 = true /\ stored_value m.2 = Some x).
Proof.
  unfold decode_field. induction ms as [|m ms IH]; intros Hd.
  { simpl. split; [intros [= ->]; left; split; [by intros ? ?%elem_of_nil|done]|].
    intros [[_ ->]|(m & ?%elem_of_nil & _)]; done. }
  apply NoDup_cons in Hd as [Hm Hd]. simpl. destruct (field_matches name m.1) eqn:Hf.
  - assert (forall m', m' ∈ ms -> field_matches name m'.1 = false) as Hrest.
    { intros m' Hin. destruct (field_matches name m'.1) eqn:Hf'; [|done]. exfalso. apply Hm.
      apply field_matches_fold in Hf, Hf'. apply list_elem_of_fmap. exists m'. split; [congruence|done]. }
    change (match m.2 with JNull => Some zero | _ => store m.2 end) with (stored_value m.2).
    replace (match m.2 with JNull => Some zero | v => store v end) with (stored_value m.2) by by destruct m.2.
    rewrite decode_field_skip by done. split.
    + intros Hv. right. exists m. split; [by left|done].
    + intros [[Hn _]|(m' & [->|Hin]%elem_of_cons & Hf' & Hv)]; [|done|].
      * specialize (Hn m). rewrite Hf in Hn. by discriminate Hn; left.
      * by rewrite Hrest in Hf'.
  - rewrite IH by done. split.
    + intros [[Hn ->]|(m' & Hin & Hv)]; [left|right].
      * split; [|done]. intros m' [->|Hin]%elem_of_cons; auto.
      * exists m'. split; [by right|done].
    + intros [[Hn ->]|(m' & [->|Hin]%elem_of_cons & Hf' & Hv)]; [left|congruence|right].
      * split; [|done]. intros m' Hin. apply Hn. by right.
      * by exists m'.
Qed.
End Decode.

(** Stored values survive the column. *)
Definition survives {A} (store : json -> option A) : Prop :=
  forall v v' x, same_scalar v v' -> store v = Some x -> store v' = Some x.

Lemma store_string_survives : survives store_string.
Proof. intros [] [] x H; simpl in *; try done. by subst. Qed.

Lemma store_int64_survives : survives store_int64.
Proof. intros [] [] x H; simpl in *; try done. apply H. Qed.

Lemma kept_distinct ms ms' : distinct ms -> kept ms ms' -> distinct ms'.
Proof.
  intros Hd (l & Hl & Hs). rewrite last_members_distinct in Hl by done. unfold distinct in *.
  rewrite <- Hl in Hd. clear Hl. replace (map (fun m => foldName m.1) ms') with (map (fun m => foldName m.1) l); [done|].
  induction Hs as [|m m' l l' [He _] _ IH]; [done|]. apply NoDup_cons in Hd as [_ Hd]. simpl. by rewrite He, IH.
Qed.

Lemma decode_kept {A} (store : json -> option A) name zero ms ms' x : survives store ->
  distinct ms -> kept ms ms' -> decode_field store name zero ms = Some x -> decode_field store name zero ms' = Some x.
Proof.
  intros Hst Hd Hk. pose proof (kept_distinct ms ms' Hd Hk) as Hd'. destruct Hk as (l & Hl & Hs).
  rewrite last_members_distinct in Hl by done. rewrite !decode_field_distinct by done.
  intros [[Hn ->]|(m & Hin & Hf & Hv)]; [left|right].
  - split; [|done]. intros m' Hin'. apply list_elem_of_lookup in Hin' as [i Hi].
    destruct (Forall2_lookup_r _ _ _ _ _ Hs Hi) as (m & Hm & He & _). rewrite <- He. apply Hn.
    rewrite <- Hl. by eapply list_elem_of_lookup_2.
  - rewrite <- Hl in Hin. apply list_elem_of_lookup in Hin as [i Hi].
    destruct (Forall2_lookup_l _ _ _ _ _ Hs Hi) as (m' & Hm & He & Hsc). exists m'.
    split; [by eapply list_elem_of_lookup_2|]. rewrite <- He. split; [done|]. revert Hv. unfold stored_value.
    destruct m.2 eqn:E; destruct m'.2 eqn:E'; try done; by apply Hst.
Qed.

(** ** What the handlers do with an accepted payload *)

(** The outcome of an attempt at [e] on a task of the given type that was
    accepted at [now]: it is about the work, never about the payload. *)
Definition works (taskType : string) (now timeout : Z) (e : Event) (r : HandlerOutcome) : Prop :=
  (taskType = TypeEcho \/ taskType = TypeSendEmail -> r = Returned (wait timeout (2 * Second) e)) /\
  (taskType = TypeAlwaysFail -> r = Returned (Some (NewError "intentional failure for testing retry behavior"))) /\
  (taskType = TypeSlowTask -> r = Returned (wait timeout (10 * Minute) e)) /\
  (taskType = TypeRealisticWork -> exists delay,
    50 * Millisecond <= delay < 200 * Millisecond /\ r = Returned (wait timeout delay e)) /\
  (taskType = TypeFlaky ->
    (now + Hour <= ev_now e -> r = Returned None) /\
    (r = Returned None \/ exists ms, 0 < ms /\
      r = Returned (Some (NewError ("simulated transient failure: retrying in " +:+ itoa ms +:+ "ms"))))).

Lemma normalizePayload_object taskType raw now max payload : normalizePayload taskType raw now max = Ok payload ->
  exists ms, parse payload = Some (JObj ms) /\
  (taskType = TypeSendEmail ->
    is_Some (decode_field store_string "to" EmptyString ms) /\ is_Some (decode_field store_string "subject" EmptyString ms)) /\
  (taskType = TypeFlaky -> exists at_ms, decode_field store_int64 "succeed_at" 0 ms = Some at_ms /\
    0 < at_ms /\ now - Hour <= at_ms * Millisecond <= now + Hour).
Proof.
  unfold normalizePayload. set (raw' := if bool_decide (raw = EmptyString) then _ else raw). clearbody raw'.
  destruct (max <? len raw'); [done|]. destruct (Valid raw') eqn:Hv; [|done].
  destruct (HasPrefix (TrimSpace raw') "{") eqn:Hp; [|done]. cbn [negb].
  destruct (parse_object raw' Hv Hp) as [ms Hms]. unfold object_members. rewrite Hms. intros H.
  assert (payload = raw') as -> by (repeat case_match; simplify_eq; done).
  exists ms. split; [done|]. split; intros ->; cbn in H; repeat case_match; simplify_eq; [by eauto|].
  bool_to_prop. eexists. split; [done|]. lia.
Qed.

Lemma app_worker_handlers c : exists w, app_worker c = Some w /\
  forall t h, (t, h) ∈ app_handlers (pc_HandlerTimeout c) -> Get t (lw_registry w) = Some h.
Proof.
  eexists. split; [reflexivity|]. intros t h Hin. unfold Get, app_handlers in *. cbn [lw_registry Add handlers].
  repeat (apply elem_of_cons in Hin as [[= -> ->]|Hin];
    [repeat (rewrite lookup_insert_ne by done); apply lookup_insert_eq|]). by apply elem_of_nil in Hin.
Qed.

Lemma normalizePayload_allowed taskType raw now max payload :
  normalizePayload taskType raw now max = Ok payload -> taskType ∈ allowedTaskTypes.
Proof.
  unfold normalizePayload, allowedTaskTypes. intros H. repeat case_match; simplify_eq;
    repeat match goal with H : bool_decide _ = true |- _ => apply bool_decide_eq_true in H end; set_solver.
Qed.

Lemma SendEmail_works timeout stored ms e : parse stored = Some (JObj ms) ->
  is_Some (decode_field store_string "to" EmptyString ms) -> is_Some (decode_field store_string "subject" EmptyString ms) ->
  SendEmail timeout stored e = Returned (wait timeout (2 * Second) e).
Proof. intros Hp [to Hto] [subject Hs]. unfold SendEmail. by rewrite Hp, Hto, Hs. Qed.

Lemma FlakyWork_works stored ms at_ms now timeout e : parse stored = Some (JObj ms) ->
  decode_field store_int64 "succeed_at" 0 ms = Some at_ms -> 0 < at_ms -> at_ms * Millisecond <= now + Hour ->
  works TypeFlaky now timeout e (FlakyWork stored e).
Proof.
  intros Hp Hd Hpos Hle. unfold FlakyWork, decode_int64. rewrite Hp, Hd.
  rewrite (proj2 (Z.leb_gt at_ms 0)) by done. cbv zeta. split_and!; try done; [by intros []|]. intros _.
  destruct (Z.ltb_spec (ev_now e / Millisecond) at_ms) as [Hlt|Hge].
  - split; [|right; exists (at_ms - ev_now e / Millisecond); split; [lia|done]].
    intros Hnow. exfalso. change Millisecond with 1000000 in *.
    assert (at_ms <= ev_now e / 1000000); [|lia]. apply Z.div_le_lower_bound; lia.
  - by split; [|left].
Qed.

Lemma RealisticWork_works timeout stored e : exists delay,
  50 * Millisecond <= delay < 200 * Millisecond /\ RealisticWork timeout stored e = Returned (wait timeout delay e).
Proof.
  eexists. split; [|reflexivity]. pose proof (Z.mod_pos_bound (ev_rand e) 150).
  unfold Millisecond, Microsecond. lia.
Qed.

(** ** Theorems *)

(** C36: What the playground accepts its handlers can work on, if no two members
    of the payload have the same name or names that differ in case only. Such a
    payload that passes validation belongs to a type with a registered handler, and
    an attempt at the task, whatever the event, ends as the type's work ends: no
    handler ever refuses the payload. A flaky task succeeds an hour after it was accepted at
    the latest. [stored] is the payload as the JSONB column gives it back. *)
Theorem accepted_payloads_run c taskType raw now max payload ms stored ms' :
  normalizePayload taskType raw now max = Ok payload ->
  parse payload = Some (JObj ms) -> distinct ms ->
  parse stored = Some (JObj ms') -> kept ms ms' ->
  isAllowedType taskType = true /\
  exists w h, app_worker c = Some w /\ Get taskType (lw_registry w) = Some h /\
    forall e, works taskType now (pc_HandlerTimeout c) e (h stored e).
Proof.
  intros Hn Hms Hd Hst Hk. pose proof (normalizePayload_allowed _ _ _ _ _ Hn) as Hin.
  split; [by apply bool_decide_eq_true|]. destruct (app_worker_handlers c) as (w & Hw & Hget).
  destruct (normalizePayload_object _ _ _ _ _ Hn) as (ms0 & Hms0 & Hmail & Hflaky).
  rewrite Hms in Hms0. injection Hms0 as <-. unfold allowedTaskTypes, app_handlers in *.
  repeat (apply elem_of_cons in Hin as [->|Hin]); [..|by apply elem_of_nil in Hin];
    (eexists w, _; split; [done|]; split; [apply Hget; repeat first [by left | right]|]; intros e);
    try (split_and!; try done; (by intros _; apply RealisticWork_works) || (by intros [])).
  - destruct (Hmail eq_refl) as [[to Hto] [subj Hsubj]].
    rewrite (SendEmail_works _ _ ms'); [split_and!; done|done| |];
      eexists; eapply decode_kept; eauto using store_string_survives.
  - destruct (Hflaky eq_refl) as (at_ms & Hat & Hpos & Hrange).
    eapply FlakyWork_works; [done| |done|lia]. eapply decode_kept; eauto using store_int64_survives.
Qed.


(** ** The payload of the crash demo *)

Lemma crash_duration c : validate_crash c = Ok tt ->
  0 <= Milliseconds (pc_CrashTaskDuration c) <= 60000 /\
  Milliseconds (pc_CrashTaskDuration c) * Millisecond < pc_CrashHandlerTimeout c.
Proof.
  intros (_ & Hd & Hh & _)%validate_crash_Ok. unfold Milliseconds. change Millisecond with 1000000 in *.
  change (60 * Second) with 60000000000 in Hd. rewrite Z.quot_div_nonneg by lia.
  pose proof (Z.div_mod (pc_CrashTaskDuration c) 1000000). pose proof (Z.mod_pos_bound (pc_CrashTaskDuration c) 1000000).
  lia.
Qed.

(** The task of a crash demo, left alone, completes: for a validated
    configuration its handler accepts the payload the demo writes, as the column
    gives it back, and finishes before its deadline. *)
Theorem crash_task_completes c key payload stored ms' e :
  validate_crash c = Ok tt -> p_Payload (demo_params c key) = Some payload ->
  (forall ms, parse payload = Some (JObj ms) -> parse stored = Some (JObj ms') /\ kept ms ms') ->
  ev_fault e = NoFault ->
  exists w h, crash_worker c = Some w /\ Get TypeCrash (lw_registry w) = Some h /\ h stored e = Returned None.
Proof.
  intros Hv [= <-] Hst He. destruct (crash_duration c Hv) as [Hr Ht].
  set (n := Milliseconds (pc_CrashTaskDuration c)) in *.
  destruct (Hst _ (parse_int_member "duration_ms" n eq_refl (proj1 Hr))) as [Hp Hk].
  eexists _, _. split; [reflexivity|]. split; [apply lookup_insert_eq|].
  cbn [snd]. unfold CrashWork, decode_int64. rewrite Hp.
  assert (distinct [("duration_ms", JNum (itoa n))]) as Hd by apply NoDup_singleton.
  rewrite (decode_kept store_int64 "duration_ms" 0 _ ms' n store_int64_survives Hd Hk).
  - rewrite (proj2 (Z.ltb_ge n 0)), (proj2 (Z.ltb_ge 60000 n)) by lia. cbn [orb]. unfold wait. rewrite He.
    rewrite (proj2 (Z.ltb_ge _ _)), (proj2 (Z.eqb_neq _ _)) by lia. done.
  - cbn. rewrite Atoi_itoa; [done|]. unfold in_int64, int64_max. apply andb_true_iff. rewrite !Z.leb_le. lia.
Qed.

(** ** Members that match the same field *)

(** Member names match fields in any case, and JSONB sorts members by name: of
    two members that match [succeed_at], validation goes by the last one of the
    text and the handler by the last one of the column. A task that was accepted
    is then refused by its handler. *)
Definition two_cases : string :=
  "{" +:+ quoted "succeed_at" +:+ ":-1," +:+ quoted "SUCCEED_AT" +:+ ":1000000}".
Definition two_cases_stored : string :=
  "{" +:+ quoted "SUCCEED_AT" +:+ ": 1000000, " +:+ quoted "succeed_at" +:+ ": -1}".

Theorem case_variants_evade_validation e :
  normalizePayload TypeFlaky two_cases (1000 * Second) 4096 = Ok two_cases /\
  (exists ms ms', parse two_cases = Some (JObj ms) /\ parse two_cases_stored = Some (JObj ms') /\ kept ms ms') /\
  FlakyWork two_cases_stored e = Returned (Some (NewError "invalid flaky payload: succeed_at is required")).
Proof.
  split; [vm_compute; reflexivity|]. split; [|vm_compute; reflexivity].
  eexists _, _. split; [vm_compute; reflexivity|]. split; [vm_compute; reflexivity|].
  eexists. split; [apply Permutation_swap|]. repeat constructor; by intros n.
Qed.

(** The same with one name twice: [null] leaves the field as the first member set
    it, while JSONB keeps the last member only. *)
Definition repeated : string :=
  "{" +:+ quoted "succeed_at" +:+ ":1000000," +:+ quoted "succeed_at" +:+ ":null}".
Definition repeated_stored : string := "{" +:+ quoted "succeed_at" +:+ ": null}".

Theorem repeated_member_evades_validation e :
  normalizePayload TypeFlaky repeated (1000 * Second) 4096 = Ok repeated /\
  (exists ms ms', parse repeated = Some (JObj ms) /\ parse repeated_stored = Some (JObj ms') /\ kept ms ms') /\
  FlakyWork repeated_stored e = Returned (Some (NewError "invalid flaky payload: succeed_at is required")).
Proof.
  split; [vm_compute; reflexivity|]. split; [|vm_compute; reflexivity].
  eexists _, _. split; [vm_compute; reflexivity|]. split; [vm_compute; reflexivity|].
  eexists. split; [vm_compute; reflexivity|]. by repeat constructor.
Qed.

(** ** Concrete payloads *)

Definition mail : string := "{" +:+ quoted "to" +:+ ":" +:+ quoted "a@b" +:+ "," +:+ quoted "subject" +:+ ":null}".
Definition mail_stored : string :=
  "{" +:+ quoted "to" +:+ ": " +:+ quoted "a@b" +:+ ", " +:+ quoted "subject" +:+ ": null}".

Lemma accepted_payloads_run_witness :
  normalizePayload TypeSendEmail mail 0 4096 = Ok mail /\
  exists w h, app_worker (loadConfigRaw bare_env) = Some w /\ Get TypeSendEmail (lw_registry w) = Some h /\
    h mail_stored (quiet_event 0 0) = Returned None.
Proof.
  split; [vm_compute; reflexivity|].
  destruct (accepted_payloads_run (loadConfigRaw bare_env) TypeSendEmail mail 0 4096 mail
    [("to", JStr "a@b"); ("subject", JNull)] mail_stored [("to", JStr "a@b"); ("subject", JNull)])
    as (_ & w & h & Hw & Hh & Hrun); [vm_compute; reflexivity..| |vm_compute; reflexivity| |].
  - apply (bool_decide_unpack _). vm_compute. exact I.
  - eexists. split; [reflexivity|]. by repeat constructor.
  - exists w, h. split; [done|]. split; [done|]. destruct (Hrun (quiet_event 0 0)) as [Hr _].
    rewrite Hr by by right. reflexivity.
Defined.
