(* ===== verification/PlayApp.v ===== *)
(** PlayApp: the playground process, [internal/playground/app.go] and
    [cmd/playground/main.go].

    The process works on two schemas: the visitors' ([ps_main]) and that of the
    crash demo ([ps_crash]), each a [World] with an oracle of its own. The
    retention loop walks over both. [Run] starts goroutines and waits: what the
    channels deliver is an argument, and the model is what it makes of it. *)

From S2P Require Import Prelude Dharatype GoTime Float64 GoStrconv GoJson Metrics Pg PgLogic TaskStore.
From S2P Require Import Lifecycle StoreRefine StoreTheorems StoreSpec StoreContracts Client Worker.
From S2P Require Import WorkerRefine WorkerTheorems Config PlaySession PlayUuid PlayStore PlayConfig PlayService.
From S2P Require Import RateLimiter PlayReads PlayCapacity PlayIsolation PlayHttp PlayCrash Handlers.
Open Scope dhara_scope.

(** ** The application *)

Record App := mkApp {
  a_cfg : PlayConfig.Config;
  a_worker : LibWorker;
  a_http : HTTPServer;
  a_limiters : Limiters;
  a_crash : bool;         (* a crash manager was set up *)
  a_shutdown : bool
}.

(** The state of the two schemas and of the crash manager. *)
Record PlayState := mkPlayState {
  ps_main : World;
  ps_crash : World;
  ps_manager : CrashManager
}.

(** The crash manager as the service calls it. It works in its own schema: a
    request's own world stays as it is. *)
Definition controller (c : PlayConfig.Config) (m : CrashManager) (oc : Oracle) (wc : World) : CrashController :=
  mkCrashController (manager_Enabled c)
    (fun session => fun _ w => ((manager_Start c None session m oc wc).1.1, w))
    (fun _ w => ((manager_Status c m oc wc).1.1, w)).

(** [NewApp]; [prepared] and [crash_prepared] are the outcomes of
    [PrepareSchema] and [NewCrashManager]. A crash manager that cannot be set up
    leaves the playground without one. *)
Definition NewApp (c : PlayConfig.Config) (prepared crash_prepared : res unit) (ctl : CrashController)
    (stats : MetricsSnapshot) (now : Z) : res App :=
  match prepared with
  | Err e => Err e
  | Ok _ =>
      match app_worker c with
      | None => Err (NewError "RegisterHandler called after Start")
      | Some worker =>
          let crash := match crash_prepared with Ok _ => Some ctl | Err _ => None end in
          let (server, limiters) := NewHTTPServer c (mkService c stats crash) now in
          Ok (mkApp c worker server limiters (match crash_prepared with Ok _ => true | Err _ => false end) false)
      end
  end.

(** ** Retention *)

Definition cleanup (a : App) (o oc : Oracle) (s : PlayState) : PlayState :=
  let '(now, w) := time_Now o (ps_main s) in
  let cutoff := now - pc_Retention (a_cfg a) in
  let w := (DeleteOlderThan cutoff o w).2 in
  if a_crash a then
    let '(r, wc) := manager_Cleanup (a_cfg a) cutoff (ps_manager s) oc (ps_crash s) in
    mkPlayState w wc r.2
  else mkPlayState w (ps_crash s) (ps_manager s).

(** [n] ticks of the timer until the context is done. *)
Fixpoint cleanupLoop (a : App) (n : nat) (o oc : Oracle) (s : PlayState) : PlayState :=
  match n with
  | O => s
  | S n' => cleanupLoop a n' o oc (cleanup a o oc s)
  end.

(** ** Run and shutdown *)

Definition Canceled : error := NewError "context canceled".

(** What ends the wait of [Run]. *)
Inductive Stop : Type :=
  | StopContext
  | StopWorker (err : option error)
  | StopServer (err : option error).

(** A worker that stops because its context was cancelled has not failed. *)
Definition unexpected (err : option error) : option error :=
  match err with
  | Some e => if errors_Is e Canceled then None else Some e
  | None => None
  end.

Definition Close (a : App) : App :=
  if a_shutdown a then a
  else mkApp (a_cfg a) (a_worker a) (a_http a) (a_limiters a) (a_crash a) true.

(** [Run] from the first event on: [late] is what the worker reports before the
    shutdown timeout, if it still runs and does. *)
Definition Run (a : App) (stop : Stop) (late : option (option error)) : App * option error :=
  let runErr :=
    match stop with
    | StopContext => None
    | StopWorker err => unexpected err
    | StopServer err => err
    end in
  let runErr :=
    match stop with
    | StopWorker _ => runErr
    | _ =>
        match late with
        | Some err => match unexpected err, runErr with Some e, None => Some e | _, _ => runErr end
        | None => runErr
        end
    end in
  (Close a, runErr).

(** The exit status of [cmd/playground]; [child] is the outcome of
    [RunCrashWorker], [outcome] that of [NewApp] and [Run]. *)
Definition run_main (args : list string) (env : Env) (child : option error)
    (outcome : PlayConfig.Config -> option error) : Z :=
  match args with
  | _ :: "-crash-worker" :: _ => match child with Some _ => 1 | None => 0 end
  | _ =>
      match LoadConfig env with
      | Err _ => 1
      | Ok c => match outcome c with Some _ => 1 | None => 0 end
      end
  end.

(** ** The crash controller *)

(** The manager does what the service relies on. *)
Lemma controller_separate s c m oc wc :
  crash (h_play s) = Some (controller c m oc wc) -> separate_crash s.
Proof.
  intros Hc ctl Hctl. rewrite Hc in Hctl. injection Hctl as <-. cbn [crash_Status crash_Start controller].
  split; [intros session; split; [apply isolated_ret|intros u; apply isolated_ret]|].
  split; [exact (adds_ret _)|intros u; exact (adds_ret _)].
Qed.

(** ** Retention *)

(** A schema after a cleanup with the given cutoff. *)
Definition swept (cutoff : Z) (w w' : World) : Prop :=
  idle w' /\ forall id, view id (w_db w') =
    match tasks (w_db w) !! id with
    | Some r => if decide (r_created_at r < cutoff /\ r_status r <> RUNNING) then mkView None [] 0 else view id (w_db w)
    | None => view id (w_db w)
    end.

Lemma DeleteOlderThan_swept cutoff o w : calm o -> idle w -> swept cutoff w (DeleteOlderThan cutoff o w).2.
Proof.
  intros Hc Hw. destruct w as [db tx met k]. destruct Hw as [Htx HI]. simpl in *. subst tx.
  rewrite (DeleteOlderThan_calm cutoff db HI o met k Hc). cbn [snd]. split.
  - split; [done|]. apply (cleaned_Inv cutoff db HI). intros id. by apply view_cleaned.
  - intros id. cbn [w_db]. rewrite (view_cleaned cutoff db HI). unfold cleaned_view. cbn [v_row view].
    destruct (tasks db !! id) as [r|]; [|done]. destruct (expired cutoff r) eqn:He.
    + rewrite decide_True; [done|]. by apply expired_spec.
    + rewrite decide_False; [done|]. rewrite <- expired_spec. by rewrite He.
Qed.

Section Retention.
Context (a : App) (o oc : Oracle) (Hcalm : calm o) (Hcalm_crash : calm oc).

(** One cleanup sweeps both schemas with the same cutoff. *)
Lemma cleanup_swept s : idle (ps_main s) -> idle (ps_crash s) -> exists k,
  let cutoff := ev_now (o k) - pc_Retention (a_cfg a) in
  swept cutoff (ps_main s) (ps_main (cleanup a o oc s)) /\
  if a_crash a && pc_EnableCrashDemo (a_cfg a)
  then swept cutoff (ps_crash s) (ps_crash (cleanup a o oc s))
  else ps_crash (cleanup a o oc s) = ps_crash s.
Proof.
  intros Hm Hc. exists (w_next (ps_main s)). set (cutoff := ev_now _ - _). destruct s as [w wc m]. cbn [ps_main ps_crash] in *.
  assert (swept cutoff w (DeleteOlderThan cutoff o (tick o w)).2) as Hsw.
  { destruct Hm as [Htx HI]. assert (w_db (tick o w) = w_db w) as Hdb 
      by (unfold tick; simpl; destruct (pending w); [apply Hcalm|done]).
    pose proof (DeleteOlderThan_swept cutoff o (tick o w) Hcalm) as Hs. unfold swept in Hs. rewrite Hdb in Hs.
    apply Hs. split; [exact Htx|by rewrite Hdb]. }
  unfold cleanup. cbn [ps_main ps_crash ps_manager time_Now]. fold cutoff.
  destruct (a_crash a); cbn [andb]; [|by split].
  unfold manager_Cleanup, manager_Enabled. destruct (pc_EnableCrashDemo (a_cfg a)); cbn [cret].
  - pose proof (DeleteOlderThan_swept cutoff oc wc Hcalm_crash Hc) as Hsc. unfold lift, bind.
    destruct (DeleteOlderThan cutoff oc wc) as [r wc']. by split.
  - by split.
Qed.

(** A schema after [n] cleanups at times of the oracle: tasks that run or are
    young are as before, old ones are gone after the first. *)
Definition retained (n : nat) (w w' : World) : Prop :=
  idle w' /\ forall id,
    match tasks (w_db w) !! id with
    | Some r =>
        (r_status r = RUNNING \/ (forall k, ev_now (o k) - pc_Retention (a_cfg a) <= r_created_at r) ->
          view id (w_db w') = view id (w_db w)) /\
        ((0 < n)%nat -> r_status r <> RUNNING ->
          (forall k, r_created_at r < ev_now (o k) - pc_Retention (a_cfg a)) -> view id (w_db w') = mkView None [] 0)
    | None => view id (w_db w') = view id (w_db w)
    end.

Lemma retained_0 w : idle w -> retained 0 w w.
Proof. intros Hw. split; [done|]. intros id. destruct (tasks (w_db w) !! id); [|done]. split; [done|lia]. Qed.

Lemma retained_step k n w w1 w' :
  swept (ev_now (o k) - pc_Retention (a_cfg a)) w w1 -> retained n w1 w' -> retained (S n) w w'.
Proof.
  intros [_ Hs] [Hi Hr]. split; [done|]. intros id. specialize (Hs id). specialize (Hr id).
  assert (forall v, view id (w_db w1) = v -> tasks (w_db w1) !! id = v_row v) as Hrow by by intros v <-.
  destruct (tasks (w_db w) !! id) as [r|] eqn:Hw.
  - destruct (decide _) as [[Hold Hrun]|Hkeep].
    + rewrite (Hrow _ Hs) in Hr. cbn [v_row] in Hr. split.
      * intros [H|H]; [done|]. specialize (H k). lia.
      * intros _ _ _. by rewrite Hr.
    + rewrite (Hrow _ Hs) in Hr. cbn [v_row view] in Hr. rewrite Hw in Hr. destruct Hr as [H1 _]. split.
      * intros H. by rewrite (H1 H).
      * intros _ Hrun Hold. exfalso. apply Hkeep. split; [apply Hold|done].
  - rewrite (Hrow _ Hs) in Hr. cbn [v_row view] in Hr. rewrite Hw in Hr. by rewrite Hr.
Qed.

Lemma cleanupLoop_retained n s : idle (ps_main s) -> idle (ps_crash s) ->
  let s' := cleanupLoop a n o oc s in
  retained n (ps_main s) (ps_main s') /\
  if a_crash a && pc_EnableCrashDemo (a_cfg a) then retained n (ps_crash s) (ps_crash s') else ps_crash s' = ps_crash s.
Proof.
  revert s. induction n as [|n IH]; intros s Hm Hc; cbn zeta.
  { split; [by apply retained_0|]. destruct (_ && _); [by apply retained_0|done]. }
  destruct (cleanup_swept s Hm Hc) as (k & Hsm & Hsc). cbn zeta in Hsc. cbn [cleanupLoop].
  destruct (IH (cleanup a o oc s)) as [IHm IHc]; [apply Hsm|destruct (_ && _); [apply Hsc|by rewrite Hsc]|].
  split; [by eapply retained_step|]. destruct (_ && _); [by eapply retained_step|]. by rewrite IHc.
Qed.
End Retention.

(** ** Theorems *)

(** The retention loop of the process, undisturbed: after one tick or more, in
    the visitors' schema and, while the crash demo is enabled, in its schema,
    every task that was past the retention time at each tick and did not run is
    gone with its log and dead letters, every task that runs or was within its
    retention is as it was, and the invariant of the queue holds. *)
Theorem retention_loop a n o oc s :
  calm o -> calm oc -> idle (ps_main s) -> idle (ps_crash s) ->
  let s' := cleanupLoop a n o oc s in
  retained a o n (ps_main s) (ps_main s') /\
  (a_crash a = true -> pc_EnableCrashDemo (a_cfg a) = true -> retained a o n (ps_crash s) (ps_crash s')).
Proof.
  intros Hc Hcc Hm Hcr s'. destruct (cleanupLoop_retained a o oc Hc Hcc n s Hm Hcr) as [H1 H2].
  split; [done|]. intros H3 H4. by rewrite H3, H4 in H2.
Qed.

(** The process reports a failure exactly when its server failed, or its worker
    failed otherwise than by cancellation; whatever happens it shuts down once. *)
Theorem run_reports_failures a stop late :
  (Run a stop late).2 = None <->
  match stop with
  | StopContext => forall err, late = Some err -> unexpected err = None
  | StopWorker err => unexpected err = None
  | StopServer err => err = None /\ forall err', late = Some err' -> unexpected err' = None
  end.
Proof.
  unfold Run. destruct stop as [|err|err]; cbn [snd]; [|done|].
  - destruct late as [err|]; [|done]. split.
    + intros H err' [= <-]. by destruct (unexpected err).
    + intros H. by rewrite (H err eq_refl).
  - destruct late as [err'|].
    + split.
      * intros H. destruct (unexpected err') eqn:Hu, err; try done. split; [done|]. intros ? [= <-]. done.
      * intros [-> H]. by rewrite (H err' eq_refl).
    + split; [by intros ->|by intros [-> _]].
Qed.
