(* ===== verification/PlayChild.v ===== *)
(** PlayChild: the environment of the crash worker, [childEnv] and the start of
    [RunCrashWorker] in [internal/playground/crash.go].

    The parent passes its crash settings to the child process as text. The block
    of a process is a list of entries; the standard library reads the first entry
    of a name ([os.Getenv], [os.Environ]) and [exec.Cmd] hands over the last one. *)

From Stdlib Require Import Ascii.
From S2P Require Import Prelude Dharatype GoTime Float64 GoStrconv GoJson Metrics Pg PgLogic TaskStore.
From S2P Require Import Lifecycle StoreRefine StoreTheorems StoreSpec StoreContracts Client Worker.
From S2P Require Import WorkerRefine WorkerTheorems Config PlaySession GoText GoDecimal GoDuration PlayConfig Handlers.

(** ** Environment blocks *)

(** The text before and after the first ["="]. *)
Fixpoint cut (s : string) : option (string * string) :=
  match s with
  | EmptyString => None
  | String c r =>
      if bool_decide (c = "="%char) then Some (EmptyString, r)
      else match cut r with Some (k, v) => Some (String c k, v) | None => None end
  end.

(** The value an entry gives to [key]. *)
Definition entry_value (key entry : string) : option string :=
  match cut entry with Some (k, v) => if bool_decide (k = key) then Some v else None | None => None end.

Definition values (key : string) (block : list string) : list string := omap (entry_value key) block.

(** [os.Getenv]. *)
Definition Getenv (block : list string) : Env := fun key => default EmptyString (head (values key block)).

(** [os.Environ]: later entries of a name and empty entries are left out. *)
Fixpoint Environ_from (seen : list string) (block : list string) : list string :=
  match block with
  | [] => []
  | e :: es =>
      match cut e with
      | Some (k, _) => if bool_decide (k ∈ seen) then Environ_from seen es else e :: Environ_from (k :: seen) es
      | None => if bool_decide (e = EmptyString) then Environ_from seen es else e :: Environ_from seen es
      end
  end.
Definition Environ (block : list string) : list string := Environ_from [] block.

(** The name under which [exec.Cmd] finds duplicates; a leading ["="] belongs to
    the name. *)
Definition dedup_key (entry : string) : option string :=
  match cut entry with
  | Some (EmptyString, rest) =>
      Some match cut rest with Some (k, _) => String "=" k | None => EmptyString end
  | Some (k, _) => Some k
  | None => None
  end.

(** [exec.dedupEnv]: of the entries of a name the last one is kept. Entries of a
    block are C strings, so that none has a NUL byte. *)
Fixpoint dedupEnv (block : list string) : list string :=
  match block with
  | [] => []
  | e :: es =>
      match dedup_key e with
      | Some k => if bool_decide (Some k ∈ map dedup_key es) then dedupEnv es else e :: dedupEnv es
      | None => if bool_decide (e = EmptyString) then dedupEnv es else e :: dedupEnv es
      end
  end.

(** ** [childEnv] *)

(** The name of an entry; an entry without ["="] is its own name. *)
Definition entry_key (entry : string) : string := match cut entry with Some (k, _) => k | None => entry end.

(** [overrides] lists the members of the map in the order in which [range] yields
    them. *)
Definition childEnv (environ : list string) (overrides : list (string * string)) : list string :=
  filter (fun entry => entry_key entry ∉ map fst overrides) environ ++ map (fun o => o.1 +:+ "=" +:+ o.2) overrides.

(** The overrides of [spawnWorker]. *)
Definition child_overrides (c : PlayConfig.Config) : list (string * string) :=
  [("PLAYGROUND_DB_SCHEMA", pc_CrashSchema c);
   ("PLAYGROUND_CRASH_SCHEMA", pc_CrashSchema c);
   ("PLAYGROUND_CRASH_WORKER_PREFIX", pc_CrashWorkerPrefix c);
   ("PLAYGROUND_CRASH_POLL_INTERVAL", duration_string (pc_CrashPollInterval c));
   ("PLAYGROUND_CRASH_HEARTBEAT_INTERVAL", duration_string (pc_CrashHeartbeatInterval c));
   ("PLAYGROUND_CRASH_STUCK_THRESHOLD", duration_string (pc_CrashStuckThreshold c));
   ("PLAYGROUND_CRASH_HANDLER_TIMEOUT", duration_string (pc_CrashHandlerTimeout c))].

(** The block of the child: what [cmd.Start] hands over. *)
Definition child_block (block : list string) (overrides : list (string * string)) : list string :=
  dedupEnv (childEnv (Environ block) overrides).

(** ** [RunCrashWorker] *)

(** Up to the start of the worker: [started] is the flag of the process,
    [prepare] is [PrepareSchema]. *)
Definition RunCrashWorker (prepare : PlayConfig.Config -> string -> res unit) (env : Env) (started : bool) :
    bool * res (option LibWorker) :=
  if started then (true, Err (NewError "crash worker already started"))
  else
    let cfg := loadConfigRaw env in
    (true,
     if bool_decide (pc_DatabaseURL cfg = EmptyString) then Err (NewError "DHARA_DATABASE_URL must be set")
     else match validateSchema (pc_Schema cfg) with
     | Err e => Err (Wrapped "crash worker schema" e)
     | Ok _ =>
         match prepare cfg (pc_Schema cfg) with
         | Err e => Err e
         | Ok _ => Ok (crash_worker cfg)
         end
     end).

(** ** Reading a block *)

(** A name a program asks for. *)
Definition plain_key (key : string) : Prop := key <> EmptyString /\ contains "=" key = false.

Lemma cut_entry k v : contains "=" k = false -> cut (k +:+ "=" +:+ v) = Some (k, v).
Proof.
  induction k as [|c k IH]; [done|]. change (String c k +:+ "=" +:+ v) with (String c (k +:+ "=" +:+ v)).
  cbn [contains cut]. intros [Hc Hk]%orb_false_iff. by rewrite Hc, IH.
Qed.

Lemma values_cons key e es : values key (e :: es) = option_list (entry_value key e) ++ values key es.
Proof. unfold values. cbn [omap list_omap]. by destruct (entry_value key e). Qed.

Lemma values_app key l l' : values key (l ++ l') = values key l ++ values key l'.
Proof. apply omap_app. Qed.

Lemma entry_value_key key e v : entry_value key e = Some v -> cut e = Some (key, v).
Proof. unfold entry_value. destruct (cut e) as [[k ?]|]; [|done]. case_bool_decide; [|done]. by intros [= ->]; subst k. Qed.

Lemma entry_value_other key e k v : cut e = Some (k, v) -> k <> key -> entry_value key e = None.
Proof. intros He Hk. unfold entry_value. by rewrite He, bool_decide_false. Qed.

Lemma values_Environ_from key seen block :
  values key (Environ_from seen block) = if bool_decide (key ∈ seen) then [] else take 1 (values key block).
Proof.
  revert seen. induction block as [|e es IH]; intros seen; [by case_match|]. rewrite values_cons. cbn [Environ_from].
  destruct (entry_value key e) as [v|] eqn:He.
  - rewrite (entry_value_key _ _ _ He). destruct (bool_decide_reflect (key ∈ seen)) as [Hin|Hin]; [by rewrite IH, bool_decide_true|].
    rewrite values_cons, He, IH, bool_decide_true by (by left). done.
  - assert (forall s', (key ∈ s' <-> key ∈ seen) -> values key (Environ_from s' es) = if bool_decide (key ∈ seen) then [] else take 1 (values key es)) as IH'.
    { intros s' Hs. rewrite IH. by rewrite (bool_decide_ext _ _ Hs). }
    destruct (cut e) as [[k v]|] eqn:Hc; [|destruct (bool_decide (e = EmptyString)); rewrite ?values_cons, ?He; by apply IH'].
    destruct (bool_decide (k ∈ seen)); [by apply IH'|]. rewrite values_cons, He. apply IH'. rewrite elem_of_cons.
    assert (key <> k) by (intros ->; unfold entry_value in He; by rewrite Hc, bool_decide_true in He). naive_solver.
Qed.

Lemma values_Environ key block : values key (Environ block) = take 1 (values key block).
Proof. unfold Environ. rewrite values_Environ_from. by rewrite bool_decide_false by (by intros ?%elem_of_nil). Qed.

Lemma dedup_key_spec key e : plain_key key -> dedup_key e = Some key <-> is_Some (entry_value key e).
Proof.
  intros [Hne Heq]. unfold dedup_key, entry_value. destruct (cut e) as [[[|c k] v]|]; [| |split; [done|by intros []]].
  - rewrite bool_decide_false by done. split; [|by intros []]. intros [= Hk]. destruct (cut v) as [[k' ?]|]; by subst key.
  - case_bool_decide as Hk; split; [by eexists|by intros _; f_equal|by intros [= ?]|by intros []].
Qed.

(** An entry for [key] is one that duplicates [key]. *)
Lemma values_named key es : plain_key key -> Some key ∈ map dedup_key es <-> values key es <> [].
Proof.
  intros Hkey. induction es as [|e es IH]; [split; [by intros ?%elem_of_nil|done]|].
  rewrite values_cons. cbn [map]. rewrite elem_of_cons, IH. pose proof (dedup_key_spec key e Hkey) as Hd.
  destruct (entry_value key e) as [v|]; cbn [option_list app].
  - split; [done|]. intros _. left. symmetry. by apply Hd.
  - split; [|by right]. intros [H|H]; [|done]. symmetry in H. apply Hd in H. by destruct H.
Qed.

Lemma values_dedup key block : plain_key key ->
  values key (dedupEnv block) = match last (values key block) with Some v => [v] | None => [] end.
Proof.
  intros Hkey. induction block as [|e es IH]; [done|]. cbn [dedupEnv]. rewrite values_cons.
  destruct (entry_value key e) as [v|] eqn:He.
  - rewrite (proj2 (dedup_key_spec key e Hkey)) by (by rewrite He).
    destruct (bool_decide_reflect (Some key ∈ map dedup_key es)) as [Hin|Hin]; rewrite values_named in Hin by done.
    + rewrite IH. by destruct (values key es).
    + rewrite values_cons, He, IH. apply dec_stable in Hin. by rewrite Hin.
  - cbn [option_list app]. destruct (dedup_key e); case_bool_decide; rewrite ?values_cons, ?He; exact IH.
Qed.

Lemma values_kept key (ks environ : list string) :
  values key (filter (fun e => entry_key e ∉ ks) environ) = if bool_decide (key ∈ ks) then [] else values key environ.
Proof.
  induction environ as [|e es IH]; [by case_match|]. rewrite filter_cons, values_cons.
  destruct (entry_value key e) as [v|] eqn:He.
  - assert (entry_key e = key) as Hk by (unfold entry_key; by rewrite (entry_value_key _ _ _ He)).
    destruct (decide (entry_key e ∉ ks)) as [Hd|Hd]; rewrite Hk in Hd.
    + rewrite values_cons, He, IH. by rewrite bool_decide_false.
    + rewrite IH, bool_decide_true by (by apply dec_stable). done.
  - destruct (decide (entry_key e ∉ ks)); [rewrite values_cons, He|]; exact IH.
Qed.

(** The entry of an override. *)
Definition override_entry (o : string * string) : string := o.1 +:+ "=" +:+ o.2.

Lemma values_overrides key (overrides : list (string * string)) :
  Forall (fun o => contains "=" o.1 = false) overrides -> NoDup (map fst overrides) ->
  (forall v, (key, v) ∈ overrides -> values key (map override_entry overrides) = [v]) /\
  (key ∉ map fst overrides -> values key (map override_entry overrides) = []).
Proof.
  induction overrides as [|[k x] os IH]; intros Ho Hnd; [split; [by intros ? ?%elem_of_nil|done]|].
  apply Forall_cons in Ho as [Hk Ho]. cbn [map fst snd] in *. apply NoDup_cons in Hnd as [Hk' Hnd]. destruct (IH Ho Hnd) as [IH1 IH2].
  rewrite values_cons. pose proof (cut_entry k x Hk : cut (override_entry (k, x)) = _) as Hcut.
  destruct (decide (k = key)) as [->|Hne].
  - unfold entry_value. rewrite Hcut, bool_decide_true, IH2 by done.
    split; [|intros H; destruct H; by left]. intros v [[= ->]|Hin]%elem_of_cons; [done|].
    destruct Hk'. apply list_elem_of_fmap. by exists (key, v).
  - rewrite (entry_value_other key _ _ _ Hcut Hne).
    split; [|intros H; apply IH2; intros ?; apply H; by right]. intros v [[= -> _]|Hin]%elem_of_cons; [done|by apply IH1].
Qed.

Section Lookup.
Context (block : list string) (overrides : list (string * string)) (key : string) (Hkey : plain_key key).
Context (Ho : Forall (fun o => contains "=" o.1 = false) overrides) (Hnd : NoDup (map fst overrides)).

Lemma child_values : values key (child_block block overrides) =
  match last ((if bool_decide (key ∈ map fst overrides) then [] else take 1 (values key block)) ++
              values key (map override_entry overrides)) with Some v => [v] | None => [] end.
Proof. unfold child_block, childEnv. by rewrite values_dedup, values_app, values_kept, values_Environ by done. Qed.

(** The child finds what was overridden. *)
Lemma child_override v : (key, v) ∈ overrides -> Getenv (child_block block overrides) key = v.
Proof.
  intros Hin. unfold Getenv. rewrite child_values, (proj1 (values_overrides key overrides Ho Hnd) v Hin).
  rewrite bool_decide_true; [done|]. apply list_elem_of_fmap. by exists (key, v).
Qed.

(** The child inherits the rest. *)
Lemma child_inherit : key ∉ map fst overrides -> Getenv (child_block block overrides) key = Getenv block key.
Proof.
  intros Hin. unfold Getenv. rewrite child_values, (proj2 (values_overrides key overrides Ho Hnd) Hin).
  rewrite bool_decide_false, app_nil_r by done. by destruct (values key block).
Qed.
End Lookup.

(** ** The settings survive the trip *)

Lemma getEnvString_trimmed env key fallback : fallback <> EmptyString -> TrimSpace fallback = fallback ->
  let v := PlayConfig.getEnvString env key fallback in v <> EmptyString /\ TrimSpace v = v.
Proof. intros Hf Ht. unfold PlayConfig.getEnvString. case_bool_decide; [done|]. split; [done|apply TrimSpace_idem]. Qed.

Lemma getEnvString_kept env key fallback v : env key = v -> v <> EmptyString -> TrimSpace v = v ->
  PlayConfig.getEnvString env key fallback = v.
Proof. intros He Hne Ht. unfold PlayConfig.getEnvString. rewrite He, Ht. by rewrite bool_decide_false. Qed.

Lemma wrap64_range n : in_int64 (wrap64 n) = true.
Proof.
  unfold in_int64, wrap64, int64_max. pose proof (Z.mod_pos_bound (n + 2 ^ 63) (2 ^ 64) ltac:(done)).
  apply andb_true_iff. rewrite !Z.leb_le. change (2 ^ 64) with 18446744073709551616 in *. change (2 ^ 63) with 9223372036854775808 in *. lia.
Qed.

Lemma getEnvDuration_range env key fallback : in_int64 fallback = true -> in_int64 (PlayConfig.getEnvDuration env key fallback) = true.
Proof.
  intros Hf. unfold PlayConfig.getEnvDuration. case_bool_decide; [done|].
  destruct (ParseDuration _) as [d|] eqn:Hd; [by apply ParseDuration_range in Hd|]. case_match; [apply wrap64_range|done].
Qed.

Lemma getEnvDuration_kept env key fallback d : env key = duration_string d -> in_int64 d = true ->
  PlayConfig.getEnvDuration env key fallback = d.
Proof.
  intros He Hd. destruct (duration_string_ends d Hd) as (c & s & x & Hs & Hc & Hx). unfold PlayConfig.getEnvDuration.
  rewrite He, Hs, (TrimSpace_between c s x "s") by done. rewrite bool_decide_false by done.
  rewrite <- Hs, ParseDuration_string by done. done.
Qed.

(** The configuration of the child: that of the parent on the schema of the demo. *)
Definition child_config (c : PlayConfig.Config) : PlayConfig.Config :=
  PlayConfig.mkConfig (pc_DatabaseURL c) (pc_MaxConns c) (pc_MinConns c) (pc_Port c) (pc_CrashSchema c) (pc_CrashSchema c)
    (pc_AutoMigrate c) (pc_ShutdownTimeout c) (pc_TrustProxy c) (pc_WorkerPrefix c) (pc_WorkerCount c) (pc_PollInterval c)
    (pc_HeartbeatInterval c) (pc_HandlerTimeout c) (pc_StuckThreshold c) (pc_ReaperInterval c) (pc_BaseBackoff c)
    (pc_MaxBackoff c) (pc_MaxBatch c) (pc_MaxBodyBytes c) (pc_MaxPayloadBytes c) (pc_MaxPending c)
    (pc_RateLimitPerMinute c) (pc_RateLimitBurst c) (pc_SessionRatePerMinute c) (pc_SessionRateBurst c)
    (pc_ReadRateLimitPerMin c) (pc_ReadRateLimitBurst c) (pc_CleanupInterval c) (pc_Retention c) (pc_EnableCrashDemo c)
    (pc_CrashDemoTimeout c) (pc_CrashTaskDuration c) (pc_CrashHeartbeatInterval c) (pc_CrashStuckThreshold c)
    (pc_CrashReaperInterval c) (pc_CrashHandlerTimeout c) (pc_CrashWorkerPrefix c) (pc_CrashPollInterval c)
    (pc_LogLevel c) (pc_LogFormat c).

Section Getters.
Context (env env' : Env) (key : string) (He : env' key = env key).
Lemma getEnvString_ext fallback : PlayConfig.getEnvString env' key fallback = PlayConfig.getEnvString env key fallback.
Proof using He. unfold PlayConfig.getEnvString. by rewrite He. Qed.
Lemma getEnvInt_ext fallback : PlayConfig.getEnvInt env' key fallback = PlayConfig.getEnvInt env key fallback.
Proof using He. unfold PlayConfig.getEnvInt. by rewrite He. Qed.
Lemma getEnvDuration_ext fallback : PlayConfig.getEnvDuration env' key fallback = PlayConfig.getEnvDuration env key fallback.
Proof using He. unfold PlayConfig.getEnvDuration. by rewrite He. Qed.
Lemma getEnvBool_ext fallback : PlayConfig.getEnvBool env' key fallback = PlayConfig.getEnvBool env key fallback.
Proof using He. unfold PlayConfig.getEnvBool. by rewrite He. Qed.
End Getters.

(** Whatever the order in which the overrides are written. *)
Lemma child_loads block order : let c := loadConfigRaw (Getenv block) in order ≡ₚ child_overrides c ->
  loadConfigRaw (Getenv (child_block block order)) = child_config c.
Proof.
  intros c Hp. set (env' := Getenv (child_block block order)).
  assert (map fst order ≡ₚ map fst (child_overrides c)) as Hkeys by (by apply Permutation_map).
  assert (Forall (fun o => contains "=" o.1 = false) order) as Ho by (rewrite Hp; repeat constructor).
  assert (NoDup (map fst order)) as Hnd by (rewrite Hkeys; apply (bool_decide_unpack _); vm_compute; exact I).
  assert (forall key, key ∉ map fst (child_overrides c) -> plain_key key -> env' key = Getenv block key) as Hin.
  { intros key Hk Hkey. apply child_inherit; [done..|]. by rewrite Hkeys. }
  assert (forall key v, plain_key key -> (key, v) ∈ child_overrides c -> env' key = v) as Hov.
  { intros key v Hkey Hk. apply child_override; [done..|]. by rewrite Hp. }
  assert (forall key, bool_decide (key ∈ map fst (child_overrides c)) || bool_decide (key = EmptyString) || contains "=" key = false ->
    env' key = Getenv block key) as Hin'.
  { intros key [[?%bool_decide_eq_false ?%bool_decide_eq_false]%orb_false_iff ?]%orb_false_iff. by apply Hin. }
  assert (Forall (fun o => env' o.1 = o.2) (child_overrides c)) as Hall.
  { assert (Forall (fun o => plain_key o.1) (child_overrides c)) as Hk by (repeat constructor; done).
    rewrite Forall_forall in *. intros [key v] Hkv. apply Hov; [exact (Hk _ Hkv)|done]. }
  unfold child_overrides in Hall. rewrite !Forall_cons in Hall. destruct Hall as (H1 & H2 & H3 & H4 & H5 & H6 & H7 & _). cbn [fst snd] in *.
  destruct (getEnvString_trimmed (Getenv block) "PLAYGROUND_CRASH_SCHEMA" "dhara_playground_crash") as [Hs1 Hs2]; [done|by vm_compute|].
  destruct (getEnvString_trimmed (Getenv block) "PLAYGROUND_CRASH_WORKER_PREFIX" "playground-crash-worker") as [Hp1 Hp2]; [done|by vm_compute|].
  unfold loadConfigRaw at 1, child_config. f_equal.
  all: unfold c, loadConfigRaw;
    cbn [pc_DatabaseURL pc_MaxConns pc_MinConns pc_Port pc_AutoMigrate pc_ShutdownTimeout pc_TrustProxy pc_WorkerPrefix
      pc_WorkerCount pc_PollInterval pc_HeartbeatInterval pc_HandlerTimeout pc_StuckThreshold pc_ReaperInterval pc_BaseBackoff
      pc_MaxBackoff pc_MaxBatch pc_MaxBodyBytes pc_MaxPayloadBytes pc_MaxPending pc_RateLimitPerMinute pc_RateLimitBurst
      pc_SessionRatePerMinute pc_SessionRateBurst pc_ReadRateLimitPerMin pc_ReadRateLimitBurst pc_CleanupInterval pc_Retention
      pc_EnableCrashDemo pc_CrashDemoTimeout pc_CrashTaskDuration pc_CrashReaperInterval pc_LogLevel pc_LogFormat].
  all: try (rewrite ?(getEnvString_ext (Getenv block)), ?(getEnvInt_ext (Getenv block)), ?(getEnvDuration_ext (Getenv block)),
    ?(getEnvBool_ext (Getenv block)); [reflexivity|apply Hin'; vm_compute; reflexivity]).
  - by apply getEnvString_kept.
  - by apply getEnvString_kept.
  - apply getEnvDuration_kept; [exact H5|by apply getEnvDuration_range].
  - apply getEnvDuration_kept; [exact H6|by apply getEnvDuration_range].
  - apply getEnvDuration_kept; [exact H7|by apply getEnvDuration_range].
  - by apply getEnvString_kept.
  - apply getEnvDuration_kept; [exact H4|by apply getEnvDuration_range].
Qed.

(** The settings the demo asks for. *)
Definition crash_settings (c : PlayConfig.Config) : Settings :=
  mkSettings (pc_CrashWorkerPrefix c) (pc_CrashPollInterval c) 1 (pc_CrashHeartbeatInterval c) (pc_CrashHandlerTimeout c)
    Second (5 * Second) Hour (pc_CrashStuckThreshold c).

Lemma crash_settings_sane c : validate_crash c = Ok tt -> sane (crash_settings c).
Proof.
  intros (Hp & Ht & Hh & Hb & _ & _ & Hpi)%validate_crash_Ok. unfold sane. cbn.
  split_and!; done || lia.
Qed.

(** C37: The demo's child process runs the parent's demo: from the environment that
    [spawnWorker] hands over, in whatever order the map of overrides is written,
    it loads the parent's configuration with the schema of the demo in place of
    the playground's, every duration exact; [RunCrashWorker] prepares that schema
    and starts one worker on exactly the crash settings, with the crash handler
    only. *)
Theorem child_runs_crash_settings block order prepare :
  let c := loadConfigRaw (Getenv block) in
  let env' := Getenv (child_block block order) in
  order ≡ₚ child_overrides c -> PlayConfig.Config_Validate c = Ok tt -> pc_EnableCrashDemo c = true ->
  prepare (child_config c) (pc_CrashSchema c) = Ok tt ->
  loadConfigRaw env' = child_config c /\
  exists w w' p, RunCrashWorker prepare env' false = (true, Ok (Some w)) /\
    (forall t, is_Some (Get t (lw_registry w)) <-> t = TypeCrash) /\ LibWorker_Start w = (w', Ok tt) /\ lw_pool w' = Some p /\
    p_settings p = crash_settings c /\ length (p_workers p) = 1%nat.
Proof.
  intros c env' Hp Hv Hen Hprep. pose proof (child_loads block order Hp) as Hl. split; [exact Hl|].
  pose proof (Config_Validate_Ok c Hv) as ((_ & Hcs & _) & _ & _ & _ & Hc). specialize (Hc Hen).
  assert (pc_DatabaseURL c <> EmptyString) as Hurl by (unfold PlayConfig.Config_Validate in Hv; by case_bool_decide).
  eexists _, _, _. split.
  { unfold RunCrashWorker, env'. rewrite Hl. cbn [child_config pc_DatabaseURL pc_Schema]. rewrite bool_decide_false by done.
    fold c. rewrite Hcs, Hprep. reflexivity. }
  split; [|split; [reflexivity|split; [reflexivity|]]].
  - intros t. unfold Get. change (handlers _) with ({[TypeCrash := CrashWork (pc_CrashHandlerTimeout c)]} : gmap string HandlerFunc).
    rewrite lookup_singleton_is_Some. done.
  - change (settings_of _) with (crash_settings c). unfold NewWorkerPool.
    rewrite (sane_normalize _ (crash_settings_sane c Hc)). done.
Qed.

(** An environment that sets the crash intervals in mixed notations. *)
Definition sample_block : list string :=
  ["DHARA_DATABASE_URL=postgres://localhost/dhara?sslmode=disable"; "PATH=/usr/bin"; "PLAYGROUND_CRASH_POLL_INTERVAL= 150.5ms";
   "PLAYGROUND_CRASH_STUCK_THRESHOLD=5"; "PLAYGROUND_CRASH_WORKER_PREFIX= demo "; "PLAYGROUND_CRASH_STUCK_THRESHOLD=7s"].

Lemma child_runs_crash_settings_witness :
  let c := loadConfigRaw (Getenv sample_block) in
  (pc_CrashPollInterval c = 150500 * Microsecond /\ pc_CrashStuckThreshold c = 5 * Second /\ pc_CrashWorkerPrefix c = "demo") /\
  loadConfigRaw (Getenv (child_block sample_block (rev (child_overrides c)))) = child_config c.
Proof.
  intros c. split; [by vm_compute|].
  apply (child_runs_crash_settings sample_block (rev (child_overrides c)) (fun _ _ => Ok tt)).
  - symmetry. apply Permutation_rev.
  - reflexivity.
  - reflexivity.
  - reflexivity.
Defined.
