(* ===== verification/Startup.v ===== *)
(** Startup: connection pools, migrations and the start and end of the
    processes: [internal/db/pool.go], [internal/playground/db.go],
    [migrations.go], [cmd/migrate], [cmd/server] ([main.go], [app.go]) and
    [cmd/worker].

    [pgxpool] and the migrator [vow] are not part of the repository. What the
    code relies on is the class [Pgx] (parsing a URL, quoting an identifier) and
    the record [Answers] (whether a call fails). The state [Boot] holds the pools
    that are open and what was done through them. *)

From S2P Require Import Prelude Dharatype GoTime Float64 GoStrconv GoJson Metrics Pg PgLogic TaskStore.
From S2P Require Import Lifecycle StoreRefine StoreTheorems StoreSpec StoreContracts Client Worker.
From S2P Require Import WorkerRefine WorkerTheorems Config PlaySession PlayConfig Handlers.

(** ** Pools *)

(** [pgxpool.Config]: [pl_conn] is what the code leaves as parsed; the runtime
    parameters may be a nil map. *)
Record PoolConfig := mkPoolConfig {
  pl_conn : string;
  pl_MaxConns : Z;
  pl_MinConns : Z;
  pl_RuntimeParams : option (gmap string string)
}.

Class Pgx := mkPgx {
  ParseConfig : string -> res PoolConfig;
  Sanitize : string -> string
}.

(** What a migration file system and a migrator are known by. *)
Definition FS : Type := string.
Definition MigrationFS : FS := "migrations".

Record MigrationResult := mkMigrationResult { Versions : list string; Skipped : Z }.

(** What was done through a pool. *)
Inductive PoolEvent : Type :=
  | Executed (sql : string)
  | MigratedUp (fsys : FS) (table lock : string)
  | MigratedDown (fsys : FS) (table lock : string) (steps : Z).

(** The answers of the libraries, by pool. *)
Record Answers := mkAnswers {
  an_New : nat -> option error;
  an_Exec : nat -> string -> option error;
  an_Migrator : nat -> FS -> option error;
  an_Up : nat -> res MigrationResult;
  an_Down : nat -> Z -> res MigrationResult
}.

Record Boot := mkBoot {
  bt_next : nat;
  bt_open : gmap nat PoolConfig;
  bt_log : list (nat * PoolConfig * PoolEvent)
}.

Definition B (A : Type) : Type := Answers -> Boot -> A * Boot.
Definition bret {A} (a : A) : B A := fun _ b => (a, b).
Definition bbind {A C} (m : B A) (k : A -> B C) : B C := fun an b => let (a, b') := m an b in k a an b'.
Definition on_ok {A C} (m : B (res A)) (k : A -> B (res C)) : B (res C) :=
  bbind m (fun r => match r with Ok a => k a | Err e => bret (Err e) end).

(** [fmt.Errorf("prefix: %w", err)] on an error. *)
Definition wrapped {A} (prefix : string) (m : B (res A)) : B (res A) :=
  bbind m (fun r => bret match r with Ok a => Ok a | Err e => Err (Wrapped prefix e) end).

Definition lift_res {A} (r : res A) : B (res A) := bret r.

Definition NewWithConfig (cfg : PoolConfig) : B (res nat) := fun an b =>
  let p := bt_next b in
  match an_New an p with
  | Some e => (Err e, mkBoot (S p) (bt_open b) (bt_log b))
  | None => (Ok p, mkBoot (S p) (<[p := cfg]> (bt_open b)) (bt_log b))
  end.

Definition pool_Close (p : nat) : B unit := fun _ b => (tt, mkBoot (bt_next b) (delete p (bt_open b)) (bt_log b)).

(** What is recorded carries the configuration of the pool. *)
Definition record_event (p : nat) (ev : PoolEvent) (b : Boot) : Boot :=
  match bt_open b !! p with
  | Some cfg => mkBoot (bt_next b) (bt_open b) (bt_log b ++ [(p, cfg, ev)])
  | None => b
  end.

Definition Exec (p : nat) (sql : string) : B (res unit) := fun an b =>
  (match an_Exec an p sql with Some e => Err e | None => Ok tt end, record_event p (Executed sql) b).

(** [defer pool.Close()]. *)
Definition defer_close {A} (p : nat) (m : B A) : B A := bbind m (fun a => bbind (pool_Close p) (fun _ => bret a)).

(** ** Migrations *)

Definition runMigrations (p : nat) (fsys : FS) (up : bool) (steps : Z) : B (res MigrationResult) := fun an b =>
  match an_Migrator an p fsys with
  | Some e => (Err (Wrapped "dhara: create migrator" e), b)
  | None =>
      if up then (an_Up an p, record_event p (MigratedUp fsys "dhara_vow_migrations" "dhara_vow_lock") b)
      else (an_Down an p steps, record_event p (MigratedDown fsys "dhara_vow_migrations" "dhara_vow_lock" steps) b)
  end.

Definition Migrate (p : nat) : B (res MigrationResult) := runMigrations p MigrationFS true 0.
Definition MigrateDown (p : nat) (steps : Z) : B (res MigrationResult) := runMigrations p MigrationFS false steps.
Definition MigrateWith (p : nat) (fsys : FS) : B (res MigrationResult) := runMigrations p fsys true 0.
Definition MigrateDownWith (p : nat) (fsys : FS) (steps : Z) : B (res MigrationResult) := runMigrations p fsys false steps.

Section Pools.
Context {pgx : Pgx}.

(** [Open] of [internal/db]. *)
Definition Open (databaseURL : string) (maxConns minConns : Z) : B (res nat) :=
  if bool_decide (databaseURL = EmptyString) then bret (Err (NewError "missing database URL"))
  else
    let maxConns := if maxConns <? 1 then 10 else maxConns in
    let minConns := if minConns <? 1 then 2 else minConns in
    on_ok (lift_res (ParseConfig databaseURL)) (fun config =>
    NewWithConfig (mkPoolConfig (pl_conn config) maxConns minConns (pl_RuntimeParams config))).

(** ** Schemas *)

Definition ensureSchema (databaseURL schema : string) : B (res unit) :=
  on_ok (wrapped "parse database url" (lift_res (ParseConfig databaseURL))) (fun cfg =>
  on_ok (wrapped "open admin pool" (NewWithConfig (mkPoolConfig (pl_conn cfg) 2 1 (pl_RuntimeParams cfg)))) (fun pool =>
  defer_close pool
    (wrapped ("create schema " +:+ schema) (Exec pool ("CREATE SCHEMA IF NOT EXISTS " +:+ Sanitize schema))))).

Definition openSchemaPool (databaseURL schema : string) (maxConns minConns : Z) : B (res nat) :=
  on_ok (wrapped "parse database url" (lift_res (ParseConfig databaseURL))) (fun cfg =>
  let maxConns := if maxConns <? 1 then 10 else maxConns in
  let minConns := if minConns <? 1 then 2 else minConns in
  let params := match pl_RuntimeParams cfg with Some m => m | None => ∅ end in
  wrapped ("open " +:+ schema +:+ " pool")
    (NewWithConfig (mkPoolConfig (pl_conn cfg) maxConns minConns (Some (<["search_path" := schema]> params))))).

Definition PrepareSchema (c : PlayConfig.Config) (schema : string) : B (res nat) :=
  on_ok (ensureSchema (pc_DatabaseURL c) schema) (fun _ =>
  on_ok (openSchemaPool (pc_DatabaseURL c) schema (pc_MaxConns c) (pc_MinConns c)) (fun pool =>
  if pc_AutoMigrate c then
    bbind (Migrate pool) (fun r =>
    match r with
    | Ok _ => bret (Ok pool)
    | Err e => bbind (pool_Close pool) (fun _ => bret (Err (Wrapped ("migrate schema " +:+ schema) e)))
    end)
  else bret (Ok pool))).

(** ** [cmd/migrate] *)

Definition newline : string := String (Ascii.ascii_of_nat 10) EmptyString.
Definition usage : string :=
  newline +:+ newline +:+ "usage:" +:+ newline +:+
  "  dhara-migrate [up]      apply all pending migrations (default)" +:+ newline +:+
  "  dhara-migrate down [N]  roll back N migrations (default 1)".

(** The direction (up) and the number of steps. *)
Definition migrate_args (args : list string) : res (bool * Z) :=
  match args with
  | [] => Ok (true, 1)
  | cmd :: rest =>
      if bool_decide (cmd = "up") then Ok (true, 1)
      else if bool_decide (cmd = "down") then
        match rest with
        | [] => Ok (false, 1)
        | count :: _ =>
            match Atoi count with
            | Some n =>
                if n <? 1 then Err (NewError ("invalid step count " +:+ Quote count +:+ ": must be a positive integer"))
                else Ok (false, n)
            | None => Err (NewError ("invalid step count " +:+ Quote count +:+ ": must be a positive integer"))
            end
        end
      else Err (NewError ("unknown command " +:+ Quote cmd +:+ usage))
  end.

Definition done_with {A} (m : B (res A)) : B (res unit) := on_ok m (fun _ => bret (Ok tt)).

(** [args] without the program name. *)
Definition migrate_run (args : list string) (env : Env) : B (res unit) :=
  on_ok (lift_res (migrate_args args)) (fun '(up, steps) =>
  let dbCfg := NewDatabaseConfig env in
  on_ok (lift_res (Load [DatabaseConfig_Validate dbCfg])) (fun _ =>
  on_ok (wrapped "failed to create db pool" (Open (d_URL dbCfg) (wrap32 (d_MaxConns dbCfg)) (wrap32 (d_MinConns dbCfg)))) (fun pool =>
  defer_close pool (if (up : bool) then done_with (Migrate pool) else done_with (MigrateDown pool steps))))).

(** ** [cmd/server] *)

Record application := mkApplication { app_db : option nat; app_startTime : Z }.

Record appDeps := mkAppDeps {
  ad_startTime : Z;
  ad_autoMigrate : bool;
  ad_databaseURL : string;
  ad_maxConns : Z;
  ad_minConns : Z
}.

Definition app_migrate (deps : appDeps) (pool : nat) : B (res unit) :=
  if ad_autoMigrate deps then done_with (wrapped "failed to run migrations" (Migrate pool)) else bret (Ok tt).

Definition newApplication (deps : appDeps) : B (res application) :=
  on_ok (wrapped "failed to create db pool" (Open (ad_databaseURL deps) (wrap32 (ad_maxConns deps)) (wrap32 (ad_minConns deps)))) (fun pool =>
  on_ok (app_migrate deps pool) (fun _ =>
  bret (Ok (mkApplication (Some pool) (ad_startTime deps))))).

Definition shutdown (a : application) : B (application * option error) :=
  match app_db a with
  | Some p => bbind (pool_Close p) (fun _ => bret (mkApplication None (app_startTime a), None))
  | None => bret (a, None)
  end.

(** What ends the wait of the process: a signal, or a listener that failed and
    calls [stop]. *)
Inductive ServerEnd : Type :=
  | Signalled
  | ListenFailed (err : error).

(** After the wait; [drained] is the outcome of [server.Shutdown]. *)
Definition server_stop (app : application) (drained : option error) : B Z :=
  match drained with
  | Some _ => bret 1
  | None => bbind (shutdown app) (fun r => bret match r.2 with Some _ => 1 | None => 0 end)
  end.

(** The exit status. *)
Definition server_run (env : Env) (start : Z) (ended : ServerEnd) (drained : option error) : B Z :=
  let dbCfg := NewDatabaseConfig env in
  let migCfg := NewMigrationsConfig env in
  let serverCfg := NewServerConfig env in
  let shutdownCfg := NewShutdownConfig env in
  let logCfg := NewLoggingConfig env in
  match Load [DatabaseConfig_Validate dbCfg; MigrationsConfig_Validate migCfg; ServerConfig_Validate serverCfg;
              ShutdownConfig_Validate shutdownCfg; (LoggingConfig_Validate logCfg).2] with
  | Err _ => bret 1
  | Ok _ =>
      bbind (newApplication (mkAppDeps start (m_AutoMigrate migCfg) (d_URL dbCfg) (d_MaxConns dbCfg) (d_MinConns dbCfg))) (fun r =>
      match r with
      | Err _ => bret 1
      | Ok app =>
          match ended with
          | Signalled => server_stop app drained
          | ListenFailed _ => server_stop app drained
          end
      end)
  end.

(** ** [cmd/worker] *)

(** No server for port 0; [listen] is the outcome of [net.Listen]. *)
Definition startMetricsServer (port : Z) (listen : string -> option error) : res (option string) :=
  if port =? 0 then Ok None
  else
    let addr := ":" +:+ itoa port in
    match listen addr with Some e => Err e | None => Ok (Some addr) end.

(** The exit status; [drained] is what [worker.Start] returns once it has started.
    A panic ends a Go process with status 2. *)
Definition worker_run (env : Env) (listen : string -> option error) (drained : option error) : B Z :=
  let dbCfg := NewDatabaseConfig env in
  let migCfg := NewMigrationsConfig env in
  let workerCfg := NewWorkerConfig env in
  let shutdownCfg := NewShutdownConfig env in
  let logCfg := NewLoggingConfig env in
  match Load [DatabaseConfig_Validate dbCfg; MigrationsConfig_Validate migCfg; WorkerConfig_Validate workerCfg;
              ShutdownConfig_Validate shutdownCfg; (LoggingConfig_Validate logCfg).2] with
  | Err _ => bret 1
  | Ok _ =>
      bbind (Open (d_URL dbCfg) (wrap32 (d_MaxConns dbCfg)) (wrap32 (d_MinConns dbCfg))) (fun r =>
      match r with
      | Err _ => bret 1
      | Ok pool =>
          defer_close pool
            (bbind (if m_AutoMigrate migCfg then done_with (Migrate pool) else bret (Ok tt)) (fun r =>
             match r with
             | Err _ => bret 1
             | Ok _ =>
                 match cmd_worker workerCfg (s_ShutdownTimeout shutdownCfg) with
                 | None => bret 2
                 | Some worker =>
                     match startMetricsServer (wc_MetricsPort workerCfg) listen with
                     | Err _ => bret 1
                     | Ok _ =>
                         match (LibWorker_Start worker).2, drained with
                         | Ok _, None => bret 0
                         | _, _ => bret 1
                         end
                     end
                 end
             end))
      end)
  end.
End Pools.

(** ** Pools that are opened are closed *)

(** Numbers not yet given out are free. *)
Definition fresh (b : Boot) : Prop := forall k, (bt_next b <= k)%nat -> bt_open b !! k = None.

(** The open pools are left as they were. *)
Definition keeps_pools {A} (m : B A) : Prop := forall an b, fresh b -> fresh (m an b).2 /\ bt_open (m an b).2 = bt_open b.

(** One more pool with a configuration in [P] is open after success, none after
    an error. *)
Definition opens_pool (P : PoolConfig -> Prop) (m : B (res nat)) : Prop := forall an b, fresh b ->
  fresh (m an b).2 /\ bt_log (m an b).2 = bt_log b /\
  match (m an b).1 with
  | Ok p => bt_open b !! p = None /\ exists cfg, P cfg /\ bt_open (m an b).2 = <[p := cfg]> (bt_open b)
  | Err _ => bt_open (m an b).2 = bt_open b
  end.

Lemma bbind_run {A C} (m : B A) (k : A -> B C) an b : bbind m k an b = k (m an b).1 an (m an b).2.
Proof. unfold bbind. by destruct (m an b). Qed.

Lemma keeps_bret {A} (a : A) : keeps_pools (bret a).
Proof. by intros an b Hb. Qed.

Lemma keeps_bbind {A C} (m : B A) (k : A -> B C) : keeps_pools m -> (forall a, keeps_pools (k a)) -> keeps_pools (bbind m k).
Proof.
  intros Hm Hk an b Hb. destruct (Hm an b Hb) as [H1 H2]. unfold bbind. destruct (m an b) as [a b1]. cbn in *.
  destruct (Hk a an b1 H1) as [H3 H4]. split; [done|congruence].
Qed.

Lemma keeps_on_ok {A C} (m : B (res A)) (k : A -> B (res C)) : keeps_pools m -> (forall a, keeps_pools (k a)) -> keeps_pools (on_ok m k).
Proof. intros Hm Hk. apply keeps_bbind; [done|]. intros [a|e]; [apply Hk|apply keeps_bret]. Qed.

Lemma keeps_wrapped {A} prefix (m : B (res A)) : keeps_pools m -> keeps_pools (wrapped prefix m).
Proof. intros Hm. apply keeps_bbind; [done|]. intros r. apply keeps_bret. Qed.

Lemma record_event_open p ev b : bt_open (record_event p ev b) = bt_open b /\ bt_next (record_event p ev b) = bt_next b.
Proof. unfold record_event. by destruct (bt_open b !! p). Qed.

Lemma keeps_event {A} (a : Answers -> A) p ev : keeps_pools (fun an b => (a an, record_event p ev b)).
Proof. intros an b Hb. destruct (record_event_open p ev b) as [H1 H2]. unfold fresh in *. cbn. by rewrite H1, H2. Qed.

Lemma keeps_runMigrations p fsys up steps : keeps_pools (runMigrations p fsys up steps).
Proof.
  intros an b Hb. unfold runMigrations. destruct (an_Migrator an p fsys); [done|]. destruct up.
  - by apply (keeps_event (fun an => an_Up an p)).
  - by apply (keeps_event (fun an => an_Down an p steps)).
Qed.

Lemma keeps_Exec p sql : keeps_pools (Exec p sql).
Proof. apply (keeps_event (fun an => match an_Exec an p sql with Some e => Err e | None => Ok tt end)). Qed.

Lemma opens_New cfg : opens_pool (eq cfg) (NewWithConfig cfg).
Proof.
  intros an b Hb. unfold NewWithConfig. destruct (an_New an (bt_next b)); cbn.
  - split_and!; [|done..]. intros k Hk. apply Hb. cbn in Hk. lia.
  - split_and!; [|done|apply Hb; lia|by exists cfg]. intros k Hk. cbn in *. rewrite lookup_insert_ne by lia. apply Hb. lia.
Qed.

Lemma opens_wrapped P prefix m : opens_pool P m -> opens_pool P (wrapped prefix m).
Proof. intros Hm an b Hb. specialize (Hm an b Hb). unfold wrapped, bbind. by destruct (m an b) as [[p|e] b1]. Qed.

Lemma opens_mono (P Q : PoolConfig -> Prop) m : (forall cfg, P cfg -> Q cfg) -> opens_pool P m -> opens_pool Q m.
Proof.
  intros HPQ Hm an b Hb. destruct (Hm an b Hb) as (H1 & H2 & H3). split; [done|]. split; [done|].
  destruct (m an b).1 as [p|e]; [|done]. destruct H3 as (? & cfg & ? & ?). split; [done|]. exists cfg. auto.
Qed.

Lemma opens_parsed {A} (P : PoolConfig -> Prop) (r : res A) k : (forall a, opens_pool P (k a)) -> opens_pool P (on_ok (bret r) k).
Proof. intros Hk. unfold on_ok, bbind, bret. destruct r as [a|e]; [exact (Hk a)|]. by intros an b Hb. Qed.

(** A pool with a deferred [Close] does not outlive the call. *)
Lemma keeps_deferred {C} (P : PoolConfig -> Prop) m (k : nat -> B C) (j : error -> B C) :
  opens_pool P m -> (forall p, keeps_pools (k p)) -> (forall e, keeps_pools (j e)) ->
  keeps_pools (bbind m (fun r => match r with Ok p => defer_close p (k p) | Err e => j e end)).
Proof.
  intros Hm Hk Hj an b Hb. destruct (Hm an b Hb) as (H1 & _ & H2). unfold bbind. destruct (m an b) as [[p|e] b1]; cbn in *.
  - destruct (Hk p an b1 H1) as [H3 H4]. unfold defer_close, bbind. destruct (k p an b1) as [c b2]. cbn in *.
    destruct H2 as (Hp & cfg & _ & Ho). split.
    + intros x Hx. cbn in *. rewrite lookup_delete_None. right. by apply H3.
    + rewrite H4, Ho. by apply delete_insert_id.
  - destruct (Hj e an b1 H1) as [H3 H4]. split; [done|congruence].
Qed.

(** Bounded connections. *)
Definition some_conns (cfg : PoolConfig) : Prop := 1 <= pl_MaxConns cfg /\ 1 <= pl_MinConns cfg.

(** Unqualified names resolve in [schema]. *)
Definition in_schema (schema : string) (cfg : PoolConfig) : Prop :=
  exists params, pl_RuntimeParams cfg = Some params /\ params !! "search_path" = Some schema.

Section Theorems.
Context {pgx : Pgx}.

Lemma opens_Open url maxConns minConns : opens_pool some_conns (Open url maxConns minConns).
Proof.
  unfold Open. case_bool_decide; [by intros an b Hb|]. apply opens_parsed. intros cfg.
  eapply opens_mono; [|apply opens_New]. intros ? <-. unfold some_conns. cbn. case_match; case_match; lia.
Qed.

Lemma opens_openSchemaPool url schema maxConns minConns :
  opens_pool (fun cfg => in_schema schema cfg /\ some_conns cfg) (openSchemaPool url schema maxConns minConns).
Proof.
  unfold openSchemaPool, wrapped at 1, lift_res, bbind at 1, bret at 1. apply opens_parsed. intros cfg. cbv zeta. apply opens_wrapped.
  eapply opens_mono; [|apply opens_New]. intros ? <-. split.
  - eexists. split; [reflexivity|]. by apply lookup_insert_eq.
  - unfold some_conns. cbn. case_match; case_match; lia.
Qed.

Lemma keeps_ensureSchema url schema : keeps_pools (ensureSchema url schema).
Proof.
  apply keeps_on_ok; [apply keeps_wrapped, keeps_bret|]. intros cfg.
  eapply keeps_deferred; [apply opens_wrapped, opens_New| |intros; apply keeps_bret].
  intros p. apply keeps_wrapped, keeps_Exec.
Qed.

(** What a preparation of [schema] may do. *)
Definition prepares (schema : string) (x : nat * PoolConfig * PoolEvent) : Prop :=
  x.2 = Executed ("CREATE SCHEMA IF NOT EXISTS " +:+ Sanitize schema) \/
  in_schema schema x.1.2 /\ x.2 = MigratedUp MigrationFS "dhara_vow_migrations" "dhara_vow_lock".

Lemma record_event_log p ev b : exists l, bt_log (record_event p ev b) = bt_log b ++ l /\
  Forall (fun x => x.2 = ev /\ bt_open b !! p = Some x.1.2) l.
Proof.
  unfold record_event. destruct (bt_open b !! p) as [cfg|]; [|exists []; by rewrite app_nil_r].
  eexists. split; [reflexivity|]. by repeat constructor.
Qed.

Lemma ensureSchema_log url schema an b :
  exists l, bt_log (ensureSchema url schema an b).2 = bt_log b ++ l /\ Forall (prepares schema) l.
Proof.
  unfold ensureSchema, wrapped, on_ok, lift_res, defer_close, bbind, bret. destruct (ParseConfig url) as [cfg|e]; [|by exists []; rewrite app_nil_r].
  unfold NewWithConfig. destruct (an_New an (bt_next b)) as [e|]; [by exists []; rewrite app_nil_r|].
  destruct (record_event_log (bt_next b) (Executed ("CREATE SCHEMA IF NOT EXISTS " +:+ Sanitize schema))
    (mkBoot (S (bt_next b)) (<[bt_next b := mkPoolConfig (pl_conn cfg) 2 1 (pl_RuntimeParams cfg)]> (bt_open b)) (bt_log b))) as (l & Hl & Hf).
  exists l. split; [exact Hl|]. eapply Forall_impl; [exact Hf|]. intros x [Hx _]. by left.
Qed.

#[local] Arguments ensureSchema : simpl never.
#[local] Arguments openSchemaPool : simpl never.

(** What [PrepareSchema] does to the pools and to the log. *)
Lemma PrepareSchema_spec c schema an b : fresh b ->
  let r := (PrepareSchema c schema an b).1 in
  let b' := (PrepareSchema c schema an b).2 in
  fresh b' /\
  match r with
  | Ok p => bt_open b !! p = None /\ exists cfg, bt_open b' = <[p := cfg]> (bt_open b) /\ in_schema schema cfg /\ some_conns cfg
  | Err _ => bt_open b' = bt_open b
  end /\ exists l, bt_log b' = bt_log b ++ l /\ Forall (prepares schema) l.
Proof.
  intros Hb r b'. subst r b'. destruct (ensureSchema_log (pc_DatabaseURL c) schema an b) as (l & Hl & Hf).
  destruct (keeps_ensureSchema (pc_DatabaseURL c) schema an b Hb) as [Hb1 Ho1]. unfold PrepareSchema, on_ok, bbind.
  destruct (ensureSchema _ _ an b) as [[[]|e] b1]; cbn in *; [|split; [done|]; split; [done|by exists l]].
  destruct (opens_openSchemaPool (pc_DatabaseURL c) schema (pc_MaxConns c) (pc_MinConns c) an b1 Hb1) as (Hb2 & Hlog & Hr).
  destruct (openSchemaPool _ _ _ _ an b1) as [[p|e] b2]; cbn in *; [|split; [done|]; split; [congruence|exists l; by rewrite Hlog]].
  destruct Hr as (Hp & cfg & [Hs Hc] & Ho2). rewrite Ho1 in Hp, Ho2.
  destruct (pc_AutoMigrate c); cbn; [|by split_and!; [| |exists cfg|exists l; rewrite Hlog]].
  assert (fresh (mkBoot (bt_next b2) (delete p (bt_open b2)) (bt_log b2))) as Hb3.
  { intros k Hk. cbn in *. rewrite lookup_delete_None. right. by apply Hb2. }
  unfold Migrate, runMigrations. destruct (an_Migrator an p MigrationFS) as [e|]; cbn.
  { split; [done|]. rewrite Ho2, delete_insert_id by done. split; [done|exists l; by rewrite Hlog]. }
  destruct (record_event_log p (MigratedUp MigrationFS "dhara_vow_migrations" "dhara_vow_lock") b2) as (l2 & Hl2 & Hf2).
  assert (exists l', bt_log (record_event p (MigratedUp MigrationFS "dhara_vow_migrations" "dhara_vow_lock") b2) = bt_log b ++ l' /\
    Forall (prepares schema) l') as Hlast.
  { exists (l ++ l2). rewrite Hl2, Hlog, Hl, <- app_assoc. split; [done|]. apply Forall_app. split; [done|].
    eapply Forall_impl; [exact Hf2|]. intros x [Hx Hcfg]. right. split; [|done].
    rewrite Ho2, lookup_insert_eq in Hcfg. by injection Hcfg as <-. }
  destruct (record_event_open p (MigratedUp MigrationFS "dhara_vow_migrations" "dhara_vow_lock") b2) as [He Hnx].
  assert (forall k, (bt_next b2 <= k)%nat -> bt_open b2 !! k = None) as Hk2 by exact Hb2.
  destruct (an_Up an p) as [res|e]; cbn; rewrite He.
  1: split; [intros k Hk; cbn; rewrite He; apply Hk2; by rewrite <- Hnx|].
  2: split; [intros k Hk; cbn in *; rewrite Hnx in Hk; rewrite lookup_delete_None; right; by apply Hk2|].
  all: rewrite Ho2; (split; [|exact Hlast]).
  - split; [done|]. by exists cfg.
  - by apply delete_insert_id.
Qed.

(** Preparing a schema leaves exactly one more pool open, and none after an
    error; the pool resolves names in that schema and has connections. All that
    is done on the way is to create that schema and to migrate through a pool
    that resolves names in it. *)
Theorem prepare_schema_contract c schema an b : fresh b ->
  let r := (PrepareSchema c schema an b).1 in
  let b' := (PrepareSchema c schema an b).2 in
  match r with
  | Ok p => bt_open b !! p = None /\ exists cfg, bt_open b' = <[p := cfg]> (bt_open b) /\ in_schema schema cfg /\ some_conns cfg
  | Err _ => bt_open b' = bt_open b
  end /\ exists l, bt_log b' = bt_log b ++ l /\ Forall (prepares schema) l.
Proof. intros Hb. by destruct (PrepareSchema_spec c schema an b Hb) as [_ H]. Qed.

Lemma keeps_done_with {A} (m : B (res A)) : keeps_pools m -> keeps_pools (done_with m).
Proof. intros Hm. apply keeps_on_ok; [done|]. intros a. apply keeps_bret. Qed.

Lemma migrate_run_keeps args env : keeps_pools (migrate_run args env).
Proof.
  apply keeps_on_ok; [apply keeps_bret|]. intros [up steps]. apply keeps_on_ok; [apply keeps_bret|]. intros _.
  eapply keeps_deferred; [apply opens_wrapped, opens_Open| |intros; apply keeps_bret].
  intros p. destruct up; apply keeps_done_with, keeps_runMigrations.
Qed.

Lemma worker_run_keeps env listen drained : keeps_pools (worker_run env listen drained).
Proof.
  unfold worker_run. cbv zeta. destruct (Load _); [|apply keeps_bret].
  eapply keeps_deferred; [apply opens_Open| |intros; apply keeps_bret]. intros p. apply keeps_bbind.
  - case_match; [apply keeps_done_with, keeps_runMigrations|apply keeps_bret].
  - intros r. repeat case_match; apply keeps_bret.
Qed.

Lemma keeps_app_migrate deps p : keeps_pools (app_migrate deps p).
Proof. unfold app_migrate. case_match; [apply keeps_done_with, keeps_wrapped, keeps_runMigrations|apply keeps_bret]. Qed.

#[local] Arguments app_migrate : simpl never.

(** After a success the application owns the pool that was opened. *)
Lemma newApplication_pool deps an b : fresh b ->
  match (newApplication deps an b).1 with
  | Ok app => exists p cfg, app_db app = Some p /\ bt_open b !! p = None /\ bt_open (newApplication deps an b).2 = <[p := cfg]> (bt_open b)
  | Err _ => True
  end.
Proof.
  intros Hb. unfold newApplication, on_ok, bbind.
  destruct (opens_wrapped _ "failed to create db pool" _
    (opens_Open (ad_databaseURL deps) (wrap32 (ad_maxConns deps)) (wrap32 (ad_minConns deps))) an b Hb) as (Hb1 & _ & Hr).
  destruct (wrapped _ _ an b) as [[p|e] b1]; cbn in *; [|done]. destruct Hr as (Hp & cfg & _ & Ho).
  destruct (keeps_app_migrate deps p an b1 Hb1) as [_ Hk2]. destruct (app_migrate deps p an b1) as [[[]|e] b2]; cbn in *; [|done].
  exists p, cfg. split; [done|]. split; [done|]. by rewrite Hk2.
Qed.

Lemma server_run_keeps env start ended drained an b : fresh b -> (server_run env start ended drained an b).1 = 0 ->
  bt_open (server_run env start ended drained an b).2 = bt_open b.
Proof.
  intros Hb. unfold server_run. cbv zeta. destruct (Load _); [|done]. rewrite !bbind_run.
  match goal with |- context [newApplication ?d] => pose proof (newApplication_pool d an b Hb) as Hn; destruct (newApplication d an b) as [[app|e] b1] end;
    cbn [fst snd] in *; [|done].
  destruct Hn as (p & cfg & Hdb & Hp & Ho).
  assert ((server_stop app drained an b1).1 = 0 -> bt_open (server_stop app drained an b1).2 = bt_open b) as Hm.
  { unfold server_stop, shutdown. destruct drained; [done|]. rewrite Hdb. cbn. intros _. rewrite Ho. by apply delete_insert_id. }
  by destruct ended.
Qed.

(** No process that ends well leaves a pool open: a migration run and a worker
    close theirs on every path, errors included, and so does a server that exits
    with status 0. A migration run with bad arguments does not even open one. *)
Theorem processes_release_pools an b env : fresh b ->
  (forall args, bt_open (migrate_run args env an b).2 = bt_open b) /\
  (forall args e, migrate_args args = Err e -> migrate_run args env an b = (Err e, b)) /\
  (forall listen drained, bt_open (worker_run env listen drained an b).2 = bt_open b) /\
  (forall start ended drained, (server_run env start ended drained an b).1 = 0 ->
    bt_open (server_run env start ended drained an b).2 = bt_open b).
Proof.
  intros Hb. split; [|split; [|split]].
  - intros args. by apply migrate_run_keeps.
  - intros args e He. unfold migrate_run, on_ok, bbind, lift_res, bret. by rewrite He.
  - intros listen drained. by apply worker_run_keeps.
  - intros start ended drained. by apply server_run_keeps.
Qed.

(** A server whose migrations fail keeps its pool open, unlike [PrepareSchema]. *)
Theorem failed_migration_keeps_pool deps cfg e an b : fresh b ->
  ad_databaseURL deps <> EmptyString -> ParseConfig (ad_databaseURL deps) = Ok cfg -> ad_autoMigrate deps = true ->
  an_New an (bt_next b) = None -> an_Migrator an (bt_next b) MigrationFS = None -> an_Up an (bt_next b) = Err e ->
  (newApplication deps an b).1 = Err (Wrapped "failed to run migrations" e) /\
  bt_open (newApplication deps an b).2 !! bt_next b <> None.
Proof.
  intros Hb Hu Hp Ha Hn Hm He.
  unfold newApplication, app_migrate, Open, done_with, wrapped, on_ok, lift_res, bbind, bret. rewrite bool_decide_false by done. cbv zeta.
  rewrite Hp. unfold NewWithConfig. rewrite Hn, Ha. unfold Migrate, runMigrations. rewrite Hm, He. split; [done|]. cbn.
  rewrite (proj1 (record_event_open _ _ _)). cbn. by rewrite lookup_insert_eq.
Qed.
End Theorems.

(** ** Concrete runs *)

(** A library that parses every URL and never fails. *)
Definition plain_pgx : Pgx :=
  mkPgx (fun url => Ok (mkPoolConfig url 4 0 None)) quoted.
Definition no_failures : Answers :=
  mkAnswers (fun _ => None) (fun _ _ => None) (fun _ _ => None) (fun _ => Ok (mkMigrationResult ["000001"] 0))
    (fun _ _ => Ok (mkMigrationResult ["000001"] 0)).
Definition no_pools : Boot := mkBoot 0 ∅ [].

Lemma fresh_no_pools : fresh no_pools.
Proof. intros k _. apply lookup_empty. Qed.

Lemma prepare_schema_contract_witness :
  fresh no_pools /\ (@PrepareSchema plain_pgx (loadConfigRaw bare_env) "demo" no_failures no_pools).1 = Ok 1%nat /\
  (exists l, bt_log (@PrepareSchema plain_pgx (loadConfigRaw bare_env) "demo" no_failures no_pools).2 = [] ++ l /\
     Forall (@prepares plain_pgx "demo") l).
Proof.
  split; [exact fresh_no_pools|]. split; [reflexivity|].
  exact (proj2 (@prepare_schema_contract plain_pgx (loadConfigRaw bare_env) "demo" no_failures no_pools fresh_no_pools)).
Defined.

Lemma processes_release_pools_witness :
  fresh no_pools /\ bt_open (@migrate_run plain_pgx ["down"; "3"] bare_env no_failures no_pools).2 = ∅.
Proof.
  split; [exact fresh_no_pools|].
  exact (proj1 (@processes_release_pools plain_pgx no_failures no_pools bare_env fresh_no_pools) ["down"; "3"]).
Defined.

(** A server that cannot listen ends with status 0. *)
Example listen_failure_unreported :
  (@server_run plain_pgx bare_env 0 (ListenFailed (NewError "listen tcp :8080: bind: address already in use")) None no_failures no_pools).1 = 0.
Proof. vm_compute. reflexivity. Qed.

(** Connection limits are validated at 64 bits and used at 32: these limits pass
    as 2^32 + 1 and 5 and reach the pool as 1 and 5. *)
Definition wide_env : Env := fun key =>
  if bool_decide (key = "DHARA_DATABASE_URL") then "postgres://localhost/dhara"
  else if bool_decide (key = "DHARA_MAX_CONNS") then "4294967297"
  else if bool_decide (key = "DHARA_MIN_CONNS") then "5" else EmptyString.

Example wide_connection_limits_wrap :
  DatabaseConfig_Validate (NewDatabaseConfig wide_env) = Ok tt /\
  exists app p, (@newApplication plain_pgx (mkAppDeps 0 false (d_URL (NewDatabaseConfig wide_env))
      (d_MaxConns (NewDatabaseConfig wide_env)) (d_MinConns (NewDatabaseConfig wide_env))) no_failures no_pools).1 = Ok app /\
    app_db app = Some p /\
    bt_open (@newApplication plain_pgx (mkAppDeps 0 false (d_URL (NewDatabaseConfig wide_env))
      (d_MaxConns (NewDatabaseConfig wide_env)) (d_MinConns (NewDatabaseConfig wide_env))) no_failures no_pools).2 !! p =
      Some (mkPoolConfig "postgres://localhost/dhara" 1 5 None).
Proof. split; [reflexivity|]. exists (mkApplication (Some 0%nat) 0), 0%nat. vm_compute. done. Qed.
