(* ===== verification/PlayBoot.v ===== *)
(** PlayBoot: the playground process and the connection pools it holds: the
    set-up half of [NewCrashManager] and [NewApp], both [Close] methods, the
    child process, and [run] of [cmd/playground] over the pools of [Startup].
    What the three channels of [Run] deliver is an argument, as in [PlayApp]. *)

From S2P Require Import Prelude Dharatype GoTime Float64 GoStrconv GoJson Metrics Pg PgLogic TaskStore.
From S2P Require Import Lifecycle StoreRefine StoreTheorems StoreSpec StoreContracts Client Worker.
From S2P Require Import WorkerRefine WorkerTheorems Config PlaySession PlayConfig PlayStore PlayService PlayReads.
From S2P Require Import PlayCapacity PlayIsolation PlayHttp PlayCrash Handlers PlayApp PlayChild Startup.
Open Scope dhara_scope.

(** The manager's fields that hold resources: its pool and the executable. *)
Record CrashBoot := mkCrashBoot { cb_pool : option nat; cb_exe : string }.

(** The application's: its pool, the crash manager (nil when it could not be set
    up) and the [shutdown] flag. *)
Record AppBoot := mkAppBoot { ab_pool : nat; ab_crash : option CrashBoot; ab_shutdown : bool }.

Section Boot.
Context {pgx : Pgx}.

(** [executable] is what [os.Executable()] answers. *)
Definition boot_CrashManager (c : PlayConfig.Config) (executable : res string) : B (res CrashBoot) :=
  if negb (pc_EnableCrashDemo c) then bret (Ok (mkCrashBoot None EmptyString))
  else
    on_ok (PrepareSchema c (pc_CrashSchema c)) (fun pool =>
    match executable with
    | Err e => bbind (pool_Close pool) (fun _ => bret (Err (Wrapped "resolve executable" e)))
    | Ok exe => bret (Ok (mkCrashBoot (Some pool) exe))
    end).

Definition boot_App (c : PlayConfig.Config) (executable : res string) : B (res AppBoot) :=
  on_ok (PrepareSchema c (pc_Schema c)) (fun pool =>
  bbind (boot_CrashManager c executable) (fun crash =>
  bret (Ok (mkAppBoot pool (match crash with Ok m => Some m | Err _ => None end) false)))).

Definition boot_Close_crash (m : CrashBoot) : B unit :=
  match cb_pool m with Some p => pool_Close p | None => bret tt end.

Definition boot_Close (a : AppBoot) : B AppBoot :=
  if ab_shutdown a then bret a
  else
    bbind (match ab_crash a with Some m => boot_Close_crash m | None => bret tt end) (fun _ =>
    bbind (pool_Close (ab_pool a)) (fun _ =>
    bret (mkAppBoot (ab_pool a) (ab_crash a) true))).

(** The child: one schema, a worker that runs until it is told to stop; [ended]
    is what its [Start] returns. *)
Definition boot_child (started : bool) (env : Env) (ended : option error) : B (option error) :=
  if started then bret (Some (NewError "crash worker already started"))
  else
    let cfg := loadConfigRaw env in
    if bool_decide (pc_DatabaseURL cfg = EmptyString) then bret (Some (NewError "DHARA_DATABASE_URL must be set"))
    else
      match validateSchema (pc_Schema cfg) with
      | Err e => bret (Some (Wrapped "crash worker schema" e))
      | Ok _ =>
          bbind (PrepareSchema cfg (pc_Schema cfg)) (fun r =>
          match r with
          | Ok pool => defer_close pool (bret ended)
          | Err e => bret (Some e)
          end)
      end.

(** [run] of [cmd/playground]; [runErr] is what [Run] makes of the channels. *)
Definition playground_run (args : list string) (env : Env) (executable : res string) (ended runErr : option error) : B Z :=
  match args with
  | _ :: "-crash-worker" :: _ =>
      bbind (boot_child false env ended) (fun e => bret match e with Some _ => 1 | None => 0 end)
  | _ =>
      match LoadConfig env with
      | Err _ => bret 1
      | Ok c =>
          bbind (boot_App c executable) (fun r =>
          match r with
          | Err _ => bret 1
          | Ok a => bbind (boot_Close a) (fun _ => bret match runErr with Some _ => 1 | None => 0 end)
          end)
      end
  end.

(** ** Pools *)

(** The pools of a crash manager, on top of those that were open before. *)
Definition crash_pools (c : PlayConfig.Config) (m : CrashBoot) (before after : gmap nat PoolConfig) : Prop :=
  match cb_pool m with
  | None => pc_EnableCrashDemo c = false /\ after = before
  | Some p => pc_EnableCrashDemo c = true /\ before !! p = None /\
      exists cfg, after = <[p := cfg]> before /\ in_schema (pc_CrashSchema c) cfg /\ some_conns cfg
  end.

Lemma fresh_delete p b : fresh b -> fresh (mkBoot (bt_next b) (delete p (bt_open b)) (bt_log b)).
Proof. intros Hb k Hk. cbn in *. rewrite lookup_delete_None. right. by apply Hb. Qed.

Lemma boot_CrashManager_spec c executable an b : fresh b ->
  let b' := (boot_CrashManager c executable an b).2 in
  fresh b' /\
  match (boot_CrashManager c executable an b).1 with
  | Ok m => crash_pools c m (bt_open b) (bt_open b')
  | Err _ => bt_open b' = bt_open b
  end.
Proof.
  intros Hb. unfold boot_CrashManager. destruct (pc_EnableCrashDemo c) eqn:He; cbn [negb]; [|by split].
  unfold on_ok. rewrite bbind_run. destruct (PrepareSchema_spec c (pc_CrashSchema c) an b Hb) as (Hb' & Hr & _).
  destruct (PrepareSchema c (pc_CrashSchema c) an b) as [[p|e] b1]; cbn [fst snd] in *; [|by split].
  destruct Hr as (Hp & cfg & Ho & Hs & Hc). destruct executable as [exe|e]; cbn.
  - split; [done|]. split; [done|]. split; [done|]. by exists cfg.
  - split; [by apply fresh_delete|]. rewrite Ho. by apply delete_insert_id.
Qed.

(** The pools of an application. *)
Definition app_pools (c : PlayConfig.Config) (a : AppBoot) (before after : gmap nat PoolConfig) : Prop :=
  before !! ab_pool a = None /\ exists cfg, in_schema (pc_Schema c) cfg /\ some_conns cfg /\
  match ab_crash a with
  | Some m => crash_pools c m (<[ab_pool a := cfg]> before) after
  | None => after = <[ab_pool a := cfg]> before
  end.

Lemma boot_App_spec c executable an b : fresh b ->
  let b' := (boot_App c executable an b).2 in
  fresh b' /\
  match (boot_App c executable an b).1 with
  | Ok a => ab_shutdown a = false /\ app_pools c a (bt_open b) (bt_open b')
  | Err _ => bt_open b' = bt_open b
  end.
Proof.
  intros Hb. unfold boot_App, on_ok. rewrite bbind_run.
  destruct (PrepareSchema_spec c (pc_Schema c) an b Hb) as (Hb' & Hr & _).
  destruct (PrepareSchema c (pc_Schema c) an b) as [[p|e] b1]; cbn [fst snd] in *; [|by split].
  destruct Hr as (Hp & cfg & Ho & Hs & Hc). rewrite bbind_run.
  destruct (boot_CrashManager_spec c executable an b1 Hb') as (Hb2 & Hm).
  destruct (boot_CrashManager c executable an b1) as [[m|e] b2]; cbn [fst snd bret] in *; (split; [done|]);
    (split; [done|]); (split; [done|]); exists cfg; (split; [done|]); (split; [done|]); cbn; by rewrite <- Ho.
Qed.

(** Closing an application closes its pools and no other. *)
Lemma boot_Close_spec c a before an b :
  ab_shutdown a = false -> app_pools c a before (bt_open b) ->
  bt_open (boot_Close a an b).2 = before /\ ab_shutdown (boot_Close a an b).1 = true.
Proof.
  intros Hs (Hp & cfg & _ & _ & Hm). unfold boot_Close. rewrite Hs, bbind_run.
  destruct (ab_crash a) as [m|]; cbn.
  - unfold boot_Close_crash. unfold crash_pools in Hm. destruct (cb_pool m) as [p|]; cbn.
    + destruct Hm as (_ & Hq & cfg' & -> & _). rewrite delete_insert_id by done. by rewrite delete_insert_id.
    + destruct Hm as [_ ->]. by rewrite delete_insert_id.
  - rewrite Hm. by rewrite delete_insert_id.
Qed.

Lemma boot_child_keeps started env ended an b : fresh b -> bt_open (boot_child started env ended an b).2 = bt_open b.
Proof.
  intros Hb. unfold boot_child. destruct started; [done|]. cbv zeta. case_bool_decide; [done|].
  destruct (validateSchema _); [|done]. rewrite bbind_run.
  destruct (PrepareSchema_spec (loadConfigRaw env) (pc_Schema (loadConfigRaw env)) an b Hb) as (_ & Hr & _).
  destruct (PrepareSchema _ _ an b) as [[p|e] b1]; cbn [fst snd] in *; [|done].
  destruct Hr as (Hp & cfg & Ho & _). cbn. rewrite Ho. by apply delete_insert_id.
Qed.

Lemma playground_run_keeps args env executable ended runErr an b : fresh b ->
  bt_open (playground_run args env executable ended runErr an b).2 = bt_open b.
Proof.
  intros Hb. unfold playground_run.
  assert (bt_open (match LoadConfig env with
      | Err _ => bret 1
      | Ok c => bbind (boot_App c executable) (fun r =>
          match r with
          | Err _ => bret 1
          | Ok a => bbind (boot_Close a) (fun _ => bret match runErr with Some _ => 1 | None => 0 end)
          end)
      end an b).2 = bt_open b) as Hmain.
  { destruct (LoadConfig env) as [c|]; [|done]. rewrite bbind_run. destruct (boot_App_spec c executable an b Hb) as [_ Ha].
    destruct (boot_App c executable an b) as [[a|e] b1]; cbn [fst snd] in *; [|done]. destruct Ha as [Hs Ha].
    rewrite bbind_run. by apply (boot_Close_spec c a). }
  destruct args as [|x [|y args]]; [exact Hmain..|].
  destruct (decide (y = "-crash-worker")) as [->|Hne].
  - rewrite bbind_run. by apply boot_child_keeps.
  - repeat (destruct y as [|[[] [] [] [] [] [] [] []] y]; try exact Hmain). done.
Qed.
End Boot.

(** ** Theorems *)

(** C38: The playground's processes and their pools. A start-up that fails leaves
    no pool open; one that succeeds holds one pool whose names resolve in the
    main schema and, exactly when the crash demo is enabled and could be set up,
    a second one for the crash schema. Closing the application closes both and
    nothing else, and closing it again does nothing. Whatever it is called with
    and however it ends, parent or child, the process leaves no pool open. *)
Theorem playground_releases_pools {pgx : Pgx} c executable an b :
  fresh b ->
  let b' := (boot_App c executable an b).2 in
  match (boot_App c executable an b).1 with
  | Err _ => bt_open b' = bt_open b
  | Ok a =>
      app_pools c a (bt_open b) (bt_open b') /\
      let r := boot_Close a an b' in bt_open r.2 = bt_open b /\ boot_Close r.1 an r.2 = r
  end /\
  forall args env ended runErr, bt_open (playground_run args env executable ended runErr an b).2 = bt_open b.
Proof.
  intros Hb b'. split; [|intros; by apply playground_run_keeps].
  destruct (boot_App_spec c executable an b Hb) as [_ Ha]. fold b' in Ha.
  destruct (boot_App c executable an b).1 as [a|e]; [|done]. destruct Ha as [Hs Ha]. split; [done|].
  destruct (boot_Close_spec c a (bt_open b) an b' Hs Ha) as [H1 H2]. split; [done|].
  destruct (boot_Close a an b') as [a' b2]. cbn [fst snd] in *. unfold boot_Close. by rewrite H2.
Qed.

Definition crash_env : Env := fun key =>
  if bool_decide (key = "DHARA_DATABASE_URL") then "postgres://localhost/dhara" else bare_env key.

(** The crash demo's schema cannot be migrated: one pool is left. *)
Definition crash_migration_fails : Answers :=
  mkAnswers (an_New no_failures) (an_Exec no_failures) (an_Migrator no_failures)
    (fun p => if Nat.eqb p 3 then Err (NewError "migration 1 failed") else Ok (mkMigrationResult [] 0)) (an_Down no_failures).

Lemma playground_releases_pools_witness :
  let c := loadConfigRaw crash_env in
  pc_EnableCrashDemo c = true /\
  (exists a, (@boot_App plain_pgx c (Ok "playground") no_failures no_pools).1 = Ok a /\
     bt_open (@boot_Close a no_failures (@boot_App plain_pgx c (Ok "playground") no_failures no_pools).2).2 = ∅) /\
  (exists a, (@boot_App plain_pgx c (Ok "playground") crash_migration_fails no_pools).1 = Ok a /\ ab_crash a = None).
Proof.
  intros c. split; [vm_compute; reflexivity|].
  split; [|eexists; split; vm_compute; reflexivity].
  pose proof (@playground_releases_pools plain_pgx c (Ok "playground") no_failures no_pools fresh_no_pools) as H.
  assert ((@boot_App plain_pgx c (Ok "playground") no_failures no_pools).1 =
    Ok (mkAppBoot 1 (Some (mkCrashBoot (Some 3%nat) "playground")) false)) as Hr by (vm_compute; reflexivity).
  cbv zeta in H. rewrite Hr in H. eexists. split; [exact Hr|]. exact (proj1 (proj2 (proj1 H))).
Defined.
