(* ===== verification/MetricsText.v ===== *)
(** MetricsText: the Prometheus pages of [metrics_handler.go] and the histogram
    of [internal/metrics/metrics.go] as text.

    Every call of [fmt.Fprintf] in this code writes whole lines: comments and
    samples. A page is their text; [scrape] is the reader. *)

From Stdlib Require Import Ascii.
From S2P Require Import Prelude Dharatype GoTime Float64 GoStrconv GoJson Metrics Pg PgLogic TaskStore.
From S2P Require Import Lifecycle StoreRefine StoreTheorems StoreSpec StoreContracts Client PlaySession GoText GoDecimal GoFloat.
From S2P Require Import PlayStore PlayConfig PlayService PlayReads.
Open Scope dhara_scope.

(** ** Lines *)

Inductive Line : Type :=
  | Comment (text : string)
  | Sample (series value : string).

Definition print (l : Line) : string :=
  match l with
  | Comment text => "# " +:+ text
  | Sample series value => series +:+ " " +:+ value
  end.

Definition nl : ascii := ascii_of_nat 10.

(** The page: every line ends with a newline. *)
Fixpoint page (ls : list Line) : string :=
  match ls with
  | [] => EmptyString
  | l :: rest => print l +:+ String nl (page rest)
  end.

(** ** Numbers *)

(** [strconv.FormatFloat(f, 'g', -1, 64)] of a non-negative number: the shortest
    digits, with an exponent below 1e-4 and from 1e6 on (the exponent has at
    least two digits). *)
Definition layout_g (ds : string) (point : Z) : string :=
  let x := point - 1 in
  if (x <? -4) || (6 <=? x) then
    take_chars 1 ds +:+ (if 1 <? len ds then "." +:+ drop_chars 1 ds else EmptyString) +:+
    "e" +:+ (if x <? 0 then "-" else "+") +:+ (if Z.abs x <? 10 then "0" else EmptyString) +:+ itoa (Z.abs x)
  else layout_f ds point.

Definition formatFloat (f : float64) : string :=
  match round_ratio (f_man f * under (f_exp f)) (over (f_exp f)) with
  | Some (m, e) =>
      if m =? 0 then "0"
      else let '(D, k) := shortest m e in layout_g (itoa D) (len (itoa D) + k)
  | None => "+Inf"
  end.

Example formatFloat_ex :
  map formatFloat execution_bounds =
    ["0.005"; "0.01"; "0.025"; "0.05"; "0.1"; "0.25"; "0.5"; "1"; "2.5"; "5"; "10"; "30"; "60"; "300"] /\
  map formatFloat [of_int 0; of_int 100000; of_int 1000000; of_int 1234567; ratio 1 10000; ratio 1 100000] =
    ["0"; "100000"; "1e+06"; "1.234567e+06"; "0.0001"; "1e-05"].
Proof. vm_compute. split; reflexivity. Qed.

(** ** Writers *)

Definition writeCounter (name help : string) (v : Z) : list Line :=
  [Comment ("HELP " +:+ name +:+ " " +:+ help); Comment ("TYPE " +:+ name +:+ " counter"); Sample name (itoa v)].

Definition writeGauge (name help : string) (v : Z) : list Line :=
  [Comment ("HELP " +:+ name +:+ " " +:+ help); Comment ("TYPE " +:+ name +:+ " gauge"); Sample name (itoa v)].

(** A series with one label. *)
Definition series (name label value : string) : string := name +:+ "{" +:+ label +:+ "=" +:+ Quote value +:+ "}".

Definition status_series (st : TaskStatus) : string := series "tasks_by_status" "status" (status_text st).

Definition writeQueueMetrics (qm : QueueDBMetrics) : list Line :=
  [Comment "HELP tasks_by_status Current number of tasks per status."; Comment "TYPE tasks_by_status gauge";
   Sample (status_series PENDING) (itoa (q_TasksPending qm));
   Sample (status_series RUNNING) (itoa (q_TasksRunning qm));
   Sample (status_series COMPLETED) (itoa (q_TasksCompleted qm));
   Sample (status_series CANCELED) (itoa (q_TasksCanceled qm));
   Sample (status_series DEAD) (itoa (q_TasksDead qm));
   Comment "HELP tasks_pending_breakdown Pending tasks split by readiness."; Comment "TYPE tasks_pending_breakdown gauge";
   Sample (series "tasks_pending_breakdown" "status" "ready") (itoa (q_TasksPendingReady qm));
   Sample (series "tasks_pending_breakdown" "status" "delayed") (itoa (q_TasksPendingDelayed qm))].

Definition writeServerMetrics (m : Metrics) : list Line :=
  writeCounter "tasks_enqueued_total" "Tasks enqueued through this process." (TasksEnqueuedTotal m) ++
  writeCounter "tasks_canceled_total" "Tasks canceled through this process." (TasksCanceledTotal m).

(** [Histogram.Write]. *)
Definition Histogram_Write (h : Histogram) (name help : string) : list Line :=
  match h_counts h with
  | [] => []
  | _ =>
      let cumulative := rendered_counts h in
      let total := default 0 (cumulative !! length (h_bounds h)) in
      [Comment ("HELP " +:+ name +:+ " " +:+ help); Comment ("TYPE " +:+ name +:+ " histogram")] ++
      zip_with (fun bound c => Sample (series (name +:+ "_bucket") "le" (formatFloat bound)) (itoa c)) (h_bounds h) cumulative ++
      [Sample (series (name +:+ "_bucket") "le" "+Inf") (itoa total);
       Sample (name +:+ "_sum") (formatFloat (fdiv (of_int (h_sum h)) (of_int 1000000000)));
       Sample (name +:+ "_count") (itoa total)]
  end.

Definition writeWorkerMetrics (m : Metrics) : list Line :=
  writeCounter "tasks_completed_total" "Tasks completed by this process." (TasksCompletedTotal m) ++
  writeCounter "tasks_attempt_failures_total" "Handler attempts that returned an error." (TaskAttemptFailuresTotal m) ++
  writeCounter "tasks_retried_total" "Failed attempts scheduled for retry." (TasksRetriedTotal m) ++
  writeCounter "tasks_dead_total" "Tasks dead-lettered by this process." (TasksDeadTotal m) ++
  writeCounter "tasks_reaped_total" "Stale tasks requeued or dead-lettered by the reaper." (TasksReapedTotal m) ++
  writeCounter "reaper_failures_total" "Reaper runs that failed to complete." (ReaperFailuresTotal m) ++
  writeCounter "worker_claim_errors_total" "Claim calls that failed for reasons other than an empty queue." (ClaimErrorsTotal m) ++
  writeGauge "workers_active" "Worker goroutines currently polling." (WorkersActive m) ++
  writeGauge "workers_inflight" "Handlers currently executing." (WorkersInflight m) ++
  Histogram_Write (TaskExecutionDuration m) "task_execution_duration_seconds"
    "Handler execution time in seconds, excluding persistence.".

(** ** Handlers *)

Definition prometheusContentType : string := "text/plain; version=0.0.4; charset=utf-8".

Record Page := mkPage { pg_headers : list (string * string); pg_body : string }.

Definition metrics_headers : list (string * string) :=
  [("Content-Type", prometheusContentType); ("Cache-Control", "no-store")].

(** [Client.MetricsHandler]; the status is always 200. *)
Definition client_lines (qm : res QueueDBMetrics) (m : Metrics) : list Line :=
  let up := writeGauge "queue_metrics_up" "Whether the Postgres-derived queue gauges were readable at scrape time." in
  match qm with Err _ => up 0 | Ok q => up 1 ++ writeQueueMetrics q end ++ writeServerMetrics m.

Definition client_MetricsHandler : M Page :=
  qm <- QueueMetrics;
  m <- (fun _ w => (w_metrics w, w));
  ret (mkPage metrics_headers (page (client_lines qm m))).

(** [Worker.MetricsHandler]: no database. *)
Definition worker_MetricsHandler (m : Metrics) : Page := mkPage metrics_headers (page (writeWorkerMetrics m)).

(** ** Reading a page *)

Fixpoint lines_of (s : string) : list string :=
  match s with
  | EmptyString => []
  | String c r =>
      if bool_decide (c = nl) then EmptyString :: lines_of r
      else match lines_of r with [] => [String c EmptyString] | l :: ls => String c l :: ls end
  end.

(** The text after the first occurrence of a series at the start of a line. *)
Definition scrape (name : string) (body : string) : option string :=
  head (omap (strip_prefix (name +:+ " ")) (lines_of body)).

(** The same as an integer. *)
Definition scrape_int (name : string) (body : string) : option Z := scrape name body ≫= Atoi.

Definition samples (ls : list Line) : list (string * string) :=
  omap (fun l => match l with Sample s v => Some (s, v) | Comment _ => None end) ls.

(** A series is one word that does not begin like a comment. *)
Definition plain_series (s : string) : bool :=
  negb (contains " " s || contains nl s) && match s with String c _ => negb (bool_decide (c = "#"%char)) | EmptyString => false end.

Definition plain_line (l : Line) : bool :=
  match l with
  | Comment text => negb (contains nl text)
  | Sample s v => plain_series s && negb (contains nl v)
  end.

Lemma lines_of_line l r : contains nl l = false -> lines_of (l +:+ String nl r) = l :: lines_of r.
Proof.
  induction l as [|c l IH]; [done|]. change (String c l +:+ String nl r) with (String c (l +:+ String nl r)).
  cbn [contains lines_of]. intros [Hc Hl]%orb_false_iff. rewrite IH by done.
  rewrite bool_decide_false; [done|]. intros ->. by rewrite bool_decide_true in Hc.
Qed.

Lemma plain_series_word s : plain_series s = true -> contains " " s = false /\ contains nl s = false.
Proof. unfold plain_series. intros [H _]%andb_true_iff. by apply negb_true_iff, orb_false_iff in H. Qed.

Lemma print_one_line l : plain_line l = true -> contains nl (print l) = false.
Proof.
  destruct l as [t|s v]; cbn [plain_line print]; rewrite !contains_app.
  - intros H%negb_true_iff. by rewrite H.
  - intros [[_ Hs]%plain_series_word Hv%negb_true_iff]%andb_true_iff. by rewrite Hs, Hv.
Qed.

Lemma lines_of_page ls : forallb plain_line ls = true -> lines_of (page ls) = map print ls.
Proof.
  induction ls as [|l ls IH]; [done|]. cbn. intros [Hl Hls]%andb_true_iff. rewrite lines_of_line by (by apply print_one_line).
  by rewrite IH.
Qed.

Lemma strip_prefix_sample s s' v : contains " " s = false -> contains " " s' = false ->
  strip_prefix (s +:+ " ") (s' +:+ " " +:+ v) = if bool_decide (s = s') then Some v else None.
Proof.
  revert s'. induction s as [|c s IH]; intros [|c' s'] Hs Hs'; cbn [contains] in *.
  - done.
  - apply orb_false_iff in Hs' as [Hc _]. change (String c' s' +:+ " " +:+ v) with (String c' (s' +:+ " " +:+ v)).
    change (EmptyString +:+ " ") with (String " " EmptyString). cbn [strip_prefix].
    rewrite bool_decide_false; [done|]. intros <-. by rewrite bool_decide_true in Hc.
  - apply orb_false_iff in Hs as [Hc _]. change (String c s +:+ " ") with (String c (s +:+ " ")).
    change (EmptyString +:+ " " +:+ v) with (String " " v). cbn [strip_prefix].
    rewrite bool_decide_false; [done|]. intros ->. by rewrite bool_decide_true in Hc.
  - apply orb_false_iff in Hs as [_ Hs]. apply orb_false_iff in Hs' as [_ Hs'].
    change (String c s +:+ " ") with (String c (s +:+ " ")). change (String c' s' +:+ " " +:+ v) with (String c' (s' +:+ " " +:+ v)).
    cbn [strip_prefix]. rewrite IH by done. repeat case_bool_decide; by simplify_eq.
Qed.

(** A page gives for a series the first sample of it. *)
Lemma scrape_page s ls : plain_series s = true -> forallb plain_line ls = true ->
  scrape s (page ls) = head (omap (fun p => if bool_decide (s = p.1) then Some p.2 else None) (samples ls)).
Proof.
  intros Hs Hls. unfold scrape. rewrite lines_of_page by done. f_equal.
  destruct (plain_series_word s Hs) as [Hsp _].
  induction ls as [|[t|s' v] ls IH]; [done| |]; cbn [forallb] in Hls; apply andb_true_iff in Hls as [Hl Hls]; cbn [map print samples omap list_omap].
  - assert (strip_prefix (s +:+ " ") ("# " +:+ t) = None) as ->; [|by apply IH].
    destruct s as [|c s]; [done|]. change (String c s +:+ " ") with (String c (s +:+ " ")). change ("# " +:+ t) with (String "#" (String " " t)).
    cbn [strip_prefix]. unfold plain_series in Hs. apply andb_true_iff in Hs as [_ Hc]. apply negb_true_iff in Hc. by rewrite Hc.
  - rewrite strip_prefix_sample; [|done|by apply andb_true_iff in Hl as [[? _]%plain_series_word _]]. cbn [fst snd].
    case_bool_decide; [f_equal|]; by apply IH.
Qed.

Lemma head_find s v (l : list (string * string)) : NoDup (map fst l) -> (s, v) ∈ l ->
  head (omap (fun p => if bool_decide (s = p.1) then Some p.2 else None) l) = Some v.
Proof.
  induction l as [|[s' v'] l IH]; intros Hnd Hin; [by apply elem_of_nil in Hin|]. cbn [map fst] in Hnd. apply NoDup_cons in Hnd as [Hs Hnd].
  cbn [omap list_omap fst snd]. apply elem_of_cons in Hin as [[= <- <-]|Hin]; [by rewrite bool_decide_true|].
  rewrite bool_decide_false; [by apply IH|]. intros ->. apply Hs, list_elem_of_fmap. by exists (s', v).
Qed.

Lemma scrape_member s v ls : forallb plain_line ls = true -> NoDup (map fst (samples ls)) -> (s, v) ∈ samples ls ->
  scrape s (page ls) = Some v.
Proof.
  intros Hls Hnd Hin. rewrite scrape_page; [by apply head_find| |done]. apply list_elem_of_omap in Hin as (l & Hl & He).
  rewrite forallb_forall in Hls. specialize (Hls l (proj1 (list_elem_of_In _ _) Hl)). destruct l as [|s' v']; [done|].
  injection He as -> ->. by apply andb_true_iff in Hls as [? _].
Qed.

Lemma scrape_absent s ls : plain_series s = true -> forallb plain_line ls = true -> s ∉ map fst (samples ls) ->
  scrape s (page ls) = None.
Proof.
  intros Hs Hls Hn. rewrite scrape_page by done. destruct (head _) as [v|] eqn:Hh; [|done].
  apply head_omap_Some in Hh as ([s' v'] & Hin & He). case_bool_decide as Heq; [|done]. cbn in Heq. subst s'.
  destruct Hn. apply list_elem_of_fmap. by exists (s, v').
Qed.

(** ** Numbers fill no line *)

Lemma all_chars_contains p c s : all_chars p s = true -> p c = false -> contains c s = false.
Proof.
  intros Hs Hc. induction s as [|a s IH]; [done|]. cbn in Hs. apply andb_true_iff in Hs as [Ha Hs]. cbn [contains].
  rewrite IH by done. rewrite bool_decide_false; [done|]. intros ->. congruence.
Qed.

Lemma itoa_one_line v : contains nl (itoa v) = false.
Proof.
  assert (forall n, 0 <= n -> contains nl (itoa n) = false) as Hn.
  { intros n Hn. apply (all_chars_contains is_digit); [by apply all_digits_itoa|done]. }
  destruct (Z.le_gt_cases 0 v) as [H|H]; [by apply Hn|]. rewrite <- (Z.opp_involutive v), itoa_neg by lia.
  cbn [contains]. rewrite Hn by lia. done.
Qed.

Lemma contains_take_drop c n s : contains c s = false -> contains c (take_chars n s) = false /\ contains c (drop_chars n s) = false.
Proof. rewrite <- (take_drop_chars n s) at 1. rewrite contains_app. apply orb_false_iff. Qed.

Lemma layout_g_one_line D point : contains nl (layout_g (itoa D) point) = false.
Proof.
  pose proof (itoa_one_line D) as HD.
  assert (forall n, contains nl (zeros n) = false) as Hz.
  { intros n. apply (all_chars_contains is_digit); [apply all_digits_zeros|done]. }
  unfold layout_g. cbv zeta. case_match.
  - destruct (contains_take_drop nl 1 _ HD) as [H1 H2]. rewrite !contains_app, H1, itoa_one_line. cbn [orb].
    assert (contains nl (if 1 <? len (itoa D) then "." +:+ drop_chars 1 (itoa D) else EmptyString) = false) as ->
      by (case_match; [by rewrite contains_app, H2|done]).
    repeat case_match; done.
  - unfold layout_f. destruct (contains_take_drop nl (Z.to_nat point) _ HD) as [H1 H2].
    repeat case_match; rewrite ?contains_app, ?HD, ?Hz, ?H1, ?H2; done.
Qed.

Lemma formatFloat_one_line f : contains nl (formatFloat f) = false.
Proof.
  unfold formatFloat. destruct (round_ratio _ _) as [[m e]|]; [|done]. case_match; [done|].
  destruct (shortest m e) as [D k]. apply layout_g_one_line.
Qed.

(** ** The worker's page *)

Definition duration_name : string := "task_execution_duration_seconds".
Definition bucket_series (bound : float64) : string := series (duration_name +:+ "_bucket") "le" (formatFloat bound).
Definition inf_series : string := series (duration_name +:+ "_bucket") "le" "+Inf".

(** The series of the page and the counters they stand for. *)
Definition worker_table (m : Metrics) : list (string * Z) :=
  [("tasks_completed_total", TasksCompletedTotal m); ("tasks_attempt_failures_total", TaskAttemptFailuresTotal m);
   ("tasks_retried_total", TasksRetriedTotal m); ("tasks_dead_total", TasksDeadTotal m);
   ("tasks_reaped_total", TasksReapedTotal m); ("reaper_failures_total", ReaperFailuresTotal m);
   ("worker_claim_errors_total", ClaimErrorsTotal m); ("workers_active", WorkersActive m); ("workers_inflight", WorkersInflight m)].

Definition number (p : string * Z) : string * string := (p.1, itoa p.2).

Lemma samples_app l l' : samples (l ++ l') = samples l ++ samples l'.
Proof. apply omap_app. Qed.

(** The shape [NewHistogram] gives and [Observe] keeps. *)
Definition execution_histogram (h : Histogram) : Prop :=
  h_bounds h = execution_bounds /\ length (h_counts h) = S (length execution_bounds).

Lemma length_accumulate total cs : length (accumulate total cs) = length cs.
Proof. revert total. induction cs as [|c cs IH]; intros total; [done|]. cbn. by rewrite IH. Qed.

Lemma samples_buckets bs cs :
  samples (zip_with (fun b c => Sample (bucket_series b) (itoa c)) bs cs) = zip_with (fun b c => number (bucket_series b, c)) bs cs.
Proof. revert cs. induction bs as [|b bs IH]; intros [|c cs]; [done..|]. cbn [zip_with samples omap list_omap]. f_equal. apply IH. Qed.

Lemma fst_buckets bs cs : (length bs <= length cs)%nat ->
  map fst (zip_with (fun b c => number (bucket_series b, c)) bs cs) = map bucket_series bs.
Proof.
  revert cs. induction bs as [|b bs IH]; intros [|c cs] Hl; cbn in *; [done..|lia|]. f_equal. apply IH. lia.
Qed.

Lemma plain_buckets bs cs : forallb (fun b => plain_series (bucket_series b)) bs = true ->
  forallb plain_line (zip_with (fun b c => Sample (bucket_series b) (itoa c)) bs cs) = true.
Proof.
  revert cs. induction bs as [|b bs IH]; intros [|c cs] H; [done..|]. cbn [forallb zip_with plain_line] in *.
  apply andb_true_iff in H as [Hb H]. by rewrite Hb, itoa_one_line, IH.
Qed.

Definition total (counts : list Z) : Z := foldr Z.add 0 counts.

Lemma accumulate_lookup t cs i : accumulate t cs !! i = if (i <? length cs)%nat then Some (t + total (take (S i) cs)) else None.
Proof.
  revert t i. induction cs as [|c cs IH]; intros t [|i]; [done..| |]; cbn [accumulate length].
  - change ((t + c :: accumulate (t + c) cs) !! 0%nat) with (Some (t + c)). cbn [Nat.ltb Nat.leb]. f_equal.
    change (take 1 (c :: cs)) with [c]. cbn. lia.
  - change ((t + c :: accumulate (t + c) cs) !! S i) with (accumulate (t + c) cs !! i). rewrite IH.
    change (S i <? S (length cs))%nat with (i <? length cs)%nat. case_match; [|done]. f_equal.
    change (take (S (S i)) (c :: cs)) with (c :: take (S i) cs). change (total (c :: take (S i) cs)) with (c + total (take (S i) cs)). lia.
Qed.

(** What the histogram writes. *)
Definition duration_samples (h : Histogram) : list (string * string) :=
  zip_with (fun b c => number (bucket_series b, c)) execution_bounds (rendered_counts h) ++
  [number (inf_series, total (h_counts h));
   (duration_name +:+ "_sum", formatFloat (fdiv (of_int (h_sum h)) (of_int 1000000000)));
   number (duration_name +:+ "_count", total (h_counts h))].

Lemma Histogram_Write_lines h help : execution_histogram h -> contains nl help = false ->
  samples (Histogram_Write h duration_name help) = duration_samples h /\
  forallb plain_line (Histogram_Write h duration_name help) = true.
Proof.
  intros [Hb Hc] Hh. unfold Histogram_Write. destruct (h_counts h) as [|c0 cs] eqn:Hcs; [done|].
  assert (default 0 (rendered_counts h !! length (h_bounds h)) = total (h_counts h)) as Ht.
  { unfold rendered_counts. rewrite Hb, Hcs, accumulate_lookup, Hc. cbn [Nat.ltb]. rewrite (proj2 (Nat.ltb_lt _ _)) by lia.
    cbn [default]. unfold id. rewrite take_ge by (rewrite Hc; lia). lia. }
  cbv zeta. rewrite Ht, Hb. split.
  - rewrite !samples_app. unfold duration_samples. rewrite <- samples_buckets. done.
  - rewrite !forallb_app. rewrite plain_buckets by (vm_compute; reflexivity).
    cbn [forallb plain_line]. rewrite !contains_app, Hh, !itoa_one_line, formatFloat_one_line. reflexivity.
Qed.

Lemma writeWorkerMetrics_lines m : execution_histogram (TaskExecutionDuration m) ->
  samples (writeWorkerMetrics m) = map number (worker_table m) ++ duration_samples (TaskExecutionDuration m) /\
  forallb plain_line (writeWorkerMetrics m) = true.
Proof.
  intros Hh. destruct (Histogram_Write_lines _ "Handler execution time in seconds, excluding persistence." Hh eq_refl) as [H1 H2].
  unfold writeWorkerMetrics. rewrite !samples_app, !forallb_app. fold duration_name. rewrite H1, H2. split; [reflexivity|].
  cbn [writeCounter writeGauge forallb plain_line]. by rewrite !itoa_one_line.
Qed.

Definition worker_series : list string :=
  map fst (worker_table zero_metrics) ++ map bucket_series execution_bounds ++ [inf_series; duration_name +:+ "_sum"; duration_name +:+ "_count"].

Lemma worker_series_names m : execution_histogram (TaskExecutionDuration m) ->
  map fst (map number (worker_table m) ++ duration_samples (TaskExecutionDuration m)) = worker_series.
Proof.
  intros [Hb Hc]. unfold duration_samples. rewrite !map_app, fst_buckets; [reflexivity|].
  unfold rendered_counts. rewrite length_accumulate, Hc. lia.
Qed.

Lemma worker_series_distinct : NoDup worker_series.
Proof. apply (bool_decide_unpack _). vm_compute. exact I. Qed.

Lemma worker_scrape m s v : execution_histogram (TaskExecutionDuration m) ->
  (s, v) ∈ map number (worker_table m) ++ duration_samples (TaskExecutionDuration m) ->
  scrape s (pg_body (worker_MetricsHandler m)) = Some v.
Proof.
  intros Hh Hin. destruct (writeWorkerMetrics_lines m Hh) as [H1 H2]. apply scrape_member; [done| |by rewrite H1].
  rewrite H1, worker_series_names by done. apply worker_series_distinct.
Qed.

Lemma scrape_number s v body : in_int64 v = true -> scrape s body = Some (itoa v) -> scrape_int s body = Some v.
Proof. intros Hv Hs. unfold scrape_int. rewrite Hs. cbn. by apply Atoi_itoa. Qed.

(** C39: Scraping a worker's page gives exactly its counters and gauges; the bucket of
    a bound counts every observation up to that bound, and the last bucket and the
    count are all observations. *)
Theorem worker_page_scraped m :
  execution_histogram (TaskExecutionDuration m) ->
  let counts := h_counts (TaskExecutionDuration m) in
  let body := pg_body (worker_MetricsHandler m) in
  (forall name v, (name, v) ∈ worker_table m -> in_int64 v = true -> scrape_int name body = Some v) /\
  (forall i bound, execution_bounds !! i = Some bound -> in_int64 (total (take (S i) counts)) = true ->
    scrape_int (bucket_series bound) body = Some (total (take (S i) counts))) /\
  (in_int64 (total counts) = true ->
    scrape_int inf_series body = Some (total counts) /\ scrape_int (duration_name +:+ "_count") body = Some (total counts)).
Proof.
  intros Hex counts body. pose proof Hex as [Hb Hc]. split; [|split].
  - intros name v Hin Hv. apply scrape_number, (worker_scrape m); [done..|]. apply elem_of_app. left.
    apply list_elem_of_fmap. by exists (name, v).
  - intros i bound Hi Hv. apply scrape_number, (worker_scrape m); [done..|]. apply elem_of_app. right. apply elem_of_app. left.
    apply list_elem_of_lookup. exists i. rewrite lookup_zip_with, Hi. unfold rendered_counts. rewrite accumulate_lookup.
    rewrite (proj2 (Nat.ltb_lt _ _)); [done|]. apply lookup_lt_Some in Hi. rewrite Hc. lia.
  - intros Hv. split; (apply scrape_number, (worker_scrape m); [done..|]); apply elem_of_app; right; apply elem_of_app; right;
      rewrite !elem_of_cons; [by left|by right; right; left].
Qed.

Lemma zero_histogram : execution_histogram (TaskExecutionDuration zero_metrics).
Proof. by split. Qed.

Lemma Observe_histogram v h : execution_histogram h -> execution_histogram (Observe v h).
Proof.
  intros [Hb Hc]. unfold Observe. destruct (h_counts h) as [|c cs] eqn:Hcs; [by split; rewrite ?Hcs|].
  split; [done|]. cbn [h_counts]. unfold count_one. by rewrite length_alter.
Qed.

(** Two observations, one of 20 ms and one of 7 minutes. *)
Definition sample_metrics : Metrics :=
  observe_execution (Seconds (420 * Second)) (observe_execution (Seconds (20 * Millisecond)) (add_completed 2 zero_metrics)).

Lemma worker_page_scraped_witness :
  execution_histogram (TaskExecutionDuration sample_metrics) /\
  scrape_int "tasks_completed_total" (pg_body (worker_MetricsHandler sample_metrics)) = Some 2 /\
  scrape_int (bucket_series (ratio 25 1000)) (pg_body (worker_MetricsHandler sample_metrics)) = Some 1 /\
  scrape_int inf_series (pg_body (worker_MetricsHandler sample_metrics)) = Some 2.
Proof.
  assert (execution_histogram (TaskExecutionDuration sample_metrics)) as Hh by (apply Observe_histogram, Observe_histogram, zero_histogram).
  split; [exact Hh|]. destruct (worker_page_scraped sample_metrics Hh) as (H1 & H2 & H3). split; [|split].
  - apply (H1 "tasks_completed_total" 2); [left|reflexivity].
  - exact (H2 2%nat (ratio 25 1000) eq_refl eq_refl).
  - exact (proj1 (H3 eq_refl)).
Defined.

(** ** The client's page *)

(** The gauges read from PostgreSQL. *)
Definition queue_table (qm : QueueDBMetrics) : list (string * Z) :=
  [(status_series PENDING, q_TasksPending qm); (status_series RUNNING, q_TasksRunning qm);
   (status_series COMPLETED, q_TasksCompleted qm); (status_series CANCELED, q_TasksCanceled qm);
   (status_series DEAD, q_TasksDead qm);
   (series "tasks_pending_breakdown" "status" "ready", q_TasksPendingReady qm);
   (series "tasks_pending_breakdown" "status" "delayed", q_TasksPendingDelayed qm)].

Definition client_table (m : Metrics) : list (string * Z) :=
  [("tasks_enqueued_total", TasksEnqueuedTotal m); ("tasks_canceled_total", TasksCanceledTotal m)].

(** What a scrape of the client's page finds. *)
Definition client_samples (qm : res QueueDBMetrics) (m : Metrics) : list (string * Z) :=
  match qm with
  | Ok q => ("queue_metrics_up", 1) :: queue_table q
  | Err _ => [("queue_metrics_up", 0)]
  end ++ client_table m.

Definition no_queue : QueueDBMetrics := mkQueueDBMetrics 0 0 0 0 0 0 0.

Lemma client_series_distinct qm m : NoDup (map fst (client_samples qm m)).
Proof.
  destruct qm as [q|e].
  - change (map fst (client_samples (Ok q) m)) with (map fst (client_samples (Ok no_queue) zero_metrics)).
    apply (bool_decide_unpack _). vm_compute. exact I.
  - change (map fst (client_samples (Err e) m)) with (map fst (client_samples (Err ErrTaskNotFound) zero_metrics)).
    apply (bool_decide_unpack _). vm_compute. exact I.
Qed.

Lemma client_lines_samples qm m :
  samples (client_lines qm m) = map number (client_samples qm m) /\ forallb plain_line (client_lines qm m) = true.
Proof.
  unfold client_lines. destruct qm as [q|e]; (split; [reflexivity|]); rewrite !forallb_app;
    cbn [writeGauge writeCounter writeQueueMetrics writeServerMetrics forallb app plain_line]; by rewrite !itoa_one_line.
Qed.

(** Scraping a client's page gives exactly its counters, and the queue gauges
    when they could be read; when they could not, the page says so and leaves
    every gauge out instead of showing a stale or zero value. *)
Theorem client_page_scraped o w :
  let qm := (QueueMetrics o w).1 in
  let m := w_metrics (QueueMetrics o w).2 in
  let body := pg_body (client_MetricsHandler o w).1 in
  (forall name v, (name, v) ∈ client_samples qm m -> in_int64 v = true -> scrape_int name body = Some v) /\
  (forall e, qm = Err e -> forall name v, (name, v) ∈ queue_table no_queue -> scrape name body = None).
Proof.
  intros qm m body. assert (body = page (client_lines qm m)) as ->.
  { subst body qm m. unfold client_MetricsHandler, bind, ret. by destruct (QueueMetrics o w). }
  destruct (client_lines_samples qm m) as [H1 H2]. split.
  - intros name v Hin Hv. apply scrape_number; [done|]. apply scrape_member; [done| |].
    + rewrite H1, map_map. exact (client_series_distinct qm m).
    + rewrite H1. apply list_elem_of_fmap. by exists (name, v).
  - intros e -> name v Hin. apply scrape_absent; [|done|].
    + assert (forallb (fun p => plain_series p.1) (queue_table no_queue) = true) as Hp by (vm_compute; reflexivity).
      rewrite forallb_forall in Hp. exact (Hp (name, v) (proj1 (list_elem_of_In _ _) Hin)).
    + rewrite H1, map_map.
      assert (Forall (fun p => p.1 ∉ map fst (client_samples (Err e) m)) (queue_table no_queue)) as Hf.
      { change (map fst (client_samples (Err e) m)) with (map fst (client_samples (Err e) zero_metrics)).
        apply (bool_decide_unpack _). vm_compute. exact I. }
      rewrite Forall_forall in Hf. exact (Hf (name, v) Hin).
Qed.
