(* ===== verification/Mux.v ===== *)
(** Mux: the request multiplexer of [net/http], shared by the two servers.

    A path is its list of segments; the path of [/] is one empty segment. A
    pattern names a method and matches segment by segment: a wildcard any
    segment that is not empty, [Rest] (a pattern that ends in a slash) whatever
    is left. GET also serves HEAD. Of the patterns that match, the most specific
    one serves the request; when only other methods know the path, the answer is
    405. Paths are clean: the redirects of the mux for others are not modelled. *)

From S2P Require Import Prelude.

Inductive Segment : Type :=
  | Lit (s : string)
  | Wild
  | Rest.

#[export] Instance Segment_eq_dec : EqDecision Segment.
Proof. solve_decision. Defined.

Record Pattern (T : Type) := mkPattern { pt_method : string; pt_path : list Segment; pt_target : T }.
Arguments mkPattern {T}.
Arguments pt_method {T}.
Arguments pt_path {T}.
Arguments pt_target {T}.

(** The value of the wildcard, if the path matches. *)
Fixpoint match_path (p : list Segment) (path : list string) : option (option string) :=
  match p, path with
  | [], [] => Some None
  | [Rest], _ :: _ => Some None
  | Lit s :: p', seg :: path' => if bool_decide (s = seg) then match_path p' path' else None
  | Wild :: p', seg :: path' =>
      if bool_decide (seg = EmptyString) then None
      else match match_path p' path' with Some _ => Some (Some seg) | None => None end
  | _, _ => None
  end.

Definition match_method (pattern method : string) : bool :=
  bool_decide (pattern = method) || (bool_decide (pattern = "GET") && bool_decide (method = "HEAD")).

Definition matches_request {T} (method : string) (path : list string) (p : Pattern T) : bool :=
  match_method (pt_method p) method && bool_decide (is_Some (match_path (pt_path p) path)).

(** Every path the first matches, the second matches. *)
Fixpoint covered (p q : list Segment) : bool :=
  match p, q with
  | [], [] => true
  | _ :: _, [Rest] => true
  | Lit s :: p', Lit t :: q' => bool_decide (s = t) && covered p' q'
  | Lit s :: p', Wild :: q' => negb (bool_decide (s = EmptyString)) && covered p' q'
  | Wild :: p', Wild :: q' => covered p' q'
  | _, _ => false
  end.

(** No path matches both. *)
Fixpoint paths_apart (p q : list Segment) : bool :=
  match p, q with
  | [], [] => false
  | Rest :: _, _ :: _ | _ :: _, Rest :: _ => false
  | Lit s :: p', Lit t :: q' => negb (bool_decide (s = t)) || paths_apart p' q'
  | _ :: p', _ :: q' => paths_apart p' q'
  | _, _ => true
  end.

Inductive Dispatch (T : Type) : Type :=
  | Found (t : T) (id : option string)
  | MethodNotAllowed
  | NotFound.
Arguments Found {T}.
Arguments MethodNotAllowed {T}.
Arguments NotFound {T}.

(** The most specific of the patterns that match. *)
Definition most_specific {T} (ps : list (Pattern T)) : option (Pattern T) :=
  List.find (fun p => forallb (fun q => covered (pt_path p) (pt_path q)) ps) ps.

Definition dispatch {T} (table : list (Pattern T)) (method : string) (path : list string) : Dispatch T :=
  match most_specific (List.filter (matches_request method path) table) with
  | Some p => Found (pt_target p) (default None (match_path (pt_path p) path))
  | None =>
      if existsb (fun p => bool_decide (is_Some (match_path (pt_path p) path))) table then MethodNotAllowed else NotFound
  end.

(** ** Properties *)

Lemma match_path_cons x p path id : match_path (x :: p) path = Some id ->
  exists seg path', path = seg :: path' /\
    ((x = Rest /\ p = []) \/ (x <> Rest /\ (exists id', match_path p path' = Some id') /\ (forall s, x = Lit s -> s = seg) /\
      (x = Wild -> seg <> EmptyString))).
Proof.
  destruct path as [|seg path]; [by destruct x, p|]. intros H. exists seg, path. split; [done|]. destruct x as [s| |].
  - right. cbn [match_path] in H. case_bool_decide; [|done]. split_and!; [done|eauto|by intros ? [= <-]|done].
  - right. cbn [match_path] in H. case_bool_decide; [done|]. destruct (match_path p path); [|done].
    split_and!; [done|eauto|done..].
  - left. by destruct p.
Qed.

Lemma paths_meet p q path i j : match_path p path = Some i -> match_path q path = Some j -> paths_apart p q = false.
Proof.
  revert q path i j. induction p as [|x p IH]; intros [|y q] path i j Hp Hq; [done| | |].
  - by apply match_path_cons in Hq as (? & ? & -> & _).
  - by apply match_path_cons in Hp as (? & ? & -> & _).
  - apply match_path_cons in Hp as (seg & path' & -> & Hx). apply match_path_cons in Hq as (? & ? & [= <- <-] & Hy).
    destruct Hx as [[-> _]|(Hx & [i' Hp] & Hsx & _)]; [done|].
    destruct Hy as [[-> _]|(Hy & [j' Hq] & Hsy & _)]; [by destruct x|].
    pose proof (IH _ _ _ _ Hp Hq) as Ha. destruct x as [s| |], y as [t| |]; cbn [paths_apart]; try done.
    rewrite (Hsx s eq_refl), (Hsy t eq_refl), bool_decide_true by done. done.
Qed.

Lemma covered_matches p q path : covered p q = true -> is_Some (match_path p path) -> is_Some (match_path q path).
Proof.
  revert q path. induction p as [|x p IH]; intros [|y q] path Hc [i Hp]; [by eexists|done|by destruct x|].
  apply match_path_cons in Hp as (seg & path' & -> & Hx).
  destruct (decide (y = Rest)) as [->|Hy]; [destruct q; [by eexists|by destruct x]|].
  destruct Hx as [[-> ->]|(Hx & [i' Hp] & Hsx & Hwx)]; [by destruct y|].
  destruct x as [s| |], y as [t| |]; cbn [covered] in Hc; try done; cbn [match_path].
  - apply andb_true_iff in Hc as [->%bool_decide_eq_true Hc]. rewrite (Hsx t eq_refl), bool_decide_true by done.
    apply (IH q path' Hc). eauto.
  - apply andb_true_iff in Hc as [Hne Hc]. rewrite (Hsx s eq_refl) in Hne. apply negb_true_iff in Hne. rewrite Hne.
    destruct (IH q path' Hc) as [j ->]; eauto.
  - rewrite bool_decide_false by (by apply Hwx). destruct (IH q path' Hc) as [j ->]; eauto.
Qed.

Lemma match_method_eq p method :
  p <> "HEAD" -> match_method p method = true -> p = if bool_decide (method = "HEAD") then "GET" else method.
Proof.
  unfold match_method.
  intros Hp [->%bool_decide_eq_true|[->%bool_decide_eq_true ->%bool_decide_eq_true]%andb_true_iff]%orb_true_iff;
    [by rewrite bool_decide_false|done].
Qed.

Definition no_head {T} (p : Pattern T) : bool := negb (bool_decide (pt_method p = "HEAD")).

(** The patterns of [table], without conflicts and in an order in which a more
    specific one comes first. *)
Fixpoint sorted_table {T} (table : list (Pattern T)) : bool :=
  match table with
  | [] => true
  | p :: rest =>
      no_head p &&
      forallb (fun q => negb (bool_decide (pt_method p = pt_method q)) || paths_apart (pt_path p) (pt_path q) ||
        covered (pt_path p) (pt_path q)) rest && sorted_table rest
  end.

Lemma covered_refl p path i : match_path p path = Some i -> covered p p = true.
Proof.
  revert path i. induction p as [|x p IH]; intros path i Hp; [done|].
  apply match_path_cons in Hp as (seg & path' & -> & [[-> ->]|(Hx & [i' Hp] & _ & _)]); [done|].
  pose proof (IH _ _ Hp) as Hc. destruct x as [s| |]; cbn [covered]; [by rewrite bool_decide_true, Hc|done|done].
Qed.

Section Dispatch.
Context {T : Type} (method : string) (path : list string).

Lemma sorted_first (table : list (Pattern T)) p rest :
  sorted_table table = true -> List.filter (matches_request method path) table = p :: rest ->
  forallb (fun q => covered (pt_path p) (pt_path q)) (p :: rest) = true.
Proof.
  induction table as [|p0 table IH]; [done|]. cbn [sorted_table List.filter].
  intros [[Hh Hp]%andb_true_iff Ht]%andb_true_iff Hf. destruct (matches_request method path p0) eqn:Hm; [|by apply IH].
  injection Hf as <- <-. apply andb_true_iff in Hm as [Hm [i Hi]%bool_decide_eq_true]. cbn [forallb].
  rewrite (covered_refl _ _ _ Hi). apply forallb_forall. intros q [Hq Hmq]%filter_In.
  rewrite forallb_forall in Hp. specialize (Hp q Hq). apply andb_true_iff in Hmq as [Hmq [j Hj]%bool_decide_eq_true].
  assert (no_head q = true) as Hhq.
  { clear -Ht Hq. induction table as [|x table IH]; [done|]. cbn [sorted_table] in Ht.
    apply andb_true_iff in Ht as [[H1 _]%andb_true_iff H2]. destruct Hq as [-> |Hq]; [done|by apply IH]. }
  unfold no_head in *. apply negb_true_iff, bool_decide_eq_false in Hh, Hhq.
  rewrite bool_decide_true in Hp by (by rewrite (match_method_eq _ _ Hh Hm), (match_method_eq _ _ Hhq Hmq)).
  by rewrite (paths_meet _ _ _ _ _ Hi Hj) in Hp.
Qed.

(** What a sorted table dispatches to: its first pattern that matches, which is
    the most specific one. *)
Lemma dispatch_sorted (table : list (Pattern T)) :
  sorted_table table = true ->
  match dispatch table method path with
  | Found t id => exists p, In p table /\ matches_request method path p = true /\ pt_target p = t /\
      match_path (pt_path p) path = Some id /\
      forall q, In q table -> matches_request method path q = true -> covered (pt_path p) (pt_path q) = true
  | MethodNotAllowed =>
      (forall q, In q table -> matches_request method path q = false) /\
      exists q, In q table /\ is_Some (match_path (pt_path q) path)
  | NotFound => forall q, In q table -> match_path (pt_path q) path = None
  end.
Proof.
  intros Hs. unfold dispatch. destruct (List.filter (matches_request method path) table) as [|p rest] eqn:Hf.
  - cbn [most_specific List.find].
    assert (forall q, In q table -> matches_request method path q = false) as Hno.
    { intros q Hq. destruct (matches_request method path q) eqn:Hm; [|done].
      assert (In q []) as [] by (rewrite <- Hf; by apply filter_In). }
    destruct (existsb _ table) eqn:He.
    + apply existsb_exists in He as (q & Hq & Hm%bool_decide_eq_true). split; [done|]. by exists q.
    + intros q Hq. destruct (match_path (pt_path q) path) eqn:Hm; [|done].
      assert (existsb (fun p => bool_decide (is_Some (match_path (pt_path p) path))) table = true); [|congruence].
      apply existsb_exists. exists q. by rewrite Hm, bool_decide_true.
  - assert (In p (List.filter (matches_request method path) table)) as Hin by (rewrite Hf; by left).
    apply filter_In in Hin as [Hin Hm]. pose proof (sorted_first _ _ _ Hs Hf) as Hc.
    unfold most_specific. cbn [List.find]. rewrite Hc.
    pose proof Hm as [_ [i Hi]%bool_decide_eq_true]%andb_true_iff. rewrite Hi. cbn [default].
    exists p. split_and!; [done..|]. intros q Hq Hmq. rewrite forallb_forall in Hc. apply Hc.
    rewrite <- Hf. by apply filter_In.
Qed.

Lemma find_filter {A} (f : A -> bool) l : List.find f l = head (List.filter f l).
Proof. induction l as [|x l IH]; [done|]. cbn. by destruct (f x). Qed.

(** The same as a computation. *)
Lemma dispatch_find (table : list (Pattern T)) :
  sorted_table table = true ->
  dispatch table method path =
    match List.find (matches_request method path) table with
    | Some p => Found (pt_target p) (default None (match_path (pt_path p) path))
    | None => if existsb (fun p => bool_decide (is_Some (match_path (pt_path p) path))) table
              then MethodNotAllowed else NotFound
    end.
Proof.
  intros Hs. rewrite find_filter. unfold dispatch.
  destruct (List.filter (matches_request method path) table) as [|p rest] eqn:Hf; [done|].
  unfold most_specific. cbn [List.find head]. by rewrite (sorted_first _ _ _ Hs Hf).
Qed.
End Dispatch.
