(* ===== verification/PlayMux.v ===== *)
(** PlayMux: the playground's server from a request to its reply, the rest of
    [internal/playground/http.go]: the table of [Routes] over [Mux], the metrics
    pages behind the read limiter, the security headers and the recovery of
    panics around all of it.

    Outside the repository's code are the file server of [net/http] over the
    embedded web files, which is an argument and may panic, and the two metrics
    the pages show. A panic happens before the handler has written anything. *)

From S2P Require Import Prelude Dharatype GoTime Float64 GoStrconv GoJson Metrics Pg PgLogic TaskStore.
From S2P Require Import Lifecycle StoreRefine StoreTheorems StoreSpec StoreContracts Client Worker.
From S2P Require Import WorkerRefine WorkerTheorems Server Config PlaySession PlayUuid RateLimiter PlayStore.
From S2P Require Import PlayConfig PlayService PlayReads PlayCapacity PlayIsolation PlayHttp GoText GoDecimal GoFloat.
From S2P Require Import MetricsText Mux.
Open Scope dhara_scope.

(** ** The table *)

(** What a pattern is registered for. *)
Inductive PlayTarget : Type :=
  | TLive | TReady | TListTasks | TCreateTask | TGetTask | TDeleteTask | TRetryTask
  | TSnapshot | TDetail | TBurst | TFlaky | TSlow | TCrash
  | TClientMetrics | TWorkerMetrics | TFiles.

Definition api_path (p : list Segment) : list Segment := Lit "api" :: Lit "v1" :: p.
Definition play_path (p : list Segment) : list Segment := api_path (Lit "playground" :: p).

Definition play_routes : list (Pattern PlayTarget) :=
  [mkPattern "GET" (api_path [Lit "livez"]) TLive;
   mkPattern "GET" (api_path [Lit "readyz"]) TReady;
   mkPattern "GET" (api_path [Lit "health"]) TReady;
   mkPattern "GET" (api_path [Lit "tasks"]) TListTasks;
   mkPattern "POST" (api_path [Lit "tasks"]) TCreateTask;
   mkPattern "GET" (api_path [Lit "tasks"; Wild]) TGetTask;
   mkPattern "DELETE" (api_path [Lit "tasks"; Wild]) TDeleteTask;
   mkPattern "POST" (api_path [Lit "tasks"; Wild; Lit "retry"]) TRetryTask;
   mkPattern "GET" (play_path [Lit "snapshot"]) TSnapshot;
   mkPattern "GET" (play_path [Lit "tasks"; Wild]) TDetail;
   mkPattern "POST" (play_path [Lit "scenarios"; Lit "burst"]) TBurst;
   mkPattern "POST" (play_path [Lit "scenarios"; Lit "flaky"]) TFlaky;
   mkPattern "POST" (play_path [Lit "scenarios"; Lit "slow"]) TSlow;
   mkPattern "POST" (play_path [Lit "scenarios"; Lit "crash"]) TCrash;
   mkPattern "GET" [Lit "metrics"] TClientMetrics;
   mkPattern "GET" (api_path [Lit "metrics"]) TClientMetrics;
   mkPattern "GET" [Lit "worker"; Lit "metrics"] TWorkerMetrics;
   mkPattern "GET" [Rest] TFiles].

(** A request: what the mux looks at, the headers and address the handlers look
    at, and what decoding its body as each of the inputs gives. *)
Record PlayRequest := mkPlayRequest {
  q_method : string;
  q_path : list string;
  q_query : string -> string;
  q_conn : Request;
  q_create : Decoding CreateTaskInput;
  q_burst : Decoding Z;
  q_flaky : Decoding FlakyRequest;
  q_slow : Decoding Z;
  q_drained : Drained
}.

(** The handler of an entry, if it is one of the JSON handlers. *)
Definition route_of (t : PlayTarget) (id : string) (q : PlayRequest) : option Route :=
  match t with
  | TLive => Some GetLivez
  | TReady => Some GetReadyz
  | TListTasks => Some (GetTasks (q_query q))
  | TCreateTask => Some (PostTasks (q_create q))
  | TGetTask => Some (GetTaskPath id)
  | TDeleteTask => Some (DeleteTaskPath id)
  | TRetryTask => Some (PostRetry id)
  | TSnapshot => Some (GetSnapshot (q_query q))
  | TDetail => Some (GetDetail id)
  | TBurst => Some (PostBurst (q_burst q))
  | TFlaky => Some (PostFlaky (q_flaky q))
  | TSlow => Some (PostSlow (q_slow q))
  | TCrash => Some (PostCrash (q_drained q))
  | TClientMetrics | TWorkerMetrics | TFiles => None
  end.

(** ** Replies *)

Definition Headers : Type := list (string * string).

(** [Header().Set] and [Header().Get]. *)
Definition set_header (h : Headers) (kv : string * string) : Headers :=
  kv :: List.filter (fun x => negb (bool_decide (x.1 = kv.1))) h.
Definition get_header (k : string) (h : Headers) : option string :=
  snd <$> List.find (fun x => bool_decide (x.1 = k)) h.

(** What the file server writes. *)
Record FileReply := mkFileReply { fr_code : Z; fr_headers : Headers; fr_body : string }.

Inductive PlayAnswer : Type :=
  | JsonAnswer (r : PlayResponse)
  | PageAnswer (p : Page)
  | FileAnswer (f : FileReply)
  | MuxError (code : Z).

Definition answer_code (a : PlayAnswer) : Z :=
  match a with
  | JsonAnswer r => p_code r
  | PageAnswer _ => 200
  | FileAnswer f => fr_code f
  | MuxError code => code
  end.

(** The headers a handler sets, in order: [writeJSON]'s, [writeRetryAfter]'s,
    the metrics handlers', and those of [http.Error] for the mux's own errors. *)
Definition answer_headers (a : PlayAnswer) : Headers :=
  match a with
  | JsonAnswer r =>
      match p_retry_after r with Some secs => [("Retry-After", itoa secs)] | None => [] end ++
      [("Content-Type", "application/json"); ("Cache-Control", "no-store")]
  | PageAnswer p => pg_headers p
  | FileAnswer f => fr_headers f
  | MuxError _ => [("Content-Type", "text/plain; charset=utf-8"); ("X-Content-Type-Options", "nosniff")]
  end.

(** What a handler does: it answers, or it panics. *)
Inductive Served : Type :=
  | Responded (a : PlayAnswer)
  | HandlerPanic (value : string).

Record Reply := mkReply { rp_headers : Headers; rp_answer : PlayAnswer }.

Definition csp : string :=
  "default-src 'self'; img-src 'self' data:; style-src 'self'; script-src 'self'; connect-src 'self'; base-uri 'none'; frame-ancestors 'none'".

Definition security_headers : Headers :=
  [("X-Content-Type-Options", "nosniff"); ("Referrer-Policy", "no-referrer"); ("X-Frame-Options", "DENY");
   ("Content-Security-Policy", csp)].

(** ** The server *)

Section Server.
Context {hasher : PayloadHasher} {uuid_text : UUIDText} (s : HTTPServer).
Context (files : PlayRequest -> FileReply + string) (workerMetrics : Event -> Metrics).

Definition MuxHandler : Type := Limiters -> M (Served * Limiters).

Definition limitedRead (r : Request) (next : M Page) : MuxHandler := fun l =>
  now <- time_Now;
  let '((ok, wait), rl) := Allow now ("ip:" +:+ requestIP r (pc_TrustProxy (h_cfg s))) (readLimiter l) in
  let l := mkLimiters rl (mutationLimiter l) (sessionLimiter l) in
  if ok then p <- next; ret (Responded (PageAnswer p), l)
  else ret (Responded (JsonAnswer (writeRetryAfter wait)), l).

Definition worker_page : M Page :=
  fun o w => (worker_MetricsHandler (workerMetrics (o (w_next w))), tick o w).

Definition serve_target (t : PlayTarget) (id : string) (q : PlayRequest) : MuxHandler :=
  match route_of t id q with
  | Some route => fun l => a <- Routes s route (q_conn q) l; ret (Responded (JsonAnswer a.1), a.2)
  | None =>
      match t with
      | TClientMetrics => limitedRead (q_conn q) client_MetricsHandler
      | TWorkerMetrics => limitedRead (q_conn q) worker_page
      | _ => fun l =>
          ret (match files q with inl f => Responded (FileAnswer f) | inr v => HandlerPanic v end, l)
      end
  end.

Definition play_mux (q : PlayRequest) : MuxHandler :=
  match dispatch play_routes (q_method q) (q_path q) with
  | Found t id => serve_target t (default EmptyString id) q
  | MethodNotAllowed => fun l => ret (Responded (MuxError 405), l)
  | NotFound => fun l => ret (Responded (MuxError 404), l)
  end.

(** [securityHeaders]: set before the request goes on; what the handler sets
    comes after. [recoverPanics] is around it and keeps the headers set so far. *)
Definition securityHeaders (h : Headers) : Headers := fold_left set_header security_headers h.

Definition recoverPanics (h : Headers) (v : Served) : Reply :=
  let a := match v with
           | Responded a => a
           | HandlerPanic _ => JsonAnswer (writeError StatusInternalServerError "internal server error")
           end in
  mkReply (fold_left set_header (answer_headers a) h) a.

Definition ServePlay (q : PlayRequest) (l : Limiters) : M (Reply * Limiters) :=
  a <- play_mux q l;
  ret (recoverPanics (securityHeaders []) a.1, a.2).
End Server.

(** ** Headers *)

Lemma get_set_header k h kv :
  get_header k (set_header h kv) = if bool_decide (kv.1 = k) then Some kv.2 else get_header k h.
Proof.
  unfold get_header, set_header. cbn [List.find]. case_bool_decide as Hk; [done|]. f_equal.
  induction h as [|[k' v'] h IH]; [done|]. cbn [List.filter List.find fst].
  destruct (bool_decide (k' = kv.1)) eqn:Hk'; cbn [negb].
  - apply bool_decide_eq_true in Hk' as ->. rewrite bool_decide_false by done. exact IH.
  - cbn [List.find fst]. destruct (bool_decide (k' = k)); [done|exact IH].
Qed.

(** Headers that leave [k] as it is, or set it to the same value. *)
Definition agrees_on (k v : string) (h : Headers) : Prop := Forall (fun kv => kv.1 = k -> kv.2 = v) h.

Lemma get_header_kept k v sets h :
  agrees_on k v sets -> get_header k h = Some v -> get_header k (fold_left set_header sets h) = Some v.
Proof.
  intros Hs. revert h. induction Hs as [|kv sets Hkv _ IH]; intros h Hh; [done|]. cbn [fold_left]. apply IH.
  rewrite get_set_header. case_bool_decide as Hk; [|done]. by rewrite (Hkv Hk).
Qed.

(** Nothing in [h] contradicts the security headers. *)
Definition keeps_security (h : Headers) : Prop := forall k v, In (k, v) security_headers -> agrees_on k v h.

Lemma security_set k v : In (k, v) security_headers -> get_header k (securityHeaders []) = Some v.
Proof. intros H. cbn in H. destruct_or! H; simplify_eq; reflexivity || done. Qed.

Lemma agrees_other k v h : forallb (fun kv => negb (bool_decide (kv.1 = k)) || bool_decide (kv.2 = v)) h = true -> agrees_on k v h.
Proof.
  intros H. apply Forall_forall. intros kv Hin Hk. rewrite forallb_forall in H.
  specialize (H kv (proj1 (list_elem_of_In _ _) Hin)). rewrite (bool_decide_true _ Hk) in H. by apply bool_decide_eq_true in H.
Qed.

Lemma keeps_security_decide h :
  forallb (fun x => forallb (fun kv => negb (bool_decide (kv.1 = x.1)) || bool_decide (kv.2 = x.2)) h) security_headers = true ->
  keeps_security h.
Proof. rewrite forallb_forall. intros H k v Hin. apply agrees_other. by apply (H (k, v)). Qed.

Lemma keeps_security_json r : keeps_security (answer_headers (JsonAnswer r)).
Proof. apply keeps_security_decide. cbn [answer_headers]. by destruct (p_retry_after r). Qed.

Lemma keeps_security_page : keeps_security metrics_headers.
Proof. by apply keeps_security_decide. Qed.

Lemma keeps_security_mux code : keeps_security (answer_headers (MuxError code)).
Proof. by apply keeps_security_decide. Qed.

Definition secure (v : Served) : Prop :=
  match v with Responded a => keeps_security (answer_headers a) | HandlerPanic _ => True end.

Section Secure.
Context {hasher : PayloadHasher} {uuid_text : UUIDText} (s : HTTPServer).
Context (files : PlayRequest -> FileReply + string) (workerMetrics : Event -> Metrics).

(** [http.FileServer] sets none of the security headers to another value. *)
Hypothesis Hfiles : forall q f, files q = inl f -> keeps_security (fr_headers f).

Lemma limitedRead_secure r next l o w :
  (forall o w, pg_headers (next o w).1 = metrics_headers) -> secure (limitedRead s r next l o w).1.1.
Proof.
  intros Hn. unfold limitedRead, bind. destruct (time_Now o w) as [now w1].
  destruct (Allow _ _ _) as [[ok wait] rl]. destruct ok; [|apply keeps_security_json].
  specialize (Hn o w1). destruct (next o w1) as [p w2]. cbn [fst ret secure answer_headers] in *. rewrite Hn.
  apply keeps_security_page.
Qed.

Lemma client_page_headers o w : pg_headers (client_MetricsHandler o w).1 = metrics_headers.
Proof. unfold client_MetricsHandler, bind. by destruct (QueueMetrics o w). Qed.

Lemma play_mux_secure q l o w : secure (play_mux s files workerMetrics q l o w).1.1.
Proof.
  unfold play_mux. destruct (dispatch _ _ _) as [t id| |]; [|apply (keeps_security_mux 405)|apply (keeps_security_mux 404)].
  unfold serve_target. destruct (route_of t _ q) as [route|].
  - unfold bind. destruct (Routes s route (q_conn q) l o w) as [a w1]. apply keeps_security_json.
  - assert (secure (match files q with inl f => Responded (FileAnswer f) | inr v => HandlerPanic v end)) as Hf.
    { destruct (files q) as [f|v] eqn:Hq; [|done]. by apply (Hfiles q). }
    destruct t; try exact Hf; apply limitedRead_secure; [apply client_page_headers|done].
Qed.

Lemma ServePlay_secure q l o w k v :
  In (k, v) security_headers -> get_header k (rp_headers (ServePlay s files workerMetrics q l o w).1.1) = Some v.
Proof.
  intros Hin. unfold ServePlay, bind. pose proof (play_mux_secure q l o w) as Hs.
  destruct (play_mux s files workerMetrics q l o w) as [[a l'] w']. cbn [fst snd ret recoverPanics rp_headers] in *.
  apply get_header_kept; [|by apply security_set].
  destruct a as [a|p]; [by apply Hs|by apply keeps_security_json].
Qed.
End Secure.

(** ** Safe methods *)

Section Safe.
Context {hasher : PayloadHasher} {uuid_text : UUIDText} (s : HTTPServer).
Context (files : PlayRequest -> FileReply + string) (workerMetrics : Event -> Metrics).

(** Asking the crash demo for its status leaves the playground's tables alone. *)
Hypothesis Hcrash : forall c, crash (h_play s) = Some c -> still (crash_Status c).

Definition read_target (t : PlayTarget) : bool :=
  match t with
  | TCreateTask | TDeleteTask | TRetryTask | TBurst | TFlaky | TSlow | TCrash => false
  | _ => true
  end.

Lemma read_target_route t id q route : read_target t = true -> route_of t id q = Some route -> is_read route = true.
Proof. by destruct t; try done; intros _ [= <-]. Qed.

Lemma limitedRead_still r next l : still next -> still (limitedRead s r next l).
Proof.
  intros Hn. pose proof still_walk as Hw. apply (walk_bind (P := fun A => still (A := A))); [apply (walk_time_Now _)|].
  intros now. destruct (Allow _ _ _) as [[ok wait] rl]. destruct ok; [|apply (walk_ret (fun A => still (A := A)))].
  apply (walk_bind (P := fun A => still (A := A))); [done|]. intros p. apply (walk_ret (fun A => still (A := A))).
Qed.

Lemma QueueMetrics_still : still QueueMetrics.
Proof. apply still_reader. unfold QueueMetrics, GetQueueDBMetrics, one_row. reader_walk. Qed.

Lemma client_page_still : still client_MetricsHandler.
Proof.
  apply (walk_bind (P := fun A => still (A := A))); [apply QueueMetrics_still|]. intros qm.
  apply (walk_bind (P := fun A => still (A := A))); [apply (walk_look (P := fun A => still (A := A)) Metrics (fun _ w => w_metrics w))|].
  intros m. apply (walk_ret (fun A => still (A := A))).
Qed.

Lemma serve_target_still t id q l : read_target t = true -> still (serve_target s files workerMetrics t id q l).
Proof.
  intros Ht. unfold serve_target. destruct (route_of t id q) as [route|] eqn:Hr.
  - apply (walk_bind (P := fun A => still (A := A))); [|intros a; apply (walk_ret (fun A => still (A := A)))].
    apply (walk_read_Routes s (fun A => still (A := A))); [by eapply read_target_route|done].
  - destruct t; try done; try apply limitedRead_still.
    + apply client_page_still.
    + apply (walk_tick (P := fun A => still (A := A)) Page).
    + apply (walk_ret (fun A => still (A := A))).
Qed.

Lemma play_dispatch_read method path t id :
  method = "GET" \/ method = "HEAD" -> dispatch play_routes method path = Found t id -> read_target t = true.
Proof.
  intros Hm Hd. pose proof (dispatch_sorted method path play_routes ltac:(vm_compute; reflexivity)) as H.
  rewrite Hd in H. destruct H as (p & Hp & [Hmm _]%andb_true_iff & <- & _).
  assert (forallb (fun p => no_head p && (negb (bool_decide (pt_method p = "GET")) || read_target (pt_target p))) play_routes = true)
    as Hs by (vm_compute; reflexivity).
  rewrite forallb_forall in Hs. specialize (Hs p Hp). apply andb_true_iff in Hs as [Hh Hs].
  apply negb_true_iff, bool_decide_eq_false in Hh. pose proof (match_method_eq _ _ Hh Hmm) as Hg.
  rewrite bool_decide_true in Hs; [done|]. rewrite Hg. by destruct Hm as [-> | ->].
Qed.

Lemma ServePlay_still q l : q_method q = "GET" \/ q_method q = "HEAD" -> still (ServePlay s files workerMetrics q l).
Proof.
  intros Hm. apply (walk_bind (P := fun A => still (A := A))); [|intros a; apply (walk_ret (fun A => still (A := A)))].
  unfold play_mux. destruct (dispatch _ _ _) as [t id| |] eqn:Hd; [|apply (walk_ret (fun A => still (A := A)))..].
  apply serve_target_still. by eapply play_dispatch_read.
Qed.
End Safe.

(** ** The API, endpoint by endpoint *)

Section Api.
Context {hasher : PayloadHasher} {uuid_text : UUIDText} (s : HTTPServer).
Context (workerMetrics : Event -> Metrics) (q : PlayRequest).

(** A handler of [PlayHttp] behind the mux. *)
Definition json (h : Handler) : MuxHandler := fun l => a <- h l; ret (Responded (JsonAnswer a.1), a.2).

Inductive endpoint : string -> list string -> MuxHandler -> Prop :=
  | api_livez : endpoint "GET" ["api"; "v1"; "livez"] (json (handleLive s))
  | api_readyz : endpoint "GET" ["api"; "v1"; "readyz"] (json (handleReady s))
  | api_health : endpoint "GET" ["api"; "v1"; "health"] (json (handleReady s))
  | api_list : endpoint "GET" ["api"; "v1"; "tasks"] (json (handleListTasks s (q_conn q) (q_query q)))
  | api_create : endpoint "POST" ["api"; "v1"; "tasks"] (json (handleCreateTask s (q_conn q) (q_create q)))
  | api_get id : id <> EmptyString ->
      endpoint "GET" ["api"; "v1"; "tasks"; id] (json (handleGetTask s (q_conn q) id))
  | api_delete id : id <> EmptyString ->
      endpoint "DELETE" ["api"; "v1"; "tasks"; id] (json (handleDeleteTask s (q_conn q) id))
  | api_retry id : id <> EmptyString ->
      endpoint "POST" ["api"; "v1"; "tasks"; id; "retry"] (json (handleRetryTask s (q_conn q) id))
  | api_snapshot :
      endpoint "GET" ["api"; "v1"; "playground"; "snapshot"] (json (handleSnapshot s (q_conn q) (q_query q)))
  | api_detail id : id <> EmptyString ->
      endpoint "GET" ["api"; "v1"; "playground"; "tasks"; id] (json (handleTaskDetail s (q_conn q) id))
  | api_burst :
      endpoint "POST" ["api"; "v1"; "playground"; "scenarios"; "burst"] (json (handleBurst s (q_conn q) (q_burst q)))
  | api_flaky :
      endpoint "POST" ["api"; "v1"; "playground"; "scenarios"; "flaky"] (json (handleFlaky s (q_conn q) (q_flaky q)))
  | api_slow :
      endpoint "POST" ["api"; "v1"; "playground"; "scenarios"; "slow"] (json (handleSlow s (q_conn q) (q_slow q)))
  | api_crash :
      endpoint "POST" ["api"; "v1"; "playground"; "scenarios"; "crash"] (json (handleCrash s (q_conn q) (q_drained q)))
  | api_metrics : endpoint "GET" ["metrics"] (limitedRead s (q_conn q) client_MetricsHandler)
  | api_client_metrics : endpoint "GET" ["api"; "v1"; "metrics"] (limitedRead s (q_conn q) client_MetricsHandler)
  | api_worker_metrics : endpoint "GET" ["worker"; "metrics"] (limitedRead s (q_conn q) (worker_page workerMetrics)).

(** [mh] serves the request; GET also serves HEAD. *)
Definition serves (mh : MuxHandler) : Prop :=
  exists m, endpoint m (q_path q) mh /\ (q_method q = m \/ m = "GET" /\ q_method q = "HEAD").

Lemma play_sorted : sorted_table play_routes = true.
Proof. vm_compute. reflexivity. Qed.

Lemma find_skip {A} (f : A -> bool) x l : f x = false -> List.find f (x :: l) = List.find f l.
Proof. cbn. by intros ->. Qed.
Lemma find_hit {A} (f : A -> bool) x l : f x = true -> List.find f (x :: l) = Some x.
Proof. cbn. by intros ->. Qed.

(** Decides whether a pattern matches a path of literals and a wildcard. *)
Ltac match_eval :=
  unfold matches_request, match_method, play_path, api_path; cbn [pt_method pt_path match_path];
  repeat (match goal with
    | |- context [bool_decide (@eq string ?a ?b)] =>
        first [rewrite (bool_decide_true (a = b)) by reflexivity
              |rewrite (bool_decide_false (a = b)) by (assumption || discriminate)]
    | |- context [bool_decide (is_Some (Some ?x))] => rewrite (bool_decide_true (is_Some (Some x))) by eauto
    end; cbn [andb orb match_path]);
  try (rewrite bool_decide_false by (by intros [? ?])); reflexivity.

Ltac mux_eval :=
  unfold play_routes; repeat (rewrite find_skip by match_eval); rewrite find_hit by match_eval.

Lemma play_mux_endpoint files mh : serves mh -> forall l o w, play_mux s files workerMetrics q l o w = mh l o w.
Proof.
  intros (m & He & Hm) l o w. unfold play_mux. rewrite (dispatch_find _ _ _ play_sorted).
  remember (q_path q) as path eqn:Hp. clear Hp.
  destruct He; destruct Hm as [-> |[Hg ->]]; try discriminate Hg; try reflexivity.
  all: mux_eval; unfold play_path, api_path; cbn [pt_target pt_path match_path].
  all: repeat first [rewrite bool_decide_true by reflexivity|rewrite bool_decide_false by assumption]; reflexivity.
Qed.
Lemma match_lit x p path :
  is_Some (match_path (Lit x :: p) path) -> exists path', path = x :: path' /\ is_Some (match_path p path').
Proof. destruct path as [|seg path]; [by intros []|]. cbn. case_bool_decide as Hx; [subst; eauto|by intros []]. Qed.

Lemma match_wild p path :
  is_Some (match_path (Wild :: p) path) ->
  exists seg path', path = seg :: path' /\ seg <> EmptyString /\ is_Some (match_path p path').
Proof.
  destruct path as [|seg path]; [by intros []|]. cbn. case_bool_decide as Hx; [by intros []|].
  intros [i Hi]. exists seg, path. split_and!; [done..|]. destruct (match_path p path); [eauto|done].
Qed.

Lemma match_end path : is_Some (match_path [] path) -> path = [].
Proof. destruct path; [done|by intros []]. Qed.

(** Any pattern but the last one is an endpoint of the API. *)
Lemma pattern_endpoint p :
  In p play_routes -> is_Some (match_path (pt_path p) (q_path q)) ->
  pt_target p = TFiles /\ pt_method p = "GET" \/ exists mh, endpoint (pt_method p) (q_path q) mh.
Proof.
  intros Hp Hm. unfold play_routes in Hp. cbn [In] in Hp.
  repeat destruct Hp as [Hp|Hp]; try done; subst p; cbn [pt_path pt_method pt_target] in *; try (by left); right;
    unfold play_path, api_path in Hm;
    repeat match goal with
    | H : is_Some (match_path (Lit _ :: _) _) |- _ => apply match_lit in H as (? & -> & H)
    | H : is_Some (match_path (Wild :: _) _) |- _ => apply match_wild in H as (? & ? & -> & ? & H)
    | H : is_Some (match_path [] _) |- _ => apply match_end in H as ->
    end; eexists; constructor; done.
Qed.

Lemma method_serves m :
  match_method m (q_method q) = true <-> q_method q = m \/ m = "GET" /\ q_method q = "HEAD".
Proof.
  unfold match_method. rewrite orb_true_iff, andb_true_iff, !bool_decide_eq_true. naive_solver.
Qed.

Lemma play_mux_other files l o w :
  (forall mh, ~ serves mh) -> q_path q <> [] ->
  play_mux s files workerMetrics q l o w =
    ((if match_method "GET" (q_method q)
      then match files q with inl f => Responded (FileAnswer f) | inr v => HandlerPanic v end
      else Responded (MuxError 405), l), w).
Proof.
  intros Hno Hpath. unfold play_mux. rewrite (dispatch_find _ _ _ play_sorted).
  destruct (List.find _ play_routes) as [p|] eqn:Hf.
  - apply find_some in Hf as [Hp [Hm Hi%bool_decide_eq_true]%andb_true_iff].
    destruct (pattern_endpoint p Hp Hi) as [[Ht Hg]|[mh He]].
    + rewrite Ht. rewrite Hg in Hm. rewrite Hm. reflexivity.
    + exfalso. apply (Hno mh). exists (pt_method p). split; [done|by apply method_serves].
  - assert (In (mkPattern "GET" [Rest] TFiles) play_routes) as Hin by (unfold play_routes; cbn [In]; tauto).
    assert (is_Some (match_path [Rest] (q_path q))) as Hr by (destruct (q_path q); [done|by eexists]).
    pose proof (find_none _ _ Hf _ Hin) as Hm. unfold matches_request in Hm. cbn [pt_method pt_path] in Hm.
    rewrite (bool_decide_true _ Hr), andb_true_r in Hm. rewrite Hm.
    assert (existsb (fun p => bool_decide (is_Some (match_path (pt_path p) (q_path q)))) play_routes = true) as ->; [|done].
    apply existsb_exists. exists (mkPattern "GET" [Rest] TFiles). split; [done|by apply bool_decide_eq_true].
Qed.
End Api.

(** ** Theorems *)

Definition reply_code (r : Reply) : Z := answer_code (rp_answer r).

(** The headers every reply must carry. *)
Definition required_headers : Headers :=
  [("X-Content-Type-Options", "nosniff"); ("Referrer-Policy", "no-referrer"); ("X-Frame-Options", "DENY");
   ("Content-Security-Policy",
    "default-src 'self'; img-src 'self' data:; style-src 'self'; script-src 'self'; connect-src 'self'; base-uri 'none'; frame-ancestors 'none'")].

(** What [http.FileServer] sets does not contradict them. *)
Definition files_secure (files : PlayRequest -> FileReply + string) : Prop :=
  forall q f k v, files q = inl f -> In (k, v) required_headers -> agrees_on k v (fr_headers f).

(** What a visitor gets for what the handler did. *)
Definition shown (v : Served) : PlayAnswer :=
  match v with
  | Responded a => a
  | HandlerPanic _ => JsonAnswer (mkPlayResponse 500 None (PErrorBody "internal server error"))
  end.

(** C27: The playground's server on every request. The reply carries the four
    security headers, also when it is an error of the mux or of a file server that
    panicked. A request for one of the seventeen endpoints of the API gets the
    answer of that endpoint's handler, with its effects; HEAD is served as GET.
    Any other GET or HEAD request goes to the file server, whose panic is answered
    500, and any other request is answered 405; neither has an effect. GET and HEAD
    leave the database as it is. *)
Theorem play_server_contract {hasher : PayloadHasher} {uuid_text : UUIDText} s files wm q l o w :
  files_secure files -> (forall c, crash (h_play s) = Some c -> still (crash_Status c)) ->
  no_interference o -> idle w -> q_path q <> [] ->
  let served := ServePlay s files wm q l o w in
  let reply := served.1.1 in
  (forall k v, In (k, v) required_headers -> get_header k (rp_headers reply) = Some v) /\
  (q_method q = "GET" \/ q_method q = "HEAD" -> w_db served.2 = w_db w) /\
  (forall mh, serves s wm q mh ->
     rp_answer reply = shown (mh l o w).1.1 /\ served.1.2 = (mh l o w).1.2 /\ served.2 = (mh l o w).2) /\
  ((forall mh, ~ serves s wm q mh) ->
     rp_answer reply =
       (if bool_decide (q_method q = "GET" \/ q_method q = "HEAD")
        then shown (match files q with inl f => Responded (FileAnswer f) | inr v => HandlerPanic v end)
        else MuxError 405) /\ served.1.2 = l /\ served.2 = w).
Proof.
  intros Hf Hc Ho Hw Hpath served reply. split_and!.
  - intros k v Hin. apply ServePlay_secure; [|exact Hin]. intros q' f Hq k' v'. by apply (Hf q').
  - intros Hm. by apply (ServePlay_still s files wm Hc q l Hm o w Ho Hw).
  - intros mh Hs. unfold reply, served, ServePlay, bind. rewrite (play_mux_endpoint s wm q files mh Hs).
    destruct (mh l o w) as [[v l'] w']. by destruct v.
  - intros Hno. unfold reply, served, ServePlay, bind. rewrite (play_mux_other s wm q files l o w Hno Hpath).
    replace (match_method "GET" (q_method q)) with (bool_decide (q_method q = "GET" \/ q_method q = "HEAD")).
    + case_bool_decide; [|done]. by destruct (files q).
    + apply eq_true_iff_eq. rewrite bool_decide_eq_true, method_serves. naive_solver.
Qed.

(** A file server that serves one page and panics on another. *)
Definition demo_files (q : PlayRequest) : FileReply + string :=
  if bool_decide (q_path q = [EmptyString]) then inl (mkFileReply 200 [("Content-Type", "text/html; charset=utf-8")] "<html>")
  else inr "broken file".

Lemma demo_files_secure : files_secure demo_files.
Proof.
  intros q f k v. unfold demo_files. case_bool_decide; [|done]. intros [= <-] Hin. apply agrees_other.
  cbn in Hin. destruct_or! Hin; simplify_eq; reflexivity || done.
Qed.

#[local] Existing Instance demo_hasher.
#[local] Existing Instance rfc_uuid.

Definition get_request (path : list string) : PlayRequest :=
  mkPlayRequest "GET" path (fun _ => EmptyString) (request_of bob) (mkDecoding (Err DecodeEOF) (Err DecodeEOF))
    (mkDecoding (Err DecodeEOF) (Err DecodeEOF)) (mkDecoding (Err DecodeEOF) (Err DecodeEOF))
    (mkDecoding (Err DecodeEOF) (Err DecodeEOF)) (Ok tt).

Lemma styles_unserved mh : ~ serves open_server.1 (fun _ => zero_metrics) (get_request ["styles.css"]) mh.
Proof. intros (m & He & _). inversion He. Qed.

(** A file that makes the file server panic, and a liveness check. *)
Lemma play_server_contract_witness :
  let serve path := (ServePlay open_server.1 demo_files (fun _ => zero_metrics) (get_request path) open_server.2
    demo_oracle (world0 empty_db)).1.1 in
  reply_code (serve ["styles.css"]) = 500 /\ get_header "Referrer-Policy" (rp_headers (serve ["styles.css"])) = Some "no-referrer" /\
  reply_code (serve ["api"; "v1"; "livez"]) = 200.
Proof.
  pose proof (fun path => play_server_contract open_server.1 demo_files (fun _ => zero_metrics) (get_request path) open_server.2
    demo_oracle (world0 empty_db) demo_files_secure ltac:(by intros c) (proj2 demo_oracle_calm)
    (conj eq_refl empty_db_Inv)) as H.
  intros serve. destruct (H ["styles.css"] ltac:(discriminate)) as (H1 & _ & _ & H2).
  destruct (H ["api"; "v1"; "livez"] ltac:(discriminate)) as (_ & _ & H3 & _). clear H.
  split; [|split].
  - unfold serve, reply_code. rewrite (proj1 (H2 styles_unserved)). reflexivity.
  - apply H1. vm_compute. tauto.
  - unfold serve, reply_code. rewrite (proj1 (H3 (json (handleLive open_server.1)) (ex_intro _ "GET" (conj (api_livez _ _ _) (or_introl eq_refl))))).
    reflexivity.
Defined.
