(* ===== verification/ServerApp.v ===== *)
(** ServerApp: health checks and the route table of the HTTP server,
    [cmd/server/health_handler.go] and [routes] of [cmd/server/app.go].

    A request is a method, the segments of its path, its query and what the JSON
    decoder makes of its body; the mux is [Mux]'s. *)

From Stdlib Require Import Ascii.
From S2P Require Import Prelude Dharatype GoTime GoStrconv GoJson Float64 Metrics Pg PgLogic TaskStore.
From S2P Require Import Lifecycle StoreRefine StoreTheorems StoreSpec StoreContracts Client Server PlaySession PlayUuid.
From S2P Require Import PlayStore PlayConfig PlayService PlayReads GoText GoDecimal GoFloat MetricsText Mux.
Open Scope dhara_scope.

(** ** Health *)

Record checkResult := mkCheckResult { ck_Status : string; ck_LatencyMS : Z }.

Record healthResponse := mkHealthResponse {
  hr_code : Z;
  hr_Status : string;
  hr_UptimeS : Z;
  hr_Checks : list (string * checkResult)
}.

Definition health_uptime (start now : Z) : Z := to_int (Seconds (now - start)).

Definition checkLiveness (start : Z) : M healthResponse :=
  now <- time_Now;
  ret (mkHealthResponse 200 "ok" (health_uptime start now) []).

(** [h.db.Ping]: an empty statement. *)
Definition db_Ping : M (res unit) := db_exec (fun _ _ _ => Ok (tt, [])).

Definition checkReadiness (start : Z) : M healthResponse :=
  now <- time_Now;
  dbStart <- time_Now;
  dbErr <- db_Ping;
  dbEnd <- time_Now;
  let latency := Milliseconds (dbEnd - dbStart) in
  let uptime := health_uptime start now in
  match dbErr with
  | Err _ => ret (mkHealthResponse 503 "fail" uptime [("db", mkCheckResult "fail" latency)])
  | Ok _ => ret (mkHealthResponse 200 "ok" uptime [("db", mkCheckResult "ok" latency)])
  end.

(** ** Routes *)

(** The handlers of the table; an [option string] is the value of the path's id. *)
Inductive Target : Type :=
  | TLiveness
  | TReadiness
  | TList
  | TCreate
  | TGet
  | TDelete
  | TRetry
  | TMetrics.

Definition api (p : list Segment) : list Segment := Lit "api" :: Lit "v1" :: p.

Definition routes : list (Pattern Target) :=
  [mkPattern "GET" (api [Lit "livez"]) TLiveness;
   mkPattern "GET" (api [Lit "readyz"]) TReadiness;
   mkPattern "GET" (api [Lit "health"]) TReadiness;
   mkPattern "GET" (api [Lit "tasks"]) TList;
   mkPattern "POST" (api [Lit "tasks"]) TCreate;
   mkPattern "GET" (api [Lit "tasks"; Wild]) TGet;
   mkPattern "DELETE" (api [Lit "tasks"; Wild]) TDelete;
   mkPattern "POST" (api [Lit "tasks"; Wild; Lit "retry"]) TRetry;
   mkPattern "GET" (api [Lit "metrics"]) TMetrics;
   mkPattern "GET" [Lit "metrics"] TMetrics].

(** ** The application *)

Record HttpRequest := mkHttpRequest {
  rq_method : string;
  rq_path : list string;
  rq_query : string -> string;
  rq_body : res createTaskRequest
}.

Inductive AppResponse : Type :=
  | HealthAnswer (r : healthResponse)
  | TaskAnswer (r : Response)
  | MetricsAnswer (p : Page)
  | MuxAnswer (code : Z).

Definition answer {A} (f : A -> AppResponse) (m : M A) : M AppResponse := a <- m; ret (f a).

Section App.
Context {hasher : PayloadHasher} {uuid_text : UUIDText} (start : Z).

Definition path_id (id : option string) : option uuid := uuid_Parse (default EmptyString id).

Definition target (t : Target) (id : option string) (r : HttpRequest) : M AppResponse :=
  match t with
  | TLiveness => answer HealthAnswer (checkLiveness start)
  | TReadiness => answer HealthAnswer (checkReadiness start)
  | TList => answer TaskAnswer (handleListTasks (rq_query r))
  | TCreate => answer TaskAnswer (handleCreateTask (rq_body r))
  | TGet => answer TaskAnswer (handleGetTaskById (path_id id))
  | TDelete => answer TaskAnswer (handleDeleteTask (path_id id))
  | TRetry => answer TaskAnswer (handleRetryDeadTask (path_id id))
  | TMetrics => answer MetricsAnswer client_MetricsHandler
  end.

Definition ServeHTTP (r : HttpRequest) : M AppResponse :=
  match dispatch routes (rq_method r) (rq_path r) with
  | Found t id => target t id r
  | MethodNotAllowed => ret (MuxAnswer 405)
  | NotFound => ret (MuxAnswer 404)
  end.
End App.

(** ** The table is unambiguous *)

(** Patterns that may serve the same request. *)
Definition overlap (p q : Pattern Target) : bool :=
  negb (paths_apart (pt_path p) (pt_path q)) && bool_decide (pt_method p = pt_method q).

Fixpoint pairwise {A} (f : A -> A -> bool) (l : list A) : bool :=
  match l with [] => true | a :: l' => forallb (fun b => negb (f a b)) l' && pairwise f l' end.

Lemma matches_meet p q method path :
  matches_request method path p = true -> matches_request method path q = true ->
  no_head p = true -> no_head q = true -> overlap p q = true.
Proof.
  unfold matches_request, no_head, overlap.
  intros [Hp [i Hi]%bool_decide_eq_true]%andb_true_iff [Hq [j Hj]%bool_decide_eq_true]%andb_true_iff
    H1%negb_true_iff%bool_decide_eq_false H2%negb_true_iff%bool_decide_eq_false.
  rewrite (paths_meet _ _ path _ _ Hi Hj). apply bool_decide_eq_true.
  by rewrite (match_method_eq _ _ H1 Hp), (match_method_eq _ _ H2 Hq).
Qed.

Lemma pairwise_single ps method path : forallb no_head ps = true -> pairwise overlap ps = true ->
  (length (List.filter (matches_request method path) ps) <= 1)%nat.
Proof.
  induction ps as [|p ps IH]; cbn [pairwise forallb List.filter]; [cbn; lia|].
  intros [Hm Hh]%andb_true_iff [Hp Hps]%andb_true_iff.
  destruct (matches_request method path p) eqn:Hx; [|by apply IH].
  destruct (List.filter (matches_request method path) ps) as [|q qs] eqn:Hy; [done|]. exfalso.
  assert (In q (List.filter (matches_request method path) ps)) as [Hq Hqy]%filter_In by (rewrite Hy; by left).
  rewrite forallb_forall in Hp, Hh. specialize (Hp q Hq).
  by rewrite (matches_meet p q method path Hx Hqy Hm (Hh q Hq)) in Hp.
Qed.

(** At most one entry of the table serves a request: the order of the table
    does not matter. *)
Theorem routes_unambiguous method path : (length (List.filter (matches_request method path) routes) <= 1)%nat.
Proof. apply pairwise_single; vm_compute; reflexivity. Qed.

(** ** Safe methods *)

Section Safe.
Context {hasher : PayloadHasher} {uuid_text : UUIDText} (start : Z).

Lemma checkReadiness_reader : reader (checkReadiness start).
Proof. unfold checkReadiness, db_Ping. reader_walk. Qed.

Lemma reader_metrics : reader (fun (_ : Oracle) w => (w_metrics w, w)).
Proof. intros P ?. apply (walk_look Metrics (fun _ w => w_metrics w)). Qed.

#[local] Hint Resolve checkReadiness_reader reader_metrics GetTask_reader ListTasks_reader : reader.

Definition safe_target (t : Target) : bool := match t with TCreate | TDelete | TRetry => false | _ => true end.

Lemma safe_target_reader t id r : safe_target t = true -> reader (target start t id r).
Proof.
  destruct t; intros Hs; try done; cbn [target]; unfold answer, checkLiveness, handleListTasks, handleGetTaskById, client_MetricsHandler, writeError, writeJSON; reader_walk.
Qed.

Lemma dispatch_safe method path t id :
  method = "GET" \/ method = "HEAD" -> dispatch routes method path = Found t id -> safe_target t = true.
Proof.
  intros Hm Hd. pose proof (dispatch_sorted method path routes ltac:(vm_compute; reflexivity)) as H.
  rewrite Hd in H. destruct H as (p & Hp & [Hmm _]%andb_true_iff & <- & _).
  assert (forallb (fun p => no_head p && (negb (bool_decide (pt_method p = "GET")) || safe_target (pt_target p))) routes = true)
    as Hs by (vm_compute; reflexivity).
  rewrite forallb_forall in Hs. specialize (Hs p Hp). apply andb_true_iff in Hs as [Hh Hs].
  apply negb_true_iff, bool_decide_eq_false in Hh. pose proof (match_method_eq _ _ Hh Hmm) as Hg.
  rewrite bool_decide_true in Hs; [done|]. rewrite Hg. by destruct Hm as [-> | ->].
Qed.

(** GET and HEAD requests are safe: whatever their path and query, they leave
    the database as it is. *)
Theorem safe_methods r o w : rq_method r = "GET" \/ rq_method r = "HEAD" -> no_interference o -> idle w ->
  w_db (ServeHTTP start r o w).2 = w_db w.
Proof.
  intros Hm Ho Hw. assert (reader (ServeHTTP start r)) as Hr; [|by apply (still_reader _ Hr)].
  unfold ServeHTTP. destruct (dispatch _ _) as [t id| |] eqn:Hd; [|apply reader_ret..].
  apply safe_target_reader. by apply (dispatch_safe _ _ _ _ Hm Hd).
Qed.
End Safe.
